(** * ConfigurableDashboard: the query builder, the configurable list and the
    component group, embedded from their Lightning Web Component sources.

    The development follows the three components whose logic the
    specification singles out:

    - [QueryBuilder]: [HM_DataSourceQueryBuilder] (SOQL generation, escaping,
      AND/OR grouping, configuration (de)serialization, the condition
      editor with the owner quick filter, the validation of the form and
      the tokens of the preview);
    - [ConfigurableList]: [HM_ConfigurableList] (filtering, sorting,
      pagination and the page bar, column headers, row icons, badge and
      currency formatting);
    - [ComponentGroup]: [HM_ConfigurableComponentGroup] (layout class and
      style, the components and the error message).

    JavaScript strings are modelled by [string]: a string is the sequence
    of its code units, each below 256, so that the no-break space is the
    character 160 and the accented letters are those of 192 to 255.
    Integers are modelled by [Z],
    IEEE-754 numbers by the kernel's binary64 [float], [null]/[undefined]
    by explicit constructors, and component state by records that the
    methods read and update through a small state monad. What the engine
    decides (the order in which [Array.prototype.sort] leaves an array,
    the parsing of dates, the collation of the locale) is a field of
    [Host]. The SOQL that the builder writes has its grammar in
    [QueryBuilder.SoqlQuery]. *)

From Stdlib Require Import ZArith List String Ascii Bool Lia DecimalString.
From Stdlib Require Import Floats Permutation Sorted.
From Stdlib Require DecimalPos DecimalZ.
From stdpp Require Import base option list gmap sorting.

Local Open Scope Z_scope.
Local Open Scope list_scope.
Local Open Scope string_scope.

(** String concatenation computes on literals in this file. *)
#[local] Arguments String.append : simpl nomatch.

(* ===================================================================== *)
(** ** JavaScript primitives used by the components *)
(* ===================================================================== *)

Module Js.

(** Characters that the sources spell with escapes. *)
Definition backslash : ascii := ascii_of_nat 92.
Definition quote : ascii := ascii_of_nat 39.
Definition newline : ascii := ascii_of_nat 10.
Definition nl : string := String newline EmptyString.

(** [s.replace(/c/g, r)] for a one-character pattern. *)
Fixpoint replaceAll (c : ascii) (r : string) (s : string) : string :=
  match s with
  | EmptyString => EmptyString
  | String a rest =>
      ((if Ascii.eqb a c then r else String a EmptyString)
         ++ replaceAll c r rest)%string
  end.

(** [\d] of a regular expression. *)
Definition isDigit (a : ascii) : bool :=
  let n := nat_of_ascii a in (48 <=? n)%nat && (n <=? 57)%nat.

(** Case conversion of a character below 256. The capital letters are A to
    Z and, from 192 to 222, the accented capitals (215, the multiplication
    sign, is none); each has its small letter 32 places further. *)
Definition isCapital (n : nat) : bool :=
  ((65 <=? n)%nat && (n <=? 90)%nat)
  || ((192 <=? n)%nat && (n <=? 222)%nat && negb (n =? 215)%nat).

Definition lowerChar (a : ascii) : ascii :=
  let n := nat_of_ascii a in
  if isCapital n then ascii_of_nat (n + 32) else a.

(** The small letters with a capital below 256: a to z and, from 224 to
    254, the accented ones (247, the division sign, is none). The capital
    of the sharp s (223) is written SS, see [toUpperCase]. The capitals of
    the micro sign (181) and of the y with diaeresis (255) are no
    characters below 256: the two stand for their capitals, which no other
    character has, so that a comparison of capitalised texts answers as in
    the source. *)
Definition upperChar (a : ascii) : ascii :=
  let n := nat_of_ascii a in
  if ((97 <=? n)%nat && (n <=? 122)%nat)
     || ((224 <=? n)%nat && (n <=? 254)%nat && negb (n =? 247)%nat)
  then ascii_of_nat (n - 32) else a.

Fixpoint toLowerCase (s : string) : string :=
  match s with
  | EmptyString => EmptyString
  | String a rest => String (lowerChar a) (toLowerCase rest)
  end.

Fixpoint toUpperCase (s : string) : string :=
  match s with
  | EmptyString => EmptyString
  | String a rest =>
      if (nat_of_ascii a =? 223)%nat then
        String "S" (String "S" (toUpperCase rest))
      else String (upperChar a) (toUpperCase rest)
  end.

(** The white space and line terminators that [String.prototype.trim]
    removes and that [\s] matches: of the characters below 256, the tab,
    the line feed, the vertical tab, the form feed and the carriage return
    (9 to 13), the space (32) and the no-break space (160). *)
Definition isSpace (a : ascii) : bool :=
  let n := nat_of_ascii a in
  (n =? 32)%nat || ((9 <=? n)%nat && (n <=? 13)%nat) || (n =? 160)%nat.

Fixpoint trimStart (s : string) : string :=
  match s with
  | EmptyString => EmptyString
  | String a rest => if isSpace a then trimStart rest else s
  end.

Fixpoint trimEnd (s : string) : string :=
  match s with
  | EmptyString => EmptyString
  | String a rest =>
      match trimEnd rest with
      | EmptyString => if isSpace a then EmptyString else String a EmptyString
      | t => String a t
      end
  end.

Definition trim (s : string) : string := trimEnd (trimStart s).

(** [allChars p s]: every character of [s] satisfies [p]. *)
Fixpoint allChars (p : ascii -> bool) (s : string) : bool :=
  match s with
  | EmptyString => true
  | String a rest => p a && allChars p rest
  end.

(** [s.startsWith(p)] and the remainder after the prefix. *)
Fixpoint stripPrefix (p s : string) : option string :=
  match p, s with
  | EmptyString, _ => Some s
  | String a p', String b s' => if Ascii.eqb a b then stripPrefix p' s' else None
  | String _ _, EmptyString => None
  end.

(** [t.includes(s)] on strings. *)
Fixpoint isSubstring (s t : string) : bool :=
  match stripPrefix s t with
  | Some _ => true
  | None =>
      match t with
      | EmptyString => false
      | String _ rest => isSubstring s rest
      end
  end.

(** [s.split(c)[0]]: the text before the first [c]. *)
Fixpoint beforeFirst (c : ascii) (s : string) : string :=
  match s with
  | EmptyString => EmptyString
  | String a rest =>
      if Ascii.eqb a c then EmptyString else String a (beforeFirst c rest)
  end.

(** [n] digits at the head of [s]; the remainder. *)
Fixpoint digits (n : nat) (s : string) : option string :=
  match n, s with
  | O, _ => Some s
  | S n', String a rest => if isDigit a then digits n' rest else None
  | S _, EmptyString => None
  end.

(** One given character at the head of [s]; the remainder. *)
Definition char (c : ascii) (s : string) : option string :=
  match s with
  | String a rest => if Ascii.eqb a c then Some rest else None
  | EmptyString => None
  end.

(** The prefix [\d{4}-\d{2}-\d{2}] shared by the date patterns. *)
Definition isoDatePrefix (s : string) : option string :=
  s1 ← digits 4 s; s2 ← char "-" s1; s3 ← digits 2 s2;
  s4 ← char "-" s3; digits 2 s4.

(** The decimal numeral of an integer, as a template literal prints it. *)
Definition numToString (z : Z) : string := NilZero.string_of_int (Z.to_int z).

(** [array.join(sep)]. *)
Definition join (sep : string) (l : list string) : string := String.concat sep l.

(** [array.includes(x)] on strings. *)
Definition includes (x : string) (l : list string) : bool :=
  existsb (String.eqb x) l.

(** Truthiness of a string. *)
Definition nonEmpty (s : string) : bool := negb (String.eqb s "").

(** Truthiness of a nullable string. *)
Definition isSet (o : option string) : bool :=
  match o with
  | Some s => nonEmpty s
  | None => false
  end.

End Js.

(* ===================================================================== *)
(** ** Component state: a state monad over the component's fields *)
(* ===================================================================== *)

Module StateM.

(** A method of a component reads and writes the fields of [this]: it is a
    function from the state before the call to a result and the state
    after it. *)
Definition M (S A : Type) : Type := S -> A * S.

Definition ret {S A : Type} (a : A) : M S A := fun s => (a, s).

Definition bind {S A B : Type} (m : M S A) (k : A -> M S B) : M S B :=
  fun s => let '(a, s') := m s in k a s'.

(** [this.f] *)
Definition gets {S A : Type} (f : S -> A) : M S A := fun s => (f s, s).

(** [this.f = v], given the field's update function *)
Definition modify {S : Type} (f : S -> S) : M S unit := fun s => (tt, f s).

(** [this.f = v], given the field's setter *)
Definition assign {S A : Type} (set : A -> S -> S) (v : A) : M S unit :=
  modify (set v).

(** [if (c) { m }] *)
Definition when_ {S : Type} (c : bool) (m : M S unit) : M S unit :=
  if c then m else ret tt.

(** [l.forEach(body)]: [body] for each element of [l] in order. *)
Fixpoint forEach {S A : Type} (l : list A) (body : A -> M S unit) : M S unit :=
  match l with
  | [] => ret tt
  | x :: rest => bind (body x) (fun _ => forEach rest body)
  end.

Definition evalState {S A : Type} (m : M S A) (s : S) : A := fst (m s).
Definition execState {S A : Type} (m : M S A) (s : S) : S := snd (m s).

(** A method is read-only when every call leaves every field as it was. *)
Definition readOnly {S A : Type} (m : M S A) : Prop :=
  forall s, execState m s = s.

(** A method keeps [f] when no call changes what [f] reads. *)
Definition keeps {S A B : Type} (f : S -> A) (m : M S B) : Prop :=
  forall s, f (execState m s) = f s.

End StateM.

Import StateM.

(** [let! x := m in k] runs [m], names its result and continues with [k];
    [m ;; k] runs [m] for its effect only. *)
Notation "'let!' x ':=' m 'in' k" := (bind m (fun x => k))
  (at level 10, x name, m at level 100, k at level 200).
Notation "m ';;' k" := (bind m (fun _ => k))
  (at level 100, k at level 200, right associativity).

(* ===================================================================== *)
(** ** HM_DataSourceQueryBuilder *)
(* ===================================================================== *)

(** The class as it stands with [escapeSoqlValue], [isValidDateFormat] and
    the configuration (de)serializer; the repository also carries an
    earlier copy whose [buildConditionClause] writes every value as it
    is. *)

Module QueryBuilder.

Import Js.

(** A condition's [value]: a string from the input, or [null]/[undefined]. *)
Inductive jsvalue : Type :=
| Undefined
| Null
| Str (s : string).

(** [String(v)], which is also what a template literal prints. *)
Definition toString (v : jsvalue) : string :=
  match v with
  | Undefined => "undefined"
  | Null => "null"
  | Str s => s
  end.

Definition truthy (v : jsvalue) : bool :=
  match v with
  | Str s => nonEmpty s
  | _ => false
  end.

(** One row of the WHERE editor. *)
Record Condition := mkCondition {
  cid : string;
  fieldApiName : string;
  fieldLabel : string;
  fieldType : string;
  operator : string;
  value : jsvalue;
  conjunction : string;
  isOwnerFilter : bool
}.

(** A field descriptor returned by the server. *)
Record Field := mkField {
  apiName : string;
  label : string;
  type : string;
  relationshipName : option string
}.

(** The expansion state of a lookup field. *)
Record Expansion := mkExpansion {
  expanded : bool;
  loading : bool;
  children : option (list Field)
}.

Record Page2Data := mkPage2Data {
  selectedObjectApiName : option string;
  selectedObjectLabel : option string
}.

Record State := mkState {
  page2Data : Page2Data;
  objectSearchTerm : string;
  queryType : string;
  aggregateFunction : option string;
  aggregateFieldApiName : option string;
  aggregateFieldSearchTerm : string;
  filteredAggregateFields : list Field;
  allFields : list Field;
  selectedFieldApiNames : list string;
  isLoadingFields : bool;
  fieldCache : gmap string (list Field);
  fieldSearchTerm : string;
  expandedFields : gmap string Expansion;
  whereConditions : list Condition;
  conditionIdCounter : Z;
  activeOwnerFilter : option string;
  queryLimit : option Z;
  error : option string;
  autoRefreshPending : bool
}.

Definition set_page2Data (v : Page2Data) (st : State) : State :=
  mkState v (objectSearchTerm st) (queryType st) (aggregateFunction st)
    (aggregateFieldApiName st) (aggregateFieldSearchTerm st)
    (filteredAggregateFields st) (allFields st) (selectedFieldApiNames st)
    (isLoadingFields st) (fieldCache st) (fieldSearchTerm st)
    (expandedFields st) (whereConditions st) (conditionIdCounter st)
    (activeOwnerFilter st) (queryLimit st) (error st) (autoRefreshPending st).
Definition set_objectSearchTerm (v : string) (st : State) : State :=
  mkState (page2Data st) v (queryType st) (aggregateFunction st)
    (aggregateFieldApiName st) (aggregateFieldSearchTerm st)
    (filteredAggregateFields st) (allFields st) (selectedFieldApiNames st)
    (isLoadingFields st) (fieldCache st) (fieldSearchTerm st)
    (expandedFields st) (whereConditions st) (conditionIdCounter st)
    (activeOwnerFilter st) (queryLimit st) (error st) (autoRefreshPending st).
Definition set_queryType (v : string) (st : State) : State :=
  mkState (page2Data st) (objectSearchTerm st) v (aggregateFunction st)
    (aggregateFieldApiName st) (aggregateFieldSearchTerm st)
    (filteredAggregateFields st) (allFields st) (selectedFieldApiNames st)
    (isLoadingFields st) (fieldCache st) (fieldSearchTerm st)
    (expandedFields st) (whereConditions st) (conditionIdCounter st)
    (activeOwnerFilter st) (queryLimit st) (error st) (autoRefreshPending st).
Definition set_aggregateFunction (v : option string) (st : State) : State :=
  mkState (page2Data st) (objectSearchTerm st) (queryType st) v
    (aggregateFieldApiName st) (aggregateFieldSearchTerm st)
    (filteredAggregateFields st) (allFields st) (selectedFieldApiNames st)
    (isLoadingFields st) (fieldCache st) (fieldSearchTerm st)
    (expandedFields st) (whereConditions st) (conditionIdCounter st)
    (activeOwnerFilter st) (queryLimit st) (error st) (autoRefreshPending st).
Definition set_aggregateFieldApiName (v : option string) (st : State) : State :=
  mkState (page2Data st) (objectSearchTerm st) (queryType st)
    (aggregateFunction st) v (aggregateFieldSearchTerm st)
    (filteredAggregateFields st) (allFields st) (selectedFieldApiNames st)
    (isLoadingFields st) (fieldCache st) (fieldSearchTerm st)
    (expandedFields st) (whereConditions st) (conditionIdCounter st)
    (activeOwnerFilter st) (queryLimit st) (error st) (autoRefreshPending st).
Definition set_aggregateFieldSearchTerm (v : string) (st : State) : State :=
  mkState (page2Data st) (objectSearchTerm st) (queryType st)
    (aggregateFunction st) (aggregateFieldApiName st) v
    (filteredAggregateFields st) (allFields st) (selectedFieldApiNames st)
    (isLoadingFields st) (fieldCache st) (fieldSearchTerm st)
    (expandedFields st) (whereConditions st) (conditionIdCounter st)
    (activeOwnerFilter st) (queryLimit st) (error st) (autoRefreshPending st).
Definition set_filteredAggregateFields (v : list Field) (st : State) : State :=
  mkState (page2Data st) (objectSearchTerm st) (queryType st)
    (aggregateFunction st) (aggregateFieldApiName st)
    (aggregateFieldSearchTerm st) v (allFields st) (selectedFieldApiNames st)
    (isLoadingFields st) (fieldCache st) (fieldSearchTerm st)
    (expandedFields st) (whereConditions st) (conditionIdCounter st)
    (activeOwnerFilter st) (queryLimit st) (error st) (autoRefreshPending st).
Definition set_allFields (v : list Field) (st : State) : State :=
  mkState (page2Data st) (objectSearchTerm st) (queryType st)
    (aggregateFunction st) (aggregateFieldApiName st)
    (aggregateFieldSearchTerm st) (filteredAggregateFields st) v
    (selectedFieldApiNames st) (isLoadingFields st) (fieldCache st)
    (fieldSearchTerm st) (expandedFields st) (whereConditions st)
    (conditionIdCounter st) (activeOwnerFilter st) (queryLimit st) (error st)
    (autoRefreshPending st).
Definition set_selectedFieldApiNames (v : list string) (st : State) : State :=
  mkState (page2Data st) (objectSearchTerm st) (queryType st)
    (aggregateFunction st) (aggregateFieldApiName st)
    (aggregateFieldSearchTerm st) (filteredAggregateFields st) (allFields st)
    v (isLoadingFields st) (fieldCache st) (fieldSearchTerm st)
    (expandedFields st) (whereConditions st) (conditionIdCounter st)
    (activeOwnerFilter st) (queryLimit st) (error st) (autoRefreshPending st).
Definition set_isLoadingFields (v : bool) (st : State) : State :=
  mkState (page2Data st) (objectSearchTerm st) (queryType st)
    (aggregateFunction st) (aggregateFieldApiName st)
    (aggregateFieldSearchTerm st) (filteredAggregateFields st) (allFields st)
    (selectedFieldApiNames st) v (fieldCache st) (fieldSearchTerm st)
    (expandedFields st) (whereConditions st) (conditionIdCounter st)
    (activeOwnerFilter st) (queryLimit st) (error st) (autoRefreshPending st).
Definition set_fieldCache (v : gmap string (list Field)) (st : State) : State :=
  mkState (page2Data st) (objectSearchTerm st) (queryType st)
    (aggregateFunction st) (aggregateFieldApiName st)
    (aggregateFieldSearchTerm st) (filteredAggregateFields st) (allFields st)
    (selectedFieldApiNames st) (isLoadingFields st) v (fieldSearchTerm st)
    (expandedFields st) (whereConditions st) (conditionIdCounter st)
    (activeOwnerFilter st) (queryLimit st) (error st) (autoRefreshPending st).
Definition set_fieldSearchTerm (v : string) (st : State) : State :=
  mkState (page2Data st) (objectSearchTerm st) (queryType st)
    (aggregateFunction st) (aggregateFieldApiName st)
    (aggregateFieldSearchTerm st) (filteredAggregateFields st) (allFields st)
    (selectedFieldApiNames st) (isLoadingFields st) (fieldCache st) v
    (expandedFields st) (whereConditions st) (conditionIdCounter st)
    (activeOwnerFilter st) (queryLimit st) (error st) (autoRefreshPending st).
Definition set_expandedFields (v : gmap string Expansion) (st : State) : State :=
  mkState (page2Data st) (objectSearchTerm st) (queryType st)
    (aggregateFunction st) (aggregateFieldApiName st)
    (aggregateFieldSearchTerm st) (filteredAggregateFields st) (allFields st)
    (selectedFieldApiNames st) (isLoadingFields st) (fieldCache st)
    (fieldSearchTerm st) v (whereConditions st) (conditionIdCounter st)
    (activeOwnerFilter st) (queryLimit st) (error st) (autoRefreshPending st).
Definition set_whereConditions (v : list Condition) (st : State) : State :=
  mkState (page2Data st) (objectSearchTerm st) (queryType st)
    (aggregateFunction st) (aggregateFieldApiName st)
    (aggregateFieldSearchTerm st) (filteredAggregateFields st) (allFields st)
    (selectedFieldApiNames st) (isLoadingFields st) (fieldCache st)
    (fieldSearchTerm st) (expandedFields st) v (conditionIdCounter st)
    (activeOwnerFilter st) (queryLimit st) (error st) (autoRefreshPending st).
Definition set_conditionIdCounter (v : Z) (st : State) : State :=
  mkState (page2Data st) (objectSearchTerm st) (queryType st)
    (aggregateFunction st) (aggregateFieldApiName st)
    (aggregateFieldSearchTerm st) (filteredAggregateFields st) (allFields st)
    (selectedFieldApiNames st) (isLoadingFields st) (fieldCache st)
    (fieldSearchTerm st) (expandedFields st) (whereConditions st) v
    (activeOwnerFilter st) (queryLimit st) (error st) (autoRefreshPending st).
Definition set_activeOwnerFilter (v : option string) (st : State) : State :=
  mkState (page2Data st) (objectSearchTerm st) (queryType st)
    (aggregateFunction st) (aggregateFieldApiName st)
    (aggregateFieldSearchTerm st) (filteredAggregateFields st) (allFields st)
    (selectedFieldApiNames st) (isLoadingFields st) (fieldCache st)
    (fieldSearchTerm st) (expandedFields st) (whereConditions st)
    (conditionIdCounter st) v (queryLimit st) (error st)
    (autoRefreshPending st).
Definition set_queryLimit (v : option Z) (st : State) : State :=
  mkState (page2Data st) (objectSearchTerm st) (queryType st)
    (aggregateFunction st) (aggregateFieldApiName st)
    (aggregateFieldSearchTerm st) (filteredAggregateFields st) (allFields st)
    (selectedFieldApiNames st) (isLoadingFields st) (fieldCache st)
    (fieldSearchTerm st) (expandedFields st) (whereConditions st)
    (conditionIdCounter st) (activeOwnerFilter st) v (error st)
    (autoRefreshPending st).
Definition set_error (v : option string) (st : State) : State :=
  mkState (page2Data st) (objectSearchTerm st) (queryType st)
    (aggregateFunction st) (aggregateFieldApiName st)
    (aggregateFieldSearchTerm st) (filteredAggregateFields st) (allFields st)
    (selectedFieldApiNames st) (isLoadingFields st) (fieldCache st)
    (fieldSearchTerm st) (expandedFields st) (whereConditions st)
    (conditionIdCounter st) (activeOwnerFilter st) (queryLimit st) v
    (autoRefreshPending st).
Definition set_autoRefreshPending (v : bool) (st : State) : State :=
  mkState (page2Data st) (objectSearchTerm st) (queryType st)
    (aggregateFunction st) (aggregateFieldApiName st)
    (aggregateFieldSearchTerm st) (filteredAggregateFields st) (allFields st)
    (selectedFieldApiNames st) (isLoadingFields st) (fieldCache st)
    (fieldSearchTerm st) (expandedFields st) (whereConditions st)
    (conditionIdCounter st) (activeOwnerFilter st) (queryLimit st) (error st)
    v.

(** *** SOQL fragments *)

(** [OPERATOR_MAP]: the SOQL spelling of each operator. *)
Definition OPERATOR_MAP : list (string * string) :=
  [ ("equals", "="); ("not_equals", "!="); ("contains", "LIKE");
    ("starts_with", "LIKE"); ("ends_with", "LIKE"); ("less_than", "<");
    ("greater_than", ">"); ("less_or_equal", "<="); ("greater_or_equal", ">=");
    ("is_null", "="); ("is_not_null", "!="); ("includes", "INCLUDES");
    ("excludes", "EXCLUDES"); ("date_today", "="); ("date_this_week", "=");
    ("date_this_month", "="); ("date_this_year", "=");
    ("date_last_n_days", "="); ("date_next_n_days", "=") ].

Fixpoint assoc (k : string) (m : list (string * string)) : option string :=
  match m with
  | [] => None
  | (k', v) :: rest => if String.eqb k k' then Some v else assoc k rest
  end.

(** [OPERATOR_MAP[op] || "="], for an operator that is no name of a member
    of every object ([constructor], [toString] and the like), as the
    option values of the editor are. *)
Definition soqlOperator (op : string) : string :=
  match assoc op OPERATOR_MAP with
  | Some s => s
  | None => "="
  end.

(** [escapeSoqlValue]: backslashes first, then single quotes. *)
Definition escapeSoqlValue (v : jsvalue) : string :=
  match v with
  | Undefined | Null => ""
  | Str s =>
      replaceAll quote (String backslash (String quote ""))
        (replaceAll backslash (String backslash (String backslash "")) s)
  end.

(** The date literals of [dateLiteralPattern] that take no argument. *)
Definition DATE_LITERALS : list string :=
  [ "TODAY"; "YESTERDAY"; "TOMORROW"; "LAST_WEEK"; "THIS_WEEK"; "NEXT_WEEK";
    "LAST_MONTH"; "THIS_MONTH"; "NEXT_MONTH"; "LAST_90_DAYS"; "NEXT_90_DAYS";
    "THIS_QUARTER"; "LAST_QUARTER"; "NEXT_QUARTER"; "THIS_YEAR"; "LAST_YEAR";
    "NEXT_YEAR"; "THIS_FISCAL_QUARTER"; "LAST_FISCAL_QUARTER";
    "NEXT_FISCAL_QUARTER"; "THIS_FISCAL_YEAR"; "LAST_FISCAL_YEAR";
    "NEXT_FISCAL_YEAR" ].

(** [PREFIX\d+] up to the end of the string. *)
Definition literalWithCount (prefix s : string) : bool :=
  match stripPrefix prefix s with
  | Some r => nonEmpty r && allChars isDigit r
  | None => false
  end.

(** [dateLiteralPattern], matched case-insensitively. *)
Definition dateLiteralPattern (s : string) : bool :=
  let u := toUpperCase s in
  includes u DATE_LITERALS
  || literalWithCount "LAST_N_DAYS:" u
  || literalWithCount "NEXT_N_DAYS:" u.

(** [/^\d{4}-\d{2}-\d{2}$/] *)
Definition datePattern (s : string) : bool :=
  match isoDatePrefix s with
  | Some r => String.eqb r ""
  | None => false
  end.

(** [Z?$] *)
Definition optionalZ (s : string) : bool :=
  match char "Z" s with
  | Some r => String.eqb r "" || String.eqb s ""
  | None => String.eqb s ""
  end.

(** [/^\d{4}-\d{2}-\d{2}T\d{2}:\d{2}:\d{2}(\.\d{3})?Z?$/] *)
Definition datetimePattern (s : string) : bool :=
  match
    s1 ← isoDatePrefix s; s2 ← char "T" s1; s3 ← digits 2 s2;
    s4 ← char ":" s3; s5 ← digits 2 s4; s6 ← char ":" s5; digits 2 s6
  with
  | Some r =>
      match s7 ← char "." r; digits 3 s7 with
      | Some r' => optionalZ r' || optionalZ r
      | None => optionalZ r
      end
  | None => false
  end.

(** [isValidDateFormat] *)
Definition isValidDateFormat (v : jsvalue) : bool :=
  match v with
  | Str s =>
      if negb (nonEmpty s) then false
      else
        let trimmed := trim s in
        if dateLiteralPattern trimmed then true
        else if datePattern trimmed then true
        else if datetimePattern trimmed then true
        else false
  | _ => false
  end.

(** [/^\d{4}-\d{2}-\d{2}/.test(v)]: the value starts like an ISO date. *)
Definition dateFormatPattern (v : jsvalue) : bool :=
  match isoDatePrefix (toString v) with
  | Some _ => true
  | None => false
  end.

(** [v === "{!UserId}"] *)
Definition isUserId (v : jsvalue) : bool :=
  match v with
  | Str s => String.eqb s "{!UserId}"
  | _ => false
  end.

Definition numericTypes : list string :=
  [ "INTEGER"; "DOUBLE"; "CURRENCY"; "PERCENT" ].

Definition dateTypes : list string := [ "DATE"; "DATETIME" ].

(** [buildConditionClause]: one condition as SOQL text. *)
Definition buildConditionClause (condition : Condition) : string :=
  let op := soqlOperator (operator condition) in
  let field := fieldApiName condition in
  let opIs o := String.eqb (operator condition) o in
  if opIs "is_null" then field ++ " = null"
  else if opIs "is_not_null" then field ++ " != null"
  else if opIs "date_today" then field ++ " = TODAY"
  else if opIs "date_this_week" then field ++ " = THIS_WEEK"
  else if opIs "date_this_month" then field ++ " = THIS_MONTH"
  else if opIs "date_this_year" then field ++ " = THIS_YEAR"
  else if opIs "date_last_n_days" then
    field ++ " = LAST_N_DAYS:" ++ toString (value condition)
  else if opIs "date_next_n_days" then
    field ++ " = NEXT_N_DAYS:" ++ toString (value condition)
  else if opIs "date_gt_today" then field ++ " > TODAY"
  else if opIs "date_lt_today" then field ++ " < TODAY"
  else if opIs "date_gt_last_n_days" then
    field ++ " > LAST_N_DAYS:" ++ toString (value condition)
  else if opIs "date_lt_next_n_days" then
    field ++ " < NEXT_N_DAYS:" ++ toString (value condition)
  else if opIs "contains" then
    field ++ " LIKE '%" ++ escapeSoqlValue (value condition) ++ "%'"
  else if opIs "starts_with" then
    field ++ " LIKE '" ++ escapeSoqlValue (value condition) ++ "%'"
  else if opIs "ends_with" then
    field ++ " LIKE '%" ++ escapeSoqlValue (value condition) ++ "'"
  else if isUserId (value condition) then
    field ++ " " ++ op ++ " :UserInfo.getUserId()"
  else if String.eqb (fieldType condition) "BOOLEAN" then
    field ++ " " ++ op ++ " " ++ toString (value condition)
  else if includes (fieldType condition) numericTypes then
    field ++ " " ++ op ++ " " ++ toString (value condition)
  else if includes (fieldType condition) dateTypes then
    let dateValue := value condition in
    if isValidDateFormat dateValue then
      field ++ " " ++ op ++ " " ++ toString dateValue
    else field ++ " " ++ op ++ " " ++ toString dateValue
  else if opIs "includes" || opIs "excludes" then
    field ++ " " ++ op ++ " ('" ++ escapeSoqlValue (value condition) ++ "')"
  else if truthy (value condition) && dateFormatPattern (value condition) then
    field ++ " " ++ op ++ " " ++ toString (value condition)
  else
    field ++ " " ++ op ++ " '" ++ escapeSoqlValue (value condition) ++ "'".

(** *** The WHERE clause *)

(** [c.fieldApiName && c.operator] *)
Definition validCondition (c : Condition) : bool :=
  nonEmpty (fieldApiName c) && nonEmpty (operator c).

(** An array's elements with their indices, as array callbacks see them. *)
Definition indexed {A : Type} (l : list A) : list (nat * A) :=
  imap (fun i x => (i, x)) l.

(** [conds.some((c, i) => i > 0 && c.conjunction === conj)] *)
Definition someConjunction (conj : string) (conds : list Condition) : bool :=
  existsb (fun ic => (0 <? fst ic)%nat && String.eqb (conjunction (snd ic)) conj)
    (indexed conds).

(** The simple case: every clause after the first under its own conjunction. *)
Definition simpleClause (index : nat) (condition : Condition) : string :=
  let clause := buildConditionClause condition in
  if (index =? 0)%nat then clause
  else nl ++ "    " ++ conjunction condition ++ " " ++ clause.

(** The body of the [forEach] of the mixed case; the accumulator holds the
    local variables [result] and [inOrGroup]. *)
Definition groupStep (validConditions : list Condition)
    (acc : string * bool) (ic : nat * Condition) : string * bool :=
  let '(result, inOrGroup) := acc in
  let '(index, condition) := ic in
  let clause := buildConditionClause condition in
  let isOr := String.eqb (conjunction condition) "OR" in
  let nextIsOr :=
    (Z.of_nat index <? Z.of_nat (length validConditions) - 1)%Z
    && match validConditions !! (index + 1)%nat with
       | Some next => String.eqb (conjunction next) "OR"
       | None => false
       end in
  if (index =? 0)%nat then (clause, inOrGroup)
  else if isOr then
    let '(result, inOrGroup) :=
      if negb inOrGroup then (result ++ nl ++ "    AND (" ++ clause, true)
      else (result ++ nl ++ "         OR " ++ clause, inOrGroup) in
    if negb nextIsOr && inOrGroup then (result ++ ")", false)
    else (result, inOrGroup)
  else (result ++ nl ++ "    AND " ++ clause, inOrGroup).

(** The WHERE clause of a list of conditions. *)
Definition whereClauseOf (conds : list Condition) : string :=
  let validConditions := List.filter validCondition conds in
  if (length validConditions =? 0)%nat then ""
  else
    let hasOr := someConjunction "OR" validConditions in
    let hasAnd := someConjunction "AND" validConditions in
    let hasMixedConjunctions := hasOr && hasAnd in
    if negb hasMixedConjunctions then
      join "" (imap simpleClause validConditions)
    else
      let '(result, inOrGroup) :=
        fold_left (groupStep validConditions) (indexed validConditions)
          ("", false) in
      if inOrGroup then result ++ ")" else result.

(** [buildWhereClause] *)
Definition buildWhereClause : M State string :=
  let! conds := gets whereConditions in
  ret (whereClauseOf conds).

(** *** The query *)

Definition isListMode : M State bool :=
  let! t := gets queryType in ret (String.eqb t "List").

Definition isAggregateMode : M State bool :=
  let! t := gets queryType in ret (String.eqb t "Aggregate").

(** Truthiness of [queryLimit]: a number other than 0. *)
Definition limitSet (o : option Z) : bool :=
  match o with
  | Some n => negb (n =? 0)%Z
  | None => false
  end.

(** What a template literal prints for a nullable field. *)
Definition show (o : option string) : string :=
  match o with
  | Some s => s
  | None => "null"
  end.

Definition showLimit (o : option Z) : string :=
  match o with
  | Some n => numToString n
  | None => "null"
  end.

(** The getter [generatedSoql]. *)
Definition generatedSoql : M State string :=
  let! p2 := gets page2Data in
  if negb (isSet (selectedObjectApiName p2)) then ret ""
  else
    let! listMode := isListMode in
    if listMode then
      let! selected := gets selectedFieldApiNames in
      if (length selected =? 0)%nat then ret ""
      else
        let fields := join ("," ++ nl ++ "       ") selected in
        let query :=
          "SELECT " ++ fields ++ nl ++ "  FROM "
            ++ show (selectedObjectApiName p2) in
        let! whereClause := buildWhereClause in
        let query :=
          if nonEmpty whereClause then query ++ nl ++ " WHERE " ++ whereClause
          else query in
        let! limit := gets queryLimit in
        let query :=
          if limitSet limit then query ++ nl ++ " LIMIT " ++ showLimit limit
          else query in
        ret query
    else
      let! aggregateMode := isAggregateMode in
      if aggregateMode then
        let! func := gets aggregateFunction in
        if negb (isSet func) then ret ""
        else
          let! target := gets aggregateFieldApiName in
          let selectClause :=
            if String.eqb (show func) "COUNT" && negb (isSet target) then
              Some "COUNT()"
            else if negb (isSet target) then None
            else Some (show func ++ "(" ++ show target ++ ")") in
          match selectClause with
          | None => ret ""
          | Some selectClause =>
              let query :=
                "SELECT " ++ selectClause ++ nl ++ "  FROM "
                  ++ show (selectedObjectApiName p2) in
              let! whereClause := buildWhereClause in
              let query :=
                if nonEmpty whereClause then
                  query ++ nl ++ " WHERE " ++ whereClause
                else query in
              ret query
          end
      else ret "".

(** *** Saving and restoring the configuration *)

(** The server calls of the builder. A rejected call carries the message
    that the builder shows. *)
Record Server := mkServer {
  getObjectFields : string -> string + list Field;
  getRelatedObjectFields : option string -> string -> option (list Field)
}.

(** The object that [serializeQueryConfig] hands to [JSON.stringify] and
    that [JSON.parse] gives back to [deserializeQueryConfig]: its values
    are strings, integers, null and arrays and objects of those, which the
    two conversions return as they were; a property whose value is
    [undefined] is left out and reads as [undefined] again. A saved
    condition has no [isOwnerFilter] property. *)
Module Config.
Record t := mk {
  objectApiName : option string;
  objectLabel : option string;
  queryType : string;
  selectedFields : list string;
  aggregateFunction : option string;
  aggregateFieldApiName : option string;
  aggregateFieldSearchTerm : string;
  whereConditions : list Condition;
  activeOwnerFilter : option string;
  queryLimit : option Z
}.
End Config.

(** The seven properties of a condition that are saved. *)
Definition savedCondition (c : Condition) : Condition :=
  mkCondition (cid c) (fieldApiName c) (fieldLabel c) (fieldType c)
    (operator c) (value c) (conjunction c) false.

(** [serializeQueryConfig] *)
Definition serializeQueryConfig : M State Config.t :=
  let! p2 := gets page2Data in
  let! type := gets queryType in
  let! selected := gets selectedFieldApiNames in
  let! func := gets aggregateFunction in
  let! target := gets aggregateFieldApiName in
  let! term := gets aggregateFieldSearchTerm in
  let! conds := gets whereConditions in
  let! owner := gets activeOwnerFilter in
  let! limit := gets queryLimit in
  ret (Config.mk (selectedObjectApiName p2) (selectedObjectLabel p2) type
         selected func target term (map savedCondition conds) owner limit).

(** [v || null] on nullable strings and numbers. *)
Definition orNull (o : option string) : option string :=
  if isSet o then o else None.

Definition limitOrNull (o : option Z) : option Z :=
  if limitSet o then o else None.

(** [v || d] on strings. *)
Definition orDefault (s d : string) : string :=
  if nonEmpty s then s else d.

(** [showError]: the message shown. *)
Definition showError (message : string) : M State unit :=
  assign set_error (Some message).

(** [updateSoqlPreview]: a refresh of the preview is pending. *)
Definition updateSoqlPreview : M State unit :=
  assign set_autoRefreshPending true.

(** [loadFieldsForObject] *)
Definition loadFieldsForObject (srv : Server) (objectApiName : string)
  : M State unit :=
  if negb (nonEmpty objectApiName) then ret tt
  else
    let! cache := gets fieldCache in
    match cache !! objectApiName with
    | Some fields =>
        assign set_allFields fields;;
        assign set_selectedFieldApiNames [];;
        assign set_fieldSearchTerm "";;
        updateSoqlPreview
    | None =>
        assign set_isLoadingFields true;;
        match getObjectFields srv objectApiName with
        | inr fields =>
            modify (fun st =>
                      set_fieldCache (<[objectApiName := fields]> (fieldCache st))
                        st);;
            assign set_allFields fields;;
            assign set_selectedFieldApiNames [];;
            assign set_fieldSearchTerm "";;
            updateSoqlPreview
        | inl errorMessage => showError errorMessage
        end;;
        assign set_isLoadingFields false
    end.

(** [AGGREGATE_FUNCTIONS]: value and accepted field types ([None]: any). *)
Definition AGGREGATE_FUNCTIONS : list (string * option (list string)) :=
  [ ("COUNT", None); ("COUNT_DISTINCT", None);
    ("SUM", Some ["DOUBLE"; "INTEGER"; "CURRENCY"; "PERCENT"]);
    ("AVG", Some ["DOUBLE"; "INTEGER"; "CURRENCY"; "PERCENT"]);
    ("MIN", None); ("MAX", None) ].

(** [getSelectedAggregateFunction] *)
Definition getSelectedAggregateFunction
  : M State (option (string * option (list string))) :=
  let! func := gets aggregateFunction in
  if negb (isSet func) then ret None
  else
    ret (List.find (fun f => String.eqb (fst f) (default "" func))
           AGGREGATE_FUNCTIONS).

(** [filterAggregateFields]: the fields offered as aggregate target (their
    display label and item class are derived from them in the template). *)
Definition filterAggregateFields : M State unit :=
  let! func := getSelectedAggregateFunction in
  match func with
  | None => assign set_filteredAggregateFields []
  | Some (_, fieldTypes) =>
      let! all := gets allFields in
      let availableFields :=
        List.filter
          (fun f => match fieldTypes with
                    | None => true
                    | Some types => includes (type f) types
                    end) all in
      let! term := gets aggregateFieldSearchTerm in
      let searchLower := toLowerCase term in
      let availableFields :=
        if nonEmpty searchLower then
          List.filter
            (fun f => isSubstring searchLower (toLowerCase (label f))
                      || isSubstring searchLower (toLowerCase (apiName f)))
            availableFields
        else availableFields in
      assign set_filteredAggregateFields (take 100 availableFields)
  end.

(** [getParentFieldApiName] *)
Definition getParentFieldApiName (fieldPath : string) : M State (option string) :=
  let relationship := beforeFirst "." fieldPath in
  let! all := gets allFields in
  match List.find (fun f => match relationshipName f with
                            | Some r => String.eqb r relationship
                            | None => false
                            end) all with
  | Some parentField => ret (orNull (Some (apiName parentField)))
  | None => ret None
  end.

(** The parents of the selected relationship fields, each once, in the
    order in which a [Set] meets them. *)
Fixpoint parentsOf (paths : list string) (seen : list string)
  : M State (list string) :=
  match paths with
  | [] => ret seen
  | path :: rest =>
      let! parent := getParentFieldApiName path in
      match parent with
      | Some p =>
          if includes p seen then parentsOf rest seen
          else parentsOf rest (seen ++ [p])%list
      | None => parentsOf rest seen
      end
  end.

(** [autoExpandFieldsWithSelectedChildren] *)
Definition autoExpandFieldsWithSelectedChildren (srv : Server) : M State unit :=
  let! selected := gets selectedFieldApiNames in
  let relationshipFields := List.filter (isSubstring ".") selected in
  if (length relationshipFields =? 0)%nat then ret tt
  else
    let! fieldsArray := parentsOf relationshipFields [] in
    forEach fieldsArray (fun parentApiName =>
      let! current := gets expandedFields in
      if match current !! parentApiName with
         | Some e => expanded e
         | None => false
         end
      then ret tt
      else
        assign set_expandedFields
          (<[parentApiName := mkExpansion true true None]> current));;
    let! p2 := gets page2Data in
    let results :=
      map (fun parentApiName =>
             match getRelatedObjectFields srv (selectedObjectApiName p2)
                     parentApiName with
             | Some children => (parentApiName, children, true)
             | None => (parentApiName, [], false)
             end) fieldsArray in
    forEach results (fun '(parentApiName, children, success) =>
      modify (fun st =>
                set_expandedFields
                  (<[parentApiName := mkExpansion success false (Some children)]>
                     (expandedFields st)) st)).

(** The conditions of a saved configuration as rows of the editor: a
    condition without an id gets the next [cond_N]. *)
Fixpoint restoreConditions (saved : list Condition) : M State (list Condition) :=
  match saved with
  | [] => ret []
  | c :: rest =>
      let! restoredId :=
        if nonEmpty (cid c) then ret (cid c)
        else
          let! counter := gets conditionIdCounter in
          assign set_conditionIdCounter (counter + 1);;
          ret ("cond_" ++ numToString (counter + 1)) in
      let! others := restoreConditions rest in
      ret (mkCondition restoredId (fieldApiName c) (fieldLabel c) (fieldType c)
             (operator c) (value c) (conjunction c) (isOwnerFilter c)
           :: others)
  end.

(** [deserializeQueryConfig]; [None] stands for an empty [configJson]. *)
Definition deserializeQueryConfig (srv : Server) (configJson : option Config.t)
  : M State unit :=
  match configJson with
  | None => ret tt
  | Some config =>
      assign set_page2Data
        (mkPage2Data (orNull (Config.objectApiName config))
           (orNull (Config.objectLabel config)));;
      assign set_objectSearchTerm
        (default "" (orNull (Config.objectLabel config)));;
      assign set_queryType (orDefault (Config.queryType config) "List");;
      assign set_aggregateFunction (orNull (Config.aggregateFunction config));;
      assign set_aggregateFieldApiName
        (orNull (Config.aggregateFieldApiName config));;
      assign set_aggregateFieldSearchTerm
        (Config.aggregateFieldSearchTerm config);;
      (if isSet (Config.objectApiName config) then
         loadFieldsForObject srv (default "" (Config.objectApiName config));;
         let! aggregateMode := isAggregateMode in
         let! func := gets aggregateFunction in
         when_ (aggregateMode && isSet func) filterAggregateFields
       else ret tt);;
      assign set_selectedFieldApiNames (Config.selectedFields config);;
      autoExpandFieldsWithSelectedChildren srv;;
      let! restored := restoreConditions (Config.whereConditions config) in
      assign set_whereConditions restored;;
      assign set_activeOwnerFilter (orNull (Config.activeOwnerFilter config));;
      assign set_queryLimit (limitOrNull (Config.queryLimit config));;
      updateSoqlPreview
  end.

(** *** Vocabulary of the statements about SOQL generation *)

(** One character of a value as it must appear inside a SOQL string
    literal: a backslash before every backslash and every single quote. *)
Definition escapeChar (a : ascii) : string :=
  if Ascii.eqb a backslash then String backslash (String backslash "")
  else if Ascii.eqb a quote then String backslash (String quote "")
  else String a "".

Fixpoint escapeEach (s : string) : string :=
  match s with
  | EmptyString => EmptyString
  | String a rest => escapeChar a ++ escapeEach rest
  end.

(** How SOQL reads a string literal after its opening quote: a backslash
    takes the next character with it, the first unescaped quote closes the
    literal. The result is the literal's content and the text after the
    closing quote; [None] when the literal is never closed. *)
Fixpoint scanLiteral (s : string) : option (string * string) :=
  match s with
  | EmptyString => None
  | String a rest =>
      if Ascii.eqb a quote then Some ("", rest)
      else if Ascii.eqb a backslash then
        match rest with
        | EmptyString => None
        | String b rest' =>
            match scanLiteral rest' with
            | Some (body, after) => Some (String b body, after)
            | None => None
            end
        end
      else
        match scanLiteral rest with
        | Some (body, after) => Some (String a body, after)
        | None => None
        end
  end.

(** Characters that mean nothing special inside a literal. *)
Definition plainChar (a : ascii) : bool :=
  negb (Ascii.eqb a quote) && negb (Ascii.eqb a backslash).

(** The text a value stands for: [null] and [undefined] escape to nothing. *)
Definition rawValue (v : jsvalue) : string :=
  match v with
  | Str s => s
  | _ => ""
  end.

(** Operators whose clause ignores the value. *)
Definition valueFreeOperators : list string :=
  [ "is_null"; "is_not_null"; "date_today"; "date_this_week";
    "date_this_month"; "date_this_year"; "date_gt_today"; "date_lt_today" ].

(** Operators whose value is the count of a date literal. *)
Definition nDaysOperators : list string :=
  [ "date_last_n_days"; "date_next_n_days"; "date_gt_last_n_days";
    "date_lt_next_n_days" ].

Definition likeOperators : list string :=
  [ "contains"; "starts_with"; "ends_with" ].

Definition listOperators : list string := [ "includes"; "excludes" ].

(** Field types whose values are written without quotes. *)
Definition unquotedTypes : list string :=
  "BOOLEAN" :: numericTypes ++ dateTypes.

(** The clause of [c] contains text taken from [value c]. *)
Definition incorporatesValue (c : Condition) : bool :=
  negb (includes (operator c) valueFreeOperators)
  && (includes (operator c) (nDaysOperators ++ likeOperators)%list
      || negb (isUserId (value c))).

(** The conditions whose value is written inside a quoted literal: the
    LIKE operators; and, for a value other than the user-id token on a
    field that is not boolean, numeric or a date, the multi-select
    operators and the default comparison of a value that does not start
    like an ISO date. *)
Definition quotesValue (c : Condition) : bool :=
  includes (operator c) likeOperators
  || (negb (includes (operator c) (valueFreeOperators ++ nDaysOperators)%list)
      && negb (isUserId (value c))
      && negb (includes (fieldType c) unquotedTypes)
      && (includes (operator c) listOperators
          || negb (truthy (value c) && dateFormatPattern (value c)))).

(** The conditions whose value is written as it is, without quotes: the
    counts of date literals and the values of boolean, numeric and date
    fields. *)
Definition insertsVerbatim (c : Condition) : bool :=
  includes (operator c) nDaysOperators
  || (negb (includes (operator c)
              (valueFreeOperators ++ nDaysOperators ++ likeOperators)%list)
      && negb (isUserId (value c))
      && includes (fieldType c) unquotedTypes).

(** A numeric comparison whose value carries SOQL text. *)
Definition numericInjection : Condition :=
  mkCondition "cond_1" "Amount" "Amount" "INTEGER" "equals"
    (Str "0 OR Name != 'x'") "AND" false.

(** A text comparison whose value starts like a date. *)
Definition dateLookalike : Condition :=
  mkCondition "cond_1" "Name" "Name" "STRING" "equals"
    (Str "2024-01-01' OR Name != '") "AND" false.

(** A text comparison with a quote and a backslash in its value. *)
Definition quotedName : Condition :=
  mkCondition "cond_1" "Name" "Name" "STRING" "equals"
    (Str (String quote (String backslash "x"))) "AND" false.

(** Three conditions joined as [A OR B AND C] in the editor: the second
    row carries OR, the third AND. *)
Definition orThenAnd : list Condition :=
  [ mkCondition "cond_1" "A" "A" "STRING" "is_null" (Str "") "AND" false;
    mkCondition "cond_2" "B" "B" "STRING" "is_null" (Str "") "OR" false;
    mkCondition "cond_3" "C" "C" "STRING" "is_null" (Str "") "AND" false ].

(** The selection is complete: an object, and the fields of a list query or
    the function (with its target unless it is COUNT) of an aggregate
    query. *)
Definition complete (st : State) : bool :=
  isSet (selectedObjectApiName (page2Data st))
  && (if String.eqb (queryType st) "List" then
        negb (length (selectedFieldApiNames st) =? 0)%nat
      else if String.eqb (queryType st) "Aggregate" then
        isSet (aggregateFunction st)
        && (String.eqb (show (aggregateFunction st)) "COUNT"
            || isSet (aggregateFieldApiName st))
      else false).

(** What stands between SELECT and FROM. *)
Definition selectList (st : State) : string :=
  if String.eqb (queryType st) "List" then
    join ("," ++ nl ++ "       ") (selectedFieldApiNames st)
  else if isSet (aggregateFieldApiName st) then
    show (aggregateFunction st) ++ "(" ++ show (aggregateFieldApiName st) ++ ")"
  else "COUNT()".

(** The WHERE part: present exactly when a condition has a field and an
    operator. *)
Definition wherePart (st : State) : string :=
  if existsb validCondition (whereConditions st) then
    nl ++ " WHERE " ++ whereClauseOf (whereConditions st)
  else "".

(** The LIMIT part: list queries only, present exactly when the limit is
    set. *)
Definition limitPart (st : State) : string :=
  if String.eqb (queryType st) "List" && limitSet (queryLimit st) then
    nl ++ " LIMIT " ++ showLimit (queryLimit st)
  else "".

(** *** Vocabulary of the statements about saving and restoring *)

(** The builder as it is created. *)
Definition initial : State :=
  mkState (mkPage2Data None None) "" "List" None None "" [] [] [] false ∅ ""
    ∅ [] 0 None None None false.

(** A nullable string that is null or not empty. *)
Definition nullOrSet (o : option string) : bool :=
  match o with
  | Some s => nonEmpty s
  | None => true
  end.

(** A limit that is null or not 0. *)
Definition nullOrNonZero (o : option Z) : bool :=
  match o with
  | Some n => negb (n =? 0)%Z
  | None => true
  end.

(** An object is selected, and no saved field holds a falsy value other
    than null: no empty label, query type, function, target or owner
    filter, and no limit of 0. *)
Definition restorable (st : State) : bool :=
  isSet (selectedObjectApiName (page2Data st))
  && nullOrSet (selectedObjectLabel (page2Data st))
  && nonEmpty (queryType st)
  && nullOrSet (aggregateFunction st)
  && nullOrSet (aggregateFieldApiName st)
  && nullOrSet (activeOwnerFilter st)
  && nullOrNonZero (queryLimit st).

(** Two conditions agree on field, label, type, operator, value and
    conjunction. *)
Definition sameCondition (c c' : Condition) : Prop :=
  fieldApiName c' = fieldApiName c
  /\ fieldLabel c' = fieldLabel c
  /\ fieldType c' = fieldType c
  /\ operator c' = operator c
  /\ value c' = value c
  /\ conjunction c' = conjunction c.

(** The builder [target] after it has loaded what [source] saved. *)
Definition restored (srv : Server) (source target : State) : State :=
  execState
    (deserializeQueryConfig srv (Some (evalState serializeQueryConfig source)))
    target.

(** A server that knows no object. *)
Definition offlineServer : Server :=
  mkServer (fun _ => inl "Error loading fields") (fun _ _ => None).

(** A list query on Account with one condition and a limit. *)
Definition exampleBuilder : State :=
  set_page2Data (mkPage2Data (Some "Account") (Some "Account"))
    (set_selectedFieldApiNames ["Id"; "Owner.Name"]
       (set_whereConditions [quotedName]
          (set_queryLimit (Some 10) initial))).

(** The same query with the limit 0 entered. *)
Definition zeroLimit : State := set_queryLimit (Some 0) exampleBuilder.

(** The same query with an empty label, query type, function, target and
    owner filter. *)
Definition emptyTexts : State :=
  set_page2Data (mkPage2Data (Some "Account") (Some ""))
    (set_queryType ""
       (set_aggregateFunction (Some "")
          (set_aggregateFieldApiName (Some "")
             (set_activeOwnerFilter (Some "") exampleBuilder)))).

(** *** The preview: tokens for syntax highlighting *)

Definition SQL_KEYWORDS : list string :=
  [ "SELECT"; "FROM"; "WHERE"; "AND"; "OR"; "NOT"; "IN"; "LIKE"; "ORDER";
    "BY"; "ASC"; "DESC"; "NULLS"; "FIRST"; "LAST"; "LIMIT"; "OFFSET";
    "GROUP"; "HAVING"; "WITH"; "USING"; "SCOPE" ].

Definition SQL_FUNCTIONS : list string :=
  [ "COUNT"; "COUNT_DISTINCT"; "SUM"; "AVG"; "MIN"; "MAX"; "CALENDAR_MONTH";
    "CALENDAR_YEAR"; "DAY_IN_MONTH"; "DAY_IN_WEEK"; "FISCAL_MONTH";
    "FISCAL_QUARTER"; "FISCAL_YEAR"; "HOUR_IN_DAY"; "WEEK_IN_MONTH";
    "WEEK_IN_YEAR" ].

Definition SQL_DATE_LITERALS : list string :=
  [ "TODAY"; "YESTERDAY"; "TOMORROW"; "LAST_WEEK"; "THIS_WEEK"; "NEXT_WEEK";
    "LAST_MONTH"; "THIS_MONTH"; "NEXT_MONTH"; "LAST_90_DAYS"; "NEXT_90_DAYS";
    "LAST_N_DAYS"; "NEXT_N_DAYS"; "THIS_QUARTER"; "LAST_QUARTER";
    "NEXT_QUARTER"; "THIS_YEAR"; "LAST_YEAR"; "NEXT_YEAR";
    "THIS_FISCAL_QUARTER"; "LAST_FISCAL_QUARTER"; "NEXT_FISCAL_QUARTER";
    "THIS_FISCAL_YEAR"; "LAST_FISCAL_YEAR"; "NEXT_FISCAL_YEAR" ].

(** A token of the preview. *)
Record Token := mkToken {
  tokenId : string;
  tokenValue : string;
  className : string
}.

(** [[A-Za-z]] and [\w]. *)
Definition isLetter (a : ascii) : bool :=
  let n := nat_of_ascii a in
  ((65 <=? n)%nat && (n <=? 90)%nat) || ((97 <=? n)%nat && (n <=? 122)%nat).

Definition isWord (a : ascii) : bool :=
  isLetter a || isDigit a || Ascii.eqb a "_".

(** [[\w.]] *)
Definition isWordOrDot (a : ascii) : bool := isWord a || Ascii.eqb a ".".

(** [[^\s\w]] *)
Definition isSymbol (a : ascii) : bool := negb (isSpace a) && negb (isWord a).

(** The longest prefix of [s] whose characters satisfy [p], and the rest:
    what a greedy [[p]*] takes. *)
Fixpoint span (p : ascii -> bool) (s : string) : string * string :=
  match s with
  | EmptyString => ("", "")
  | String a rest =>
      if p a then
        let '(taken, remaining) := span p rest in (String a taken, remaining)
      else ("", s)
  end.

(** [s.startsWith(p)] and [s.endsWith(p)] *)
Definition startsWith (p s : string) : bool :=
  match stripPrefix p s with
  | Some _ => true
  | None => false
  end.

Fixpoint endsWith (p s : string) : bool :=
  String.eqb s p
  || match s with
     | EmptyString => false
     | String _ rest => endsWith p rest
     end.

(** A match of [tokenRegex] at the start of [s]: [match[0]] and what
    follows it. The six alternatives are tried in their order:
    [:[\w.]+\(\)], ['[^']*'], [\d+], [[A-Za-z_][\w_.]*], [\s+] and
    [[^\s\w]+]; in the first two, what the greedy class has taken cannot be
    given back to make the rest match. *)
Definition matchToken (s : string) : option (string * string) :=
  match s with
  | EmptyString => None
  | String a rest =>
      let variable :=
        if Ascii.eqb a ":" then
          let '(name, remaining) := span isWordOrDot rest in
          if nonEmpty name then
            match stripPrefix "()" remaining with
            | Some remaining => Some (String a (name ++ "()"), remaining)
            | None => None
            end
          else None
        else None in
      let literal :=
        if Ascii.eqb a quote then
          let '(text, remaining) :=
            span (fun c => negb (Ascii.eqb c quote)) rest in
          match remaining with
          | String closing remaining =>
              Some (String a (text ++ String closing ""), remaining)
          | EmptyString => None
          end
        else None in
      match variable, literal with
      | Some found, _ => Some found
      | None, Some found => Some found
      | None, None =>
          if isDigit a then Some (span isDigit s)
          else if isLetter a || Ascii.eqb a "_" then
            let '(tail, remaining) := span isWordOrDot rest in
            Some (String a tail, remaining)
          else if isSpace a then Some (span isSpace s)
          else Some (span isSymbol s)
      end
  end.

(** The class of a token. *)
Definition classOf (value : string) (objectApiName : option string) : string :=
  let upperValue := toUpperCase value in
  if nonEmpty value && allChars isSpace value then ""
  else if startsWith ":" value then "sql-variable"
  else if startsWith (String quote "") value && endsWith (String quote "") value
  then "sql-string"
  else if nonEmpty value && allChars isDigit value then "sql-number"
  else if includes upperValue SQL_KEYWORDS then "sql-keyword"
  else if existsb (fun f => startsWith f upperValue) SQL_FUNCTIONS then
    "sql-function"
  else if existsb (fun d => startsWith d upperValue) SQL_DATE_LITERALS then
    "sql-literal"
  else if (nonEmpty value
           && allChars (fun c => Ascii.eqb c "=" || Ascii.eqb c "!"
                                 || Ascii.eqb c "<" || Ascii.eqb c ">") value)
          || String.eqb value "(" || String.eqb value ")"
          || String.eqb value ","
  then "sql-operator"
  else if isSet objectApiName
          && String.eqb upperValue (toUpperCase (default "" objectApiName))
  then "sql-object"
  else "sql-field".

(** The loop [while ((match = tokenRegex.exec(soql)) !== null)]: the tokens
    of what is left of the query, numbered from [tokenId]. Every match
    takes at least one character, so that [fuel] rounds, as many as the
    query has characters, reach its end. *)
Fixpoint tokensFrom (fuel : nat) (tokenId : Z) (remaining : string)
    (objectApiName : option string) : list Token :=
  match fuel with
  | O => []
  | S fuel =>
      match matchToken remaining with
      | None => []
      | Some (value, remaining) =>
          mkToken ("token-" ++ numToString tokenId) value
            (classOf value objectApiName)
          :: tokensFrom fuel (tokenId + 1) remaining objectApiName
      end
  end.

(** The getter [soqlTokens]. *)
Definition soqlTokens : M State (list Token) :=
  let! soql := generatedSoql in
  if negb (nonEmpty soql) then ret []
  else
    let! p2 := gets page2Data in
    ret (tokensFrom (String.length soql) 0 soql (selectedObjectApiName p2)).

(** *** Editing the conditions *)

(** [handleAddCondition]. The new row has no [isOwnerFilter] property, which
    reads as a flag that is false. *)
Definition handleAddCondition : M State unit :=
  modify (fun st => set_conditionIdCounter (conditionIdCounter st + 1) st);;
  let! counter := gets conditionIdCounter in
  let newCondition :=
    mkCondition ("cond_" ++ numToString counter) "" "" "" "" (Str "") "AND"
      false in
  let! conds := gets whereConditions in
  assign set_whereConditions (conds ++ [newCondition])%list.

(** [handleRemoveCondition] for the row whose button carries [conditionId]. *)
Definition handleRemoveCondition (conditionId : string) : M State unit :=
  let! conds := gets whereConditions in
  assign set_whereConditions
    (List.filter (fun condition => negb (String.eqb (cid condition) conditionId))
       conds);;
  updateSoqlPreview.

(** The getter [filterableFields]; [isFilterable] reads the property of that
    name of a field descriptor. *)
Definition filterableFields (isFilterable : Field -> bool)
  : M State (list Field) :=
  let! all := gets allFields in
  ret (List.filter isFilterable all).

(** [handleConditionFieldChange] *)
Definition handleConditionFieldChange (isFilterable : Field -> bool)
    (conditionId fieldApiName : string) : M State unit :=
  let! fields := filterableFields isFilterable in
  let field :=
    List.find (fun f => String.eqb (apiName f) fieldApiName) fields in
  let! conds := gets whereConditions in
  assign set_whereConditions
    (map (fun condition =>
            if String.eqb (cid condition) conditionId then
              mkCondition (cid condition) fieldApiName
                (match field with
                 | Some f => orDefault (label f) ""
                 | None => ""
                 end)
                (match field with
                 | Some f => orDefault (type f) "STRING"
                 | None => "STRING"
                 end)
                "" (Str "") (conjunction condition) (isOwnerFilter condition)
            else condition) conds);;
  updateSoqlPreview.

(** [handleConditionOperatorChange] *)
Definition handleConditionOperatorChange (conditionId operator : string)
  : M State unit :=
  let! conds := gets whereConditions in
  assign set_whereConditions
    (map (fun condition =>
            if String.eqb (cid condition) conditionId then
              mkCondition (cid condition) (fieldApiName condition)
                (fieldLabel condition) (fieldType condition) operator (Str "")
                (conjunction condition) (isOwnerFilter condition)
            else condition) conds);;
  updateSoqlPreview.

(** [handleConditionValueChange] *)
Definition handleConditionValueChange (conditionId : string) (value : jsvalue)
  : M State unit :=
  let! conds := gets whereConditions in
  assign set_whereConditions
    (map (fun condition =>
            if String.eqb (cid condition) conditionId then
              mkCondition (cid condition) (fieldApiName condition)
                (fieldLabel condition) (fieldType condition)
                (QueryBuilder.operator condition) value
                (conjunction condition) (isOwnerFilter condition)
            else condition) conds);;
  updateSoqlPreview.

(** [handleConditionConjunctionChange] *)
Definition handleConditionConjunctionChange (conditionId conjunction : string)
  : M State unit :=
  let! conds := gets whereConditions in
  assign set_whereConditions
    (map (fun condition =>
            if String.eqb (cid condition) conditionId then
              mkCondition (cid condition) (fieldApiName condition)
                (fieldLabel condition) (fieldType condition)
                (QueryBuilder.operator condition)
                (QueryBuilder.value condition) conjunction
                (isOwnerFilter condition)
            else condition) conds);;
  updateSoqlPreview.

(** *** The owner quick filter *)

(** [removeOwnerCondition] *)
Definition removeOwnerCondition : M State unit :=
  let! conds := gets whereConditions in
  assign set_whereConditions
    (List.filter (fun c => negb (isOwnerFilter c)) conds).

(** [addOwnerCondition] *)
Definition addOwnerCondition (filterType : string) : M State unit :=
  modify (fun st => set_conditionIdCounter (conditionIdCounter st + 1) st);;
  let! counter := gets conditionIdCounter in
  let newCondition :=
    if String.eqb filterType "me" then
      mkCondition ("owner_" ++ numToString counter) "OwnerId" "Owner ID"
        "REFERENCE" "equals" (Str "{!UserId}") "AND" true
    else
      mkCondition ("owner_" ++ numToString counter) "Owner.Type" "Owner Type"
        "STRING" "equals" (Str "Queue") "AND" true in
  let! conds := gets whereConditions in
  assign set_whereConditions (conds ++ [newCondition])%list.

(** [this.activeOwnerFilter === filterType] *)
Definition isActiveFilter (active : option string) (filterType : string)
  : bool :=
  match active with
  | Some a => String.eqb a filterType
  | None => false
  end.

(** [handleOwnerFilterToggle] for the button of [filterType]. *)
Definition handleOwnerFilterToggle (filterType : string) : M State unit :=
  let! active := gets activeOwnerFilter in
  (if isActiveFilter active filterType then
     removeOwnerCondition;;
     assign set_activeOwnerFilter None
   else
     when_ (isSet active) removeOwnerCondition;;
     assign set_activeOwnerFilter (Some filterType);;
     addOwnerCondition filterType);;
  updateSoqlPreview.

(** *** The selection *)

(** [handleFieldCheckboxChange] *)
Definition handleFieldCheckboxChange (apiName : string) (isChecked : bool)
  : M State unit :=
  let! selected := gets selectedFieldApiNames in
  (if isChecked then
     assign set_selectedFieldApiNames (selected ++ [apiName])%list
   else
     assign set_selectedFieldApiNames
       (List.filter (fun f => negb (String.eqb f apiName)) selected));;
  updateSoqlPreview.

(** [handleAggregateFunctionChange] *)
Definition handleAggregateFunctionChange (value : string) : M State unit :=
  assign set_aggregateFunction (Some value);;
  assign set_aggregateFieldApiName None;;
  assign set_aggregateFieldSearchTerm "";;
  assign set_filteredAggregateFields [];;
  filterAggregateFields;;
  updateSoqlPreview.

(** *** Validation of the form *)

(** The [requiresField] property of an entry of [AGGREGATE_FUNCTIONS]: false
    for COUNT, true for the five others. *)
Definition requiresField (f : string * option (list string)) : bool :=
  negb (String.eqb (fst f) "COUNT").

(** The getter [isFieldSelectionValid]. *)
Definition isFieldSelectionValid : M State bool :=
  let! listMode := isListMode in
  if listMode then
    let! selected := gets selectedFieldApiNames in
    ret (0 <? length selected)%nat
  else
    let! aggregateMode := isAggregateMode in
    if aggregateMode then
      let! func := gets aggregateFunction in
      if negb (isSet func) then ret false
      else
        let! func := getSelectedAggregateFunction in
        let! target := gets aggregateFieldApiName in
        match func with
        | Some f =>
            if requiresField f && negb (isSet target) then ret false
            else ret true
        | None => ret true
        end
    else ret false.

(** [v !== "" && v !== null && v !== undefined] *)
Definition isEntered (v : jsvalue) : bool :=
  match v with
  | Str s => negb (String.eqb s "")
  | Null => false
  | Undefined => false
  end.

(** The getter [areConditionsValid]. *)
Definition areConditionsValid : M State bool :=
  let! conds := gets whereConditions in
  if (length conds =? 0)%nat then ret true
  else
    let nullOperators := [ "is_null"; "is_not_null" ] in
    let dateLiteralOperators :=
      [ "date_today"; "date_gt_today"; "date_lt_today"; "date_this_week";
        "date_this_month"; "date_this_year" ] in
    ret (forallb
           (fun condition =>
              if negb (nonEmpty (fieldApiName condition))
                 || negb (nonEmpty (QueryBuilder.operator condition))
              then false
              else if negb (includes (QueryBuilder.operator condition)
                              nullOperators)
                      && negb (includes (QueryBuilder.operator condition)
                                 dateLiteralOperators)
              then isEntered (QueryBuilder.value condition)
              else true) conds).

(** *** Vocabulary of the statements about editing *)

(** The events of the condition editor and of the field list. *)
Inductive Event : Type :=
| AddCondition
| RemoveCondition (conditionId : string)
| ConditionFieldChange (conditionId fieldApiName : string)
| ConditionOperatorChange (conditionId operator : string)
| ConditionValueChange (conditionId : string) (value : jsvalue)
| ConditionConjunctionChange (conditionId conjunction : string)
| OwnerFilterToggle (filterType : string)
| FieldCheckboxChange (apiName : string) (isChecked : bool)
| AggregateFunctionChange (value : string).

(** The handler of an event. *)
Definition handle (isFilterable : Field -> bool) (e : Event) : M State unit :=
  match e with
  | AddCondition => handleAddCondition
  | RemoveCondition conditionId => handleRemoveCondition conditionId
  | ConditionFieldChange conditionId fieldApiName =>
      handleConditionFieldChange isFilterable conditionId fieldApiName
  | ConditionOperatorChange conditionId operator =>
      handleConditionOperatorChange conditionId operator
  | ConditionValueChange conditionId value =>
      handleConditionValueChange conditionId value
  | ConditionConjunctionChange conditionId conjunction =>
      handleConditionConjunctionChange conditionId conjunction
  | OwnerFilterToggle filterType => handleOwnerFilterToggle filterType
  | FieldCheckboxChange apiName isChecked =>
      handleFieldCheckboxChange apiName isChecked
  | AggregateFunctionChange value => handleAggregateFunctionChange value
  end.

(** The builder after a sequence of events. *)
Definition after (isFilterable : Field -> bool) (events : list Event)
    (st : State) : State :=
  execState (forEach events (handle isFilterable)) st.

(** The ids of the rows of the condition editor. *)
Definition conditionIds (st : State) : list string :=
  map cid (whereConditions st).

(** An id that the counter has issued: [cond_k] or [owner_k] for a [k] up
    to the counter. *)
Definition issued (counter : Z) (id : string) : Prop :=
  exists k : Z,
    (k <= counter)%Z
    /\ (id = "cond_" ++ numToString k \/ id = "owner_" ++ numToString k).

(** Every row carries an id that the counter has issued, and no two rows
    carry the same id. *)
Definition wellNumbered (st : State) : Prop :=
  NoDup (conditionIds st)
  /\ Forall (issued (conditionIdCounter st)) (conditionIds st).

(** The rows that the owner quick filter has added. *)
Definition ownerConditions (st : State) : list Condition :=
  List.filter isOwnerFilter (whereConditions st).

(** The rows that the user has added. *)
Definition userConditions (st : State) : list Condition :=
  List.filter (fun c => negb (isOwnerFilter c)) (whereConditions st).

(** The owner condition that [addOwnerCondition] writes for a filter. *)
Definition ownerClause (filterType : string) : string :=
  if String.eqb filterType "me" then "OwnerId = :UserInfo.getUserId()"
  else "Owner.Type = 'Queue'".

(** The quick filter and the rows agree: with no active filter there is no
    owner condition, and with a filter active there is exactly one. *)
Definition ownerConsistent (st : State) : Prop :=
  match activeOwnerFilter st with
  | None => ownerConditions st = []
  | Some f => nonEmpty f = true /\ length (ownerConditions st) = 1%nat
  end.

(** The aggregate function, if one is chosen, is one of the functions that
    the builder offers. *)
Definition offeredFunction (st : State) : bool :=
  match aggregateFunction st with
  | Some f => includes f (map fst AGGREGATE_FUNCTIONS)
  | None => true
  end.

(** The row [c] with another value. *)
Definition withValue (v : jsvalue) (c : Condition) : Condition :=
  mkCondition (cid c) (fieldApiName c) (fieldLabel c) (fieldType c)
    (operator c) v (conjunction c) (isOwnerFilter c).

(** The row that an event of the condition editor addresses. *)
Definition addressedRow (e : Event) : option string :=
  match e with
  | RemoveCondition conditionId
  | ConditionFieldChange conditionId _
  | ConditionOperatorChange conditionId _
  | ConditionValueChange conditionId _
  | ConditionConjunctionChange conditionId _ => Some conditionId
  | _ => None
  end.

(** The field types that an aggregate function accepts as its target. *)
Definition acceptsType (function type : string) : bool :=
  match List.find (fun f => String.eqb (fst f) function) AGGREGATE_FUNCTIONS with
  | Some (_, Some types) => includes type types
  | Some (_, None) => true
  | None => false
  end.

(** How many more opening than closing parentheses a text has. *)
Fixpoint parenthesisExcess (s : string) : Z :=
  match s with
  | EmptyString => 0
  | String a rest =>
      (if Ascii.eqb a "(" then 1 else if Ascii.eqb a ")" then -1 else 0)
      + parenthesisExcess rest
  end.

(** The same over the clauses of the conditions that have a field and an
    operator. *)
Definition clauseExcess (conds : list Condition) : Z :=
  fold_right
    (fun c total => parenthesisExcess (buildConditionClause c) + total) 0
    (List.filter validCondition conds).

(** The row [c] with another conjunction. *)
Definition withConjunction (conj : string) (c : Condition) : Condition :=
  mkCondition (cid c) (fieldApiName c) (fieldLabel c) (fieldType c)
    (operator c) (value c) conj (isOwnerFilter c).

(** *** The syntax of SOQL *)

(** The part of SOQL that the builder writes: [SELECT] with a list of
    fields or one aggregate, [FROM] with an object, an optional [WHERE]
    with comparisons joined by [AND] or by [OR], which mix through
    parentheses only, and an optional [LIMIT]. *)

(** Blanks between the words of a query: space, tab, line feed and
    carriage return. [gap]: at least one; [blanks]: any number. *)
Definition isBlank (a : ascii) : bool :=
  Ascii.eqb a " " || Ascii.eqb a newline
  || Ascii.eqb a (ascii_of_nat 9) || Ascii.eqb a (ascii_of_nat 13).

Definition blanks (w : string) : bool := allChars isBlank w.

Definition gap (w : string) : bool := nonEmpty w && allChars isBlank w.

(** The name of an object or of a field: words of letters, digits and
    underscores, each starting with a letter, joined by dots ([Name],
    [Owner.Name], [Region__c]). [nameFrom] reads what follows a character
    of a word. *)
Fixpoint nameFrom (s : string) : bool :=
  match s with
  | EmptyString => true
  | String a rest =>
      if isWord a then nameFrom rest
      else if Ascii.eqb a "." then
        match rest with
        | String b _ => isLetter b && nameFrom rest
        | EmptyString => false
        end
      else false
  end.

Definition isName (s : string) : bool :=
  match s with
  | String a rest => isLetter a && nameFrom rest
  | EmptyString => false
  end.

(** A string of digits. *)
Definition isNumeral (s : string) : bool := nonEmpty s && allChars isDigit s.

(** The characters that may follow a backslash in a string literal: those
    of the new line, the return, the tab, the bell and the form feed, the
    two quotes, the backslash and the wildcards of LIKE. *)
Definition doubleQuote : ascii := ascii_of_nat 34.

Definition escapable (a : ascii) : bool :=
  existsb (Ascii.eqb a)
    [ "n"; "N"; "r"; "R"; "t"; "T"; "b"; "B"; "f"; "F"; doubleQuote; quote;
      backslash; "_"; "%" ]%char.

(** What follows the opening quote of a string literal, up to the end of
    the text: characters other than the quote and the backslash, escape
    sequences, and the closing quote. *)
Fixpoint closesLiteral (s : string) : bool :=
  match s with
  | EmptyString => false
  | String a rest =>
      if Ascii.eqb a quote then String.eqb rest ""
      else if Ascii.eqb a backslash then
        match rest with
        | String b rest' => escapable b && closesLiteral rest'
        | EmptyString => false
        end
      else closesLiteral rest
  end.

Definition isStringLiteral (s : string) : bool :=
  match s with
  | String a rest => Ascii.eqb a quote && closesLiteral rest
  | EmptyString => false
  end.

(** A number: digits, with an optional sign before them and an optional
    fraction behind. *)
Definition isNumber (s : string) : bool :=
  let unsigned :=
    match s with
    | String a rest =>
        if Ascii.eqb a "-" || Ascii.eqb a "+" then rest else s
    | EmptyString => s
    end in
  let '(whole, fraction) := span isDigit unsigned in
  nonEmpty whole
  && (String.eqb fraction ""
      || match fraction with
         | String point decimals => Ascii.eqb point "." && isNumeral decimals
         | EmptyString => false
         end).

(** The offset that ends a date with a time: [Z], [+hh:mm] or [-hh:mm]. *)
Definition isOffset (s : string) : bool :=
  String.eqb s "Z"
  || match s with
     | String sign rest =>
         (Ascii.eqb sign "+" || Ascii.eqb sign "-")
         && match r1 ← digits 2 rest; r2 ← char ":" r1; digits 2 r2 with
            | Some r => String.eqb r ""
            | None => false
            end
     | EmptyString => false
     end.

(** A date with a time: [YYYY-MM-DDThh:mm:ss], optional milliseconds, and
    the offset. *)
Definition isDateTime (s : string) : bool :=
  match
    s1 ← isoDatePrefix s; s2 ← char "T" s1; s3 ← digits 2 s2;
    s4 ← char ":" s3; s5 ← digits 2 s4; s6 ← char ":" s5; digits 2 s6
  with
  | Some r =>
      isOffset r
      || match s7 ← char "." r; digits 3 s7 with
         | Some r' => isOffset r'
         | None => false
         end
  | None => false
  end.

(** A date literal: one of [DATE_LITERALS], or [LAST_N_DAYS:n] or
    [NEXT_N_DAYS:n]. *)
Definition isDateLiteral (s : string) : bool :=
  includes s DATE_LITERALS
  || literalWithCount "LAST_N_DAYS:" s
  || literalWithCount "NEXT_N_DAYS:" s.

(** A bind expression without arguments: [:UserInfo.getUserId()]. *)
Definition isBind (s : string) : bool :=
  match s with
  | String colon rest =>
      let '(name, call) := span isWordOrDot rest in
      Ascii.eqb colon ":" && isName name && String.eqb call "()"
  | EmptyString => false
  end.

(** What a field is compared with: a string literal, a number, a date, a
    date with a time, a date literal, [TRUE], [FALSE], [null] or a bind
    expression. *)
Definition isValue (s : string) : bool :=
  isStringLiteral s || isNumber s || datePattern s || isDateTime s
  || isDateLiteral s
  || includes s [ "TRUE"; "FALSE"; "true"; "false"; "NULL"; "null" ]
  || isBind s.

Definition comparisonOperators : list string :=
  [ "="; "!="; "<"; "<="; ">"; ">=" ].

(** String literals between commas: the operand of INCLUDES and
    EXCLUDES. *)
Inductive LiteralList : string -> Prop :=
| literals_one (literal : string) :
    isStringLiteral literal = true -> LiteralList literal
| literals_more (literal w rest : string) :
    isStringLiteral literal = true -> blanks w = true -> LiteralList rest ->
    LiteralList (literal ++ "," ++ w ++ rest).

(** A comparison of a field. *)
Inductive SoqlComparison : string -> Prop :=
| comparison_value (field w1 op w2 v : string) :
    isName field = true -> blanks w1 = true -> In op comparisonOperators ->
    blanks w2 = true -> isValue v = true ->
    SoqlComparison (field ++ w1 ++ op ++ w2 ++ v)
| comparison_like (field w1 w2 literal : string) :
    isName field = true -> gap w1 = true -> blanks w2 = true ->
    isStringLiteral literal = true ->
    SoqlComparison (field ++ w1 ++ "LIKE" ++ w2 ++ literal)
| comparison_list (field w1 op w2 items : string) :
    isName field = true -> gap w1 = true ->
    In op [ "INCLUDES"; "EXCLUDES" ] -> blanks w2 = true ->
    LiteralList items ->
    SoqlComparison (field ++ w1 ++ op ++ w2 ++ "(" ++ items ++ ")").

(** A condition: comparisons and conditions in parentheses, joined by AND
    throughout or by OR throughout. *)
Inductive SoqlCondition : string -> Prop :=
| condition_joined (conj s : string) :
    In conj [ "AND"; "OR" ] -> SoqlChain conj s -> SoqlCondition s
with SoqlChain : string -> string -> Prop :=
| chain_one (conj s : string) : SoqlItem s -> SoqlChain conj s
| chain_more (conj s w1 w2 rest : string) :
    SoqlItem s -> gap w1 = true -> gap w2 = true -> SoqlChain conj rest ->
    SoqlChain conj (s ++ w1 ++ conj ++ w2 ++ rest)
with SoqlItem : string -> Prop :=
| item_comparison (s : string) : SoqlComparison s -> SoqlItem s
| item_group (w1 s w2 : string) :
    blanks w1 = true -> SoqlCondition s -> blanks w2 = true ->
    SoqlItem ("(" ++ w1 ++ s ++ w2 ++ ")").

Scheme SoqlCondition_parts := Minimality for SoqlCondition Sort Prop
  with SoqlChain_parts := Minimality for SoqlChain Sort Prop
  with SoqlItem_parts := Minimality for SoqlItem Sort Prop.

Combined Scheme SoqlCondition_induction
  from SoqlCondition_parts, SoqlChain_parts, SoqlItem_parts.

(** What is selected: fields between commas, the count of the rows, or
    one aggregate of a field. *)
Inductive FieldList : string -> Prop :=
| fields_one (field : string) : isName field = true -> FieldList field
| fields_more (field w rest : string) :
    isName field = true -> blanks w = true -> FieldList rest ->
    FieldList (field ++ "," ++ w ++ rest).

Inductive SelectList : string -> Prop :=
| select_fields (s : string) : FieldList s -> SelectList s
| select_count : SelectList "COUNT()"
| select_aggregate (function field : string) :
    In function (map fst AGGREGATE_FUNCTIONS) -> isName field = true ->
    SelectList (function ++ "(" ++ field ++ ")").

Inductive WherePart : string -> Prop :=
| where_none : WherePart ""
| where_condition (w1 w2 condition : string) :
    gap w1 = true -> gap w2 = true -> SoqlCondition condition ->
    WherePart (w1 ++ "WHERE" ++ w2 ++ condition).

Inductive LimitPart : string -> Prop :=
| limit_none : LimitPart ""
| limit_rows (w1 w2 n : string) :
    gap w1 = true -> gap w2 = true -> isNumeral n = true ->
    LimitPart (w1 ++ "LIMIT" ++ w2 ++ n).

(** A query. *)
Inductive SoqlQuery : string -> Prop :=
| soql_query (w1 selected w2 w3 object wherePart limitPart : string) :
    gap w1 = true -> SelectList selected -> gap w2 = true ->
    gap w3 = true -> isName object = true ->
    WherePart wherePart -> LimitPart limitPart ->
    SoqlQuery ("SELECT" ++ w1 ++ selected ++ w2 ++ "FROM" ++ w3 ++ object
                 ++ wherePart ++ limitPart).

(** The last character of a text. *)
Fixpoint lastChar (s : string) : option ascii :=
  match s with
  | EmptyString => None
  | String a rest =>
      match lastChar rest with
      | Some b => Some b
      | None => Some a
      end
  end.

(** The text ends with the end of a name, of a value or of a group: in a
    letter, a digit, an underscore, a quote or a closing parenthesis. *)
Definition endsAWord (s : string) : bool :=
  match lastChar s with
  | Some a => isWord a || Ascii.eqb a quote || Ascii.eqb a ")"
  | None => false
  end.

(** What the builder writes for the value of [c] is an operand: the value
    is a count where the clause is a date literal with a count; where the
    value is written without quotes (for the user-id token, on a boolean,
    numeric or date field, and for a value that starts like an ISO date),
    the operator is a comparison and the value, as it was entered, is a
    SOQL value. The other clauses ignore the value or quote it. *)
Definition operandFits (c : Condition) : bool :=
  let entered := toString (value c) in
  if includes (operator c) valueFreeOperators then true
  else if includes (operator c) nDaysOperators then isNumeral entered
  else if includes (operator c) likeOperators then true
  else if isUserId (value c) then
    includes (soqlOperator (operator c)) comparisonOperators
  else if includes (fieldType c) unquotedTypes
          || (negb (includes (operator c) listOperators)
              && truthy (value c) && dateFormatPattern (value c))
  then
    includes (soqlOperator (operator c)) comparisonOperators
    && isValue entered
  else true.

(** The names of the members that every object has: asked for one of
    them, [OPERATOR_MAP] answers with the member and not with the spelling
    of an operator. *)
Definition objectMembers : list string :=
  [ "constructor"; "hasOwnProperty"; "isPrototypeOf"; "propertyIsEnumerable";
    "toLocaleString"; "toString"; "valueOf"; "__proto__";
    "__defineGetter__"; "__defineSetter__"; "__lookupGetter__";
    "__lookupSetter__" ].

(** A condition that can be written in SOQL: its field is a name, its
    operator is no name of a member of every object, its conjunction is
    AND or OR, and its operand fits. *)
Definition conditionFits (c : Condition) : bool :=
  isName (fieldApiName c)
  && negb (includes (operator c) objectMembers)
  && includes (conjunction c) [ "AND"; "OR" ]
  && operandFits c.

(** [Number.MAX_SAFE_INTEGER]: up to it, a number is printed with all its
    digits. *)
Definition MAX_SAFE_INTEGER : Z := 2 ^ 53 - 1.

(** The selection is made of SOQL names and values: the object and the
    selected fields are names; the aggregate function is one of those
    offered and its target, if any, is a name; every condition with a
    field and an operator can be written in SOQL; the limit is a safe
    integer that is not negative. *)
Definition wellFormed (st : State) : bool :=
  isName (show (selectedObjectApiName (page2Data st)))
  && (if String.eqb (queryType st) "List" then
        forallb isName (selectedFieldApiNames st)
      else
        offeredFunction st
        && (negb (isSet (aggregateFieldApiName st))
            || isName (show (aggregateFieldApiName st))))
  && forallb conditionFits (List.filter validCondition (whereConditions st))
  && match queryLimit st with
     | Some n => (0 <=? n)%Z && (n <=? MAX_SAFE_INTEGER)%Z
     | None => true
     end.

(** A list query on Account with a comparison whose value was left empty
    and a limit of 0. *)
Definition emptyValueAndZeroLimit : State :=
  mkState (mkPage2Data (Some "Account") (Some "Account")) "" "List" None None
    "" [] [] ["Name"] false ∅ "" ∅
    [mkCondition "cond_1" "Amount" "Amount" "INTEGER" "equals" (Str "") "AND"
       false]
    1 None (Some 0) None false.

(** A list query on Opportunity with five conditions, AND and OR mixed,
    and a limit. *)
Definition exampleQuery : State :=
  mkState (mkPage2Data (Some "Opportunity") (Some "Opportunity")) "" "List"
    None None "" [] [] ["Name"; "Owner.Name"; "Amount"] false ∅ "" ∅
    [ mkCondition "cond_1" "Name" "Name" "STRING" "contains"
        (Str (String quote "s")) "AND" false;
      mkCondition "cond_2" "Amount" "Amount" "CURRENCY" "greater_than"
        (Str "5000") "AND" false;
      mkCondition "cond_3" "StageName" "Stage" "PICKLIST" "equals"
        (Str "Closed Won") "OR" false;
      mkCondition "cond_4" "CloseDate" "Close Date" "DATE" "date_last_n_days"
        (Str "30") "OR" false;
      mkCondition "owner_5" "OwnerId" "Owner ID" "REFERENCE" "equals"
        (Str "{!UserId}") "AND" true ]
    5 (Some "mine") (Some 50) None false.

End QueryBuilder.

(* ===================================================================== *)
(** ** Values of record fields and the host environment *)
(* ===================================================================== *)

Module JsValue.

Import Js.

(** A value read from a record: a primitive, a [Date], or a plain object. *)
Inductive jsval : Type :=
| VUndefined
| VNull
| VBool (b : bool)
| VNum (x : float)
| VStr (s : string)
| VDate (t : option Z)
| VObject.

(** The array [placed] with [x] put at place [p], at the end when [p] is
    beyond it. *)
Definition putAt {A : Type} (p : nat) (x : A) (placed : list A) : list A :=
  take p placed ++ x :: drop p placed.

(** An arrangement of the elements of an array: the elements of [rest] take
    their places one after the other, each among the elements placed before
    it, at the place that [places] names for it (at the end once the places
    are used up). Every order of the elements of an array is the
    arrangement by some places, and every arrangement holds the elements of
    the array, each as often as the array does. *)
Fixpoint arrange {A : Type} (placed rest : list A) (places : list nat)
  : list A :=
  match rest with
  | [] => placed
  | x :: rest' =>
      match places with
      | p :: places' => arrange (putAt p x placed) rest' places'
      | [] => arrange (putAt (length placed) x placed) rest' []
      end
  end.

(** What the components take from their host: date parsing, the local
    calendar, the clock, the locale's collation, the conversions between
    numbers and text that are not integers, and the sort of an array. A
    time value is a number of milliseconds; [None] is the time value of an
    invalid date. [Array_sort] is the order in which
    [Array.prototype.sort] leaves an array under a comparator, told as the
    places of an arrangement: ECMAScript fixes that order for a consistent
    comparator only and leaves it to the engine otherwise. *)
Record Host := mkHost {
  Date_parse : string -> option Z;
  startOfLocalDay : Z -> Z;
  now : Z;
  Date_toString : option Z -> string;
  localeCompare : string -> string -> Z;
  Number_ofString : string -> float;
  Number_toString : float -> string;
  Array_sort : forall A : Type, (A -> A -> float) -> list A -> list nat
}.

(** [array.sort(compare)]: the array as the host's sort arranges it. *)
Definition sortArray (h : Host) {A : Type} (compare : A -> A -> float)
    (l : list A) : list A :=
  arrange [] l (Array_sort h A compare l).

(** What a sort by comparison leaves next to each other: [x] stands
    directly before [y] only if the comparator, asked about the two in one
    order or the other, did not place [x] after [y]. An answer that is not
    a number counts as 0, as [sort] takes it. *)
Definition placedBefore {A : Type} (compare : A -> A -> float) (x y : A)
  : Prop :=
  (0 <? compare x y)%float = false \/ (compare y x <? 0)%float = false.

(** The host's sort orders by comparison, as insertion sorts and merge
    sorts do, whatever the comparator. *)
Definition ordersByComparison (h : Host) : Prop :=
  forall (A : Type) (compare : A -> A -> float) (l : list A),
    Sorted (placedBefore compare) (sortArray h compare l).

(** The integer [z] as a number. *)
Definition ofZ (z : Z) : float := SF2Prim (binary_normalize prec emax z 0 false).

(** The integral part of a number (toward zero); [None] when it is not
    finite. *)
Definition truncate (x : float) : option Z :=
  match Prim2SF x with
  | S754_zero _ => Some 0
  | S754_finite s m e =>
      let v := if (0 <=? e)%Z then Z.pos m * 2 ^ e
               else Z.pos m / 2 ^ (- e) in
      Some (if s then - v else v)
  | _ => None
  end.

(** [TimeClip]: the time value of [new Date(x)]. *)
Definition timeClip (x : float) : option Z :=
  match truncate x with
  | Some t => if (Z.abs t <=? 8640000000000000)%Z then Some t else None
  | None => None
  end.

(** A number that is an integer below 10^21 in size prints as its decimal
    numeral; the other finite numbers print as the host prints them. *)
Definition numberToString (h : Host) (x : float) : string :=
  if is_nan x then "NaN"
  else if (x =? infinity)%float then "Infinity"
  else if (x =? neg_infinity)%float then "-Infinity"
  else
    match truncate x with
    | Some z =>
        if (ofZ z =? x)%float && (abs x <? 1e21)%float then numToString z
        else Number_toString h x
    | None => Number_toString h x
    end.

(** [String(v)] *)
Definition toString (h : Host) (v : jsval) : string :=
  match v with
  | VUndefined => "undefined"
  | VNull => "null"
  | VBool b => if b then "true" else "false"
  | VNum x => numberToString h x
  | VStr s => s
  | VDate t => Date_toString h t
  | VObject => "[object Object]"
  end.

(** [Number(v)] *)
Definition toNumber (h : Host) (v : jsval) : float :=
  match v with
  | VUndefined => nan
  | VNull => 0%float
  | VBool b => if b then 1%float else 0%float
  | VNum x => x
  | VStr s => Number_ofString h s
  | VDate (Some t) => ofZ t
  | VDate None => nan
  | VObject => nan
  end.

(** Truthiness. *)
Definition truthy (v : jsval) : bool :=
  match v with
  | VUndefined | VNull => false
  | VBool b => b
  | VNum x => negb (is_nan x || (x =? 0)%float)
  | VStr s => nonEmpty s
  | VDate _ | VObject => true
  end.

(** [v === null || v === undefined] *)
Definition isNullish (v : jsval) : bool :=
  match v with
  | VUndefined | VNull => true
  | _ => false
  end.

(** The time value of [new Date(v)]. *)
Definition dateOf (h : Host) (v : jsval) : option Z :=
  match v with
  | VStr s => Date_parse h s
  | VDate t => t
  | VObject => Date_parse h "[object Object]"
  | _ => timeClip (toNumber h v)
  end.

(** *** [Number.prototype.toFixed] *)

Fixpoint zeros (n : nat) : string :=
  match n with
  | O => ""
  | S n' => String "0" (zeros n')
  end.

(** The decimal numeral of [n / 10^d] with exactly [d] fraction digits. *)
Definition fixedDigits (n : Z) (d : nat) : string :=
  let m := numToString n in
  if (d =? 0)%nat then m
  else
    let k := String.length m in
    let m := if (k <=? d)%nat then zeros (d + 1 - k) ++ m else m in
    let k := String.length m in
    substring 0 (k - d) m ++ "." ++ substring (k - d) d m.

(** The integer nearest to [m * 2^e * 10^d]; of two, the larger. *)
Definition scaledNearest (m : positive) (e : Z) (d : nat) : Z :=
  let num := Z.pos m * 10 ^ Z.of_nat d in
  if (0 <=? e)%Z then num * 2 ^ e
  else let den := 2 ^ (- e) in (2 * num + den) / (2 * den).

(** [x.toFixed(d)] *)
Definition toFixed (h : Host) (x : float) (d : nat) : string :=
  match Prim2SF x with
  | S754_nan => "NaN"
  | S754_infinity s => if s then "-Infinity" else "Infinity"
  | S754_zero _ => fixedDigits 0 d
  | S754_finite s m e =>
      if (1e21 <=? abs x)%float then Number_toString h x
      else (if s then "-" else "") ++ fixedDigits (scaledNearest m e d) d
  end.

(** *** A host for the examples *)

(** The value of a string of decimal digits. *)
Fixpoint digitsValue (acc : Z) (s : string) : Z :=
  match s with
  | EmptyString => acc
  | String a rest => digitsValue (10 * acc + (Z.of_nat (nat_of_ascii a) - 48)) rest
  end.

(** Days from 1970-01-01 to the given day of the proleptic Gregorian
    calendar. *)
Definition daysFromCivil (y m d : Z) : Z :=
  let y := if (m <=? 2)%Z then y - 1 else y in
  let era := y / 400 in
  let yoe := y - era * 400 in
  let doy := (153 * (if (2 <? m)%Z then m - 3 else m + 9) + 2) / 5 + d - 1 in
  let doe := yoe * 365 + yoe / 4 - yoe / 100 + doy in
  era * 146097 + doe - 719468.

(** [YYYY-MM-DD], alone or followed by [T00:00:00], read as UTC. *)
Definition parseIsoDay (s : string) : option Z :=
  match isoDatePrefix s with
  | Some rest =>
      if String.eqb rest "" || String.eqb rest "T00:00:00" then
        Some (daysFromCivil (digitsValue 0 (substring 0 4 s))
                (digitsValue 0 (substring 5 2 s))
                (digitsValue 0 (substring 8 2 s)) * 86400000)
      else None
  | None => None
  end.

(** A string of digits as a number, anything else as [NaN]. *)
Definition parseDigits (s : string) : float :=
  if nonEmpty s && allChars isDigit s then ofZ (digitsValue 0 s) else nan.

(** Comparison of strings character by character. *)
Definition compareBytes (a b : string) : Z :=
  match String.compare a b with
  | Lt => -1
  | Eq => 0
  | Gt => 1
  end.

(** The place of [pivot] among the elements [placed], found by halving
    the range from [left] to [right]: [pivot] goes before the element in
    the middle if the comparator places it before, behind it otherwise.
    Each round shortens the range, so that as many rounds as the range has
    places end the search. *)
Fixpoint searchPlace {A : Type} (compare : A -> A -> float) (pivot : A)
    (placed : list A) (fuel left right : nat) : nat :=
  match fuel with
  | O => left
  | S fuel =>
      if (left <? right)%nat then
        let mid := (left + (right - left) / 2)%nat in
        match placed !! mid with
        | Some y =>
            if (compare pivot y <? 0)%float then
              searchPlace compare pivot placed fuel left mid
            else searchPlace compare pivot placed fuel (S mid) right
        | None => left
        end
      else left
  end.

Definition binaryPlace {A : Type} (compare : A -> A -> float) (pivot : A)
    (placed : list A) : nat :=
  searchPlace compare pivot placed (length placed) 0 (length placed).

(** The places of a binary insertion sort. *)
Fixpoint insertionPlaces {A : Type} (compare : A -> A -> float)
    (placed rest : list A) : list nat :=
  match rest with
  | [] => []
  | x :: rest' =>
      let p := binaryPlace compare x placed in
      p :: insertionPlaces compare (putAt p x placed) rest'
  end.

(** How far the run at the head of an array goes on behind [previous]: as
    long as each element is placed before the one in front of it
    ([descending]), or as long as none is. *)
Fixpoint runLength {A : Type} (compare : A -> A -> float) (descending : bool)
    (previous : A) (rest : list A) : nat :=
  match rest with
  | [] => O
  | current :: rest' =>
      if Bool.eqb (compare current previous <? 0)%float descending then
        S (runLength compare descending current rest')
      else O
  end.

(** The places of the example sort: the run at the head of the array is
    kept, turned round if it descends, and the other elements are inserted
    into it one after the other. *)
Definition insertionSortPlaces (A : Type) (compare : A -> A -> float)
    (l : list A) : list nat :=
  match l with
  | first :: second :: rest =>
      let descending := (compare second first <? 0)%float in
      let n := (2 + runLength compare descending second rest)%nat in
      let run := take n l in
      (if descending then repeat O n else seq 0 n)
        ++ insertionPlaces compare (if descending then rev run else run)
             (drop n l)
  | _ => []
  end.

(** A host in UTC whose clock reads 2025-11-10T09:30:00Z, with a collation
    by character codes and a binary insertion sort. *)
Definition exampleHost : Host :=
  mkHost parseIsoDay (fun t => t - t mod 86400000) 1762767000000
    (fun _ => "Invalid Date") compareBytes parseDigits (fun _ => "NaN")
    insertionSortPlaces.

End JsValue.

(* ===================================================================== *)
(** ** HM_ConfigurableList *)
(* ===================================================================== *)

(** The class whose formatters read [Number(value)] and whose
    [getCellValue] reads the row's cells only. The bundle
    [hmConfigurableList] carries a later copy with virtual columns and a
    [parseNumber] helper: its pagination methods, [sortRows],
    [compareCellValues] and the body of [calculateDaysBadge] are the ones
    embedded here, while its formatters, [getCellValue] and the column
    lookup of [applyFilter] differ. *)

Module ConfigurableList.

Import Js JsValue.

(** *** Constants *)

Definition FORMAT_CURRENCY : string := "Currency".
Definition FORMAT_NUMBER : string := "Number".
Definition FORMAT_PERCENT : string := "Percent".
Definition FORMAT_DATE : string := "Date".
Definition FORMAT_TEXT : string := "Text".

Definition DEFAULT_PAGE_SIZE : Z := 25.

Definition FILTER_ACTIVE : string := "cc-filter-btn cc-filter-btn-active".
Definition FILTER_INACTIVE : string := "cc-filter-btn".

Definition SORT_ASC : string := "asc".
Definition SORT_DESC : string := "desc".

Definition BADGE_DAYS_UNTIL_OVER : string := "Days Until/Over".
Definition BADGE_DAYS_LEFT : string := "Days Left".
Definition BADGE_NONE : string := "None".

(** *** Formatting *)

(** [formatCurrency] *)
Definition formatCurrency (h : Host) (value : jsval) : string :=
  let num := toNumber h value in
  if is_nan num then toString h value
  else if (1000000 <=? num)%float then
    "$" ++ toFixed h (num / 1000000)%float 1 ++ "M"
  else if (1000 <=? num)%float then
    "$" ++ toFixed h (num / 1000)%float 0 ++ "K"
  else "$" ++ toFixed h num 0.

(** *** Badges *)

Record Badge := mkBadge {
  text : string;
  variant : string;
  icon : string;
  className : string
}.

Definition MS_PER_DAY : Z := 1000 * 60 * 60 * 24.

(** The match of [/^(Success|Warning|Error)/i]: the matched text. *)
Definition variantMatch (s : string) : option string :=
  let l7 := substring 0 7 s in
  let l5 := substring 0 5 s in
  if String.eqb (toLowerCase l7) "success" then Some l7
  else if String.eqb (toLowerCase l7) "warning" then Some l7
  else if String.eqb (toLowerCase l5) "error" then Some l5
  else None.

(** The variant named by the configured override, if one is in force. *)
Definition baseVariantOf (overrideVariant : option string) : option string :=
  match overrideVariant with
  | Some o =>
      if nonEmpty o && negb (String.eqb o "Auto") then
        match variantMatch o with
        | Some m => Some (toLowerCase m)
        | None => Some (toLowerCase o)
        end
      else None
  | None => None
  end.

(** [baseVariant || computed] *)
Definition orElse (baseVariant : option string) (computed : string) : string :=
  match baseVariant with
  | Some b => if nonEmpty b then b else computed
  | None => computed
  end.

(** The date that [calculateDaysBadge] reads from its argument; the outer
    [None] is the early [return null] for a value that is neither a date,
    a string nor a number. *)
Definition badgeDate (h : Host) (dateValue : jsval) : option (option Z) :=
  match dateValue with
  | VDate t => Some t
  | VStr s =>
      let date := Date_parse h s in
      match date, isoDatePrefix s with
      | None, Some _ => Some (Date_parse h (substring 0 10 s ++ "T00:00:00"))
      | _, _ => Some date
      end
  | VNum x => Some (timeClip x)
  | _ => None
  end.

(** Whole days from today's local midnight to the date's local midnight. *)
Definition diffDaysOf (h : Host) (t : Z) : Z :=
  let today := startOfLocalDay h (now h) in
  let targetDate := startOfLocalDay h t in
  let diffTime := targetDate - today in
  diffTime / MS_PER_DAY.

(** [calculateDaysBadge] *)
Definition calculateDaysBadge (h : Host) (dateValue : jsval)
    (overrideVariant : option string) : option Badge :=
  if negb (truthy dateValue) then None
  else
    match badgeDate h dateValue with
    | None => None
    | Some None => None
    | Some (Some t) =>
        let diffDays := diffDaysOf h t in
        let baseVariant := baseVariantOf overrideVariant in
        let '(badgeText, variant, iconName) :=
          if (0 <? diffDays)%Z then
            (numToString diffDays ++ "d Left",
             orElse baseVariant
               (if (diffDays <=? 3)%Z then "warning" else "success"),
             "utility:clock")
          else if (diffDays <? 0)%Z then
            (numToString (Z.abs diffDays) ++ "d Over",
             orElse baseVariant "error",
             "utility:warning")
          else
            ("Today", orElse baseVariant "warning", "utility:clock") in
        Some (mkBadge badgeText variant iconName
                ("cc-custom-badge cc-badge-" ++ variant))
    end.

(** The badge that [createCellForColumn] stores in a cell. *)
Definition cellBadge (h : Host) (badgeType badgeVariant : option string)
    (value : jsval) : option Badge :=
  match badgeType with
  | Some bt =>
      if (String.eqb bt BADGE_DAYS_UNTIL_OVER || String.eqb bt BADGE_DAYS_LEFT)
         && negb (isNullish value)
      then calculateDaysBadge h value badgeVariant
      else None
  | None => None
  end.

(** *** Rows, columns and the component's state *)

Record Cell := mkCell {
  key : string;
  value : option string;
  rawValue : jsval;
  applicable : bool;
  badge : option Badge;
  hasBadgeType : bool
}.

(** A row object. [ref] is the object's identity: the property
    [visibleCells], which [applyFilter] rewrites in place, is kept per
    identity in the state, so that every array holding the row sees it. *)
Record Row := mkRow {
  ref : nat;
  id : string;
  objectType : string;
  rowIcon : option string;
  cells : list Cell
}.

Record Column := mkColumn {
  colKey : string;
  formatType : string;
  colObjectType : list string;
  sortable : bool;
  colSortDirection : option string;
  sortIcon : option string;
  sortAlternativeText : string;
  headerClass : string;
  title : string
}.

Record Filter := mkFilter {
  filterValue : string;
  active : bool;
  class : string
}.

Record DetailMap := mkDetailMap {
  mapObjectType : option (list string)
}.

Record Config := mkConfig {
  detailMaps : option (list DetailMap)
}.

(** The fields of the component. Arrays of rows live in the store [arrays]
    and are held by reference (an index into the store): [rows] and
    [filteredRows] name entries of it, and may name the same one. *)
Record State := mkState {
  arrays : list (list Row);
  visibleCells : gmap nat (list Cell);
  componentConfig : option Config;
  columns : list Column;
  rows : nat;
  filteredRows : nat;
  filters : list Filter;
  activeFilter : option string;
  currentPage : Z;
  recordsPerPage : Z;
  enablePagination : bool;
  totalPages : Z;
  sortColumn : option string;
  sortDirection : string;
  enableColumnSorting : bool
}.

Definition set_arrays (v : list (list Row)) (st : State) : State :=
  mkState v (visibleCells st) (componentConfig st) (columns st) (rows st)
    (filteredRows st) (filters st) (activeFilter st) (currentPage st)
    (recordsPerPage st) (enablePagination st) (totalPages st) (sortColumn st)
    (sortDirection st) (enableColumnSorting st).
Definition set_visibleCells (v : gmap nat (list Cell)) (st : State) : State :=
  mkState (arrays st) v (componentConfig st) (columns st) (rows st)
    (filteredRows st) (filters st) (activeFilter st) (currentPage st)
    (recordsPerPage st) (enablePagination st) (totalPages st) (sortColumn st)
    (sortDirection st) (enableColumnSorting st).
Definition set_componentConfig (v : option Config) (st : State) : State :=
  mkState (arrays st) (visibleCells st) v (columns st) (rows st)
    (filteredRows st) (filters st) (activeFilter st) (currentPage st)
    (recordsPerPage st) (enablePagination st) (totalPages st) (sortColumn st)
    (sortDirection st) (enableColumnSorting st).
Definition set_columns (v : list Column) (st : State) : State :=
  mkState (arrays st) (visibleCells st) (componentConfig st) v (rows st)
    (filteredRows st) (filters st) (activeFilter st) (currentPage st)
    (recordsPerPage st) (enablePagination st) (totalPages st) (sortColumn st)
    (sortDirection st) (enableColumnSorting st).
Definition set_rows (v : nat) (st : State) : State :=
  mkState (arrays st) (visibleCells st) (componentConfig st) (columns st) v
    (filteredRows st) (filters st) (activeFilter st) (currentPage st)
    (recordsPerPage st) (enablePagination st) (totalPages st) (sortColumn st)
    (sortDirection st) (enableColumnSorting st).
Definition set_filteredRows (v : nat) (st : State) : State :=
  mkState (arrays st) (visibleCells st) (componentConfig st) (columns st)
    (rows st) v (filters st) (activeFilter st) (currentPage st)
    (recordsPerPage st) (enablePagination st) (totalPages st) (sortColumn st)
    (sortDirection st) (enableColumnSorting st).
Definition set_filters (v : list Filter) (st : State) : State :=
  mkState (arrays st) (visibleCells st) (componentConfig st) (columns st)
    (rows st) (filteredRows st) v (activeFilter st) (currentPage st)
    (recordsPerPage st) (enablePagination st) (totalPages st) (sortColumn st)
    (sortDirection st) (enableColumnSorting st).
Definition set_activeFilter (v : option string) (st : State) : State :=
  mkState (arrays st) (visibleCells st) (componentConfig st) (columns st)
    (rows st) (filteredRows st) (filters st) v (currentPage st)
    (recordsPerPage st) (enablePagination st) (totalPages st) (sortColumn st)
    (sortDirection st) (enableColumnSorting st).
Definition set_currentPage (v : Z) (st : State) : State :=
  mkState (arrays st) (visibleCells st) (componentConfig st) (columns st)
    (rows st) (filteredRows st) (filters st) (activeFilter st) v
    (recordsPerPage st) (enablePagination st) (totalPages st) (sortColumn st)
    (sortDirection st) (enableColumnSorting st).
Definition set_recordsPerPage (v : Z) (st : State) : State :=
  mkState (arrays st) (visibleCells st) (componentConfig st) (columns st)
    (rows st) (filteredRows st) (filters st) (activeFilter st)
    (currentPage st) v (enablePagination st) (totalPages st) (sortColumn st)
    (sortDirection st) (enableColumnSorting st).
Definition set_enablePagination (v : bool) (st : State) : State :=
  mkState (arrays st) (visibleCells st) (componentConfig st) (columns st)
    (rows st) (filteredRows st) (filters st) (activeFilter st)
    (currentPage st) (recordsPerPage st) v (totalPages st) (sortColumn st)
    (sortDirection st) (enableColumnSorting st).
Definition set_totalPages (v : Z) (st : State) : State :=
  mkState (arrays st) (visibleCells st) (componentConfig st) (columns st)
    (rows st) (filteredRows st) (filters st) (activeFilter st)
    (currentPage st) (recordsPerPage st) (enablePagination st) v
    (sortColumn st) (sortDirection st) (enableColumnSorting st).
Definition set_sortColumn (v : option string) (st : State) : State :=
  mkState (arrays st) (visibleCells st) (componentConfig st) (columns st)
    (rows st) (filteredRows st) (filters st) (activeFilter st)
    (currentPage st) (recordsPerPage st) (enablePagination st) (totalPages st)
    v (sortDirection st) (enableColumnSorting st).
Definition set_sortDirection (v : string) (st : State) : State :=
  mkState (arrays st) (visibleCells st) (componentConfig st) (columns st)
    (rows st) (filteredRows st) (filters st) (activeFilter st)
    (currentPage st) (recordsPerPage st) (enablePagination st) (totalPages st)
    (sortColumn st) v (enableColumnSorting st).
Definition set_enableColumnSorting (v : bool) (st : State) : State :=
  mkState (arrays st) (visibleCells st) (componentConfig st) (columns st)
    (rows st) (filteredRows st) (filters st) (activeFilter st)
    (currentPage st) (recordsPerPage st) (enablePagination st) (totalPages st)
    (sortColumn st) (sortDirection st) v.

(** The array behind a reference. *)
Definition arrayAt (st : State) (a : nat) : list Row :=
  default [] (arrays st !! a).

(** A new array holding [l]; its reference. *)
Definition newArray (l : list Row) : M State nat :=
  fun st => (length (arrays st), set_arrays (arrays st ++ [l]) st).

(** [array.slice(start, end)] *)
Definition slice {A : Type} (l : list A) (start stop : Z) : list A :=
  let len := Z.of_nat (length l) in
  let from := if (start <? 0)%Z then Z.max (len + start) 0 else Z.min start len in
  let to := if (stop <? 0)%Z then Z.max (len + stop) 0 else Z.min stop len in
  take (Z.to_nat (Z.max (to - from) 0)) (drop (Z.to_nat from) l).

(** [Math.ceil(a / b)] on integers, [b] not 0. *)
Definition ceilDiv (a b : Z) : Z := - ((- a) / b).

(** *** Sorting *)

(** [array.find(p)] *)
Fixpoint findFirst {A : Type} (p : A -> bool) (l : list A) : option A :=
  match l with
  | [] => None
  | x :: rest => if p x then Some x else findFirst p rest
  end.

(** [getCellValue] *)
Definition getCellValue (row : Row) (columnKey : string) : jsval :=
  match findFirst (fun c => String.eqb (key c) columnKey) (cells row) with
  | Some cell => rawValue cell
  | None => VNull
  end.

(** [Number(v) || 0] *)
Definition numberOrZero (h : Host) (v : jsval) : float :=
  let x := toNumber h v in
  if is_nan x || (x =? 0)%float then 0%float else x.

(** [a.getTime() - b.getTime()] *)
Definition timeDifference (a b : option Z) : float :=
  match a, b with
  | Some ta, Some tb => (ofZ ta - ofZ tb)%float
  | _, _ => nan
  end.

(** [String(v || "").toLowerCase()] *)
Definition lowerText (h : Host) (v : jsval) : string :=
  toLowerCase (if truthy v then toString h v else "").

(** [compareCellValues] *)
Definition compareCellValues (h : Host) (aValue bValue : jsval)
    (formatType direction : string) : float :=
  if isNullish aValue then 1%float
  else if isNullish bValue then (-1)%float
  else
    let comparison :=
      if String.eqb formatType FORMAT_CURRENCY
         || String.eqb formatType FORMAT_NUMBER then
        (numberOrZero h aValue - numberOrZero h bValue)%float
      else if String.eqb formatType FORMAT_DATE then
        timeDifference (dateOf h aValue) (dateOf h bValue)
      else if String.eqb formatType FORMAT_PERCENT then
        (numberOrZero h aValue - numberOrZero h bValue)%float
      else
        ofZ (localeCompare h (lowerText h aValue) (lowerText h bValue)) in
    if String.eqb direction SORT_ASC then comparison
    else (- comparison)%float.

(** The comparator that [sortRows] hands to [sort]. *)
Definition rowCompare (h : Host) (columnKey direction formatType : string)
    (a b : Row) : float :=
  compareCellValues h (getCellValue a columnKey) (getCellValue b columnKey)
    formatType direction.

(** [sortRows]: [[...rows]] is a new array, which [sort] reorders in place
    and returns. *)
Definition sortRows (h : Host) (rowsRef : nat)
    (columnKey direction formatType : string) : M State nat :=
  let! content := gets (fun st => arrayAt st rowsRef) in
  let! copy := newArray content in
  modify (fun st =>
            set_arrays
              (<[copy := sortArray h
                           (rowCompare h columnKey direction formatType)
                           (arrayAt st copy)]> (arrays st)) st);;
  ret copy.

(** *** Visible columns *)

(** [columnAppliesToObject] *)
Definition columnAppliesToObject (column : Column) (objectType : string)
  : bool :=
  if (length (colObjectType column) =? 0)%nat then true
  else includes objectType (colObjectType column).

(** [findCellForColumn] *)
Definition findCellForColumn (row : Row) (column : Column) : Cell :=
  match findFirst (fun c => String.eqb (key c) (colKey column)) (cells row) with
  | Some cell => cell
  | None => mkCell (colKey column) None VNull false None false
  end.

(** The elements of an array in the order of their first occurrence, as a
    [Set] keeps them. *)
Fixpoint unique (l : list string) : list string :=
  match l with
  | [] => []
  | x :: rest => x :: List.filter (fun y => negb (String.eqb x y)) (unique rest)
  end.

(** [inferObjectType] *)
Definition inferObjectType : M State (option string) :=
  let! rowsRef := gets rows in
  let! allRows := gets (fun st => arrayAt st rowsRef) in
  let fromRows :=
    unique (List.filter nonEmpty (map objectType allRows)) in
  match fromRows with
  | [only] => ret (Some only)
  | _ =>
      let! config := gets componentConfig in
      match config with
      | Some (mkConfig (Some maps)) =>
          let objectTypes :=
            unique
              (flat_map (fun m => match mapObjectType m with
                                  | Some types => types
                                  | None => []
                                  end) maps) in
          match objectTypes with
          | [only] => ret (Some only)
          | _ => ret None
          end
      | _ => ret None
      end
  end.

(** Columns without a restriction to object types. *)
Definition unrestricted (column : Column) : bool :=
  (length (colObjectType column) =? 0)%nat.

(** The getter [visibleColumns]. *)
Definition visibleColumns : M State (list Column) :=
  let! activeFilter := gets activeFilter in
  let! columns := gets columns in
  if negb (isSet activeFilter) then
    let! inferredObjectType := inferObjectType in
    match inferredObjectType with
    | Some t =>
        if nonEmpty t then
          ret (List.filter (fun c => columnAppliesToObject c t) columns)
        else ret (List.filter unrestricted columns)
    | None => ret (List.filter unrestricted columns)
    end
  else
    ret (List.filter
           (fun c => columnAppliesToObject c (default "" activeFilter))
           columns).

(** *** Filtering *)

(** [updatePagination] *)
Definition updatePagination : M State unit :=
  let! enabled := gets enablePagination in
  if negb enabled then assign set_totalPages 1
  else
    let! filtered := gets (fun st => arrayAt st (filteredRows st)) in
    let totalRecords := Z.of_nat (length filtered) in
    let! perPage := gets recordsPerPage in
    assign set_totalPages (Z.max 1 (ceilDiv totalRecords perPage));;
    let! current := gets currentPage in
    let! total := gets totalPages in
    when_ (total <? current)%Z (assign set_currentPage total).

(** [applyFilter], block by block: the rows of the active filter, ... *)
Definition filterByObjectType : M State unit :=
  let! selected := gets activeFilter in
  let! rowsRef := gets rows in
  if isSet selected && negb (String.eqb (default "" selected) "all") then
    let! allRows := gets (fun st => arrayAt st rowsRef) in
    let! kept :=
      newArray
        (List.filter
           (fun row => String.eqb (objectType row) (default "" selected))
           allRows) in
    assign set_filteredRows kept
  else assign set_filteredRows rowsRef.

(** ... the visible cells of each of them, in the order of the visible
    columns, ... *)
Definition refreshVisibleCells : M State unit :=
  let! filtered := gets (fun st => arrayAt st (filteredRows st)) in
  forEach filtered (fun row =>
    let! visible := visibleColumns in
    modify (fun st =>
              set_visibleCells
                (<[ref row := map (findCellForColumn row) visible]>
                   (visibleCells st)) st)).

(** ... the sort of the whole filtered array, ... *)
Definition sortFiltered (h : Host) : M State unit :=
  let! sorting := gets enableColumnSorting in
  let! sortKey := gets sortColumn in
  if sorting && isSet sortKey then
    let! all := gets columns in
    match findFirst (fun col => String.eqb (colKey col) (default "" sortKey))
            all with
    | Some column =>
        let! filteredRef := gets filteredRows in
        let! direction := gets sortDirection in
        let! sorted :=
          sortRows h filteredRef (default "" sortKey) direction
            (formatType column) in
        assign set_filteredRows sorted
    | None => ret tt
    end
  else ret tt.

(** ... the state of the filter buttons, ... *)
Definition markActiveFilter : M State unit :=
  let! current := gets activeFilter in
  let! all := gets filters in
  assign set_filters
    (map (fun f =>
            let isActive :=
              match current with
              | Some v => String.eqb (filterValue f) v
              | None => false
              end in
            mkFilter (filterValue f) isActive
              (if isActive then FILTER_ACTIVE else FILTER_INACTIVE))
       all).

(** ... and the first page. *)
Definition applyFilter (h : Host) : M State unit :=
  filterByObjectType;;
  refreshVisibleCells;;
  sortFiltered h;;
  markActiveFilter;;
  assign set_currentPage 1;;
  updatePagination.

(** [handleFilterClick]; the argument is [dataset.filter]. *)
Definition handleFilterClick (h : Host) (filterValue : option string)
  : M State unit :=
  if isSet filterValue then
    assign set_activeFilter filterValue;; applyFilter h
  else ret tt.

(** *** Pagination *)

(** The getter [paginatedRows]. *)
Definition paginatedRows : M State (list Row) :=
  let! enabled := gets enablePagination in
  let! filtered := gets (fun st => arrayAt st (filteredRows st)) in
  if negb enabled then ret filtered
  else
    let! current := gets currentPage in
    let! perPage := gets recordsPerPage in
    let startIndex := (current - 1) * perPage in
    let endIndex := startIndex + perPage in
    ret (slice filtered startIndex endIndex).

(** [handlePageChange]; the argument is [parseInt(dataset.page, 10)],
    [None] when that is [NaN]. *)
Definition handlePageChange (page : option Z) : M State unit :=
  let! total := gets totalPages in
  match page with
  | Some p =>
      if negb (p =? 0)%Z && (1 <=? p)%Z && (p <=? total)%Z then
        assign set_currentPage p
      else ret tt
  | None => ret tt
  end.

(** [handlePreviousPage] *)
Definition handlePreviousPage : M State unit :=
  let! current := gets currentPage in
  if (1 <? current)%Z then assign set_currentPage (current - 1) else ret tt.

(** [handleNextPage] *)
Definition handleNextPage : M State unit :=
  let! current := gets currentPage in
  let! total := gets totalPages in
  if (current <? total)%Z then assign set_currentPage (current + 1)
  else ret tt.

(** *** Column sorting *)

Definition COL_DATA : string := "cc-col-data".
Definition COL_SORTABLE : string := "cc-col-sortable".
Definition COL_SORTED : string := "cc-col-sorted".
Definition SORT_ICON_ASC : string := "utility:arrowup".
Definition SORT_ICON_DESC : string := "utility:arrowdown".

(** [computeColumnHeaderClass] *)
Definition computeColumnHeaderClass (column : Column) : string :=
  let classes := COL_DATA in
  let classes :=
    if sortable column then classes ++ " " ++ COL_SORTABLE else classes in
  if isSet (colSortDirection column) then classes ++ " " ++ COL_SORTED
  else classes.

(** [updateColumnSortState] *)
Definition updateColumnSortState : M State unit :=
  let! sortKey := gets sortColumn in
  let! direction := gets sortDirection in
  let! all := gets columns in
  assign set_columns
    (map (fun col =>
            let ascending := String.eqb direction SORT_ASC in
            let col :=
              if match sortKey with
                 | Some k => String.eqb (colKey col) k
                 | None => false
                 end
              then
                mkColumn (colKey col) (formatType col) (colObjectType col)
                  (sortable col) (Some direction)
                  (Some (if ascending then SORT_ICON_ASC else SORT_ICON_DESC))
                  (if ascending then "Sorted ascending"
                   else "Sorted descending")
                  (headerClass col) (title col)
              else
                mkColumn (colKey col) (formatType col) (colObjectType col)
                  (sortable col) None None "" (headerClass col) (title col) in
            mkColumn (colKey col) (formatType col) (colObjectType col)
              (sortable col) (colSortDirection col) (sortIcon col)
              (sortAlternativeText col) (computeColumnHeaderClass col)
              (if sortable col then "Click to sort" else ""))
       all).

(** [handleColumnSort]; the argument is [dataset.columnKey]. *)
Definition handleColumnSort (h : Host) (columnKey : option string)
  : M State unit :=
  let! sorting := gets enableColumnSorting in
  if negb sorting then ret tt
  else if negb (isSet columnKey) then ret tt
  else
    let! sortKey := gets sortColumn in
    let! direction := gets sortDirection in
    (if match sortKey with
        | Some k => String.eqb k (default "" columnKey)
        | None => false
        end
     then
       assign set_sortDirection
         (if String.eqb direction SORT_ASC then SORT_DESC else SORT_ASC)
     else
       assign set_sortColumn columnKey;;
       assign set_sortDirection SORT_ASC);;
    updateColumnSortState;;
    applyFilter h.

(** *** The page bar *)

Definition PAGINATION_PAGE : string := "cc-pagination-page".
Definition PAGINATION_PAGE_ACTIVE : string :=
  "cc-pagination-page cc-pagination-page-active".

(** An entry of the page bar: the button of a page, or an ellipsis, which
    has neither number nor class nor label. *)
Record PageNumber := mkPageNumber {
  number : option Z;
  pageType : string;
  pageClass : option string;
  ariaLabel : option string
}.

(** [createPageNumberObject] *)
Definition createPageNumberObject (pageNumber : Z) (isActive : bool)
  : PageNumber :=
  mkPageNumber (Some pageNumber) "page"
    (Some (if isActive then PAGINATION_PAGE_ACTIVE else PAGINATION_PAGE))
    (Some ("Go to page " ++ numToString pageNumber)).

(** The values of [i] in [for (let i = first; i <= last; i++)]. *)
Definition fromTo (first last : Z) : list Z := seqZ first (last - first + 1).

(** [createSmartPageNumbers] *)
Definition createSmartPageNumbers : M State (list PageNumber) :=
  let! current := gets currentPage in
  let! total := gets totalPages in
  let showAround := 1 in
  let pages :=
    if (1 <? total)%Z then [createPageNumberObject 1 (current =? 1)%Z]
    else [] in
  let startPage := Z.max 2 (current - showAround) in
  let endPage := Z.min (total - 1) (current + showAround) in
  let endPage :=
    if (current <=? showAround + 1)%Z then Z.min (total - 1) 3 else endPage in
  let startPage :=
    if (total - showAround <=? current)%Z then Z.max 2 (total - 2)
    else startPage in
  let pages :=
    if (2 <? startPage)%Z then
      (pages ++ [mkPageNumber None "ellipsis-start" None None])%list
    else pages in
  let pages :=
    (pages ++ map (fun i => createPageNumberObject i (i =? current)%Z)
                (fromTo startPage endPage))%list in
  let pages :=
    if (endPage <? total - 1)%Z then
      (pages ++ [mkPageNumber None "ellipsis-end" None None])%list
    else pages in
  let pages :=
    if (1 <? total)%Z && (endPage <? total)%Z then
      (pages ++ [createPageNumberObject total (current =? total)%Z])%list
    else pages in
  ret pages.

(** [createSimplePageNumbers] *)
Definition createSimplePageNumbers : M State (list PageNumber) :=
  let maxVisible := 5 in
  let! current := gets currentPage in
  let! total := gets totalPages in
  if (total <=? maxVisible)%Z then
    ret (map (fun i => createPageNumberObject i (i =? current)%Z)
           (fromTo 1 total))
  else createSmartPageNumbers.

(** [calculatePageNumbers], which the getter [pageNumbers] returns. *)
Definition calculatePageNumbers : M State (list PageNumber) :=
  let! total := gets totalPages in
  if (total <=? 1)%Z then ret []
  else if (total <=? 5)%Z then createSimplePageNumbers
  else createSmartPageNumbers.

(** The getters [isPreviousDisabled] and [isNextDisabled]. *)
Definition isPreviousDisabled : M State bool :=
  let! current := gets currentPage in
  ret (current <=? 1)%Z.

Definition isNextDisabled : M State bool :=
  let! current := gets currentPage in
  let! total := gets totalPages in
  ret (total <=? current)%Z.

(** *** Row icons *)

(** [rowIconConfiguration]: icon names by object type, in the order of the
    object's keys, which are distinct; a name may be [null]. Object types
    are names of Salesforce objects, never names of [Object.prototype]
    members. *)
Definition IconConfig : Type := list (string * option string).

(** [iconConfig[k]] *)
Definition iconFor (iconConfig : IconConfig) (k : string) : option string :=
  match findFirst (fun entry => String.eqb (fst entry) k) iconConfig with
  | Some entry => snd entry
  | None => None
  end.

(** [name && name.trim().length > 0] *)
Definition isIconName (name : option string) : bool :=
  match name with
  | Some s => nonEmpty s && (0 <? String.length (trim s))%nat
  | None => false
  end.

(** [getRowIcon]; [rowIconConfiguration] is [None] when the component has
    no configuration or the configuration has no icons. *)
Definition getRowIcon (rowIconConfiguration : option IconConfig)
    (objectType : option string) : option string :=
  match rowIconConfiguration with
  | None => None
  | Some iconConfig =>
      if negb (isSet objectType) then None
      else
        let objectType := default "" objectType in
        if isIconName (iconFor iconConfig objectType) then
          iconFor iconConfig objectType
        else
          let objectTypeLower := toLowerCase objectType in
          match findFirst
                  (fun entry =>
                     String.eqb (toLowerCase (fst entry)) objectTypeLower
                     && isIconName (snd entry)) iconConfig with
          | Some entry => snd entry
          | None =>
              let defaultIcon :=
                if isSet (iconFor iconConfig "*") then iconFor iconConfig "*"
                else iconFor iconConfig "default" in
              if isIconName defaultIcon then defaultIcon else None
          end
  end.

(** *** Vocabulary of the statements about the list *)

(** The rows that the list shows: those of the array behind
    [filteredRows]. *)
Definition shownRows (st : State) : list Row := arrayAt st (filteredRows st).

(** The rows of the active filter, in the order in which they were loaded. *)
Definition matchingRows (st : State) : list Row :=
  if isSet (activeFilter st)
     && negb (String.eqb (default "" (activeFilter st)) "all")
  then
    List.filter
      (fun row => String.eqb (objectType row) (default "" (activeFilter st)))
      (arrayAt st (rows st))
  else arrayAt st (rows st).

(** The references of the component name arrays. *)
Definition validReferences (st : State) : Prop :=
  is_Some (arrays st !! rows st) /\ is_Some (arrays st !! filteredRows st).

(** A row without a value in the sort column. *)
Definition lacksValue (columnKey : string) (row : Row) : bool :=
  isNullish (getCellValue row columnKey).

(** The pagination fields agree with the rows shown. *)
Definition paginationConsistent (st : State) : Prop :=
  totalPages st =
    (if enablePagination st then
       Z.max 1 (ceilDiv (Z.of_nat (length (shownRows st))) (recordsPerPage st))
     else 1)
  /\ 1 <= currentPage st <= totalPages st.

(** The variant computed from the number of days. *)
Definition computedVariant (n : Z) : string :=
  if (0 <? n)%Z then (if (n <=? 3)%Z then "warning" else "success")
  else if (n <? 0)%Z then "error"
  else "warning".

(** The text computed from the number of days. *)
Definition badgeText (n : Z) : string :=
  if (0 <? n)%Z then numToString n ++ "d Left"
  else if (n <? 0)%Z then numToString (Z.abs n) ++ "d Over"
  else "Today".

(** The name under which an override is applied: its leading Success,
    Warning or Error, or else the whole of it, in lower case. *)
Definition overrideName (o : string) : string :=
  toLowerCase (match variantMatch o with Some m => m | None => o end).

(** The sort in force: the key of the sort column, the direction and the
    format type of the column, when sorting is enabled, a sort column is
    selected and it is one of the columns. *)
Definition activeSort (st : State) : option (string * string * string) :=
  if enableColumnSorting st && isSet (sortColumn st) then
    match findFirst
            (fun col => String.eqb (colKey col) (default "" (sortColumn st)))
            (columns st) with
    | Some column =>
        Some (default "" (sortColumn st), sortDirection st, formatType column)
    | None => None
    end
  else None.

(** The order in which [applyFilter] leaves a list of rows. *)
Definition sortedFor (h : Host) (st : State) (l : list Row) : list Row :=
  match activeSort st with
  | Some (k, d, ft) => sortArray h (rowCompare h k d ft) l
  | None => l
  end.

(** The sort settings that [applyFilter] reads. *)
Definition sortSettings (st : State) :=
  (enableColumnSorting st, sortColumn st, sortDirection st, columns st).

(** *** An example list *)

Definition amountCell (v : jsval) : Cell := mkCell "amount" None v true None false.

Definition exampleRow (n : nat) (t : string) (v : jsval) : Row :=
  mkRow n "row" t None [amountCell v].

(** Five loaded rows, the filter on Account, a descending sort on the
    currency column and pages of two rows; the pagination fields are
    stale. *)
Definition exampleList : State :=
  mkState
    [[ exampleRow 0 "Account" (VNum 30); exampleRow 1 "Case" VNull;
       exampleRow 2 "Account" (VNum 10); exampleRow 3 "Account" VNull;
       exampleRow 4 "Account" (VNum 20) ]]
    ∅ None
    [mkColumn "amount" FORMAT_CURRENCY [] true None None "" "" ""]
    0 0 [] (Some "Account") 3 2 true 7 (Some "amount") SORT_DESC true.

(** Five rows of one object type, two of them without an amount, under a
    descending sort on the currency column. *)
Definition exampleMissingAmounts : State :=
  mkState
    [[ exampleRow 0 "Account" (VNum 30); exampleRow 1 "Account" VNull;
       exampleRow 2 "Account" (VNum 10); exampleRow 3 "Account" VUndefined;
       exampleRow 4 "Account" (VNum 20) ]]
    ∅ None
    [mkColumn "amount" FORMAT_CURRENCY [] true None None "" "" ""]
    0 0 [] (Some "Account") 1 2 true 1 (Some "amount") SORT_DESC true.

(** Three rows under an ascending sort on a Date column; the value of the
    second is no date. *)
Definition exampleUnparseableDate : State :=
  mkState
    [[ exampleRow 0 "Account" (VStr "2025-03-01");
       exampleRow 1 "Account" (VStr "n/a");
       exampleRow 2 "Account" (VStr "2025-01-01") ]]
    ∅ None
    [mkColumn "amount" FORMAT_DATE [] true None None "" "" ""]
    0 0 [] None 1 10 true 1 (Some "amount") SORT_ASC true.

(** Rows to sort as texts, as dates and as numbers. *)
Definition exampleTexts : list Row :=
  [ exampleRow 0 "Account" (VStr "banana"); exampleRow 1 "Account" VNull;
    exampleRow 2 "Account" (VStr "Apple"); exampleRow 3 "Account" (VStr "cherry") ].

Definition exampleDates : list Row :=
  [ exampleRow 0 "Account" (VStr "2025-11-12"); exampleRow 1 "Account" VNull;
    exampleRow 2 "Account" (VStr "2024-01-31");
    exampleRow 3 "Account" (VStr "2025-11-10") ].

Definition exampleNumbers : list Row :=
  [ exampleRow 0 "Account" (VNum 3.5); exampleRow 1 "Account" VUndefined;
    exampleRow 2 "Account" (VStr "12"); exampleRow 3 "Account" (VNum (-1));
    exampleRow 4 "Account" (VStr "n/a") ].

(** The comparison that [compareCellValues] makes for a format type,
    before the direction is applied. *)
Definition comparisonFor (h : Host) (formatType : string) (a b : jsval)
  : float :=
  if includes formatType [FORMAT_CURRENCY; FORMAT_NUMBER; FORMAT_PERCENT] then
    (numberOrZero h a - numberOrZero h b)%float
  else if String.eqb formatType FORMAT_DATE then
    timeDifference (dateOf h a) (dateOf h b)
  else ofZ (localeCompare h (lowerText h a) (lowerText h b)).

(** The formats that [compareCellValues] compares as numbers. *)
Definition numericFormat (formatType : string) : bool :=
  includes formatType [FORMAT_CURRENCY; FORMAT_NUMBER; FORMAT_PERCENT].

(** What a row is sorted by: the number [Number(rawValue) || 0] on a
    numeric column, the time value of [new Date(rawValue)] as a number on
    a Date column, the lower-cased text on any other. *)
Definition sortNumber (h : Host) (columnKey : string) (row : Row) : float :=
  numberOrZero h (getCellValue row columnKey).

Definition sortTime (h : Host) (columnKey : string) (row : Row) : float :=
  match dateOf h (getCellValue row columnKey) with
  | Some t => ofZ t
  | None => nan
  end.

Definition sortText (h : Host) (columnKey : string) (row : Row) : string :=
  lowerText h (getCellValue row columnKey).

(** [x] may precede [y] in the direction: not greater for "asc", not less
    for any other direction. *)
Definition inDirection (direction : string) (x y : float) : bool :=
  if String.eqb direction SORT_ASC then (x <=? y)%float else (y <=? x)%float.

(** The same for texts in the host's collation. *)
Definition collatesInDirection (h : Host) (direction : string) (x y : string)
  : bool :=
  if String.eqb direction SORT_ASC then (localeCompare h x y <=? 0)%Z
  else (0 <=? localeCompare h x y)%Z.

(** Row [a] may precede row [b] in a list sorted on the column: [b] has no
    value, or both have one and what they are sorted by is in the
    direction's order. *)
Definition mayPrecede (h : Host) (columnKey direction formatType : string)
    (a b : Row) : Prop :=
  lacksValue columnKey b = true
  \/ (lacksValue columnKey a = false
      /\ lacksValue columnKey b = false
      /\ (if numericFormat formatType then
            inDirection direction (sortNumber h columnKey a)
              (sortNumber h columnKey b)
          else if String.eqb formatType FORMAT_DATE then
            inDirection direction (sortTime h columnKey a)
              (sortTime h columnKey b)
          else
            collatesInDirection h direction (sortText h columnKey a)
              (sortText h columnKey b)) = true).

(** The host's collation is an order: exchanging the texts exchanges
    "before" and "after", and "not after" is transitive. *)
Definition consistentCollation (h : Host) : Prop :=
  (forall x y, 0 < localeCompare h x y <-> localeCompare h y x < 0)
  /\ (forall x y z, localeCompare h x y <= 0 -> localeCompare h y z <= 0 ->
      localeCompare h x z <= 0).

(** The row has no value in the column, or a value that is a valid
    date. *)
Definition datedOrEmpty (h : Host) (columnKey : string) (row : Row) : bool :=
  lacksValue columnKey row
  || match dateOf h (getCellValue row columnKey) with
     | Some _ => true
     | None => false
     end.

(** What the comparator needs of a row: on a Date column, no value or a
    valid date. *)
Definition sortableRow (h : Host) (columnKey formatType : string) (row : Row)
  : Prop :=
  if numericFormat formatType then True
  else if String.eqb formatType FORMAT_DATE then
    datedOrEmpty h columnKey row = true
  else True.

(** What the comparator needs to be an order on the rows: nothing on a
    numeric column, valid dates on a Date column, and a collation that is
    an order on any other. *)
Definition comparable (h : Host) (columnKey formatType : string)
    (l : list Row) : Prop :=
  if numericFormat formatType then True
  else if String.eqb formatType FORMAT_DATE then
    Forall (fun row => datedOrEmpty h columnKey row = true) l
  else consistentCollation h.

(** *** Vocabulary of the statements about pages and columns *)

(** The pages that a page bar names, in its order. *)
Definition pagesNamed (bar : list PageNumber) : list Z := omap number bar.

(** The entry is drawn as the active page. *)
Definition drawnActive (p : PageNumber) : Prop :=
  pageClass p = Some PAGINATION_PAGE_ACTIVE.

(** Neighbouring buttons name consecutive pages, and an ellipsis stands
    between the buttons of two pages that are not consecutive. *)
Fixpoint gapsMarked (bar : list PageNumber) : Prop :=
  match bar with
  | x :: rest =>
      match number x, rest with
      | Some a, y :: rest' =>
          match number y, rest' with
          | Some b, _ => b = a + 1
          | None, z :: _ => exists b, number z = Some b /\ a + 1 < b
          | None, [] => False
          end
      | Some _, [] => True
      | None, y :: _ => is_Some (number y)
      | None, [] => False
      end
      /\ gapsMarked rest
  | [] => True
  end.

(** The rows of page [p]. *)
Definition pageRows (st : State) (p : Z) : list Row :=
  evalState paginatedRows (set_currentPage p st).

(** The cells that the list shows for a row. *)
Definition cellsShown (st : State) (row : Row) : list Cell :=
  default [] (visibleCells st !! ref row).

(** Rows are told apart by their reference. *)
Definition distinctRows (l : list Row) : Prop :=
  forall r r', In r l -> In r' l -> ref r = ref r' -> r = r'.

End ConfigurableList.

(* ===================================================================== *)
(** ** HM_ConfigurableComponentGroup *)
(* ===================================================================== *)

(** The class of the bundle [hmConfigurableComponentGroup], whose
    [layoutStyle] sets the custom property [--components-per-row]. *)

Module ComponentGroup.

Import Js.

Definition LAYOUT_TYPE_HORIZONTAL : string := "Horizontal".
Definition LAYOUT_TYPE_VERTICAL : string := "Vertical".
Definition LAYOUT_TYPE_GRID : string := "Grid".

Definition LAYOUT_HORIZONTAL : string := "hm-group-layout-horizontal".
Definition LAYOUT_VERTICAL : string := "hm-group-layout-vertical".
Definition LAYOUT_GRID : string := "hm-group-layout-grid".

Definition DEFAULT_LAYOUT : string := LAYOUT_TYPE_HORIZONTAL.

(** The group configuration sent by the server; a field is [None] when it
    is missing or null. *)
Record GroupConfig := mkGroupConfig {
  layoutType : option string;
  configComponentsPerRow : option Z
}.

Record State := mkState {
  groupConfig : option GroupConfig;
  isDarkMode : bool
}.

(** The getter [componentsPerRow]. *)
Definition componentsPerRow (st : State) : option Z :=
  match groupConfig st with
  | None => None
  | Some config => configComponentsPerRow config
  end.

(** The getter [layoutClass]. *)
Definition layoutClass (st : State) : string :=
  match groupConfig st with
  | None => LAYOUT_HORIZONTAL
  | Some config =>
      let layoutType :=
        if isSet (layoutType config) then default "" (layoutType config)
        else DEFAULT_LAYOUT in
      let layoutTypeLower := toLowerCase layoutType in
      if String.eqb layoutTypeLower (toLowerCase LAYOUT_TYPE_VERTICAL) then
        LAYOUT_VERTICAL
      else if String.eqb layoutTypeLower (toLowerCase LAYOUT_TYPE_GRID) then
        LAYOUT_GRID
      else LAYOUT_HORIZONTAL
  end.

(** The getter [layoutStyle]. *)
Definition layoutStyle (st : State) : string :=
  match componentsPerRow st with
  | Some n =>
      if negb (n =? 0)%Z then "--components-per-row: " ++ numToString n ++ ";"
      else ""
  | None => ""
  end.

(** *** Vocabulary of the statements about the layout *)

(** [a] and [b] are equal up to the case of their letters. *)
Definition equalsIgnoreCase (a b : string) : bool :=
  String.eqb (toLowerCase a) (toLowerCase b).

(** The configured layout type is, up to case, [name]. *)
Definition layoutTypeIs (st : State) (name : string) : bool :=
  match groupConfig st with
  | Some config =>
      match layoutType config with
      | Some t => equalsIgnoreCase t name
      | None => false
      end
  | None => false
  end.

(** A group of three components per row in a grid. *)
Definition exampleGroup : State :=
  mkState (Some (mkGroupConfig (Some "GRID") (Some 3))) false.

(** *** The components of the group *)

Definition COMPONENT_TYPE_TILE : string := "Tile".
Definition COMPONENT_TYPE_LIST : string := "List".

(** An entry of [groupConfig.components]: its [type], and the properties
    that the getter copies without reading them. *)
Record Component (A : Type) := mkComponent {
  type : option string;
  others : A
}.
Arguments mkComponent {A} _ _.
Arguments type {A} _.
Arguments others {A} _.

(** A component with the flags that the getter adds. *)
Record Flagged (A : Type) := mkFlagged {
  component : Component A;
  isTile : bool;
  isList : bool
}.
Arguments mkFlagged {A} _ _ _.
Arguments component {A} _.
Arguments isTile {A} _.
Arguments isList {A} _.

(** An error as the wire adapter or [connectedCallback] leaves it: nothing,
    a string, or an object with [body.message] and [message]. *)
Inductive JsError : Type :=
| NoError
| ErrorText (text : string)
| ErrorObject (bodyMessage message : option string).

(** What the getters of the loaded group read: [groupConfig.components]
    ([None] without a configuration, [Some None] when the configuration has
    no components), [isLoading] and [error]. *)
Record Loaded (A : Type) := mkLoaded {
  groupComponents : option (option (list (Component A)));
  isLoading : bool;
  error : JsError
}.
Arguments mkLoaded {A} _ _ _.
Arguments groupComponents {A} _.
Arguments isLoading {A} _.
Arguments error {A} _.

(** [comp.type && comp.type.trim().length > 0] *)
Definition hasType {A : Type} (comp : Component A) : bool :=
  match type comp with
  | Some t => nonEmpty t && (0 <? String.length (trim t))%nat
  | None => false
  end.

(** [comp.type === name] *)
Definition typeIs {A : Type} (comp : Component A) (name : string) : bool :=
  match type comp with
  | Some t => String.eqb t name
  | None => false
  end.

(** The getter [components]. *)
Definition components {A : Type} (st : Loaded A) : list (Flagged A) :=
  match groupComponents st with
  | Some (Some comps) =>
      map (fun comp =>
             mkFlagged comp (typeIs comp COMPONENT_TYPE_TILE)
               (typeIs comp COMPONENT_TYPE_LIST))
        (List.filter hasType comps)
  | _ => []
  end.

(** Truthiness of an error. *)
Definition isError (e : JsError) : bool :=
  match e with
  | NoError => false
  | ErrorText text => nonEmpty text
  | ErrorObject _ _ => true
  end.

(** The getter [hasComponents]. *)
Definition hasComponents {A : Type} (st : Loaded A) : bool :=
  if isLoading st then true
  else if isError (error st) then true
  else
    let comps := components st in
    (0 <? length comps)%nat.

(** [extractErrorMessage] *)
Definition extractErrorMessage (e : JsError) : string :=
  if negb (isError e) then "Unknown error"
  else
    match e with
    | ErrorObject bodyMessage message =>
        if isSet bodyMessage then default "" bodyMessage
        else if isSet message then default "" message
        else "Unknown error occurred"
    | ErrorText text => text
    | NoError => "Unknown error occurred"
    end.

(** The getter [errorMessage]. *)
Definition errorMessage {A : Type} (st : Loaded A) : string :=
  extractErrorMessage (error st).

End ComponentGroup.


(* ===================================================================== *)
(** * Properties *)
(* ===================================================================== *)

(** ** Strings *)

Module JsFacts.
Import Js.

Lemma append_nil_r (s : string) : s ++ "" = s.
Proof. induction s as [|a s IH]; simpl; [reflexivity | now rewrite IH]. Qed.

Lemma append_assoc (s t u : string) : (s ++ t) ++ u = s ++ (t ++ u).
Proof. induction s as [|a s IH]; simpl; [reflexivity | now rewrite IH]. Qed.

Lemma append_nonempty_r (s t : string) : t <> "" -> s ++ t <> "".
Proof. destruct s; simpl; [tauto | discriminate]. Qed.

Lemma append_nonempty_l (s t : string) : s <> "" -> s ++ t <> "".
Proof. destruct s; simpl; [tauto | discriminate]. Qed.

Lemma nonEmpty_true (s : string) : nonEmpty s = true <-> s <> "".
Proof.
  unfold nonEmpty. rewrite negb_true_iff. apply String.eqb_neq.
Qed.

Lemma nonEmpty_false (s : string) : nonEmpty s = false <-> s = "".
Proof.
  unfold nonEmpty. rewrite negb_false_iff. apply String.eqb_eq.
Qed.

Lemma replaceAll_append (c : ascii) (r s t : string) :
  replaceAll c r (s ++ t) = replaceAll c r s ++ replaceAll c r t.
Proof.
  induction s as [|a s IH]; simpl; [reflexivity|].
  now rewrite IH, append_assoc.
Qed.

(** [trim] removes the no-break space like the other white space, the
    accented capitals have their small letters, and the capital of the
    sharp s is SS. *)
Example trim_and_case_of_characters_above_127 :
  let nbsp := String (ascii_of_nat 160) "" in
  let tab := String (ascii_of_nat 9) "" in
  trim (nbsp ++ " Tile" ++ tab ++ nbsp) = "Tile"
  /\ trim (nbsp ++ " " ++ nbsp) = ""
  /\ toLowerCase (String (ascii_of_nat 201) "COLE")
     = String (ascii_of_nat 233) "cole"
  /\ toLowerCase (String (ascii_of_nat 215) "") = String (ascii_of_nat 215) ""
  /\ toUpperCase (String (ascii_of_nat 223) "") = "SS".
Proof. repeat split. Qed.

End JsFacts.

(** ** Methods as state transformers *)

Module StateFacts.
Lemma exec_bind {S A B} (m : M S A) (k : A -> M S B) (s : S) :
  execState (bind m k) s = execState (k (evalState m s)) (execState m s).
Proof. unfold execState, evalState, bind. destruct (m s); reflexivity. Qed.

Lemma eval_bind {S A B} (m : M S A) (k : A -> M S B) (s : S) :
  evalState (bind m k) s = evalState (k (evalState m s)) (execState m s).
Proof. unfold execState, evalState, bind. destruct (m s); reflexivity. Qed.

Section Keeps.
Context {S A : Type} (f : S -> A).

Lemma keeps_ret {B} (b : B) : keeps f (ret b).
Proof. intros s. reflexivity. Qed.

Lemma keeps_gets {B} (g : S -> B) : keeps f (gets g).
Proof. intros s. reflexivity. Qed.

Lemma keeps_bind {B C} (m : M S B) (k : B -> M S C) :
  keeps f m -> (forall b, keeps f (k b)) -> keeps f (bind m k).
Proof.
  intros Hm Hk s. rewrite exec_bind, Hk. apply Hm.
Qed.

Lemma keeps_modify (g : S -> S) :
  (forall s, f (g s) = f s) -> keeps f (modify g).
Proof. intros H s. apply H. Qed.

Lemma keeps_assign {B} (set : B -> S -> S) (v : B) :
  (forall s, f (set v s) = f s) -> keeps f (assign set v).
Proof. intros H s. apply H. Qed.

Lemma keeps_when (c : bool) (m : M S unit) : keeps f m -> keeps f (when_ c m).
Proof. destruct c; [trivial | intros _; apply keeps_ret]. Qed.

Lemma keeps_forEach {B} (l : list B) (body : B -> M S unit) :
  (forall x, keeps f (body x)) -> keeps f (forEach l body).
Proof.
  intros H. induction l as [|x l IH]; cbn [forEach].
  - apply keeps_ret.
  - apply keeps_bind; [apply H | intros _; exact IH].
Qed.

End Keeps.

(** Frame reasoning over the structure of a method. *)
Ltac keeps_step :=
  lazymatch goal with
  | |- keeps _ (ret _) => apply keeps_ret
  | |- keeps _ (gets _) => apply keeps_gets
  | |- keeps _ (bind _ _) => apply keeps_bind; [|intros]
  | |- keeps _ (assign _ _) => apply keeps_assign; intros; reflexivity
  | |- keeps _ (modify _) => apply keeps_modify; intros; reflexivity
  | |- keeps _ (when_ _ _) => apply keeps_when
  | |- keeps _ (forEach _ _) => apply keeps_forEach; intros
  | |- keeps _ (if ?c then _ else _) => destruct c
  | |- keeps _ (match ?x with _ => _ end) => destruct x
  | |- keeps _ (let '(_, _) := ?x in _) => destruct x
  end.

Ltac keeps_tac := repeat keeps_step.

End StateFacts.

(** ** SOQL generation *)

Module QueryBuilderFacts.
Import Js JsFacts QueryBuilder.

(** The two passes of [escapeSoqlValue] escape character by character. *)
Lemma escapeSoqlValue_each (v : jsvalue) :
  escapeSoqlValue v = escapeEach (rawValue v).
Proof.
  destruct v as [| |s]; [reflexivity..|]. simpl.
  induction s as [|a s IH]; [reflexivity|].
  cbn [replaceAll escapeEach]. rewrite replaceAll_append, IH. f_equal.
  unfold escapeChar.
  destruct (Ascii.eqb a backslash) eqn:Eb.
  - reflexivity.
  - cbn. destruct (Ascii.eqb a quote); reflexivity.
Qed.

(** Reading an escaped value back: the scan runs through it and continues
    with what follows. *)
Lemma scanLiteral_escapeEach (s rest : string) :
  scanLiteral (escapeEach s ++ rest) =
  match scanLiteral rest with
  | Some (body, after) => Some (s ++ body, after)
  | None => None
  end.
Proof.
  induction s as [|a s IH]; simpl.
  - destruct (scanLiteral rest) as [[? ?]|]; reflexivity.
  - unfold escapeChar.
    destruct (Ascii.eqb a backslash) eqn:Eb.
    + apply Ascii.eqb_eq in Eb. subst a. cbn -[scanLiteral escapeEach].
      cbn [scanLiteral]. change (Ascii.eqb backslash quote) with false.
      rewrite Ascii.eqb_refl. cbv iota. rewrite IH.
      destruct (scanLiteral rest) as [[? ?]|]; reflexivity.
    + destruct (Ascii.eqb a quote) eqn:Eq.
      * apply Ascii.eqb_eq in Eq. subst a. cbn -[scanLiteral escapeEach].
        cbn [scanLiteral]. change (Ascii.eqb backslash quote) with false.
        rewrite Ascii.eqb_refl. cbv iota. rewrite IH.
        destruct (scanLiteral rest) as [[? ?]|]; reflexivity.
      * cbn -[scanLiteral escapeEach]. cbn [scanLiteral].
        rewrite Eq, Eb. rewrite IH.
        destruct (scanLiteral rest) as [[? ?]|]; reflexivity.
Qed.


Lemma scanLiteral_plain (a : ascii) (s : string) :
  plainChar a = true ->
  scanLiteral (String a s) =
  match scanLiteral s with
  | Some (body, after) => Some (String a body, after)
  | None => None
  end.
Proof.
  unfold plainChar. intros H. apply andb_prop in H as [H1 H2].
  apply negb_true_iff in H1, H2. cbn [scanLiteral]. now rewrite H1, H2.
Qed.

(** A quoted literal built around an escaped value is read back whole: its
    content is the value between the wildcards, and it ends at the quote
    that the template wrote. *)
Lemma scanLiteral_wrapped (wl wr close s : string) :
  allChars plainChar wl = true -> allChars plainChar wr = true ->
  scanLiteral (wl ++ escapeEach s ++ wr ++ String quote close)
  = Some (wl ++ s ++ wr, close).
Proof.
  intros Hl Hr. induction wl as [|a wl IH].
  - cbn [append]. rewrite scanLiteral_escapeEach.
    assert (Hw : scanLiteral (wr ++ String quote close) = Some (wr, close)).
    { clear Hl. induction wr as [|b wr IHr]; [reflexivity|].
      cbn [allChars] in Hr. apply andb_prop in Hr as [Hb Hr].
      cbn [append]. rewrite scanLiteral_plain by exact Hb. now rewrite IHr. }
    now rewrite Hw.
  - cbn [allChars] in Hl. apply andb_prop in Hl as [Ha Hl].
    cbn [append]. rewrite scanLiteral_plain by exact Ha. now rewrite IH.
Qed.

(** Case analysis on the next string test of the goal; in the positive case
    the tested string is replaced by the literal it equals. *)
Ltac string_case :=
  match goal with
  | |- context [String.eqb ?a ?b] =>
      let E := fresh "E" in
      destruct (String.eqb a b) eqn:E;
      [ apply String.eqb_eq in E; try subst a | ]
  end.

Ltac eval_tests :=
  cbn [String.eqb Ascii.eqb Bool.eqb orb andb negb] in *.

Ltac bool_case :=
  match goal with
  | |- context [if ?b then _ else _] => destruct b eqn:?
  end.

Ltac clause_cases :=
  repeat (first [string_case | bool_case]; eval_tests; try discriminate).

Ltac quoted_shape hd l r cl :=
  exists hd, l, r, cl;
  split; [ rewrite ?append_assoc; reflexivity | ];
  split; [ apply escapeSoqlValue_each | ];
  rewrite escapeSoqlValue_each; apply scanLiteral_wrapped; reflexivity.

(** X2: The value of a numeric, boolean or date field, and the count of a date
    literal, end the clause exactly as they were entered. *)
Lemma unquoted_value_is_verbatim (c : Condition) :
  insertsVerbatim c = true ->
  exists head, buildConditionClause c = head ++ toString (value c).
Proof.
  destruct c as [i f l t o v j w].
  unfold insertsVerbatim, buildConditionClause, includes.
  cbn -[String.eqb escapeSoqlValue isUserId truthy dateFormatPattern
        isValidDateFormat append].
  intros H. clause_cases;
    rewrite <- ?append_assoc; eexists; reflexivity.
Qed.

Lemma unquoted_value_is_verbatim_witness :
  insertsVerbatim numericInjection = true
  /\ exists head,
       buildConditionClause numericInjection
       = head ++ toString (value numericInjection).
Proof.
  split; [reflexivity|].
  apply (unquoted_value_is_verbatim numericInjection). reflexivity.
Defined.

(** C1: the builder breaks the claim, and its own "All user inputs are
    escaped before SOQL construction". The value entered for a condition on
    an INTEGER field reaches the clause as it is: its single quotes are
    written without a backslash, and the one condition reads as two
    comparisons joined by OR. The same happens on a text field to a value
    that starts like an ISO date, since the pattern that recognises a date
    looks at the start of the value only: the quote of the value is written
    unescaped, with no literal around it. *)
Theorem numeric_value_is_not_escaped :
  incorporatesValue numericInjection = true
  /\ buildConditionClause numericInjection = "Amount = 0 OR Name != 'x'"
  /\ isSubstring (escapeSoqlValue (value numericInjection))
       (buildConditionClause numericInjection) = false
  /\ whereClauseOf [numericInjection] = "Amount = 0 OR Name != 'x'"
  /\ incorporatesValue dateLookalike = true
  /\ fieldType dateLookalike = "STRING"
  /\ buildConditionClause dateLookalike = "Name = 2024-01-01' OR Name != '"
  /\ isSubstring (escapeSoqlValue (value dateLookalike))
       (buildConditionClause dateLookalike) = false.
Proof. repeat split. Qed.

(** Where [buildConditionClause] writes the value inside a quoted literal
    (the LIKE operators; and, for a value other than the user-id token on a
    field that is not boolean, numeric or a date, the operators
    includes/excludes and the default comparison of a value that does not
    start like an ISO date), the clause is
    [head ' wl escaped(value) wr ' close], the escaped value has a backslash
    before every backslash and every single quote of the value, and a
    reader of the literal finds its end at the closing quote written by the
    template, with the wildcards and the original value as its content. *)
Lemma quoted_value_is_escaped (c : Condition) :
  quotesValue c = true ->
  exists head wl wr close : string,
    buildConditionClause c =
      head ++ String quote (wl ++ escapeSoqlValue (value c) ++ wr
                              ++ String quote close)
    /\ escapeSoqlValue (value c) = escapeEach (rawValue (value c))
    /\ scanLiteral (wl ++ escapeSoqlValue (value c) ++ wr
                      ++ String quote close)
       = Some (wl ++ rawValue (value c) ++ wr, close).
Proof.
  destruct c as [i f l t o v j w].
  unfold quotesValue, buildConditionClause, includes.
  cbn -[String.eqb escapeSoqlValue isUserId truthy dateFormatPattern
        isValidDateFormat append scanLiteral].
  intros H. clause_cases.
  - quoted_shape (f ++ " LIKE ") "%" "%" "".
  - quoted_shape (f ++ " LIKE ") "" "%" "".
  - quoted_shape (f ++ " LIKE ") "%" "" "".
  - quoted_shape (f ++ " INCLUDES (") "" "" ")".
  - quoted_shape (f ++ " EXCLUDES (") "" "" ")".
  - quoted_shape (f ++ " " ++ soqlOperator o ++ " ") "" "" "".
Qed.

Lemma quoted_value_is_escaped_witness :
  quotesValue quotedName = true
  /\ exists head wl wr close : string,
       buildConditionClause quotedName =
         head ++ String quote (wl ++ escapeSoqlValue (value quotedName) ++ wr
                                 ++ String quote close)
       /\ escapeSoqlValue (value quotedName)
          = escapeEach (rawValue (value quotedName))
       /\ scanLiteral (wl ++ escapeSoqlValue (value quotedName) ++ wr
                         ++ String quote close)
          = Some (wl ++ rawValue (value quotedName) ++ wr, close).
Proof.
  split; [reflexivity | apply (quoted_value_is_escaped quotedName); reflexivity].
Defined.

Lemma buildConditionClause_head (c : Condition) :
  exists rest, buildConditionClause c = fieldApiName c ++ String " " rest.
Proof.
  destruct c as [i f l t o v j w].
  unfold buildConditionClause, includes.
  cbn -[String.eqb escapeSoqlValue isUserId truthy dateFormatPattern
        isValidDateFormat append].
  clause_cases; eexists; reflexivity.
Qed.

Lemma buildConditionClause_nonempty (c : Condition) :
  buildConditionClause c <> "".
Proof.
  destruct (buildConditionClause_head c) as [rest ->].
  apply append_nonempty_r. discriminate.
Qed.

Lemma groupStep_nonempty valid acc ic : fst (groupStep valid acc ic) <> "".
Proof.
  destruct acc as [result inOrGroup], ic as [index condition].
  unfold groupStep.
  pose proof (buildConditionClause_nonempty condition) as Hc.
  repeat bool_case; cbn [fst]; try exact Hc;
    rewrite ?append_assoc;
    repeat (apply append_nonempty_r); try exact Hc; discriminate.
Qed.

Lemma fold_groupStep_nonempty valid l acc :
  fst acc <> "" -> fst (fold_left (groupStep valid) l acc) <> "".
Proof.
  revert acc. induction l as [|ic l IH]; intros acc Hacc; [exact Hacc|].
  cbn [fold_left]. apply IH, groupStep_nonempty.
Qed.

Lemma existsb_filter {A : Type} (p : A -> bool) (l : list A) :
  existsb p l = negb (length (List.filter p l) =? 0)%nat.
Proof.
  induction l as [|x l IH]; [reflexivity|].
  cbn [existsb List.filter]. destruct (p x); [reflexivity | exact IH].
Qed.

(** The WHERE clause is empty exactly when no condition has both a field
    and an operator. *)
Lemma whereClauseOf_nonEmpty (conds : list Condition) :
  nonEmpty (whereClauseOf conds) = existsb validCondition conds.
Proof.
  rewrite existsb_filter. unfold whereClauseOf.
  destruct (List.filter validCondition conds) as [|c v]; [reflexivity|].
  cbn [length Nat.eqb negb]. apply nonEmpty_true.
  destruct (negb _).
  - unfold join. cbn [imap String.concat].
    pose proof (buildConditionClause_nonempty c) as Hc.
    change (simpleClause 0 c) with (buildConditionClause c).
    destruct (imap _ v); [exact Hc | now apply append_nonempty_l].
  - unfold indexed. cbn [imap fold_left].
    match goal with
    | |- context [fold_left ?f ?l ?acc] =>
        pose proof (fold_groupStep_nonempty (c :: v) l acc
                      (groupStep_nonempty _ _ _)) as Hf;
        destruct (fold_left f l acc) as [result inOrGroup]
    end.
    cbn [fst] in Hf. destruct inOrGroup; [now apply append_nonempty_l | exact Hf].
Qed.

Lemma generatedSoql_run (st : State) :
  generatedSoql st =
  (if complete st then
     "SELECT " ++ selectList st ++ nl ++ "  FROM "
       ++ show (selectedObjectApiName (page2Data st))
       ++ wherePart st ++ limitPart st
   else "", st).
Proof.
  unfold generatedSoql, complete, selectList, wherePart, limitPart,
    isListMode, isAggregateMode, buildWhereClause, bind, gets, ret.
  rewrite <- whereClauseOf_nonEmpty.
  destruct (isSet (selectedObjectApiName (page2Data st))); [|reflexivity].
  cbn [negb andb].
  destruct (String.eqb (queryType st) "List").
  - destruct (length (selectedFieldApiNames st) =? 0)%nat; [reflexivity|].
    cbn [negb andb].
    destruct (nonEmpty (whereClauseOf (whereConditions st))),
      (limitSet (queryLimit st));
      rewrite ?append_assoc, ?append_nil_r; reflexivity.
  - destruct (String.eqb (queryType st) "Aggregate"); [|reflexivity].
    destruct (isSet (aggregateFunction st)); [|reflexivity].
    cbn [negb andb].
    destruct (isSet (aggregateFieldApiName st));
      rewrite ?andb_false_r, ?andb_true_r, ?orb_true_r, ?orb_false_r;
      cbn [negb andb].
    + destruct (nonEmpty (whereClauseOf (whereConditions st)));
        rewrite ?append_assoc, ?append_nil_r; reflexivity.
    + destruct (String.eqb (show (aggregateFunction st)) "COUNT");
        [|reflexivity].
      destruct (nonEmpty (whereClauseOf (whereConditions st)));
        rewrite ?append_assoc, ?append_nil_r; reflexivity.
Qed.

Lemma filter_all {A : Type} (p : A -> bool) (l : list A) :
  forallb p l = true -> List.filter p l = l.
Proof.
  induction l as [|x l IH]; [reflexivity|]. cbn [forallb List.filter].
  intros H. apply andb_prop in H as [Hx Hl]. now rewrite Hx, IH.
Qed.

Lemma groupStep_appends valid acc ic :
  fst ic <> 0%nat -> exists t, fst (groupStep valid acc ic) = fst acc ++ t.
Proof.
  destruct acc as [result inOrGroup], ic as [index condition].
  cbn [fst]. intros Hi. unfold groupStep.
  destruct (index =? 0)%nat eqn:E; [apply Nat.eqb_eq in E; contradiction|].
  repeat bool_case; cbn [fst]; rewrite ?append_assoc; eexists; reflexivity.
Qed.

Lemma fold_groupStep_appends valid l acc :
  Forall (fun ic : nat * Condition => fst ic <> 0%nat) l ->
  exists t, fst (fold_left (groupStep valid) l acc) = fst acc ++ t.
Proof.
  intros Hl. revert acc.
  induction Hl as [|ic l Hic Hl IH]; intros acc.
  - exists "". cbn [fold_left]. now rewrite append_nil_r.
  - cbn [fold_left].
    destruct (IH (groupStep valid acc ic)) as [t Ht].
    destruct (groupStep_appends valid acc ic Hic) as [t' Ht'].
    exists (t' ++ t). now rewrite Ht, Ht', append_assoc.
Qed.

Lemma imap_positive_indices {A : Type} (k : nat) (l : list A) :
  Forall (fun ic : nat * A => fst ic <> 0%nat)
    (imap (fun i x => (S (k + i), x)) l).
Proof.
  revert k. induction l as [|x l IH]; intros k; [constructor|].
  cbn [imap]. constructor; [cbn [fst]; lia|].
  unfold compose.
  erewrite imap_ext; [apply (IH (S k))|].
  intros i y _. cbn beta. f_equal. lia.
Qed.

(** X4: In the mixed case a condition that carries OR right after the first
    condition is attached to it by AND, and the parenthesis opens after the
    first condition. *)
Lemma mixed_or_run_starts_with_and (c0 c1 : Condition) (more : list Condition) :
  forallb validCondition (c0 :: c1 :: more) = true ->
  conjunction c1 = "OR" ->
  someConjunction "AND" (c0 :: c1 :: more) = true ->
  exists rest,
    whereClauseOf (c0 :: c1 :: more) =
    buildConditionClause c0 ++ nl ++ "    AND (" ++ buildConditionClause c1
      ++ rest.
Proof.
  intros Hvalid Hor Hand. unfold whereClauseOf.
  rewrite (filter_all _ _ Hvalid). cbn [length Nat.eqb].
  rewrite Hand.
  assert (Hhas : someConjunction "OR" (c0 :: c1 :: more) = true).
  { unfold someConjunction, indexed.
    cbn [imap existsb fst snd Nat.ltb Nat.leb compose].
    rewrite Hor. reflexivity. }
  rewrite Hhas. cbn [andb negb].
  unfold indexed. cbn [imap fold_left compose].
  set (acc1 := groupStep _ (groupStep _ _ _) _).
  assert (Hacc1 : exists t, fst acc1 =
            buildConditionClause c0 ++ nl ++ "    AND ("
              ++ buildConditionClause c1 ++ t).
  { subst acc1. unfold groupStep at 2. cbn [Nat.eqb].
    unfold groupStep. cbn [Nat.eqb]. rewrite Hor. cbn [String.eqb Ascii.eqb Bool.eqb andb negb].
    repeat bool_case; cbn [fst]; rewrite ?append_assoc.
    - exists ")". reflexivity.
    - exists "". now rewrite append_nil_r. }
  destruct Hacc1 as [t Ht].
  match goal with
  | |- context [fold_left ?f ?l acc1] =>
      destruct (fold_groupStep_appends (c0 :: c1 :: more) l acc1) as [t' Ht']
  end.
  { unfold compose.
    erewrite imap_ext; [apply (imap_positive_indices 1)|].
    intros i y _. reflexivity. }
  destruct (fold_left _ _ acc1) as [result inOrGroup].
  cbn [fst] in Ht'. rewrite Ht in Ht'. subst result.
  destruct inOrGroup; rewrite ?append_assoc; eexists; reflexivity.
Qed.

Lemma mixed_or_run_starts_with_and_witness :
  exists rest,
    whereClauseOf orThenAnd
    = "A = null" ++ nl ++ "    AND (" ++ "B = null" ++ rest.
Proof.
  apply (mixed_or_run_starts_with_and
           (mkCondition "cond_1" "A" "A" "STRING" "is_null" (Str "") "AND" false)
           (mkCondition "cond_2" "B" "B" "STRING" "is_null" (Str "") "OR" false)
           [mkCondition "cond_3" "C" "C" "STRING" "is_null" (Str "") "AND" false]);
    reflexivity.
Defined.


Lemma concat_empty_cons (x : string) (xs : list string) :
  join "" (x :: xs) = x ++ join "" xs.
Proof.
  unfold join. cbn [String.concat].
  destruct xs; [now rewrite append_nil_r | reflexivity].
Qed.

Lemma someConjunction_uniform (k conj : string) (f : nat -> nat)
    (rest : list Condition) :
  Forall (fun c => conjunction c = conj) rest ->
  existsb (fun ic : nat * Condition =>
             (0 <? fst ic)%nat && String.eqb (conjunction (snd ic)) k)
    (imap (fun i x => (f i, x)) rest) = true ->
  k = conj.
Proof.
  intros Hall. revert f.
  induction Hall as [|c rest Hc Hall IH]; intros f; cbn [imap existsb].
  - discriminate.
  - intros H. apply orb_prop in H as [H|H].
    + cbn [fst snd] in H. apply andb_prop in H as [_ H].
      apply String.eqb_eq in H. congruence.
    + apply (IH (f ∘ S)). exact H.
Qed.

Lemma imap_simpleClause_uniform (conj : string) (k : nat)
    (rest : list Condition) :
  Forall (fun c => conjunction c = conj) rest ->
  imap (fun i c => simpleClause (S (k + i)) c) rest =
  map (fun c => nl ++ "    " ++ conj ++ " " ++ buildConditionClause c) rest.
Proof.
  intros Hall. revert k.
  induction Hall as [|c rest Hc Hall IH]; intros k; [reflexivity|].
  cbn [imap map]. f_equal.
  - unfold simpleClause. cbn [Nat.eqb]. now rewrite Hc.
  - rewrite <- (IH (S k)). apply imap_ext. intros i y _.
    unfold compose. f_equal; lia.
Qed.

(** X3: When every condition after the first carries the same conjunction, the
    clauses are joined by it, each on its own line, and no parenthesis is
    added. *)
Lemma uniform_conjunction_join (c0 : Condition) (rest : list Condition)
    (conj : string) :
  forallb validCondition (c0 :: rest) = true ->
  Forall (fun c => conjunction c = conj) rest ->
  whereClauseOf (c0 :: rest) =
  buildConditionClause c0
    ++ join "" (map (fun c => nl ++ "    " ++ conj ++ " "
                                ++ buildConditionClause c) rest).
Proof.
  intros Hvalid Hall. unfold whereClauseOf.
  rewrite (filter_all _ _ Hvalid). cbn [length Nat.eqb].
  assert (Hmixed : someConjunction "OR" (c0 :: rest)
                   && someConjunction "AND" (c0 :: rest) = false).
  { apply not_true_is_false. intros H. apply andb_prop in H as [Hor Hand].
    unfold someConjunction, indexed in Hor, Hand.
    cbn [imap existsb fst Nat.ltb Nat.leb andb orb] in Hor, Hand.
    apply (someConjunction_uniform _ conj S rest Hall) in Hor.
    apply (someConjunction_uniform _ conj S rest Hall) in Hand.
    congruence. }
  rewrite Hmixed. cbn [negb imap].
  rewrite concat_empty_cons. f_equal.
  rewrite <- (imap_simpleClause_uniform conj 0 rest Hall).
  reflexivity.
Qed.

Lemma uniform_conjunction_join_witness :
  whereClauseOf [quotedName; numericInjection]
  = buildConditionClause quotedName
      ++ nl ++ "    AND " ++ buildConditionClause numericInjection.
Proof.
  apply (uniform_conjunction_join quotedName [numericInjection] "AND");
    [reflexivity | repeat constructor].
Defined.

(** C2: for [A], [OR B], [AND C] the builder writes [A AND (B) AND C]: the
    OR chosen between A and B is written as AND, and A stays outside the
    parentheses that the run of OR conditions was to share with it. *)
Theorem orThenAnd_where_clause :
  whereClauseOf orThenAnd =
  "A = null" ++ nl ++ "    AND (B = null)" ++ nl ++ "    AND C = null".
Proof. reflexivity. Qed.

End QueryBuilderFacts.

(** ** The generated query is SOQL *)

Module SoqlFacts.
Import StateM Js QueryBuilder StateFacts JsFacts QueryBuilderFacts.

(** *** How the words of a query end *)

Lemma lastChar_append (s t : string) :
  lastChar (s ++ t) =
  match lastChar t with
  | Some c => Some c
  | None => lastChar s
  end.
Proof.
  induction s as [|a s IH]; cbn [append lastChar].
  - now destruct (lastChar t).
  - change (String a s ++ t) with (String a (s ++ t)). cbn [lastChar].
    rewrite IH. destruct (lastChar t); [reflexivity|].
    reflexivity.
Qed.

Lemma lastChar_none (s : string) : lastChar s = None -> s = "".
Proof.
  destruct s as [|a s]; [reflexivity|]. cbn [lastChar].
  destruct (lastChar s); discriminate.
Qed.

Lemma endsAWord_append (s t : string) :
  endsAWord t = true -> endsAWord (s ++ t) = true.
Proof.
  unfold endsAWord. rewrite lastChar_append.
  destruct (lastChar t); [auto | discriminate].
Qed.

Lemma endsAWord_cons (a : ascii) (s : string) :
  endsAWord s = true -> endsAWord (String a s) = true.
Proof. apply (endsAWord_append (String a "") s). Qed.

Lemma allChars_last (p : ascii -> bool) (s : string) :
  allChars p s = true -> s <> "" ->
  exists a, lastChar s = Some a /\ p a = true.
Proof.
  induction s as [|a s IH]; [congruence|]. cbn [allChars lastChar].
  intros H _. apply andb_prop in H as [Ha Hs].
  destruct s as [|b s].
  - exists a. now split.
  - destruct (IH Hs ltac:(discriminate)) as (c & -> & Hc). now exists c.
Qed.

Lemma isNumeral_ends (s : string) : isNumeral s = true -> endsAWord s = true.
Proof.
  unfold isNumeral. intros H. apply andb_prop in H as [Hne Hd].
  apply nonEmpty_true in Hne.
  destruct (allChars_last _ _ Hd Hne) as (a & Ha & Hdigit).
  unfold endsAWord, isWord. now rewrite Ha, Hdigit, !orb_true_r.
Qed.

Lemma nameFrom_ends (s : string) :
  nameFrom s = true -> s = "" \/ endsAWord s = true.
Proof.
  induction s as [|a s IH]; [now left|]. cbn [nameFrom].
  destruct (isWord a) eqn:Ew.
  - intros H. right. destruct (IH H) as [-> | Hs].
    + unfold endsAWord. cbn [lastChar]. now rewrite Ew.
    + now apply endsAWord_cons.
  - destruct (Ascii.eqb a "."); [|discriminate].
    destruct s as [|b s]; [discriminate|].
    intros H. right. apply andb_prop in H as [_ H].
    destruct (IH H) as [E | Hs]; [discriminate | now apply endsAWord_cons].
Qed.

Lemma isName_ends (s : string) : isName s = true -> endsAWord s = true.
Proof.
  destruct s as [|a s]; [discriminate|]. cbn [isName].
  intros H. apply andb_prop in H as [Ha Hs].
  destruct (nameFrom_ends s Hs) as [-> | Hs'].
  - unfold endsAWord, isWord. cbn [lastChar]. now rewrite Ha.
  - now apply endsAWord_cons.
Qed.

Lemma closesLiteral_last (s : string) :
  closesLiteral s = true -> lastChar s = Some quote.
Proof.
  remember (String.length s) as n eqn:Hn.
  revert s Hn. induction n as [n IH] using lt_wf_ind. intros s Hn.
  destruct s as [|a s]; [discriminate|]. cbn [closesLiteral].
  destruct (Ascii.eqb a quote) eqn:Eq.
  - intros H. apply String.eqb_eq in H. subst s.
    apply Ascii.eqb_eq in Eq. now subst a.
  - destruct (Ascii.eqb a backslash).
    + destruct s as [|b s]; [discriminate|].
      intros H. apply andb_prop in H as [_ H].
      cbn [lastChar]. cbn [String.length] in Hn.
      rewrite (IH (String.length s) ltac:(lia) s eq_refl H). reflexivity.
    + intros H. cbn [lastChar]. cbn [String.length] in Hn.
      now rewrite (IH (String.length s) ltac:(lia) s eq_refl H).
Qed.

Lemma isStringLiteral_ends (s : string) :
  isStringLiteral s = true -> endsAWord s = true.
Proof.
  destruct s as [|a s]; [discriminate|]. cbn [isStringLiteral].
  intros H. apply andb_prop in H as [_ H].
  apply closesLiteral_last in H. unfold endsAWord. cbn [lastChar].
  rewrite H. cbn. now rewrite Ascii.eqb_refl, orb_true_r.
Qed.

Lemma span_parts (p : ascii -> bool) (s taken rest : string) :
  span p s = (taken, rest) -> s = taken ++ rest /\ allChars p taken = true.
Proof.
  revert taken rest. induction s as [|a s IH]; intros taken rest; cbn [span].
  - intros [= <- <-]. now split.
  - destruct (p a) eqn:Ea.
    + destruct (span p s) as [t r]. intros [= <- <-].
      destruct (IH t r eq_refl) as [-> Ht]. split; [reflexivity|].
      cbn [allChars]. now rewrite Ea.
    + intros [= <- <-]. now split.
Qed.

Lemma isNumber_ends (s : string) : isNumber s = true -> endsAWord s = true.
Proof.
  unfold isNumber. intros H.
  assert (Hparts : exists sign unsigned,
            s = sign ++ unsigned
            /\ (let '(whole, fraction) := span isDigit unsigned in
                nonEmpty whole
                && (String.eqb fraction ""
                    || match fraction with
                       | String point decimals =>
                           Ascii.eqb point "." && isNumeral decimals
                       | EmptyString => false
                       end)) = true).
  { destruct s as [|a s]; [now exists "", ""|].
    destruct (Ascii.eqb a "-" || Ascii.eqb a "+").
    - now exists (String a ""), s.
    - now exists "", (String a s). }
  clear H. destruct Hparts as (sign & unsigned & -> & H).
  destruct (span isDigit unsigned) as [whole fraction] eqn:E.
  apply span_parts in E as [-> Hwhole].
  apply andb_prop in H as [Hne H].
  apply endsAWord_append.
  apply orb_prop in H as [H|H].
  - apply String.eqb_eq in H. subst fraction. rewrite append_nil_r.
    apply isNumeral_ends. unfold isNumeral. now rewrite Hne.
  - destruct fraction as [|point decimals]; [discriminate|].
    apply andb_prop in H as [_ H].
    apply endsAWord_append, endsAWord_cons. now apply isNumeral_ends.
Qed.

Lemma digits_parts (n : nat) (s r : string) :
  digits n s = Some r ->
  exists d, s = d ++ r /\ String.length d = n /\ allChars isDigit d = true.
Proof.
  revert s r. induction n as [|n IH]; intros s r; cbn [digits].
  - intros [= <-]. now exists "".
  - destruct s as [|a s]; [discriminate|].
    destruct (isDigit a) eqn:Ea; [|discriminate].
    intros H. destruct (IH s r H) as (d & -> & Hlen & Hd).
    exists (String a d). cbn [String.length allChars].
    now rewrite Ea, Hlen, Hd.
Qed.

Lemma digits_ends (n : nat) (s : string) :
  n <> O -> digits n s = Some "" -> endsAWord s = true.
Proof.
  intros Hn H. destruct (digits_parts n s "" H) as (d & -> & Hlen & Hd).
  rewrite append_nil_r. apply isNumeral_ends. unfold isNumeral.
  rewrite Hd. destruct d; [cbn in Hlen; congruence | reflexivity].
Qed.

Lemma char_parts (c : ascii) (s r : string) :
  char c s = Some r -> s = String c r.
Proof.
  destruct s as [|a s]; [discriminate|]. cbn [char].
  destruct (Ascii.eqb_spec a c) as [->|]; [|discriminate].
  now intros [= <-].
Qed.

Lemma digits_then (n : nat) (s r : string) :
  digits n s = Some r -> endsAWord r = true -> endsAWord s = true.
Proof.
  intros H Hr. destruct (digits_parts n s r H) as (d & -> & _).
  now apply endsAWord_append.
Qed.

Lemma char_then (c : ascii) (s r : string) :
  char c s = Some r -> endsAWord r = true -> endsAWord s = true.
Proof.
  intros H Hr. apply char_parts in H as ->. now apply endsAWord_cons.
Qed.

Lemma isoDatePrefix_then (s r : string) :
  isoDatePrefix s = Some r -> endsAWord r = true -> endsAWord s = true.
Proof.
  unfold isoDatePrefix. intros H Hr.
  destruct (digits 4 s) as [s1|] eqn:E1; cbn -[digits char isoDatePrefix isOffset] in H; [|discriminate].
  destruct (char "-" s1) as [s2|] eqn:E2; cbn -[digits char isoDatePrefix isOffset] in H; [|discriminate].
  destruct (digits 2 s2) as [s3|] eqn:E3; cbn -[digits char isoDatePrefix isOffset] in H; [|discriminate].
  destruct (char "-" s3) as [s4|] eqn:E4; cbn -[digits char isoDatePrefix isOffset] in H; [|discriminate].
  eapply digits_then; [exact E1|]. eapply char_then; [exact E2|].
  eapply digits_then; [exact E3|]. eapply char_then; [exact E4|].
  eapply digits_then; [exact H | exact Hr].
Qed.

Lemma datePattern_ends (s : string) :
  datePattern s = true -> endsAWord s = true.
Proof.
  unfold datePattern, isoDatePrefix. intros H.
  destruct (digits 4 s) as [s1|] eqn:E1; cbn -[digits char isoDatePrefix isOffset] in H; [|discriminate].
  destruct (char "-" s1) as [s2|] eqn:E2; cbn -[digits char isoDatePrefix isOffset] in H; [|discriminate].
  destruct (digits 2 s2) as [s3|] eqn:E3; cbn -[digits char isoDatePrefix isOffset] in H; [|discriminate].
  destruct (char "-" s3) as [s4|] eqn:E4; cbn -[digits char isoDatePrefix isOffset] in H; [|discriminate].
  destruct (digits 2 s4) as [r|] eqn:E5; [|discriminate].
  apply String.eqb_eq in H. subst r.
  eapply digits_then; [exact E1|]. eapply char_then; [exact E2|].
  eapply digits_then; [exact E3|]. eapply char_then; [exact E4|].
  now apply (digits_ends 2).
Qed.

Lemma isOffset_ends (s : string) : isOffset s = true -> endsAWord s = true.
Proof.
  unfold isOffset. intros H. apply orb_prop in H as [H|H].
  - apply String.eqb_eq in H. now subst s.
  - destruct s as [|sign rest]; [discriminate|].
    apply andb_prop in H as [_ H]. apply endsAWord_cons.
    destruct (digits 2 rest) as [r1|] eqn:E1; cbn -[digits char isoDatePrefix isOffset] in H; [|discriminate].
    destruct (char ":" r1) as [r2|] eqn:E2; cbn -[digits char isoDatePrefix isOffset] in H; [|discriminate].
    destruct (digits 2 r2) as [r|] eqn:E3; [|discriminate].
    apply String.eqb_eq in H. subst r.
    eapply digits_then; [exact E1|]. eapply char_then; [exact E2|].
    now apply (digits_ends 2).
Qed.

Lemma isDateTime_ends (s : string) : isDateTime s = true -> endsAWord s = true.
Proof.
  unfold isDateTime. intros H.
  destruct (isoDatePrefix s) as [s1|] eqn:E1; cbn -[digits char isoDatePrefix isOffset] in H; [|discriminate].
  destruct (char "T" s1) as [s2|] eqn:E2; cbn -[digits char isoDatePrefix isOffset] in H; [|discriminate].
  destruct (digits 2 s2) as [s3|] eqn:E3; cbn -[digits char isoDatePrefix isOffset] in H; [|discriminate].
  destruct (char ":" s3) as [s4|] eqn:E4; cbn -[digits char isoDatePrefix isOffset] in H; [|discriminate].
  destruct (digits 2 s4) as [s5|] eqn:E5; cbn -[digits char isoDatePrefix isOffset] in H; [|discriminate].
  destruct (char ":" s5) as [s6|] eqn:E6; cbn -[digits char isoDatePrefix isOffset] in H; [|discriminate].
  destruct (digits 2 s6) as [r|] eqn:E7; [|discriminate].
  eapply isoDatePrefix_then; [exact E1|]. eapply char_then; [exact E2|].
  eapply digits_then; [exact E3|]. eapply char_then; [exact E4|].
  eapply digits_then; [exact E5|]. eapply char_then; [exact E6|].
  eapply digits_then; [exact E7|].
  apply orb_prop in H as [H|H]; [now apply isOffset_ends|].
  destruct (char "." r) as [s7|] eqn:E8; cbn -[digits char isoDatePrefix isOffset] in H; [|discriminate].
  destruct (digits 3 s7) as [r'|] eqn:E9; [|discriminate].
  eapply char_then; [exact E8|]. eapply digits_then; [exact E9|].
  now apply isOffset_ends.
Qed.

Lemma stripPrefix_parts (p s r : string) :
  stripPrefix p s = Some r -> s = p ++ r.
Proof.
  revert s. induction p as [|a p IH]; intros s; cbn [stripPrefix].
  - now intros [= <-].
  - destruct s as [|b s]; [discriminate|].
    destruct (Ascii.eqb_spec a b) as [->|]; [|discriminate].
    intros H. now rewrite (IH s H).
Qed.

Lemma literalWithCount_ends (prefix s : string) :
  literalWithCount prefix s = true -> endsAWord s = true.
Proof.
  unfold literalWithCount.
  destruct (stripPrefix prefix s) as [r|] eqn:E; [|discriminate].
  apply stripPrefix_parts in E as ->. intros H.
  apply endsAWord_append, isNumeral_ends. exact H.
Qed.

Lemma includes_ends (s : string) (l : list string) :
  forallb endsAWord l = true -> includes s l = true -> endsAWord s = true.
Proof.
  unfold includes. induction l as [|x l IH]; [discriminate|].
  cbn [forallb existsb]. intros Hl H.
  apply andb_prop in Hl as [Hx Hl].
  apply orb_prop in H as [H|H]; [|now apply IH].
  apply String.eqb_eq in H. now subst s.
Qed.

Lemma isDateLiteral_ends (s : string) :
  isDateLiteral s = true -> endsAWord s = true.
Proof.
  unfold isDateLiteral. intros H.
  apply orb_prop in H as [H|H]; [apply orb_prop in H as [H|H]|].
  - now apply (includes_ends s DATE_LITERALS).
  - now apply (literalWithCount_ends "LAST_N_DAYS:").
  - now apply (literalWithCount_ends "NEXT_N_DAYS:").
Qed.

Lemma isBind_ends (s : string) : isBind s = true -> endsAWord s = true.
Proof.
  destruct s as [|colon rest]; [discriminate|]. cbn [isBind].
  destruct (span isWordOrDot rest) as [name call] eqn:E.
  apply span_parts in E as [-> _]. intros H.
  apply andb_prop in H as [_ H]. apply String.eqb_eq in H. subst call.
  now apply endsAWord_cons, endsAWord_append.
Qed.

(** A value ends in a letter, a digit, a quote or a parenthesis. *)
Lemma isValue_ends (s : string) : isValue s = true -> endsAWord s = true.
Proof.
  unfold isValue. intros H.
  apply orb_prop in H as [H|H]; [|now apply isBind_ends].
  apply orb_prop in H as [H|H];
    [|now apply (includes_ends s
                   ["TRUE"; "FALSE"; "true"; "false"; "NULL"; "null"])].
  apply orb_prop in H as [H|H]; [|now apply isDateLiteral_ends].
  apply orb_prop in H as [H|H]; [|now apply isDateTime_ends].
  apply orb_prop in H as [H|H]; [|now apply datePattern_ends].
  apply orb_prop in H as [H|H];
    [now apply isStringLiteral_ends | now apply isNumber_ends].
Qed.

Lemma LiteralList_ends (s : string) : LiteralList s -> endsAWord s = true.
Proof.
  induction 1 as [literal H | literal w rest H Hw Hrest IH].
  - now apply isStringLiteral_ends.
  - now repeat apply endsAWord_append.
Qed.

Lemma SoqlComparison_ends (s : string) :
  SoqlComparison s -> endsAWord s = true.
Proof.
  intros [field w1 op w2 v _ _ _ _ Hv | field w1 w2 literal _ _ _ Hl
          | field w1 op w2 items _ _ _ _ Hi];
    repeat apply endsAWord_append.
  - now apply isValue_ends.
  - now apply isStringLiteral_ends.
  - reflexivity.
Qed.

Lemma SoqlCondition_ends :
  (forall s, SoqlCondition s -> endsAWord s = true)
  /\ (forall conj s, SoqlChain conj s -> endsAWord s = true)
  /\ (forall s, SoqlItem s -> endsAWord s = true).
Proof.
  apply SoqlCondition_induction; intros; auto;
    try (repeat apply endsAWord_append; auto; fail).
  now apply SoqlComparison_ends.
Qed.

(** A query ends in a letter, a digit, an underscore, a quote or a closing
    parenthesis: with the object, with a name, a value or a group of its
    condition, or with the number of its limit. *)
Lemma SoqlQuery_ends (s : string) : SoqlQuery s -> endsAWord s = true.
Proof.
  intros [w1 selected w2 w3 object wherePart limitPart _ _ _ _ Hobject
            Hwhere Hlimit].
  do 6 apply endsAWord_append.
  destruct Hlimit as [|v1 v2 n _ _ Hn].
  - rewrite append_nil_r. destruct Hwhere as [|v1 v2 condition _ _ Hc].
    + rewrite append_nil_r. now apply isName_ends.
    + do 4 apply endsAWord_append.
      exact (proj1 SoqlCondition_ends condition Hc).
  - do 5 apply endsAWord_append. now apply isNumeral_ends.
Qed.

Lemma SoqlQuery_nonempty (s : string) : SoqlQuery s -> s <> "".
Proof. intros [] E. discriminate E. Qed.

(** *** The clause of a condition *)

Lemma closesLiteral_plain (a : ascii) (s : string) :
  plainChar a = true -> closesLiteral (String a s) = closesLiteral s.
Proof.
  unfold plainChar. intros H. apply andb_prop in H as [H1 H2].
  apply negb_true_iff in H1, H2. cbn [closesLiteral]. now rewrite H1, H2.
Qed.

Lemma closesLiteral_escapeEach (s rest : string) :
  closesLiteral (escapeEach s ++ rest) = closesLiteral rest.
Proof.
  induction s as [|a s IH]; [reflexivity|]. cbn [escapeEach].
  rewrite append_assoc. unfold escapeChar.
  destruct (Ascii.eqb a backslash) eqn:Eb.
  - cbn -[closesLiteral escapeEach]. cbn [closesLiteral].
    change (Ascii.eqb backslash quote) with false.
    rewrite Ascii.eqb_refl. cbv iota.
    change (escapable backslash) with true. exact IH.
  - destruct (Ascii.eqb a quote) eqn:Eq.
    + cbn -[closesLiteral escapeEach]. cbn [closesLiteral].
      change (Ascii.eqb backslash quote) with false.
      rewrite Ascii.eqb_refl. cbv iota.
      change (escapable quote) with true. exact IH.
    + cbn -[closesLiteral escapeEach]. rewrite closesLiteral_plain; [exact IH|].
      unfold plainChar. now rewrite Eb, Eq.
Qed.

(** A literal that the builder writes around an escaped value is a string
    literal, whatever the value. *)
Lemma isStringLiteral_wrapped (wl wr : string) (v : jsvalue) :
  allChars plainChar wl = true -> allChars plainChar wr = true ->
  isStringLiteral
    (String quote (wl ++ escapeSoqlValue v ++ wr ++ String quote "")) = true.
Proof.
  intros Hl Hr. cbn [isStringLiteral]. rewrite Ascii.eqb_refl. cbn [andb].
  rewrite escapeSoqlValue_each.
  induction wl as [|a wl IH].
  - cbn [append]. rewrite closesLiteral_escapeEach.
    clear Hl. induction wr as [|b wr IHr].
    + cbn. now rewrite Ascii.eqb_refl.
    + cbn [allChars] in Hr. apply andb_prop in Hr as [Hb Hr].
      cbn [append]. rewrite closesLiteral_plain by exact Hb. now apply IHr.
  - cbn [allChars] in Hl. apply andb_prop in Hl as [Ha Hl].
    cbn [append]. rewrite closesLiteral_plain by exact Ha. now apply IH.
Qed.

Lemma includes_In (x : string) (l : list string) :
  includes x l = true -> In x l.
Proof.
  unfold includes. intros H. apply existsb_exists in H as (y & Hy & E).
  apply String.eqb_eq in E. now subst y.
Qed.

(** The operators that are no LIKE and no list operators are written as
    comparisons. *)
Lemma soqlOperator_comparison (o : string) :
  includes o likeOperators = false -> includes o listOperators = false ->
  In (soqlOperator o) comparisonOperators.
Proof.
  unfold includes, likeOperators, listOperators, soqlOperator, OPERATOR_MAP.
  cbn [existsb assoc orb]. intros Hlike Hlist.
  repeat match goal with
         | |- context [String.eqb o ?k] =>
             destruct (String.eqb o k) eqn:?; try discriminate;
             try (cbn; tauto)
         end.
Qed.

Lemma isValue_literal (s : string) :
  isStringLiteral s = true -> isValue s = true.
Proof. unfold isValue. now intros ->. Qed.

Lemma isValue_dateLiteral (s : string) :
  isDateLiteral s = true -> isValue s = true.
Proof. unfold isValue. intros ->. now rewrite !orb_true_r. Qed.

Lemma isValue_count (n : string) :
  isNumeral n = true ->
  isValue ("LAST_N_DAYS:" ++ n) = true /\ isValue ("NEXT_N_DAYS:" ++ n) = true.
Proof.
  intros Hn. split; apply isValue_dateLiteral; unfold isDateLiteral.
  - replace (literalWithCount "LAST_N_DAYS:" ("LAST_N_DAYS:" ++ n)) with true
      by (symmetry; exact Hn).
    now rewrite orb_true_r.
  - replace (literalWithCount "NEXT_N_DAYS:" ("NEXT_N_DAYS:" ++ n)) with true
      by (symmetry; exact Hn).
    now rewrite orb_true_r.
Qed.

(** The operator of the clause is a comparison. *)
Ltac comparison_operator :=
  first
    [ cbn; tauto
    | apply includes_In; assumption
    | apply soqlOperator_comparison;
      unfold includes, likeOperators, listOperators; cbn [existsb];
      repeat match goal with
             | H : String.eqb _ _ = false |- _ => rewrite H; clear H
             end;
      reflexivity ].

(** The operand of the clause is a value. *)
Ltac comparison_operand :=
  first
    [ reflexivity
    | assumption
    | apply isValue_count; assumption
    | apply isValue_literal;
      apply (isStringLiteral_wrapped "" ""); reflexivity ].

Ltac comparison_of op v :=
  match goal with
  | |- SoqlComparison (?f ++ _) =>
      apply (comparison_value f " " op " " v);
      [ assumption | reflexivity | comparison_operator | reflexivity
      | comparison_operand ]
  end.

Ltac like_with wl wr :=
  match goal with
  | |- SoqlComparison (?f ++ ?rest) =>
      match rest with
      | context [escapeSoqlValue ?v] =>
          apply (comparison_like f " " " "
                   (String quote (wl ++ escapeSoqlValue v ++ wr
                                    ++ String quote "")));
          [ assumption | reflexivity | reflexivity
          | apply isStringLiteral_wrapped; reflexivity ]
      end
  end.

Lemma list_operand_text (e : string) :
  " ('" ++ e ++ "')"
  = " " ++ "(" ++ String quote (e ++ String quote "") ++ ")".
Proof.
  change (String quote (e ++ String quote "") ++ ")")
    with (String quote ((e ++ String quote "") ++ ")")).
  now rewrite append_assoc.
Qed.

Ltac list_of_one :=
  match goal with
  | |- SoqlComparison (?f ++ _) =>
      rewrite list_operand_text;
      apply comparison_list;
      [ assumption | reflexivity | cbn; tauto | reflexivity
      | apply literals_one;
        apply (isStringLiteral_wrapped "" ""); reflexivity ]
  end.

(** The clause of a condition is a comparison, if the field is a name and
    what is written for the value is an operand. *)
Lemma buildConditionClause_syntax (c : Condition) :
  isName (fieldApiName c) = true -> operandFits c = true ->
  SoqlComparison (buildConditionClause c).
Proof.
  destruct c as [i f l t o v j w].
  unfold operandFits, buildConditionClause.
  cbn [fieldApiName operator value fieldType].
  set (compares := includes (soqlOperator o) comparisonOperators).
  unfold includes.
  cbn -[String.eqb escapeSoqlValue isUserId truthy dateFormatPattern
        isValidDateFormat append isValue isNumeral soqlOperator isName
        compares].
  intros Hname. clause_cases.
  all: intros Hfit; subst compares.
  all: try change (soqlOperator "includes") with "INCLUDES".
  all: try change (soqlOperator "excludes") with "EXCLUDES".
  all: try (comparison_of "=" ("LAST_N_DAYS:" ++ toString v); fail).
  all: try (comparison_of "=" ("NEXT_N_DAYS:" ++ toString v); fail).
  all: try (comparison_of ">" ("LAST_N_DAYS:" ++ toString v); fail).
  all: try (comparison_of "<" ("NEXT_N_DAYS:" ++ toString v); fail).
  all: try (apply andb_prop in Hfit as [Hop Hvalue]).
  all: try (comparison_of "=" "null"; fail).
  all: try (comparison_of "!=" "null"; fail).
  all: try (comparison_of "=" "TODAY"; fail).
  all: try (comparison_of "=" "THIS_WEEK"; fail).
  all: try (comparison_of "=" "THIS_MONTH"; fail).
  all: try (comparison_of "=" "THIS_YEAR"; fail).
  all: try (comparison_of ">" "TODAY"; fail).
  all: try (comparison_of "<" "TODAY"; fail).
  all: try (like_with "%" "%"; fail).
  all: try (like_with "" "%"; fail).
  all: try (like_with "%" ""; fail).
  all: try (comparison_of (soqlOperator o) ":UserInfo.getUserId()"; fail).
  all: try (comparison_of (soqlOperator o) (toString v); fail).
  all: try (comparison_of (soqlOperator o)
              (String quote (escapeSoqlValue v ++ String quote "")); fail).
  all: list_of_one.
Qed.

(** *** The WHERE clause *)

Lemma chain_snoc (conj s w1 w2 t : string) :
  SoqlChain conj s -> gap w1 = true -> gap w2 = true -> SoqlItem t ->
  SoqlChain conj (s ++ w1 ++ conj ++ w2 ++ t).
Proof.
  intros Hs Hw1 Hw2 Ht.
  induction Hs as [conj s Hitem | conj s v1 v2 rest Hitem Hv1 Hv2 Hrest IH].
  - apply chain_more; [assumption.. | now apply chain_one].
  - rewrite !append_assoc. apply chain_more; assumption.
Qed.

Lemma chain_and (s t : string) :
  SoqlChain "AND" s -> SoqlItem t ->
  SoqlChain "AND" (s ++ nl ++ "    AND " ++ t).
Proof.
  intros Hs Ht.
  apply (chain_snoc "AND" s (nl ++ "    ") " " t); auto.
Qed.

Lemma chain_or (s t : string) :
  SoqlChain "OR" s -> SoqlItem t ->
  SoqlChain "OR" (s ++ nl ++ "         OR " ++ t).
Proof.
  intros Hs Ht.
  apply (chain_snoc "OR" s (nl ++ "         ") " " t); auto.
Qed.

Lemma group_item (g : string) :
  SoqlChain "OR" g -> SoqlItem ("(" ++ g ++ ")").
Proof.
  intros Hg. apply (item_group "" g ""); try reflexivity.
  apply (condition_joined "OR"); [cbn; tauto | exact Hg].
Qed.

(** The simple case: the clauses under one conjunction. *)
Lemma uniform_chain (conj : string) (rest : list Condition) (c0 : Condition) :
  SoqlComparison (buildConditionClause c0) ->
  Forall (fun c => SoqlComparison (buildConditionClause c)) rest ->
  SoqlChain conj
    (buildConditionClause c0
       ++ join "" (map (fun c => nl ++ "    " ++ conj ++ " "
                                   ++ buildConditionClause c) rest)).
Proof.
  intros H0 Hrest. revert c0 H0.
  induction Hrest as [|c1 rest H1 Hrest IH]; intros c0 H0.
  - cbn [map]. unfold join. cbn [String.concat]. rewrite append_nil_r.
    now apply chain_one, item_comparison.
  - cbn [map]. rewrite concat_empty_cons, !append_assoc.
    apply (chain_more conj (buildConditionClause c0) (nl ++ "    ") " ");
      [now apply item_comparison | reflexivity | reflexivity |].
    now apply IH.
Qed.

Lemma someConjunction_later (k : string) (f : nat -> nat)
    (rest : list Condition) :
  (forall i, (0 < f i)%nat) ->
  existsb (fun ic : nat * Condition =>
             (0 <? fst ic)%nat && String.eqb (conjunction (snd ic)) k)
    (imap (fun i x => (f i, x)) rest)
  = existsb (fun c => String.eqb (conjunction c) k) rest.
Proof.
  revert f. induction rest as [|c rest IH]; intros f Hf; [reflexivity|].
  cbn [imap existsb fst snd]. f_equal.
  - destruct (Nat.ltb_spec 0 (f 0%nat)) as [_|H]; [reflexivity|].
    specialize (Hf 0%nat). lia.
  - apply (IH (f ∘ S)). intros i. apply Hf.
Qed.

Lemma someConjunction_rest (k : string) (c0 : Condition)
    (rest : list Condition) :
  someConjunction k (c0 :: rest)
  = existsb (fun c => String.eqb (conjunction c) k) rest.
Proof.
  unfold someConjunction, indexed. cbn [imap existsb fst].
  change (0 <? 0)%nat with false. cbn [andb orb].
  apply (someConjunction_later k S). intros i. lia.
Qed.

Lemma no_other_conjunction (k other : string) (rest : list Condition) :
  Forall (fun c => conjunction c = k \/ conjunction c = other) rest ->
  existsb (fun c => String.eqb (conjunction c) other) rest = false ->
  Forall (fun c => conjunction c = k) rest.
Proof.
  intros Hrest. induction Hrest as [|c rest Hc Hrest IH]; [constructor|].
  cbn [existsb]. intros H. apply orb_false_elim in H as [Ho H].
  constructor; [|now apply IH].
  destruct Hc as [Hc|Hc]; [exact Hc|].
  rewrite Hc, String.eqb_refl in Ho. discriminate.
Qed.

(** The mixed case. In the loop, the condition after the current one is
    the head of what is left of the array. *)
Lemma nextIsOr_lookup (valid : list Condition) (i : nat) :
  (Z.of_nat i <? Z.of_nat (length valid) - 1)%Z
  && match valid !! (i + 1)%nat with
     | Some next => String.eqb (conjunction next) "OR"
     | None => false
     end
  = match valid !! (i + 1)%nat with
    | Some next => String.eqb (conjunction next) "OR"
    | None => false
    end.
Proof.
  destruct (valid !! (i + 1)%nat) as [next|] eqn:Hnext;
    [|apply andb_false_r].
  apply lookup_lt_Some in Hnext.
  destruct (Z.ltb_spec (Z.of_nat i) (Z.of_nat (length valid) - 1));
    [reflexivity | lia].
Qed.

Lemma groupStep_later (valid : list Condition) (result : string)
    (inOrGroup : bool) (i : nat) (c : Condition) :
  (1 <= i)%nat ->
  groupStep valid (result, inOrGroup) (i, c) =
  let clause := buildConditionClause c in
  let nextIsOr :=
    match valid !! (i + 1)%nat with
    | Some next => String.eqb (conjunction next) "OR"
    | None => false
    end in
  if String.eqb (conjunction c) "OR" then
    if inOrGroup then
      if nextIsOr then (result ++ nl ++ "         OR " ++ clause, true)
      else (result ++ nl ++ "         OR " ++ clause ++ ")", false)
    else if nextIsOr then (result ++ nl ++ "    AND (" ++ clause, true)
    else (result ++ nl ++ "    AND (" ++ clause ++ ")", false)
  else (result ++ nl ++ "    AND " ++ clause, inOrGroup).
Proof.
  intros Hi. unfold groupStep. rewrite nextIsOr_lookup.
  destruct (Nat.eqb_spec i 0) as [->|_]; [lia|].
  cbv zeta.
  destruct (String.eqb (conjunction c) "OR"); [|reflexivity].
  destruct inOrGroup,
    (match valid !! (i + 1)%nat with
     | Some next => String.eqb (conjunction next) "OR"
     | None => false
     end);
    cbn [negb andb]; rewrite ?append_assoc; reflexivity.
Qed.

Lemma drop_head {A : Type} (l rest : list A) (x : A) (i : nat) :
  drop i l = x :: rest ->
  drop (S i) l = rest /\ l !! (i + 1)%nat = head rest.
Proof.
  intros H.
  assert (Hx : l !! i = Some x).
  { rewrite <- (Nat.add_0_r i), <- lookup_drop, H. reflexivity. }
  rewrite (drop_S _ _ _ Hx) in H. injection H as H.
  split; [exact H|].
  rewrite Nat.add_1_r, <- (Nat.add_0_r (S i)), <- lookup_drop, H.
  now destruct rest.
Qed.

(** What the loop holds after its first round: a chain of AND, or, while
    a group is open, a chain of AND, the opening of the group and a chain
    of OR, and then the next condition carries OR. The loop ends with the
    group closed. *)
Lemma groupStep_chain (valid l : list Condition) :
  forall (i : nat) (acc : string * bool),
    (1 <= i)%nat -> drop i valid = l ->
    Forall (fun c => SoqlComparison (buildConditionClause c)) l ->
    (if snd acc then
       (exists before group,
           fst acc = before ++ nl ++ "    AND (" ++ group
           /\ SoqlChain "AND" before /\ SoqlChain "OR" group)
       /\ (exists c rest, l = c :: rest /\ conjunction c = "OR")
     else SoqlChain "AND" (fst acc)) ->
    snd (fold_left (groupStep valid) (imap (fun j x => ((i + j)%nat, x)) l)
           acc) = false
    /\ SoqlChain "AND"
         (fst (fold_left (groupStep valid)
                 (imap (fun j x => ((i + j)%nat, x)) l) acc)).
Proof.
  induction l as [|c l IH]; intros i [result inOrGroup] Hi Hdrop Hall Hacc.
  - cbn [imap fold_left snd fst] in *.
    destruct inOrGroup; [|now split].
    destruct Hacc as (_ & c & rest & H & _). discriminate.
  - cbn [imap fold_left]. rewrite Nat.add_0_r.
    rewrite (imap_ext _ (fun j x => ((S i + j)%nat, x)) l)
      by (intros j x _; unfold compose; f_equal; lia).
    apply drop_head in Hdrop as [Hdrop Hnext].
    inversion Hall as [|? ? Hc Hrest]; subst.
    apply item_comparison in Hc.
    apply IH; [lia | reflexivity | exact Hrest |].
    rewrite (groupStep_later _ _ _ _ _ Hi), Hnext. cbv zeta.
    cbn [snd fst] in Hacc.
    destruct (String.eqb (conjunction c) "OR") eqn:Hor.
    + destruct inOrGroup.
      * destruct Hacc as ((before & group & -> & Hbefore & Hgroup) & _).
        assert (Hmore : SoqlChain "OR"
                          (group ++ nl ++ "         OR "
                             ++ buildConditionClause c))
          by now apply chain_or.
        destruct (drop (S i) valid) as [|next rest] eqn:Hl; cbn [head].
        -- cbn [snd fst].
           replace ((before ++ nl ++ "    AND (" ++ group) ++ nl
                      ++ "         OR " ++ buildConditionClause c ++ ")")
             with (before ++ nl ++ "    AND "
                     ++ "(" ++ (group ++ nl ++ "         OR "
                                  ++ buildConditionClause c) ++ ")")
             by (rewrite !append_assoc; reflexivity).
           now apply chain_and, group_item.
        -- destruct (String.eqb (conjunction next) "OR") eqn:Hn; cbn [snd fst].
           ++ split.
              ** exists before,
                   (group ++ nl ++ "         OR " ++ buildConditionClause c).
                 split; [rewrite !append_assoc; reflexivity | now split].
              ** exists next, rest. split; [reflexivity|].
                 now apply String.eqb_eq.
           ++ replace ((before ++ nl ++ "    AND (" ++ group) ++ nl
                         ++ "         OR " ++ buildConditionClause c ++ ")")
                with (before ++ nl ++ "    AND "
                        ++ "(" ++ (group ++ nl ++ "         OR "
                                     ++ buildConditionClause c) ++ ")")
                by (rewrite !append_assoc; reflexivity).
              now apply chain_and, group_item.
      * assert (Hone : SoqlChain "OR" (buildConditionClause c))
          by now apply chain_one.
        destruct (drop (S i) valid) as [|next rest] eqn:Hl; cbn [head].
        -- cbn [snd fst].
           change (SoqlChain "AND"
                     (result ++ nl ++ "    AND "
                        ++ "(" ++ buildConditionClause c ++ ")")).
           now apply chain_and, group_item.
        -- destruct (String.eqb (conjunction next) "OR") eqn:Hn; cbn [snd fst].
           ++ split.
              ** exists result, (buildConditionClause c). now repeat split.
              ** exists next, rest. split; [reflexivity|].
                 now apply String.eqb_eq.
           ++ change (SoqlChain "AND"
                        (result ++ nl ++ "    AND "
                           ++ "(" ++ buildConditionClause c ++ ")")).
              now apply chain_and, group_item.
    + cbn [snd fst]. destruct inOrGroup.
      * destruct Hacc as (_ & c' & rest & H & Hc').
        injection H as -> _. rewrite Hc' in Hor. discriminate.
      * now apply chain_and.
Qed.

(** The conditions that can be written in SOQL. *)
Lemma fitting_conditions (l : list Condition) :
  forallb conditionFits l = true ->
  Forall (fun c => SoqlComparison (buildConditionClause c)) l
  /\ Forall (fun c => conjunction c = "AND" \/ conjunction c = "OR") l.
Proof.
  induction l as [|c l IH]; [now split|].
  cbn [forallb]. intros H. apply andb_prop in H as [Hc Hl].
  unfold conditionFits in Hc.
  apply andb_prop in Hc as [Hc Hfit]. apply andb_prop in Hc as [Hc Hconj].
  apply andb_prop in Hc as [Hname _].
  destruct (IH Hl) as [Hclauses Hconjs].
  split; constructor; try assumption.
  - now apply buildConditionClause_syntax.
  - apply includes_In in Hconj. cbn in Hconj. intuition.
Qed.

Lemma whereClauseOf_syntax (conds : list Condition) :
  forallb conditionFits (List.filter validCondition conds) = true ->
  existsb validCondition conds = true ->
  SoqlCondition (whereClauseOf conds).
Proof.
  intros Hfit Hsome. unfold whereClauseOf.
  apply fitting_conditions in Hfit as [Hclauses Hconjs].
  rewrite existsb_filter in Hsome.
  destruct (List.filter validCondition conds) as [|c0 rest] eqn:Hvalid;
    [discriminate|].
  clear Hsome. cbn [length Nat.eqb].
  inversion Hclauses as [|? ? Hc0 Hrest]; subst.
  inversion Hconjs as [|? ? _ Hconj]; subst.
  rewrite !someConjunction_rest.
  destruct (existsb (fun c => String.eqb (conjunction c) "OR") rest)
    eqn:Hor; cbn [andb negb].
  - destruct (existsb (fun c => String.eqb (conjunction c) "AND") rest)
      eqn:Hand; cbn [negb].
    + unfold indexed. cbn [imap fold_left].
      change (groupStep (c0 :: rest) ("", false) (0%nat, c0))
        with (buildConditionClause c0, false).
      destruct (groupStep_chain (c0 :: rest) rest 1
                  (buildConditionClause c0, false)) as [Hclosed Hchain];
        [lia | reflexivity | exact Hrest
        | now apply chain_one, item_comparison |].
      rewrite (imap_ext _ (fun j x => ((1 + j)%nat, x)) rest)
        by (intros j x _; reflexivity).
      destruct (fold_left _ _ _) as [result inOrGroup].
      cbn [snd fst] in Hclosed, Hchain. subst inOrGroup.
      apply (condition_joined "AND"); [cbn; tauto | exact Hchain].
    + assert (Hall : Forall (fun c => conjunction c = "OR") rest).
      { apply (no_other_conjunction "OR" "AND"); [|exact Hand].
        eapply Forall_impl; [exact Hconj|]. intros c; cbn; tauto. }
      cbn [imap]. rewrite concat_empty_cons.
      rewrite (imap_ext _ (fun i c => simpleClause (S (0 + i)) c) rest)
        by (intros j x _; reflexivity).
      rewrite (imap_simpleClause_uniform "OR" 0 rest Hall).
      apply (condition_joined "OR"); [cbn; tauto|].
      now apply uniform_chain.
  - assert (Hall : Forall (fun c => conjunction c = "AND") rest)
      by now apply (no_other_conjunction "AND" "OR").
    cbn [imap]. rewrite concat_empty_cons.
    rewrite (imap_ext _ (fun i c => simpleClause (S (0 + i)) c) rest)
      by (intros j x _; reflexivity).
    rewrite (imap_simpleClause_uniform "AND" 0 rest Hall).
    apply (condition_joined "AND"); [cbn; tauto|].
    now apply uniform_chain.
Qed.

(** *** The query *)

Lemma joined_fields (fields : list string) :
  fields <> [] -> forallb isName fields = true ->
  FieldList (join ("," ++ nl ++ "       ") fields).
Proof.
  unfold join. induction fields as [|field rest IH]; [congruence|].
  intros _ H. cbn [forallb] in H. apply andb_prop in H as [Hfield Hrest].
  destruct rest as [|next rest].
  - now apply fields_one.
  - change (String.concat ("," ++ nl ++ "       ") (field :: next :: rest))
      with (field ++ ("," ++ nl ++ "       ")
              ++ String.concat ("," ++ nl ++ "       ") (next :: rest)).
    rewrite !append_assoc.
    apply (fields_more field (nl ++ "       "));
      [exact Hfield | reflexivity | now apply IH].
Qed.

Lemma uint_digits (d : Decimal.uint) :
  allChars isDigit (NilEmpty.string_of_uint d) = true.
Proof. induction d; cbn; auto. Qed.

Lemma numToString_numeral (n : Z) :
  (0 <= n)%Z -> isNumeral (numToString n) = true.
Proof.
  intros Hn. unfold numToString, isNumeral.
  destruct n as [|p|p]; [reflexivity | | lia].
  cbn [Z.to_int NilZero.string_of_int].
  pose proof (uint_digits (Pos.to_uint p)) as Hdigits.
  unfold NilZero.string_of_uint.
  destruct (Pos.to_uint p) eqn:Hp; [reflexivity | ..];
    rewrite Hdigits; reflexivity.
Qed.

Lemma selectList_syntax (st : State) :
  wellFormed st = true -> complete st = true -> SelectList (selectList st).
Proof.
  unfold wellFormed, complete, selectList, offeredFunction.
  intros Hwell Hcomplete.
  apply andb_prop in Hwell as [Hwell _]. apply andb_prop in Hwell as [Hwell _].
  apply andb_prop in Hwell as [_ Hselected].
  apply andb_prop in Hcomplete as [_ Hcomplete].
  destruct (String.eqb (queryType st) "List").
  - apply select_fields, joined_fields; [|exact Hselected].
    intros E. rewrite E in Hcomplete. discriminate.
  - destruct (String.eqb (queryType st) "Aggregate"); [|discriminate].
    apply andb_prop in Hcomplete as [Hfunction _].
    apply andb_prop in Hselected as [Hoffered Htarget].
    destruct (aggregateFunction st) as [function|]; [|discriminate].
    destruct (isSet (aggregateFieldApiName st)); [|apply select_count].
    cbn [show]. apply select_aggregate; [|exact Htarget].
    now apply includes_In.
Qed.

Lemma generatedSoql_syntax (st : State) :
  wellFormed st = true -> complete st = true ->
  SoqlQuery (evalState generatedSoql st).
Proof.
  intros Hwell Hcomplete.
  pose proof (selectList_syntax st Hwell Hcomplete) as Hselect.
  unfold evalState. rewrite generatedSoql_run, Hcomplete. cbn [fst].
  unfold wellFormed in Hwell.
  apply andb_prop in Hwell as [Hwell Hlimit].
  apply andb_prop in Hwell as [Hwell Hconditions].
  apply andb_prop in Hwell as [Hobject _].
  apply (soql_query " " (selectList st) (nl ++ "  ") " "
           (show (selectedObjectApiName (page2Data st)))
           (wherePart st) (limitPart st));
    try reflexivity; try assumption.
  - unfold wherePart.
    destruct (existsb validCondition (whereConditions st)) eqn:Hsome;
      [|apply where_none].
    apply (where_condition (nl ++ " ") " "); try reflexivity.
    now apply whereClauseOf_syntax.
  - unfold limitPart.
    destruct (String.eqb (queryType st) "List" && limitSet (queryLimit st))
      eqn:Hset; [|apply limit_none].
    apply (limit_rows (nl ++ " ") " "); try reflexivity.
    destruct (queryLimit st) as [n|];
      [|now rewrite andb_false_r in Hset].
    apply andb_prop in Hlimit as [Hlimit _].
    apply numToString_numeral. now apply Z.leb_le.
Qed.

(** A complete selection whose query is no SOQL: the value of a numeric
    comparison was left empty, so that the query ends with the operator;
    and the limit 0 is set and no LIMIT clause is written. *)
Lemma empty_value_query_is_not_soql :
  complete emptyValueAndZeroLimit = true
  /\ evalState generatedSoql emptyValueAndZeroLimit
     = "SELECT Name" ++ nl ++ "  FROM Account" ++ nl ++ " WHERE Amount = "
  /\ ~ SoqlQuery (evalState generatedSoql emptyValueAndZeroLimit)
  /\ queryLimit emptyValueAndZeroLimit = Some 0
  /\ isSubstring "LIMIT" (evalState generatedSoql emptyValueAndZeroLimit)
     = false.
Proof.
  repeat split; try reflexivity.
  intros H. apply SoqlQuery_ends in H. discriminate H.
Qed.

(** C3 (amended): [generatedSoql] is the empty string exactly when the
    selection is not complete. For a complete selection it is
    [SELECT <list> FROM <object>], the list being the selected fields
    between commas, [FUNC(field)] or [COUNT()], followed by a WHERE clause
    exactly when a condition has a field and an operator, the clause being
    not empty, and in list mode by a LIMIT clause exactly when the limit is
    a number other than 0. Only the query of a complete selection is SOQL;
    and it is SOQL when the selection is made of SOQL names and values
    ([wellFormed]): the object, the fields and the target are names, the
    function is one of those offered, every condition that takes part can
    be written in SOQL, with an operand wherever its value is written
    without quotes, and the limit is a safe integer that is not
    negative. *)
Theorem generatedSoql_is_soql (st : State) :
  (evalState generatedSoql st = "" <-> complete st = false)
  /\ (complete st = true ->
      evalState generatedSoql st =
        "SELECT "
          ++ (if String.eqb (queryType st) "List" then
                join ("," ++ nl ++ "       ") (selectedFieldApiNames st)
              else if isSet (aggregateFieldApiName st) then
                show (aggregateFunction st)
                  ++ "(" ++ show (aggregateFieldApiName st) ++ ")"
              else "COUNT()")
          ++ nl ++ "  FROM " ++ show (selectedObjectApiName (page2Data st))
          ++ (if existsb validCondition (whereConditions st) then
                nl ++ " WHERE " ++ whereClauseOf (whereConditions st)
              else "")
          ++ (if String.eqb (queryType st) "List"
                 && limitSet (queryLimit st)
              then nl ++ " LIMIT " ++ showLimit (queryLimit st)
              else ""))
  /\ (existsb validCondition (whereConditions st) = true ->
      whereClauseOf (whereConditions st) <> "")
  /\ (SoqlQuery (evalState generatedSoql st) -> complete st = true)
  /\ (wellFormed st = true -> complete st = true ->
      SoqlQuery (evalState generatedSoql st)).
Proof.
  assert (Hempty : evalState generatedSoql st = "" <-> complete st = false).
  { unfold evalState. rewrite generatedSoql_run. cbn [fst].
    destruct (complete st); split; try reflexivity; discriminate. }
  split; [exact Hempty|]. split; [|split; [|split]].
  - intros Hcomplete. unfold evalState.
    rewrite generatedSoql_run, Hcomplete. reflexivity.
  - rewrite <- whereClauseOf_nonEmpty. now intros H%nonEmpty_true.
  - intros Hquery. apply SoqlQuery_nonempty in Hquery.
    destruct (complete st); [reflexivity|].
    destruct Hquery. now apply Hempty.
  - apply generatedSoql_syntax.
Qed.

Lemma generatedSoql_is_soql_witness :
  wellFormed exampleQuery = true
  /\ complete exampleQuery = true
  /\ SoqlQuery (evalState generatedSoql exampleQuery)
  /\ evalState generatedSoql exampleQuery
     = "SELECT Name," ++ nl ++ "       Owner.Name," ++ nl ++ "       Amount"
         ++ nl ++ "  FROM Opportunity"
         ++ nl ++ " WHERE Name LIKE '%\'s%'"
         ++ nl ++ "    AND Amount > 5000"
         ++ nl ++ "    AND (StageName = 'Closed Won'"
         ++ nl ++ "         OR CloseDate = LAST_N_DAYS:30)"
         ++ nl ++ "    AND OwnerId = :UserInfo.getUserId()"
         ++ nl ++ " LIMIT 50".
Proof.
  split; [reflexivity|]. split; [reflexivity|]. split; [|reflexivity].
  apply (generatedSoql_is_soql exampleQuery); reflexivity.
Defined.

End SoqlFacts.

(** ** Saving and restoring the query builder *)

Module RestoreFacts.
Import StateM Js QueryBuilder StateFacts.
Local Open Scope Z_scope.
Local Open Scope list_scope.
Local Open Scope string_scope.

Lemma parentsOf_keeps {A} (f : State -> A) (paths seen : list string) :
  keeps f (parentsOf paths seen).
Proof.
  revert seen. induction paths as [|p paths IH]; intros seen; cbn [parentsOf].
  - apply keeps_ret.
  - unfold getParentFieldApiName. keeps_tac; apply IH.
Qed.

Lemma restoreConditions_keeps {A} (f : State -> A) (saved : list Condition) :
  (forall v s, f (set_conditionIdCounter v s) = f s) ->
  keeps f (restoreConditions saved).
Proof.
  intros H. induction saved as [|c saved IH]; cbn [restoreConditions].
  - apply keeps_ret.
  - repeat first
      [ exact IH
      | apply keeps_assign; intros; apply H
      | keeps_step ].
Qed.


(** Frame conditions of the restore, through its helpers. *)
Ltac frame :=
  unfold loadFieldsForObject, filterAggregateFields,
    getSelectedAggregateFunction, autoExpandFieldsWithSelectedChildren,
    isAggregateMode, updateSoqlPreview, showError;
  repeat first
    [ apply parentsOf_keeps
    | apply restoreConditions_keeps; intros; reflexivity
    | keeps_step ].

(** What [f] reads after a run, past the calls that keep it. *)
Ltac peel f :=
  repeat lazymatch goal with
    | |- context [f (execState ?m ?s)] =>
        let K := fresh "K" in
        assert (K : keeps f m) by frame;
        rewrite (K s); clear K
    end.

Lemma serializeQueryConfig_run (st : State) :
  serializeQueryConfig st
  = (Config.mk (selectedObjectApiName (page2Data st))
       (selectedObjectLabel (page2Data st)) (queryType st)
       (selectedFieldApiNames st) (aggregateFunction st)
       (aggregateFieldApiName st) (aggregateFieldSearchTerm st)
       (map savedCondition (whereConditions st)) (activeOwnerFilter st)
       (queryLimit st), st).
Proof. reflexivity. Qed.

Lemma restoreConditions_same (saved : list Condition) (st : State) :
  Forall2 sameCondition saved (evalState (restoreConditions saved) st).
Proof.
  revert st. induction saved as [|c saved IH]; intros st; cbn [restoreConditions].
  - constructor.
  - rewrite !eval_bind. cbn [ret evalState fst].
    constructor; [|apply IH].
    unfold sameCondition. cbn. repeat split.
Qed.

Lemma sameCondition_trans (a b c : Condition) :
  sameCondition a b -> sameCondition b c -> sameCondition a c.
Proof.
  unfold sameCondition. intros (?&?&?&?&?&?) (?&?&?&?&?&?).
  repeat split; congruence.
Qed.

Lemma orNull_nullOrSet (o : option string) : nullOrSet o = true -> orNull o = o.
Proof.
  unfold orNull, nullOrSet, isSet. destruct o as [s|]; [|reflexivity].
  intros ->. reflexivity.
Qed.

Lemma limitOrNull_nullOrNonZero (o : option Z) :
  nullOrNonZero o = true -> limitOrNull o = o.
Proof.
  unfold limitOrNull, nullOrNonZero, limitSet. destruct o as [n|]; [|reflexivity].
  intros ->. reflexivity.
Qed.


(** What the WHERE clause reads of a condition. *)
Lemma sameCondition_clause (c c' : Condition) :
  sameCondition c c' ->
  buildConditionClause c' = buildConditionClause c
  /\ validCondition c' = validCondition c
  /\ conjunction c' = conjunction c.
Proof.
  destruct c, c'. unfold sameCondition. cbn.
  intros (-> & _ & -> & -> & -> & ->). repeat split.
Qed.

Lemma sameCondition_filter (l l' : list Condition) :
  Forall2 sameCondition l l' ->
  Forall2 sameCondition (List.filter validCondition l)
    (List.filter validCondition l').
Proof.
  induction 1 as [|c c' l l' Hc Hl IH]; cbn [List.filter]; [constructor|].
  destruct (sameCondition_clause c c' Hc) as (_ & -> & _).
  destruct (validCondition c); [constructor|]; assumption.
Qed.

Lemma sameCondition_imap (f : nat -> nat) (P : nat -> Condition -> string)
    (l l' : list Condition) :
  (forall i c c', sameCondition c c' -> P i c' = P i c) ->
  Forall2 sameCondition l l' ->
  imap (fun i c => P (f i) c) l' = imap (fun i c => P (f i) c) l.
Proof.
  intros HP H. revert f. induction H as [|c c' l l' Hc Hl IH]; intros f;
    cbn [imap]; [reflexivity|].
  f_equal; [now apply HP|]. apply (IH (fun i => f (S i))).
Qed.


Lemma sameCondition_existsb (p : nat * Condition -> bool) (f : nat -> nat)
    (l l' : list Condition) :
  (forall i c c', sameCondition c c' -> p (i, c') = p (i, c)) ->
  Forall2 sameCondition l l' ->
  existsb p (imap (fun i c => (f i, c)) l')
  = existsb p (imap (fun i c => (f i, c)) l).
Proof.
  intros Hp H. revert f. induction H as [|c c' l l' Hc Hl IH]; intros f;
    cbn [imap existsb]; [reflexivity|].
  f_equal; [now apply Hp|]. apply (IH (fun i => f (S i))).
Qed.

Lemma sameCondition_groupStep (v v' : list Condition) (acc : string * bool)
    (i : nat) (c c' : Condition) :
  Forall2 sameCondition v v' -> sameCondition c c' ->
  groupStep v' acc (i, c') = groupStep v acc (i, c).
Proof.
  intros Hv Hc. unfold groupStep. destruct acc as [result inOrGroup].
  destruct (sameCondition_clause c c' Hc) as (-> & _ & ->).
  rewrite <- (Forall2_length _ _ _ Hv).
  assert (Hnext :
    match v' !! (i + 1)%nat with
    | Some next => String.eqb (conjunction next) "OR"
    | None => false
    end
    = match v !! (i + 1)%nat with
      | Some next => String.eqb (conjunction next) "OR"
      | None => false
      end).
  { pose proof (proj1 (Forall2_lookup _ _ _) Hv (i + 1)%nat) as Hl.
    destruct Hl as [n n' Hn|]; [|reflexivity].
    now destruct (sameCondition_clause n n' Hn) as (_ & _ & ->). }
  rewrite Hnext. reflexivity.
Qed.

Lemma sameCondition_fold (v v' l l' : list Condition) :
  Forall2 sameCondition v v' -> Forall2 sameCondition l l' ->
  forall (f : nat -> nat) (acc : string * bool),
    fold_left (groupStep v') (imap (fun i c => (f i, c)) l') acc
    = fold_left (groupStep v) (imap (fun i c => (f i, c)) l) acc.
Proof.
  intros Hv H. induction H as [|c c' l l' Hc Hl IH]; intros f acc;
    cbn [imap fold_left]; [reflexivity|].
  rewrite (sameCondition_groupStep v v' acc (f 0%nat) c c' Hv Hc).
  apply (IH (fun i => f (S i))).
Qed.

(** Conditions that agree on field, type, operator, value and conjunction
    give the same WHERE clause. *)
Lemma sameCondition_whereClause (l l' : list Condition) :
  Forall2 sameCondition l l' -> whereClauseOf l' = whereClauseOf l.
Proof.
  intros H. apply sameCondition_filter in H. unfold whereClauseOf.
  set (v := List.filter validCondition l) in *.
  set (v' := List.filter validCondition l') in *.
  rewrite <- (Forall2_length _ _ _ H).
  destruct (length v =? 0)%nat; [reflexivity|].
  assert (Hsome : forall conj,
    someConjunction conj v' = someConjunction conj v).
  { intros conj. unfold someConjunction, indexed.
    apply (sameCondition_existsb _ (fun i => i)); [|exact H].
    intros i c c' Hc. cbn [fst snd].
    now destruct (sameCondition_clause c c' Hc) as (_ & _ & ->). }
  assert (Hsimple : imap simpleClause v' = imap simpleClause v).
  { apply (sameCondition_imap (fun i => i) simpleClause); [|exact H].
    intros i c c' Hc. unfold simpleClause.
    now destruct (sameCondition_clause c c' Hc) as (-> & _ & ->). }
  rewrite !Hsome, Hsimple. unfold indexed.
  rewrite (sameCondition_fold v v' v v' H H (fun i => i) ("", false)).
  reflexivity.
Qed.


Lemma sameCondition_valid (l l' : list Condition) :
  Forall2 sameCondition l l' ->
  existsb validCondition l' = existsb validCondition l.
Proof.
  induction 1 as [|c c' l l' Hc Hl IH]; cbn [existsb]; [reflexivity|].
  destruct (sameCondition_clause c c' Hc) as (_ & -> & _). now rewrite IH.
Qed.

Lemma sameCondition_saved (conds l' : list Condition) :
  Forall2 sameCondition (map savedCondition conds) l' ->
  Forall2 sameCondition conds l'.
Proof.
  revert l'. induction conds as [|c conds IH]; intros l' H; cbn [map] in H.
  - inversion H. constructor.
  - inversion H as [|? b ? bs Hc Hrest]; subst. constructor; [|apply IH, Hrest].
    eapply sameCondition_trans; [|exact Hc].
    unfold sameCondition, savedCondition. cbn. repeat split.
Qed.

Lemma orNull_cases (o : option string) :
  orNull o = o \/ (isSet o = false /\ orNull o = None).
Proof.
  unfold orNull. destruct (isSet o); [left | right]; auto.
Qed.

Lemma limitOrNull_cases (o : option Z) :
  limitOrNull o = o \/ (limitSet o = false /\ limitOrNull o = None).
Proof.
  unfold limitOrNull. destruct (limitSet o); [left | right]; auto.
Qed.


Lemma deserializeQueryConfig_fields (srv : Server) (config : Config.t)
    (target : State) :
  let after := execState (deserializeQueryConfig srv (Some config)) target in
  page2Data after
  = mkPage2Data (orNull (Config.objectApiName config))
      (orNull (Config.objectLabel config))
  /\ queryType after = orDefault (Config.queryType config) "List"
  /\ selectedFieldApiNames after = Config.selectedFields config
  /\ aggregateFunction after = orNull (Config.aggregateFunction config)
  /\ aggregateFieldApiName after
     = orNull (Config.aggregateFieldApiName config)
  /\ Forall2 sameCondition (Config.whereConditions config)
       (whereConditions after)
  /\ activeOwnerFilter after = orNull (Config.activeOwnerFilter config)
  /\ queryLimit after = limitOrNull (Config.queryLimit config).
Proof.
  cbv zeta. unfold deserializeQueryConfig.
  repeat (rewrite exec_bind; cbv beta).
  split; [peel page2Data; reflexivity|].
  split; [peel queryType; reflexivity|].
  split; [peel selectedFieldApiNames; reflexivity|].
  split; [peel aggregateFunction; reflexivity|].
  split; [peel aggregateFieldApiName; reflexivity|].
  split; [peel whereConditions; cbn; apply restoreConditions_same|].
  split; [peel activeOwnerFilter; reflexivity|].
  peel queryLimit; reflexivity.
Qed.

(** C10, as amended: when an object is selected and no saved field holds an
    empty string or a limit of 0, loading into any builder what
    [serializeQueryConfig] saved restores the selected object and its label,
    the query type, the selected fields, the aggregate function and its
    target, field, label, type, operator, value and conjunction of every
    condition in order, the owner filter and the limit. *)
Theorem round_trip_restores (srv : Server) (source target : State) :
  restorable source = true ->
  let after := restored srv source target in
  page2Data after = page2Data source
  /\ queryType after = queryType source
  /\ selectedFieldApiNames after = selectedFieldApiNames source
  /\ aggregateFunction after = aggregateFunction source
  /\ aggregateFieldApiName after = aggregateFieldApiName source
  /\ Forall2 sameCondition (whereConditions source) (whereConditions after)
  /\ activeOwnerFilter after = activeOwnerFilter source
  /\ queryLimit after = queryLimit source.
Proof.
  unfold restorable. rewrite !andb_true_iff.
  intros [[[[[[Hobj Hlabel] Htype] Hfunc] Hfield] Howner] Hlimit].
  cbv zeta. unfold restored, evalState.
  rewrite serializeQueryConfig_run. cbn [fst].
  destruct (deserializeQueryConfig_fields srv
              (Config.mk (selectedObjectApiName (page2Data source))
                 (selectedObjectLabel (page2Data source)) (queryType source)
                 (selectedFieldApiNames source) (aggregateFunction source)
                 (aggregateFieldApiName source)
                 (aggregateFieldSearchTerm source)
                 (map savedCondition (whereConditions source))
                 (activeOwnerFilter source) (queryLimit source)) target)
    as (Hp & Ht & Hs & Hf & Ha & Hw & Ho & Hl).
  cbn [Config.objectApiName Config.objectLabel Config.queryType
       Config.selectedFields Config.aggregateFunction
       Config.aggregateFieldApiName Config.aggregateFieldSearchTerm
       Config.whereConditions Config.activeOwnerFilter Config.queryLimit]
    in Hp, Ht, Hs, Hf, Ha, Hw, Ho, Hl.
  split.
  { rewrite Hp, (orNull_nullOrSet _ Hlabel).
    unfold orNull. rewrite Hobj. destruct (page2Data source); reflexivity. }
  split; [rewrite Ht; unfold orDefault; rewrite Htype; reflexivity|].
  split; [exact Hs|].
  split; [rewrite Hf; apply orNull_nullOrSet, Hfunc|].
  split; [rewrite Ha; apply orNull_nullOrSet, Hfield|].
  split; [now apply sameCondition_saved|].
  split; [rewrite Ho; apply orNull_nullOrSet, Howner|].
  rewrite Hl. apply limitOrNull_nullOrNonZero, Hlimit.
Qed.

Lemma round_trip_restores_witness :
  restorable exampleBuilder = true
  /\ queryLimit (restored offlineServer exampleBuilder initial) = Some 10%Z.
Proof.
  split; [reflexivity|].
  apply (round_trip_restores offlineServer exampleBuilder initial).
  reflexivity.
Defined.

(** X1: Whatever was saved, with a query type that is not empty, the restored
    builder generates the query of the builder that saved. *)
Lemma round_trip_keeps_query (srv : Server) (source target : State) :
  nonEmpty (queryType source) = true ->
  evalState generatedSoql (restored srv source target)
  = evalState generatedSoql source.
Proof.
  intros Htype. unfold restored, evalState at 2.
  rewrite serializeQueryConfig_run. cbn [fst].
  destruct (deserializeQueryConfig_fields srv
              (Config.mk (selectedObjectApiName (page2Data source))
                 (selectedObjectLabel (page2Data source)) (queryType source)
                 (selectedFieldApiNames source) (aggregateFunction source)
                 (aggregateFieldApiName source)
                 (aggregateFieldSearchTerm source)
                 (map savedCondition (whereConditions source))
                 (activeOwnerFilter source) (queryLimit source)) target)
    as (Hp & Ht & Hs & Hf & Ha & Hw & _ & Hl).
  cbn [Config.objectApiName Config.objectLabel Config.queryType
       Config.selectedFields Config.aggregateFunction
       Config.aggregateFieldApiName Config.aggregateFieldSearchTerm
       Config.whereConditions Config.activeOwnerFilter Config.queryLimit]
    in Hp, Ht, Hs, Hf, Ha, Hw, Hl.
  apply sameCondition_saved in Hw.
  unfold orDefault in Ht. rewrite Htype in Ht.
  unfold evalState. rewrite !QueryBuilderFacts.generatedSoql_run. cbn [fst].
  unfold complete, selectList, wherePart, limitPart.
  rewrite Hp, Ht, Hs, Hf, Ha, Hl. cbn [selectedObjectApiName].
  rewrite (sameCondition_valid _ _ Hw), (sameCondition_whereClause _ _ Hw).
  destruct (orNull_cases (selectedObjectApiName (page2Data source)))
    as [-> | [Eo ->]]; [|now rewrite Eo].
  destruct (isSet (selectedObjectApiName (page2Data source))); [|reflexivity].
  cbn [andb].
  destruct (String.eqb (queryType source) "List").
  - destruct (limitOrNull_cases (queryLimit source)) as [-> | [El ->]];
      [reflexivity | now rewrite El].
  - rewrite !andb_false_l.
    destruct (orNull_cases (aggregateFunction source)) as [-> | [Ef ->]];
      [|rewrite Ef; cbn [isSet andb];
        now destruct (String.eqb (queryType source) "Aggregate")].
    destruct (orNull_cases (aggregateFieldApiName source)) as [-> | [Ea ->]];
      [reflexivity|].
    rewrite Ea. reflexivity.
Qed.

Lemma round_trip_keeps_query_witness :
  nonEmpty (queryType exampleBuilder) = true
  /\ evalState generatedSoql (restored offlineServer exampleBuilder initial)
     = evalState generatedSoql exampleBuilder.
Proof.
  split; [reflexivity|].
  apply (round_trip_keeps_query offlineServer exampleBuilder initial).
  reflexivity.
Defined.

(** With an object selected and the limit 0 entered, the restored limit is
    null: [config.queryLimit || null]. *)
Lemma zero_limit_is_not_restored :
  isSet (selectedObjectApiName (page2Data zeroLimit)) = true
  /\ queryLimit zeroLimit = Some 0%Z
  /\ queryLimit (restored offlineServer zeroLimit initial) = None
  /\ queryLimit (restored offlineServer zeroLimit initial)
     <> queryLimit zeroLimit.
Proof. repeat split. discriminate. Qed.

(** Nor is an empty string: it comes back as null, and an empty query type
    as "List". *)
Lemma empty_texts_are_not_restored :
  let after := restored offlineServer emptyTexts initial in
  selectedObjectLabel (page2Data emptyTexts) = Some ""
  /\ selectedObjectLabel (page2Data after) = None
  /\ queryType emptyTexts = ""
  /\ queryType after = "List"
  /\ aggregateFunction emptyTexts = Some ""
  /\ aggregateFunction after = None
  /\ aggregateFieldApiName emptyTexts = Some ""
  /\ aggregateFieldApiName after = None
  /\ activeOwnerFilter emptyTexts = Some ""
  /\ activeOwnerFilter after = None.
Proof. cbv zeta. repeat split. Qed.

(** The limit 0 prints no LIMIT clause, before and after. *)
Lemma zero_limit_prints_the_same_query :
  evalState generatedSoql (restored offlineServer zeroLimit initial)
  = evalState generatedSoql zeroLimit.
Proof. reflexivity. Qed.

End RestoreFacts.

(** ** Numbers: the order of binary64, the sign of a difference and
    integers as numbers *)

Module FloatFacts.
Import JsValue.

Local Open Scope Z_scope.

Lemma cont_eq (m1 m2 : positive) : Pos.compare_cont Eq m1 m2 = Pos.compare m1 m2.
Proof. reflexivity. Qed.

Ltac pos_cmp :=
  repeat match goal with
  | |- context [PosDef.Pos.compare_cont Eq ?a ?b] =>
      change (PosDef.Pos.compare_cont Eq a b) with (Pos.compare a b)
  end.

Ltac cmp_cases :=
  pos_cmp;
  repeat match goal with
  | H : context [Z.compare ?a ?b] |- _ => destruct (Z.compare_spec a b); try subst
  | |- context [Z.compare ?a ?b] => destruct (Z.compare_spec a b); try subst
  | H : context [Pos.compare ?a ?b] |- _ => destruct (Pos.compare_spec a b); try subst
  | |- context [Pos.compare ?a ?b] => destruct (Pos.compare_spec a b); try subst
  end.

Ltac sf_destruct :=
  repeat match goal with
  | x : spec_float |- _ => destruct x as [[|]| [|] | | [|] ? ?]
  end.

Lemma SFcompare_antisym (a b : spec_float) :
  SFcompare b a = option_map CompOpp (SFcompare a b).
Proof.
  sf_destruct; cbn [SFcompare option_map CompOpp]; try reflexivity;
    pos_cmp; cmp_cases; cbn [CompOpp]; try reflexivity; try lia.
Qed.

Lemma SFcompare_refl (a : spec_float) :
  a <> S754_nan -> SFcompare a a = Some Eq.
Proof.
  sf_destruct; cbn [SFcompare]; try reflexivity; try congruence; intros _;
    pos_cmp; rewrite Z.compare_refl, Pos.compare_refl; reflexivity.
Qed.

Lemma SFcompare_lt_le_trans (a b c : spec_float) :
  SFcompare a b = Some Lt ->
  (SFcompare b c = Some Lt \/ SFcompare b c = Some Eq) ->
  SFcompare a c = Some Lt.
Proof.
  sf_destruct; cbn [SFcompare]; pos_cmp;
    intros H1 [H2|H2]; try discriminate; try reflexivity;
    revert H1 H2; cmp_cases; intros; try discriminate; try reflexivity;
    try lia.
Qed.


Lemma is_nan_false (x : float) :
  is_nan x = false -> Prim2SF x <> S754_nan.
Proof.
  unfold is_nan. rewrite FloatAxioms.eqb_spec, negb_false_iff. unfold SFeqb.
  intros H E. rewrite E in H. discriminate.
Qed.

Lemma ltb_not_leb (x y : float) :
  (x <? y)%float = true -> (y <=? x)%float = false.
Proof.
  rewrite ltb_spec, leb_spec. unfold SFltb, SFleb.
  rewrite (SFcompare_antisym (Prim2SF x) (Prim2SF y)).
  destruct (SFcompare (Prim2SF x) (Prim2SF y)) as [[| |]|];
    cbn; congruence.
Qed.

Lemma SFcompare_some (a b : spec_float) :
  a <> S754_nan -> b <> S754_nan -> exists o, SFcompare a b = Some o.
Proof.
  destruct a as [[|]|[|]| |[|] ? ?], b as [[|]|[|]| |[|] ? ?];
    try congruence; intros _ _; eexists; reflexivity.
Qed.

Lemma leb_or_ltb (x y : float) :
  is_nan x = false -> is_nan y = false ->
  ((y <=? x) || (x <? y))%float = true.
Proof.
  intros Hx Hy. apply is_nan_false in Hx, Hy.
  rewrite ltb_spec, leb_spec. unfold SFltb, SFleb.
  rewrite (SFcompare_antisym (Prim2SF x) (Prim2SF y)).
  destruct (SFcompare_some _ _ Hx Hy) as [o ->].
  destruct o; reflexivity.
Qed.

Lemma ltb_leb_trans (x y z : float) :
  (x <? y)%float = true -> (y <=? z)%float = true -> (z <=? x)%float = false.
Proof.
  intros Hxy Hyz. apply ltb_not_leb.
  rewrite ltb_spec in *. rewrite leb_spec in Hyz. unfold SFltb, SFleb in *.
  rewrite (SFcompare_lt_le_trans (Prim2SF x) (Prim2SF y) (Prim2SF z));
    [reflexivity | |].
  - destruct (SFcompare (Prim2SF x) (Prim2SF y)) as [[| |]|]; congruence.
  - destruct (SFcompare (Prim2SF y) (Prim2SF z)) as [[| |]|];
      [right | left | |]; congruence.
Qed.

Lemma SFcompare_le_trans (a b c : spec_float) :
  (SFcompare a b = Some Lt \/ SFcompare a b = Some Eq) ->
  (SFcompare b c = Some Lt \/ SFcompare b c = Some Eq) ->
  (SFcompare a c = Some Lt \/ SFcompare a c = Some Eq).
Proof.
  sf_destruct; cbn [SFcompare]; pos_cmp;
    intros [H1|H1] [H2|H2]; try discriminate; auto;
    revert H1 H2; cmp_cases; intros; try discriminate; auto; try lia.
Qed.

Lemma leb_cases (x y : float) :
  (x <=? y)%float = true <->
  (SFcompare (Prim2SF x) (Prim2SF y) = Some Lt
   \/ SFcompare (Prim2SF x) (Prim2SF y) = Some Eq).
Proof.
  rewrite leb_spec. unfold SFleb.
  destruct (SFcompare (Prim2SF x) (Prim2SF y)) as [[| |]|];
    split; intros H; auto; try discriminate; destruct H; discriminate.
Qed.

Lemma leb_trans (x y z : float) :
  (x <=? y)%float = true -> (y <=? z)%float = true -> (x <=? z)%float = true.
Proof.
  rewrite !leb_cases. apply SFcompare_le_trans.
Qed.

Lemma ltb_leb (x y : float) : (x <? y)%float = true -> (x <=? y)%float = true.
Proof.
  rewrite ltb_spec, leb_spec. unfold SFltb, SFleb.
  destruct (SFcompare (Prim2SF x) (Prim2SF y)) as [[| |]|]; congruence.
Qed.

Lemma not_ltb_leb (x y : float) :
  is_nan x = false -> is_nan y = false ->
  (x <? y)%float = false -> (y <=? x)%float = true.
Proof.
  intros Hx Hy H. pose proof (leb_or_ltb x y Hx Hy) as Ht.
  rewrite H, orb_false_r in Ht. exact Ht.
Qed.

(** *** The sign of a difference *)

Lemma digits2_pos_bounds (p : positive) :
  2 ^ (Z.pos (digits2_pos p) - 1) <= Z.pos p < 2 ^ Z.pos (digits2_pos p).
Proof.
  induction p as [p IH|p IH|]; cbn [digits2_pos];
    [rewrite Pos2Z.inj_succ, (Pos2Z.inj_xI p)
    |rewrite Pos2Z.inj_succ, (Pos2Z.inj_xO p)
    |cbn; lia];
    replace (Z.succ (Z.pos (digits2_pos p)) - 1)
      with (Z.succ (Z.pos (digits2_pos p) - 1)) by lia;
    rewrite !Z.pow_succ_r by lia;
    destruct IH as [Hlow Hhigh];
    generalize dependent (2 ^ (Z.pos (digits2_pos p) - 1));
    generalize dependent (2 ^ Z.pos (digits2_pos p)); intros; lia.
Qed.

Lemma iter_xO (m d : positive) :
  Z.pos (Pos.iter xO m d) = Z.pos m * 2 ^ Z.pos d.
Proof.
  revert m. induction d as [|d IH] using Pos.peano_ind; intros m.
  - cbn. lia.
  - rewrite Pos.iter_succ, Pos2Z.inj_succ, Z.pow_succ_r by lia.
    rewrite (Pos2Z.inj_xO (Pos.iter xO m d)), IH. lia.
Qed.

Lemma shl_align_value (mx : positive) (ex ez : Z) :
  ez <= ex ->
  Z.pos (fst (shl_align mx ex ez)) = Z.pos mx * 2 ^ (ex - ez).
Proof.
  intros H. unfold shl_align.
  destruct (ez - ex) as [|d|d] eqn:E; cbn [fst]; try lia.
  - replace (ex - ez) with 0 by lia. lia.
  - rewrite iter_xO. f_equal. f_equal. lia.
Qed.


Lemma shr_1_half (mrs : shr_record) :
  0 <= shr_m mrs -> shr_m (shr_1 mrs) = shr_m mrs / 2.
Proof.
  destruct mrs as [m r s]. cbn [shr_m shr_1]. intros Hm.
  destruct m as [|[p|p|]|p]; cbn [shr_m]; try lia.
  - reflexivity.
  - rewrite (Pos2Z.inj_xI p). apply Z.div_unique with 1; lia.
  - rewrite (Pos2Z.inj_xO p). apply Z.div_unique with 0; lia.
  - reflexivity.
Qed.

Lemma iter_shr_1 (p : positive) (mrs : shr_record) :
  0 <= shr_m mrs ->
  shr_m (SpecFloat.iter_pos shr_1 p mrs) = shr_m mrs / 2 ^ Z.pos p.
Proof.
  revert mrs. induction p as [p IH|p IH|]; intros mrs Hm; cbn [SpecFloat.iter_pos].
  - assert (H1 : 0 <= shr_m (shr_1 mrs)).
    { rewrite shr_1_half by exact Hm. apply Z.div_pos; lia. }
    assert (H2 : 0 <= shr_m (SpecFloat.iter_pos shr_1 p (shr_1 mrs))).
    { rewrite IH by exact H1. apply Z.div_pos; [exact H1|]. apply Z.pow_pos_nonneg; lia. }
    rewrite IH by exact H2. rewrite IH by exact H1.
    rewrite shr_1_half by exact Hm.
    rewrite !Z.div_div by (try apply Z.pow_pos_nonneg; lia).
    f_equal. rewrite (Pos2Z.inj_xI p).
    rewrite Z.pow_add_r, Z.pow_mul_r, Z.pow_1_r by lia.
    change (2 ^ 2) with 4.
    replace (4 ^ Z.pos p) with (2 ^ Z.pos p * 2 ^ Z.pos p).
    + ring.
    + rewrite <- Z.pow_mul_l. reflexivity.
  - assert (H1 : 0 <= shr_m (SpecFloat.iter_pos shr_1 p mrs)).
    { rewrite IH by exact Hm. apply Z.div_pos; [exact Hm|]. apply Z.pow_pos_nonneg; lia. }
    rewrite IH by exact H1. rewrite IH by exact Hm.
    rewrite !Z.div_div by (try apply Z.pow_pos_nonneg; lia).
    f_equal. rewrite (Pos2Z.inj_xO p).
    rewrite Z.pow_mul_r by lia. change (2 ^ 2) with 4.
    rewrite <- Z.pow_mul_l. reflexivity.
  - rewrite shr_1_half by exact Hm. reflexivity.
Qed.

Lemma shr_record_of_loc_m (m : Z) (l : location) :
  shr_m (shr_record_of_loc m l) = m.
Proof. destruct l as [|[| |]]; reflexivity. Qed.

(** Binary64: 53 bits of precision, exponents from -1074. *)
Lemma fexp_value (e : Z) : fexp prec emax e = Z.max (e - 53) (-1074).
Proof. reflexivity. Qed.

Lemma Zdigits2_bounds (m : Z) :
  0 < m -> 2 ^ (Zdigits2 m - 1) <= m /\ 0 < Zdigits2 m.
Proof.
  destruct m as [|p|p]; try lia. intros _. cbn [Zdigits2].
  split; [apply digits2_pos_bounds | lia].
Qed.

(** A right shift to the format's exponent leaves a mantissa that is not
    0 when the exponent is already in range. *)
Lemma shr_fexp_positive (m e : Z) (l : location) :
  0 < m -> -1074 <= e ->
  0 < shr_m (fst (shr_fexp prec emax m e l))
  /\ -1074 <= snd (shr_fexp prec emax m e l).
Proof.
  intros Hm He. unfold shr_fexp, shr. rewrite fexp_value.
  destruct (Zdigits2_bounds m Hm) as [Hlow Hd].
  destruct (Z.max (Zdigits2 m + e - 53) (-1074) - e) as [|p|p] eqn:E;
    cbn [fst snd]; rewrite ?shr_record_of_loc_m; try (split; lia).
  split; [|lia].
  rewrite iter_shr_1 by (rewrite shr_record_of_loc_m; lia).
  rewrite shr_record_of_loc_m.
  apply Z.div_str_pos. split; [apply Z.pow_pos_nonneg; lia|].
  transitivity (2 ^ (Zdigits2 m - 1)); [|exact Hlow].
  apply Z.pow_le_mono_r; lia.
Qed.

Lemma round_nearest_even_ge (m : Z) (l : location) :
  m <= round_nearest_even m l.
Proof.
  destruct l as [|[| |]]; cbn [round_nearest_even]; try lia.
  destruct (Z.even m); lia.
Qed.

(** A rounding of a mantissa that is not 0, at an exponent in range, has
    the given sign and is not 0. *)
Lemma binary_round_aux_sign (s : bool) (m e : Z) (l : location) :
  0 < m -> -1074 <= e ->
  SFltb (S754_zero false) (binary_round_aux prec emax s m e l) = negb s
  /\ SFltb (binary_round_aux prec emax s m e l) (S754_zero false) = s.
Proof.
  intros Hm He. unfold binary_round_aux.
  destruct (shr_fexp_positive m e l Hm He) as [H1 H2].
  destruct (shr_fexp prec emax m e l) as [mrs' e']. cbn [fst snd] in H1, H2.
  pose proof (round_nearest_even_ge (shr_m mrs') (loc_of_shr_record mrs')) as Hr.
  destruct (shr_fexp_positive
              (round_nearest_even (shr_m mrs') (loc_of_shr_record mrs'))
              e' loc_Exact ltac:(lia) H2) as [H3 H4].
  destruct (shr_fexp prec emax _ e' loc_Exact) as [mrs'' e''].
  cbn [fst snd] in H3, H4.
  destruct (shr_m mrs'') as [|p|p]; try lia.
  destruct (e'' <=? emax - prec), s; split; reflexivity.
Qed.

Lemma binary_round_sign (s : bool) (m : positive) (e : Z) :
  -1074 <= e ->
  SFltb (S754_zero false) (binary_round prec emax s m e) = negb s
  /\ SFltb (binary_round prec emax s m e) (S754_zero false) = s.
Proof.
  intros He. unfold binary_round, shl_align. rewrite fexp_value.
  destruct (Z.max (Z.pos (digits2_pos m) + e - 53) (-1074) - e) eqn:E;
    apply binary_round_aux_sign; lia.
Qed.

(** The sign of a normalized integer is the sign of the integer. *)
Lemma binary_normalize_sign (m e : Z) :
  -1074 <= e ->
  SFltb (S754_zero false) (binary_normalize prec emax m e false) = (0 <? m)
  /\ SFltb (binary_normalize prec emax m e false) (S754_zero false) = (m <? 0).
Proof.
  intros He. destruct m as [|p|p]; cbn [binary_normalize].
  - split; reflexivity.
  - apply (binary_round_sign false p e He).
  - apply (binary_round_sign true p e He).
Qed.

(** A valid finite number: at most 53 digits, exactly 53 above the least
    exponent. *)
Lemma bounded_canonical (m : positive) (e : Z) :
  bounded prec emax m e = true ->
  -1074 <= e /\ Z.pos m < 2 ^ 53 /\ (-1074 < e -> 2 ^ 52 <= Z.pos m).
Proof.
  unfold bounded, canonical_mantissa. rewrite fexp_value.
  intros H. apply andb_true_iff in H as [H _]. apply Z.eqb_eq in H.
  destruct (digits2_pos_bounds m) as [Hlow Hhigh].
  split; [lia|]. split.
  - eapply Z.lt_le_trans; [exact Hhigh|]. apply Z.pow_le_mono_r; lia.
  - intros He. replace 52 with (Z.pos (digits2_pos m) - 1) by lia. exact Hlow.
Qed.

(** Mantissas aligned at the lesser exponent compare as the numbers do. *)
Lemma aligned_compare (ma mb : positive) (ea eb : Z) :
  bounded prec emax ma ea = true -> bounded prec emax mb eb = true ->
  (Z.pos (fst (shl_align ma ea (Z.min ea eb)))
   ?= Z.pos (fst (shl_align mb eb (Z.min ea eb))))
  = match ea ?= eb with
    | Lt => Lt
    | Gt => Gt
    | Eq => Pos.compare ma mb
    end.
Proof.
  intros Ha Hb.
  destruct (bounded_canonical ma ea Ha) as (Hea & Hma & Hna).
  destruct (bounded_canonical mb eb Hb) as (Heb & Hmb & Hnb).
  rewrite !shl_align_value by lia.
  destruct (Z.compare_spec ea eb) as [E|E|E].
  - subst eb. rewrite Z.min_id, Z.sub_diag, Z.pow_0_r, !Z.mul_1_r. reflexivity.
  - rewrite Z.min_l, Z.sub_diag, Z.pow_0_r, Z.mul_1_r by lia.
    apply Z.compare_lt_iff.
    assert (H2 : 2 ^ 1 <= 2 ^ (eb - ea)) by (apply Z.pow_le_mono_r; lia).
    specialize (Hnb ltac:(lia)).
    change (2 ^ 1) with 2 in H2. change (2 ^ 53) with (2 ^ 52 * 2) in Hma.
    generalize dependent (2 ^ (eb - ea)). generalize dependent (2 ^ 52).
    intros. nia.
  - rewrite Z.min_r, Z.sub_diag, Z.pow_0_r, Z.mul_1_r by lia.
    apply Z.compare_gt_iff.
    assert (H2 : 2 ^ 1 <= 2 ^ (ea - eb)) by (apply Z.pow_le_mono_r; lia).
    specialize (Hna ltac:(lia)).
    change (2 ^ 1) with 2 in H2. change (2 ^ 53) with (2 ^ 52 * 2) in Hmb.
    generalize dependent (2 ^ (ea - eb)). generalize dependent (2 ^ 52).
    intros. nia.
Qed.


Lemma compare_facts (x y : Z) (c : comparison) :
  (x ?= y) = c ->
  match c with
  | Lt => x < y
  | Eq => x = y
  | Gt => y < x
  end.
Proof.
  intros <-. destruct (Z.compare_spec x y); assumption.
Qed.

(** The sign of a difference of two valid numbers tells which is the
    greater. *)
Lemma SFsub_sign (a b : spec_float) :
  valid_binary a = true -> valid_binary b = true ->
  SFltb (S754_zero false) (SFsub prec emax a b) = SFltb b a
  /\ SFltb (SFsub prec emax a b) (S754_zero false) = SFltb a b.
Proof.
  destruct a as [sa|sa| |sa ma ea], b as [sb|sb| |sb mb eb];
    try (destruct sa; try destruct sb; intros _ _; split; reflexivity);
    try (destruct sb; intros _ _; split; reflexivity);
    try (intros _ _; split; reflexivity).
  cbn [SpecFloat.valid_binary]. intros Ha Hb.
  destruct (bounded_canonical ma ea Ha) as (Hea & _ & _).
  destruct (bounded_canonical mb eb Hb) as (Heb & _ & _).
  cbn [SFsub]. cbv zeta.
  rewrite (proj1 (binary_normalize_sign _ (Z.min ea eb) ltac:(lia))).
  rewrite (proj2 (binary_normalize_sign _ (Z.min ea eb) ltac:(lia))).
  pose proof (compare_facts _ _ _ (aligned_compare ma mb ea eb Ha Hb)) as Hc.
  revert Hc.
  generalize (Z.pos (fst (shl_align ma ea (Z.min ea eb)))) (Pos2Z.is_pos (fst (shl_align ma ea (Z.min ea eb)))).
  generalize (Z.pos (fst (shl_align mb eb (Z.min ea eb)))) (Pos2Z.is_pos (fst (shl_align mb eb (Z.min ea eb)))).
  intros B HB A HA.
  unfold SFltb. cbn [SFcompare]. pos_cmp.
  rewrite (Z.compare_antisym ea eb), (Pos.compare_antisym ma mb).
  destruct sa, sb; cbn [cond_Zopp];
    destruct (ea ?= eb); cbn [CompOpp]; try destruct (Pos.compare ma mb);
    cbn [CompOpp]; intros Hc; split; lia.
Qed.

(** On numbers: [0 < x - y] exactly when [y < x], and [x - y < 0] exactly
    when [x < y]. *)
Lemma sub_positive (x y : float) : (0 <? x - y)%float = (y <? x)%float.
Proof.
  rewrite !ltb_spec, sub_spec.
  apply (SFsub_sign (Prim2SF x) (Prim2SF y)); apply Prim2SF_valid.
Qed.

Lemma sub_negative (x y : float) : (x - y <? 0)%float = (x <? y)%float.
Proof.
  rewrite !ltb_spec, sub_spec.
  apply (SFsub_sign (Prim2SF x) (Prim2SF y)); apply Prim2SF_valid.
Qed.

Lemma opp_positive (x : float) : (0 <? - x)%float = (x <? 0)%float.
Proof.
  rewrite !ltb_spec, opp_spec.
  change (Prim2SF 0) with (S754_zero false).
  destruct (Prim2SF x) as [[|]|[|]| |[|] m e]; reflexivity.
Qed.

Lemma opp_negative (x : float) : (- x <? 0)%float = (0 <? x)%float.
Proof.
  rewrite !ltb_spec, opp_spec.
  change (Prim2SF 0) with (S754_zero false).
  destruct (Prim2SF x) as [[|]|[|]| |[|] m e]; reflexivity.
Qed.

(** *** Integers as numbers *)

Lemma Zdigits2_unique (m d : Z) :
  0 < m -> 2 ^ (d - 1) <= m < 2 ^ d -> Zdigits2 m = d.
Proof.
  destruct m as [|p|p]; try lia. intros _ [Hlow Hhigh]. cbn [Zdigits2].
  destruct (digits2_pos_bounds p) as [Plow Phigh].
  assert (Hd : 0 < d).
  { destruct (Z.ltb_spec 0 d) as [|Hn]; [assumption|].
    rewrite (Z.pow_neg_r 2 d) in Hhigh; [lia|].
    destruct (Z.eq_dec d 0) as [->|]; [cbn in Hhigh; lia | lia]. }
  destruct (Z.lt_trichotomy (Z.pos (digits2_pos p)) d) as [H|[H|H]];
    [|exact H|].
  - assert (2 ^ Z.pos (digits2_pos p) <= 2 ^ (d - 1))
      by (apply Z.pow_le_mono_r; lia). lia.
  - assert (2 ^ d <= 2 ^ (Z.pos (digits2_pos p) - 1))
      by (apply Z.pow_le_mono_r; lia). lia.
Qed.

Lemma Zdigits2_range (m : Z) :
  0 < m -> 2 ^ (Zdigits2 m - 1) <= m < 2 ^ Zdigits2 m.
Proof.
  destruct m as [|p|p]; try lia. intros _. apply digits2_pos_bounds.
Qed.

Lemma Zdigits2_shiftr (m n : Z) :
  0 < m -> 0 <= n < Zdigits2 m -> Zdigits2 (m / 2 ^ n) = Zdigits2 m - n.
Proof.
  intros Hm Hn. destruct (Zdigits2_range m Hm) as [Hlow Hhigh].
  assert (Hp : 0 < 2 ^ n) by (apply Z.pow_pos_nonneg; lia).
  assert (E1 : 2 ^ (Zdigits2 m - 1) = 2 ^ (Zdigits2 m - n - 1) * 2 ^ n).
  { rewrite <- Z.pow_add_r by lia. f_equal. lia. }
  assert (E2 : 2 ^ Zdigits2 m = 2 ^ (Zdigits2 m - n) * 2 ^ n).
  { rewrite <- Z.pow_add_r by lia. f_equal. lia. }
  assert (Hq : 2 ^ (Zdigits2 m - n - 1) <= m / 2 ^ n < 2 ^ (Zdigits2 m - n)).
  { split.
    - apply Z.div_le_lower_bound; [exact Hp|]. rewrite Z.mul_comm, <- E1. exact Hlow.
    - apply Z.div_lt_upper_bound; [exact Hp|]. rewrite Z.mul_comm, <- E2. exact Hhigh. }
  apply Zdigits2_unique; [|exact Hq].
  eapply Z.lt_le_trans; [|apply Hq]. apply Z.pow_pos_nonneg; lia.
Qed.

Lemma Zdigits2_succ (m : Z) :
  0 < m ->
  Zdigits2 (m + 1) = Zdigits2 m
  \/ (m + 1 = 2 ^ Zdigits2 m /\ Zdigits2 (m + 1) = Zdigits2 m + 1).
Proof.
  intros Hm. destruct (Zdigits2_range m Hm) as [Hlow Hhigh].
  assert (Hd : 0 < Zdigits2 m) by (destruct m; cbn; lia).
  destruct (Z.eq_dec (m + 1) (2 ^ Zdigits2 m)) as [E|E].
  - right. split; [exact E|]. apply Zdigits2_unique; [lia|].
    replace (Zdigits2 m + 1 - 1) with (Zdigits2 m) by lia.
    rewrite Z.pow_add_r, Z.pow_1_r by lia. lia.
  - left. apply Zdigits2_unique; lia.
Qed.


(** A mantissa at an exponent that is not above its format exponent is
    shifted to a canonical one. *)
Lemma shr_fexp_canonical (m e : Z) (l : location) :
  0 < m -> -1074 <= e -> e <= fexp prec emax (Zdigits2 m + e) ->
  0 < shr_m (fst (shr_fexp prec emax m e l))
  /\ fexp prec emax (Zdigits2 (shr_m (fst (shr_fexp prec emax m e l)))
                     + snd (shr_fexp prec emax m e l))
     = snd (shr_fexp prec emax m e l)
  /\ -1074 <= snd (shr_fexp prec emax m e l).
Proof.
  intros Hm He Hf. unfold shr_fexp, shr. rewrite fexp_value in *.
  destruct (Zdigits2_range m Hm) as [Hlow Hhigh].
  assert (Hd : 0 < Zdigits2 m) by (destruct m; cbn; lia).
  destruct (Z.max (Zdigits2 m + e - 53) (-1074) - e) as [|p|p] eqn:E;
    cbn [fst snd]; rewrite ?shr_record_of_loc_m; try lia.
  - rewrite fexp_value. lia.
  - rewrite iter_shr_1 by (rewrite shr_record_of_loc_m; lia).
    rewrite shr_record_of_loc_m.
    assert (Hp : Z.pos p = Zdigits2 m - 53) by lia.
    assert (Hq : Zdigits2 (m / 2 ^ Z.pos p) = 53).
    { rewrite Zdigits2_shiftr by lia. lia. }
    split; [|split; [|lia]].
    + apply Z.div_str_pos. split; [apply Z.pow_pos_nonneg; lia|].
      transitivity (2 ^ (Zdigits2 m - 1)); [|exact Hlow].
      apply Z.pow_le_mono_r; lia.
    + rewrite Hq, fexp_value. lia.
Qed.

Lemma round_nearest_even_cases (m : Z) (l : location) :
  round_nearest_even m l = m \/ round_nearest_even m l = m + 1.
Proof.
  destruct l as [|[| |]]; cbn [round_nearest_even]; auto.
  destruct (Z.even m); auto.
Qed.

Lemma binary_round_aux_valid (s : bool) (m e : Z) (l : location) :
  0 < m -> -1074 <= e -> e <= fexp prec emax (Zdigits2 m + e) ->
  valid_binary (binary_round_aux prec emax s m e l) = true.
Proof.
  intros Hm He Hf. unfold binary_round_aux.
  destruct (shr_fexp_canonical m e l Hm He Hf) as (H1 & H2 & H3).
  destruct (shr_fexp prec emax m e l) as [mrs' e']. cbn [fst snd] in H1, H2, H3.
  set (m2 := round_nearest_even (shr_m mrs') (loc_of_shr_record mrs')).
  assert (Hm2 : 0 < m2 /\ Zdigits2 (shr_m mrs') <= Zdigits2 m2).
  { subst m2.
    destruct (round_nearest_even_cases (shr_m mrs') (loc_of_shr_record mrs'))
      as [-> | ->]; [lia|].
    split; [lia|]. destruct (Zdigits2_succ (shr_m mrs') H1) as [->|[_ ->]]; lia. }
  destruct Hm2 as [Hm2 Hd2].
  assert (Hf2 : e' <= fexp prec emax (Zdigits2 m2 + e')).
  { rewrite fexp_value in *. lia. }
  destruct (shr_fexp_canonical m2 e' loc_Exact Hm2 H3 Hf2) as (H4 & H5 & H6).
  destruct (shr_fexp prec emax m2 e' loc_Exact) as [mrs'' e''].
  cbn [fst snd] in H4, H5, H6.
  destruct (shr_m mrs'') as [|p|p]; try lia.
  destruct (e'' <=? emax - prec) eqn:E; [|reflexivity].
  cbn [SpecFloat.valid_binary]. unfold bounded, canonical_mantissa.
  cbn [Zdigits2] in H5. rewrite H5, Z.eqb_refl, E. reflexivity.
Qed.

Lemma binary_round_valid (s : bool) (m : positive) (e : Z) :
  -1074 <= e -> valid_binary (binary_round prec emax s m e) = true.
Proof.
  intros He. unfold binary_round, shl_align.
  destruct (fexp prec emax (Z.pos (digits2_pos m) + e) - e) as [|k|k] eqn:E;
    try (apply binary_round_aux_valid; cbn [Zdigits2]; lia).
  rewrite fexp_value in E.
  assert (Hd : Zdigits2 (Z.pos (Pos.iter xO m k)) = Z.pos (digits2_pos m) + Z.pos k).
  { apply Zdigits2_unique; [lia|]. rewrite iter_xO.
    destruct (digits2_pos_bounds m) as [Hlow Hhigh].
    replace (Z.pos (digits2_pos m) + Z.pos k - 1)
      with (Z.pos (digits2_pos m) - 1 + Z.pos k) by lia.
    rewrite !Z.pow_add_r by lia.
    assert (0 < 2 ^ Z.pos k) by (apply Z.pow_pos_nonneg; lia).
    split; [apply Z.mul_le_mono_nonneg_r; lia | apply Z.mul_lt_mono_pos_r; lia]. }
  apply binary_round_aux_valid; [lia | rewrite fexp_value; lia |].
  rewrite Hd, !fexp_value. lia.
Qed.

Lemma binary_normalize_valid (m e : Z) :
  -1074 <= e -> valid_binary (binary_normalize prec emax m e false) = true.
Proof.
  intros He. destruct m; cbn [binary_normalize];
    [reflexivity | now apply binary_round_valid ..].
Qed.

(** The number of an integer has the integer's sign. *)
Lemma ofZ_spec (z : Z) : Prim2SF (ofZ z) = binary_normalize prec emax z 0 false.
Proof.
  unfold ofZ. apply Prim2SF_SF2Prim, binary_normalize_valid. lia.
Qed.

Lemma ofZ_positive (z : Z) : (0 <? ofZ z)%float = (0 <? z).
Proof.
  rewrite ltb_spec, ofZ_spec. apply binary_normalize_sign. lia.
Qed.

Lemma ofZ_negative (z : Z) : (ofZ z <? 0)%float = (z <? 0).
Proof.
  rewrite ltb_spec, ofZ_spec. apply binary_normalize_sign. lia.
Qed.

Lemma is_nan_spec (x : float) :
  Prim2SF x <> S754_nan -> is_nan x = false.
Proof.
  intros H. unfold is_nan. rewrite FloatAxioms.eqb_spec. unfold SFeqb.
  now rewrite (SFcompare_refl _ H).
Qed.

Lemma ofZ_number (z : Z) : is_nan (ofZ z) = false.
Proof.
  apply is_nan_spec. rewrite ofZ_spec. intros E.
  destruct (binary_normalize_sign z 0 ltac:(lia)) as [Hp Hn].
  rewrite E in Hp, Hn. cbn in Hp, Hn.
  destruct (Z.ltb_spec 0 z), (Z.ltb_spec z 0); try discriminate.
  assert (z = 0) by lia. subst z. discriminate E.
Qed.

End FloatFacts.

(** ** Currency formatting *)

Module CurrencyFacts.
Import Js JsValue ConfigurableList FloatFacts.

(** C7: with [n = Number(value)], [formatCurrency] returns [String(value)]
    when [n] is NaN, [$] then [n / 1000000] to one decimal then [M] when
    [1000000 <= n], [$] then [n / 1000] to no decimal then [K] when
    [1000 <= n < 1000000], and [$] then [n] to no decimal when [n < 1000];
    a number falls in exactly these cases. *)
Theorem formatCurrency_cases (h : Host) (value : jsval) :
  let n := toNumber h value in
  (is_nan n = true -> formatCurrency h value = toString h value)
  /\ (is_nan n = false -> (1000000 <=? n)%float = true ->
      formatCurrency h value = "$" ++ toFixed h (n / 1000000)%float 1 ++ "M")
  /\ (is_nan n = false ->
      (1000 <=? n)%float = true -> (n <? 1000000)%float = true ->
      formatCurrency h value = "$" ++ toFixed h (n / 1000)%float 0 ++ "K")
  /\ (is_nan n = false -> (n <? 1000)%float = true ->
      formatCurrency h value = "$" ++ toFixed h n 0)
  /\ (is_nan n = false ->
      ((1000000 <=? n) || ((1000 <=? n) && (n <? 1000000)) || (n <? 1000))%float
      = true).
Proof.
  cbn zeta. unfold formatCurrency.
  set (n := toNumber h value). repeat split.
  - intros ->. reflexivity.
  - intros -> ->. reflexivity.
  - intros -> H1 H2. apply ltb_not_leb in H2. now rewrite H2, H1.
  - intros -> H.
    rewrite (ltb_leb_trans n 1000 1000000 H eq_refl).
    now rewrite (ltb_not_leb _ _ H).
  - intros Hn.
    assert (Hc : forall c : float, is_nan c = false ->
                 ((c <=? n) || (n <? c))%float = true).
    { intros c Hcn. now apply leb_or_ltb. }
    pose proof (Hc 1000000%float eq_refl) as H6.
    pose proof (Hc 1000%float eq_refl) as H3.
    destruct (1000000 <=? n)%float; [reflexivity|].
    destruct (1000 <=? n)%float; cbn in *; [now rewrite H6 | exact H3].
Qed.

(** The cases on sample values; ties round up, as [toFixed] does. *)
Example formatCurrency_samples :
  formatCurrency exampleHost (VNum 1500000) = "$1.5M"
  /\ formatCurrency exampleHost (VNum 5000) = "$5K"
  /\ formatCurrency exampleHost (VStr "2500") = "$3K"
  /\ formatCurrency exampleHost (VNum 999999) = "$1000K"
  /\ formatCurrency exampleHost (VNum 100) = "$100"
  /\ formatCurrency exampleHost (VNum 0) = "$0"
  /\ formatCurrency exampleHost (VNum (-5)) = "$-5"
  /\ formatCurrency exampleHost VNull = "$0"
  /\ formatCurrency exampleHost (VStr "abc") = "abc"
  /\ formatCurrency exampleHost VUndefined = "undefined".
Proof. vm_compute. repeat split. Qed.

End CurrencyFacts.

(** ** Pagination *)

Module PaginationFacts.
Import Js JsValue ConfigurableList StateFacts.

Lemma applyFilter_ends_with_updatePagination (h : Host) (st : State) :
  exists st1, execState (applyFilter h) st
              = execState updatePagination (set_currentPage 1 st1).
Proof.
  unfold applyFilter.
  repeat (rewrite exec_bind; cbn beta).
  eexists. reflexivity.
Qed.

(** What [updatePagination] computes, field by field. *)
Lemma updatePagination_run (st : State) :
  execState updatePagination st =
  if enablePagination st then
    let total :=
      Z.max 1 (ceilDiv (Z.of_nat (length (shownRows st))) (recordsPerPage st)) in
    let st1 := set_totalPages total st in
    if (total <? currentPage st)%Z then set_currentPage total st1 else st1
  else set_totalPages 1 st.
Proof.
  unfold updatePagination, execState, bind, gets, assign, modify, when_, ret.
  cbn. destruct (enablePagination st); cbn; [|reflexivity].
  unfold shownRows.
  destruct (_ <? _)%Z; reflexivity.
Qed.

Lemma updatePagination_reestablishes (st : State) :
  1 <= currentPage st ->
  (enablePagination st = false -> currentPage st = 1) ->
  paginationConsistent (execState updatePagination st).
Proof.
  intros Hcur Hoff. rewrite updatePagination_run.
  unfold paginationConsistent, shownRows, arrayAt.
  destruct (enablePagination st) eqn:Hen.
  - cbn zeta.
    destruct (Z.ltb_spec
      (Z.max 1 (ceilDiv (Z.of_nat (length (default [] (arrays st !! filteredRows st))))
                        (recordsPerPage st)))
      (currentPage st)); cbn; rewrite Hen; split; try reflexivity; lia.
  - cbn. rewrite Hen. specialize (Hoff eq_refl). split; [reflexivity | lia].
Qed.

Lemma updatePagination_preserves (st : State) :
  paginationConsistent st -> paginationConsistent (execState updatePagination st).
Proof.
  intros [Htot Hcur]. apply updatePagination_reestablishes; [lia|].
  intros Hoff. rewrite Hoff in Htot. lia.
Qed.

Lemma applyFilter_consistent (h : Host) (st : State) :
  paginationConsistent (execState (applyFilter h) st).
Proof.
  destruct (applyFilter_ends_with_updatePagination h st) as [st1 ->].
  apply updatePagination_reestablishes; cbn; [lia | reflexivity].
Qed.

Lemma handlePageChange_preserves (page : option Z) (st : State) :
  paginationConsistent st ->
  paginationConsistent (execState (handlePageChange page) st).
Proof.
  intros [Htot Hcur].
  unfold handlePageChange, execState, bind, gets, assign, modify, ret. cbn.
  destruct page as [p|]; [|split; assumption].
  destruct (negb (p =? 0)%Z && (1 <=? p)%Z && (p <=? totalPages st)%Z) eqn:E;
    [|split; assumption].
  apply andb_prop in E as [E Hle]. apply andb_prop in E as [_ Hge].
  apply Z.leb_le in Hle, Hge. split; cbn; [exact Htot | lia].
Qed.

Lemma handlePreviousPage_preserves (st : State) :
  paginationConsistent st ->
  paginationConsistent (execState handlePreviousPage st).
Proof.
  intros [Htot Hcur].
  unfold handlePreviousPage, execState, bind, gets, assign, modify, ret. cbn.
  destruct (Z.ltb_spec 1 (currentPage st)); split; cbn; try assumption; lia.
Qed.

Lemma handleNextPage_preserves (st : State) :
  paginationConsistent st ->
  paginationConsistent (execState handleNextPage st).
Proof.
  intros [Htot Hcur].
  unfold handleNextPage, execState, bind, gets, assign, modify, ret. cbn.
  destruct (Z.ltb_spec (currentPage st) (totalPages st));
    split; cbn; try assumption; lia.
Qed.

Lemma paginatedRows_run (st : State) :
  paginatedRows st =
  (if enablePagination st then
     slice (shownRows st) ((currentPage st - 1) * recordsPerPage st)
       (currentPage st * recordsPerPage st)
   else shownRows st, st).
Proof.
  unfold paginatedRows, bind, gets, ret. cbn.
  destruct (enablePagination st); cbn; [|reflexivity].
  do 2 f_equal. lia.
Qed.


(** On a page that exists, [slice] takes the page's rows: those from
    [(currentPage - 1) * recordsPerPage] on, at most [recordsPerPage] of
    them. *)
Lemma slice_page {A : Type} (l : list A) (page size : Z) :
  1 <= page -> 0 < size ->
  slice l ((page - 1) * size) (page * size) =
  take (Z.to_nat size) (drop (Z.to_nat ((page - 1) * size)) l).
Proof.
  intros Hpage Hsize. unfold slice.
  set (len := Z.of_nat (length l)).
  assert (Hs : 0 <= (page - 1) * size) by nia.
  assert (He : (page - 1) * size + size = page * size) by nia.
  destruct (Z.ltb_spec ((page - 1) * size) 0); [lia|].
  destruct (Z.ltb_spec (page * size) 0); [lia|].
  rewrite <- He. set (s := (page - 1) * size) in *. clearbody s.
  destruct (Z.le_gt_cases len s) as [Hout|Hin].
  - rewrite (Z.min_r s len) by lia.
    rewrite !drop_ge by (subst len; lia). now rewrite !take_nil.
  - rewrite (Z.min_l s len) by lia.
    destruct (Z.le_gt_cases (s + size) len) as [Hfull|Hpart].
    + rewrite Z.min_l by lia. f_equal. lia.
    + rewrite Z.min_r by lia.
      rewrite !take_ge; [reflexivity | |]; rewrite length_drop; subst len; lia.
Qed.

(** A consistent current page is a page of the rows shown: unless there is
    no row at all, it starts inside the array. *)
Lemma current_page_starts_inside (st : State) :
  paginationConsistent st -> enablePagination st = true ->
  0 < recordsPerPage st -> shownRows st <> [] ->
  (currentPage st - 1) * recordsPerPage st < Z.of_nat (length (shownRows st)).
Proof.
  intros [Htot Hcur] Hen Hsize Hrows. rewrite Hen in Htot.
  set (len := Z.of_nat (length (shownRows st))) in *.
  assert (Hlen : 0 < len).
  { subst len. destruct (shownRows st); [contradiction | cbn; lia]. }
  unfold ceilDiv in Htot.
  pose proof (Z.mul_succ_div_gt (- len) (recordsPerPage st) Hsize) as Hdiv.
  nia.
Qed.

(** C4: the pagination fields are consistent after [applyFilter] (from any
    state with a page size other than 0: the component replaces a page size
    of 0 by its default, and [ceilDiv] is [Math.ceil] of the quotient only
    for a divisor other than 0), and consistency is kept by
    [updatePagination], [handlePageChange], [handleNextPage] and
    [handlePreviousPage]: [totalPages] is
    [max(1, ceil(filteredRows.length / recordsPerPage))] with pagination
    enabled and 1 without, and [1 <= currentPage <= totalPages]. The getter
    [paginatedRows] returns the slice of the filtered rows from
    [(currentPage - 1) * recordsPerPage] to [currentPage * recordsPerPage]
    with pagination enabled and all of them without, and changes
    nothing. *)
Theorem pagination_stays_consistent :
  (forall h st, recordsPerPage st <> 0 ->
     paginationConsistent (execState (applyFilter h) st))
  /\ (forall st, recordsPerPage st <> 0 -> paginationConsistent st ->
      paginationConsistent (execState updatePagination st))
  /\ (forall page st, paginationConsistent st ->
      paginationConsistent (execState (handlePageChange page) st))
  /\ (forall st, paginationConsistent st ->
      paginationConsistent (execState handleNextPage st))
  /\ (forall st, paginationConsistent st ->
      paginationConsistent (execState handlePreviousPage st))
  /\ (forall st,
        evalState paginatedRows st =
          (if enablePagination st then
             slice (shownRows st) ((currentPage st - 1) * recordsPerPage st)
               (currentPage st * recordsPerPage st)
           else shownRows st)
        /\ execState paginatedRows st = st).
Proof.
  repeat apply conj.
  - intros h st _. apply applyFilter_consistent.
  - intros st _. apply updatePagination_preserves.
  - intros page st. apply handlePageChange_preserves.
  - intros st. apply handleNextPage_preserves.
  - intros st. apply handlePreviousPage_preserves.
  - intros st. unfold evalState, execState. now rewrite paginatedRows_run.
Qed.

Lemma pagination_stays_consistent_witness :
  recordsPerPage exampleList <> 0
  /\ paginationConsistent
       (execState handleNextPage (execState (applyFilter exampleHost) exampleList))
  /\ map ref (evalState paginatedRows
                (execState handleNextPage
                   (execState (applyFilter exampleHost) exampleList)))
     = [2; 3]%nat.
Proof.
  destruct pagination_stays_consistent as (Hfilter & _ & _ & Hnext & _ & _).
  split; [discriminate|]. split; [|reflexivity].
  apply Hnext, Hfilter. discriminate.
Defined.

End PaginationFacts.

(** ** The model of [Array.prototype.sort] *)

Module SortFacts.
Import JsValue ConfigurableList FloatFacts.
Local Open Scope list_scope.

(** *** Arrangements *)

Section Arrangement.
Context {A : Type}.

Lemma putAt_perm (p : nat) (x : A) (l : list A) :
  Permutation (putAt p x l) (x :: l).
Proof.
  unfold putAt. rewrite <- Permutation_middle. now rewrite take_drop.
Qed.

Lemma putAt_end (x : A) (l : list A) : putAt (length l) x l = l ++ [x].
Proof. unfold putAt. now rewrite take_ge, drop_ge by lia. Qed.

Lemma arrange_perm (rest placed : list A) (places : list nat) :
  Permutation (arrange placed rest places) (placed ++ rest).
Proof.
  revert placed places.
  induction rest as [|x rest IH]; intros placed places; cbn [arrange].
  - now rewrite app_nil_r.
  - destruct places as [|p places]; rewrite IH, putAt_perm;
      cbn [app]; apply Permutation_middle.
Qed.

Lemma arrange_app (r1 r2 placed : list A) (ps1 ps2 : list nat) :
  length ps1 = length r1 ->
  arrange placed (r1 ++ r2) (ps1 ++ ps2)
  = arrange (arrange placed r1 ps1) r2 ps2.
Proof.
  revert placed ps1.
  induction r1 as [|x r1 IH]; intros placed [|p ps1] H; try discriminate.
  - reflexivity.
  - cbn [app arrange]. apply IH. now injection H.
Qed.

(** Every order of the elements of an array is an arrangement of it. *)
Lemma arrange_any_order (l l' : list A) :
  Permutation l l' ->
  exists places, length places = length l /\ arrange [] l places = l'.
Proof.
  revert l'. induction l as [|x l IH] using rev_ind; intros l' Hperm.
  - apply Permutation_nil in Hperm. subst l'. now exists [].
  - assert (Hin : In x l').
    { apply (Permutation_in _ Hperm), in_app_iff. right. now left. }
    apply in_split in Hin as (a & b & ->).
    assert (Hrest : Permutation l (a ++ b)).
    { apply Permutation_cons_app_inv with x.
      now rewrite <- Hperm, Permutation_app_comm. }
    clear Hperm. rename Hrest into Hperm.
    destruct (IH _ Hperm) as (places & Hlen & Harr).
    exists (places ++ [length a]). split.
    + rewrite !length_app. cbn [length]. lia.
    + rewrite arrange_app by exact Hlen. rewrite Harr. cbn [arrange].
      unfold putAt. now rewrite take_app_length, drop_app_length.
Qed.

End Arrangement.

(** The host's sort returns the elements it was given. *)
Lemma sortArray_perm (h : Host) {A : Type} (compare : A -> A -> float)
    (l : list A) :
  Permutation (sortArray h compare l) l.
Proof. unfold sortArray. now rewrite arrange_perm. Qed.

Lemma sortArray_length (h : Host) {A : Type} (compare : A -> A -> float)
    (l : list A) :
  length (sortArray h compare l) = length l.
Proof. apply Permutation_length, sortArray_perm. Qed.

(** *** What follows from an order by comparison *)

Section Last.
Context {A : Type} (compare : A -> A -> float).

(** Elements that the comparator always places after the others: it
    answers "after" whenever the first argument is one of them, and
    "before" whenever only the second is. *)
Variable last : A -> bool.
Hypothesis last_first :
  forall x y, last x = true -> (0 <? compare x y)%float = true.
Hypothesis last_second :
  forall x y, last x = false -> last y = true ->
              (compare x y <? 0)%float = true.

(** A sort by comparison leaves such elements at the end. *)
Lemma sorted_last (l : list A) :
  Sorted (placedBefore compare) l ->
  exists front back,
    l = front ++ back
    /\ Forall (fun y => last y = false) front
    /\ Forall (fun y => last y = true) back.
Proof using last_first last_second.
  induction 1 as [|x l Hsorted IH Hhd].
  - exists [], []. repeat split; constructor.
  - destruct IH as (front & back & -> & Hfront & Hback).
    destruct (last x) eqn:Hx.
    + exists [], (x :: front ++ back). split; [reflexivity|].
      split; [constructor|]. constructor; [exact Hx|].
      destruct front as [|y front]; [exact Hback|]. exfalso.
      apply Forall_cons in Hfront as [Hy _].
      inversion Hhd as [|? ? [H|H]]; subst.
      * now rewrite (last_first x y Hx) in H.
      * now rewrite (last_second y x Hy Hx) in H.
    + exists (x :: front), back. repeat split; [|exact Hback].
      now constructor.
Qed.

End Last.

Section Ordered.
Context {A : Type} (compare : A -> A -> float).
Variables (valid : A -> Prop) (le : A -> A -> Prop).

(** An order on the valid elements that the comparator decides: what it
    does not place after, asked in one order or the other, may precede. *)
Hypothesis le_trans :
  forall x y z, valid x -> valid y -> valid z -> le x y -> le y z -> le x z.
Hypothesis placed_le :
  forall x y, valid x -> valid y -> placedBefore compare x y -> le x y.

(** Under such an order a sort by comparison leaves the array sorted. *)
Lemma sorted_by_comparison (l : list A) :
  Forall valid l -> Sorted (placedBefore compare) l -> StronglySorted le l.
Proof using le_trans placed_le.
  intros Hvalid Hsorted.
  induction Hsorted as [|x l Hsorted IH Hhd]; [constructor|].
  apply Forall_cons in Hvalid as [Hx Hvalid].
  specialize (IH Hvalid). constructor; [exact IH|].
  destruct Hhd as [|y l Hxy]; [constructor|].
  apply Forall_cons in Hvalid as [Hy Hrest].
  apply StronglySorted_inv in IH as [_ Hall].
  assert (Hle : le x y) by now apply placed_le.
  constructor; [exact Hle|].
  rewrite Forall_forall in Hall, Hrest. apply Forall_forall. intros z Hz.
  apply le_trans with y; auto.
Qed.

End Ordered.

(** *** The sort of the example host *)

Lemma ltb_flip (x y : float) :
  (x <? y)%float = true -> (y <? x)%float = false.
Proof.
  rewrite !ltb_spec. unfold SFltb.
  rewrite (SFcompare_antisym (Prim2SF x) (Prim2SF y)).
  destruct (SFcompare (Prim2SF x) (Prim2SF y)) as [[| |]|];
    cbn; congruence.
Qed.

Section Insertion.
Context {A : Type} (compare : A -> A -> float).

Lemma Sorted_impl (Q R : A -> A -> Prop) (l : list A) :
  (forall x y, Q x y -> R x y) -> Sorted Q l -> Sorted R l.
Proof.
  intros H. induction 1 as [|x l Hs IH Hhd]; constructor; [exact IH|].
  destruct Hhd; constructor; auto.
Qed.

(** An element put between two neighbours that it may stand between keeps
    the array ordered. *)
Lemma Sorted_putAt (R : A -> A -> Prop) (p : nat) (x : A) (s : list A) :
  Sorted R s -> (p <= length s)%nat ->
  (forall i y, p = S i -> s !! i = Some y -> R y x) ->
  (forall z, s !! p = Some z -> R x z) ->
  Sorted R (putAt p x s).
Proof.
  intros Hs. revert p.
  induction Hs as [|a s Hs IH Hhd]; intros p Hp Hleft Hright.
  - unfold putAt. rewrite take_nil, drop_nil. repeat constructor.
  - destruct p as [|p].
    + unfold putAt. cbn [take drop app].
      constructor; [now constructor|]. constructor. now apply Hright.
    + unfold putAt. cbn [take drop app]. cbn [length] in Hp.
      constructor.
      * apply IH; [lia | |].
        -- intros i y -> Hy. now apply (Hleft (S i) y).
        -- intros z Hz. now apply Hright.
      * destruct p as [|p].
        -- cbn [take app]. constructor. now apply (Hleft O a).
        -- destruct s as [|b s]; [cbn [length] in Hp; lia|].
           cbn [take app]. inversion Hhd; subst. now constructor.
Qed.

(** The binary search ends between an element that it did not place after
    the pivot and one that it placed after it. *)
Lemma searchPlace_spec (pivot : A) (s : list A) (fuel left right : nat) :
  (right - left <= fuel)%nat -> (left <= right <= length s)%nat ->
  (forall i y, left = S i -> s !! i = Some y ->
               (compare pivot y <? 0)%float = false) ->
  (forall z, s !! right = Some z -> (compare pivot z <? 0)%float = true) ->
  let p := searchPlace compare pivot s fuel left right in
  (p <= length s)%nat
  /\ (forall i y, p = S i -> s !! i = Some y ->
                  (compare pivot y <? 0)%float = false)
  /\ (forall z, s !! p = Some z -> (compare pivot z <? 0)%float = true).
Proof.
  revert left right.
  induction fuel as [|fuel IH]; intros left right Hfuel Hrange Hleft Hright;
    cbn [searchPlace].
  - assert (left = right) by lia. subst right.
    cbv zeta. repeat split; [lia | exact Hleft | exact Hright].
  - destruct (Nat.ltb_spec left right) as [Hlt|Hge].
    + set (mid := (left + (right - left) / 2)%nat).
      assert (Hmid : (left <= mid < right)%nat).
      { unfold mid. split; [lia|].
        assert ((right - left) / 2 < right - left)%nat
          by (apply Nat.div_lt; lia).
        lia. }
      destruct (lookup_lt_is_Some_2 s mid ltac:(lia)) as [y Hy].
      rewrite Hy.
      destruct (compare pivot y <? 0)%float eqn:E.
      * apply IH; [lia | lia | exact Hleft |].
        intros z Hz. rewrite Hy in Hz. now injection Hz as <-.
      * apply IH; [lia | lia | | exact Hright].
        intros i z [= <-] Hz. rewrite Hy in Hz. now injection Hz as <-.
    + assert (left = right) by lia. subst right.
      cbv zeta. repeat split; [lia | exact Hleft | exact Hright].
Qed.

Lemma binaryPlace_keeps_order (x : A) (s : list A) :
  Sorted (placedBefore compare) s ->
  Sorted (placedBefore compare) (putAt (binaryPlace compare x s) x s).
Proof.
  intros Hs. unfold binaryPlace.
  destruct (searchPlace_spec x s (length s) 0 (length s))
    as (Hp & Hleft & Hright); try lia; try discriminate.
  { intros z Hz. apply lookup_lt_Some in Hz. lia. }
  apply Sorted_putAt; [exact Hs | exact Hp | |].
  - intros i y Hi Hy. right. now apply (Hleft i y).
  - intros z Hz. left. apply ltb_flip. now apply Hright.
Qed.

Lemma insertionPlaces_order (rest placed : list A) :
  Sorted (placedBefore compare) placed ->
  Sorted (placedBefore compare)
    (arrange placed rest (insertionPlaces compare placed rest)).
Proof.
  revert placed. induction rest as [|x rest IH]; intros placed Hs;
    cbn [insertionPlaces arrange]; [exact Hs|].
  apply IH. now apply binaryPlace_keeps_order.
Qed.

(** The run at the head of an array: each element answers the comparator
    like the first two. *)
Lemma runLength_run (descending : bool) (previous : A) (rest : list A) :
  Sorted (fun u v => (compare v u <? 0)%float = descending)
    (previous :: take (runLength compare descending previous rest) rest).
Proof.
  revert previous. induction rest as [|current rest IH]; intros previous;
    cbn [runLength].
  - repeat constructor.
  - destruct (Bool.eqb _ descending) eqn:E.
    + cbn [take]. constructor; [apply IH|]. constructor.
      now apply Bool.eqb_prop in E.
    + cbn [take]. repeat constructor.
Qed.

Lemma runLength_le (descending : bool) (previous : A) (rest : list A) :
  (runLength compare descending previous rest <= length rest)%nat.
Proof.
  revert previous. induction rest as [|current rest IH]; intros previous;
    cbn [runLength length]; [lia|].
  destruct (Bool.eqb _ descending); [specialize (IH current)|]; lia.
Qed.

Lemma arrange_in_order (r placed : list A) :
  arrange placed r (seq (length placed) (length r)) = placed ++ r.
Proof.
  revert placed. induction r as [|x r IH]; intros placed;
    cbn [length seq arrange]; [now rewrite app_nil_r|].
  rewrite putAt_end.
  replace (S (length placed)) with (length (placed ++ [x]))
    by (rewrite length_app; cbn; lia).
  rewrite IH. now rewrite <- app_assoc.
Qed.

Lemma arrange_turned_round (r placed : list A) :
  arrange placed r (repeat O (length r)) = rev r ++ placed.
Proof.
  revert placed. induction r as [|x r IH]; intros placed;
    cbn [length repeat arrange rev]; [reflexivity|].
  rewrite IH. unfold putAt. cbn [take drop app]. now rewrite <- app_assoc.
Qed.

(** A descending run, turned round, is in the order of the comparator. *)
Lemma descending_run_turned (r placed : list A) :
  Sorted (fun u v => (compare v u <? 0)%float = true) r ->
  Sorted (placedBefore compare) placed ->
  (forall u v, head placed = Some u -> head r = Some v ->
               (compare v u <? 0)%float = true) ->
  Sorted (placedBefore compare) (rev r ++ placed).
Proof.
  intros Hr. revert placed.
  induction Hr as [|v r Hr IH Hhd]; intros placed Hplaced Hlink;
    cbn [rev app]; [exact Hplaced|].
  rewrite <- app_assoc. cbn [app]. apply IH.
  - constructor; [exact Hplaced|].
    destruct placed as [|u placed]; constructor.
    left. apply ltb_flip. now apply Hlink.
  - intros u w [= <-] Hw. destruct Hhd as [|w' r' H]; [discriminate|].
    now injection Hw as <-.
Qed.

End Insertion.

(** The example host orders by comparison. *)
Lemma exampleHost_ordersByComparison : ordersByComparison exampleHost.
Proof.
  intros A compare l. unfold sortArray. cbn [Array_sort exampleHost].
  destruct l as [|first [|second rest]];
    [constructor | cbn; repeat constructor |].
  unfold insertionSortPlaces.
  set (descending := (compare second first <? 0)%float).
  set (m := runLength compare descending second rest).
  set (l := first :: second :: rest).
  assert (Hm : (m <= length rest)%nat) by apply runLength_le.
  assert (Hrun : Sorted (fun u v => (compare v u <? 0)%float = descending)
                   (take (2 + m) l)).
  { cbn [take l Nat.add]. constructor; [apply runLength_run|].
    constructor. reflexivity. }
  assert (Hlen : length (take (2 + m) l) = (2 + m)%nat).
  { rewrite length_take. cbn [length l]. lia. }
  rewrite <- (take_drop (2 + m) l) at 1.
  rewrite arrange_app.
  2:{ destruct descending; [rewrite repeat_length | rewrite length_seq];
        now rewrite Hlen. }
  assert (Harr : arrange [] (take (2 + m) l)
                   (if descending then repeat O (2 + m) else seq 0 (2 + m))
                 = if descending then rev (take (2 + m) l)
                   else take (2 + m) l).
  { destruct descending.
    - rewrite <- Hlen at 2. now rewrite arrange_turned_round, app_nil_r.
    - rewrite <- Hlen at 2.
      exact (arrange_in_order (take (2 + m) l) []). }
  rewrite Harr. apply insertionPlaces_order.
  destruct descending eqn:Hd.
  - rewrite <- (app_nil_r (rev _)).
    apply descending_run_turned; [exact Hrun | constructor | discriminate].
  - apply (Sorted_impl (fun u v => (compare v u <? 0)%float = false));
      [|exact Hrun].
    intros u v H. now right.
Qed.

End SortFacts.

(** ** Filtering and sorting the list *)

Module FilterFacts.
Import Js JsValue ConfigurableList FloatFacts.

Lemma state_eta (st : State) :
  st = set_visibleCells (visibleCells st) st.
Proof. destruct st; reflexivity. Qed.

Lemma inferObjectType_readOnly : readOnly inferObjectType.
Proof.
  intros st. unfold execState, inferObjectType, bind, gets, ret. cbn.
  destruct (unique _) as [|t [|? ?]]; try reflexivity;
    destruct (componentConfig st) as [[[maps|]]|]; try reflexivity;
    destruct (unique _) as [|? [|? ?]]; reflexivity.
Qed.

Lemma visibleColumns_readOnly : readOnly visibleColumns.
Proof.
  intros st. unfold execState, visibleColumns, bind, gets, ret.
  cbn -[inferObjectType].
  destruct (negb (isSet (activeFilter st))); [|reflexivity].
  pose proof (inferObjectType_readOnly st) as H. unfold execState in H.
  destruct (inferObjectType st) as [[t|] st']; cbn in *; subst st';
    [destruct (nonEmpty t)|]; reflexivity.
Qed.

(** Refreshing the visible cells writes [visibleCells] and nothing else. *)
Lemma forEach_visibleCells (l : list Row) (st : State) :
  exists vc,
    execState
      (forEach l (fun row =>
         let! visible := visibleColumns in
         modify (fun st =>
                   set_visibleCells
                     (<[ref row := map (findCellForColumn row) visible]>
                        (visibleCells st)) st))) st
    = set_visibleCells vc st.
Proof.
  revert st. induction l as [|row l IH]; intros st; cbn [forEach].
  - exists (visibleCells st). apply state_eta.
  - unfold execState, bind at 1.
    unfold bind at 1. 
    pose proof (visibleColumns_readOnly st) as H. unfold execState in H.
    destruct (visibleColumns st) as [visible st']; cbn in H; subst st'.
    cbn [modify].
    match goal with
    | |- context [forEach l ?body ?s] =>
        destruct (IH s) as [vc Hvc]; unfold execState in Hvc; rewrite Hvc
    end.
    exists vc. destruct st; reflexivity.
Qed.

Lemma refreshVisibleCells_run (st : State) :
  exists vc, execState refreshVisibleCells st = set_visibleCells vc st.
Proof.
  unfold refreshVisibleCells. unfold execState, bind at 1. cbn [gets].
  apply forEach_visibleCells.
Qed.


Lemma lookup_new {A : Type} (l : list A) (x : A) :
  (l ++ [x])%list !! length l = Some x.
Proof. now apply list_lookup_middle. Qed.

Lemma lookup_old {A : Type} (l : list A) (x : A) (a : nat) :
  is_Some (l !! a) -> (l ++ [x])%list !! a = l !! a.
Proof. intros H. apply lookup_app_l. now apply lookup_lt_is_Some. Qed.

Lemma filterByObjectType_run (st : State) :
  validReferences st ->
  let st1 := execState filterByObjectType st in
  shownRows st1 = matchingRows st
  /\ rows st1 = rows st
  /\ arrayAt st1 (rows st) = arrayAt st (rows st)
  /\ validReferences st1
  /\ sortSettings st1 = sortSettings st.
Proof.
  intros [Hrows Hfilt]. cbn zeta.
  unfold filterByObjectType, matchingRows, execState, bind, gets, assign,
    modify, newArray, shownRows, validReferences, sortSettings, arrayAt.
  cbn.
  destruct (isSet (activeFilter st) && _); cbn.
  - rewrite lookup_new, (lookup_old _ _ _ Hrows).
    repeat split; try assumption. eexists; reflexivity.
  - repeat split; assumption.
Qed.

Lemma sortRows_run (h : Host) (st : State) (a : nat) (k d ft : string) :
  is_Some (arrays st !! a) ->
  let fresh := length (arrays st) in
  let st' := execState (sortRows h a k d ft) st in
  evalState (sortRows h a k d ft) st = fresh
  /\ arrays st !! fresh = None
  /\ arrayAt st' fresh = sortArray h (rowCompare h k d ft) (arrayAt st a)
  /\ (forall b, is_Some (arrays st !! b) -> arrayAt st' b = arrayAt st b)
  /\ st' = set_arrays (arrays st') st.
Proof.
  intros Ha. cbn zeta.
  unfold sortRows, execState, evalState, bind, gets, modify, newArray, ret,
    arrayAt.
  cbn -[sortArray]. rewrite lookup_new. cbn -[sortArray].
  repeat split.
  - apply lookup_ge_None. lia.
  - rewrite list_lookup_insert_eq; [reflexivity|].
    rewrite length_app. cbn. lia.
  - intros b Hb. rewrite list_lookup_insert_ne.
    + now rewrite lookup_old.
    + apply lookup_lt_is_Some in Hb. lia.
Qed.


Lemma sortFiltered_exec (h : Host) (st : State) :
  execState (sortFiltered h) st =
  match activeSort st with
  | Some (k, d, ft) =>
      let r := sortRows h (filteredRows st) k d ft st in
      set_filteredRows (fst r) (snd r)
  | None => st
  end.
Proof.
  unfold sortFiltered, activeSort, execState, bind, gets, assign, modify, ret.
  cbn -[sortRows].
  destruct (enableColumnSorting st && isSet (sortColumn st)); [|reflexivity].
  destruct (findFirst _ (columns st)) as [column|]; [|reflexivity].
  cbn -[sortRows]. destruct (sortRows h _ _ _ _ st); reflexivity.
Qed.

Lemma sortFiltered_run (h : Host) (st : State) :
  validReferences st ->
  let st' := execState (sortFiltered h) st in
  shownRows st' = sortedFor h st (shownRows st)
  /\ rows st' = rows st
  /\ arrayAt st' (rows st) = arrayAt st (rows st).
Proof.
  intros [Hrows Hfilt]. cbn zeta. rewrite sortFiltered_exec.
  unfold sortedFor. destruct (activeSort st) as [[[k d] ft]|];
    [|repeat split].
  destruct (sortRows_run h st (filteredRows st) k d ft Hfilt)
    as (Hev & Hnone & Hnew & Hold & Heta).
  unfold evalState, execState in *. cbn zeta.
  destruct (sortRows h _ _ _ _ st) as [a st2]. cbn [fst snd] in *.
  subst a. repeat split.
  - exact Hnew.
  - rewrite Heta. reflexivity.
  - exact (Hold _ Hrows).
Qed.

Lemma markActiveFilter_run (st : State) :
  exists fs, execState markActiveFilter st = set_filters fs st.
Proof. eexists. reflexivity. Qed.

Lemma applyFilter_shown (h : Host) (st : State) :
  validReferences st ->
  let st' := execState (applyFilter h) st in
  shownRows st' = sortedFor h st (matchingRows st)
  /\ rows st' = rows st
  /\ arrayAt st' (rows st) = arrayAt st (rows st).
Proof.
  intros Hvalid. cbn zeta. unfold applyFilter.
  repeat (rewrite StateFacts.exec_bind; cbn beta).
  destruct (filterByObjectType_run st Hvalid)
    as (Hshown1 & Hrows1 & Harr1 & Hvalid1 & Hsort1).
  set (st1 := execState filterByObjectType st) in *.
  destruct (refreshVisibleCells_run st1) as [vc ->].
  set (st2 := set_visibleCells vc st1).
  assert (Hvalid2 : validReferences st2) by exact Hvalid1.
  destruct (sortFiltered_run h st2 Hvalid2) as (Hshown3 & Hrows3 & Harr3).
  set (st3 := execState (sortFiltered h) st2) in *.
  destruct (markActiveFilter_run st3) as [fs ->].
  rewrite PaginationFacts.updatePagination_run.
  assert (Hsame : sortedFor h st2 (shownRows st2) = sortedFor h st (matchingRows st)).
  { unfold sortedFor, activeSort.
    change (shownRows st2) with (shownRows st1). rewrite Hshown1.
    change (enableColumnSorting st2) with (enableColumnSorting st1).
    change (sortColumn st2) with (sortColumn st1).
    change (sortDirection st2) with (sortDirection st1).
    change (columns st2) with (columns st1).
    unfold sortSettings in Hsort1. injection Hsort1 as -> -> -> ->.
    reflexivity. }
  rewrite Hsame in Hshown3.
  change (rows st2) with (rows st1) in *. rewrite Hrows1 in *.
  change (arrayAt st2 (rows st)) with (arrayAt st1 (rows st)) in Harr3.
  rewrite Harr1 in Harr3.
  unfold execState, assign, modify. cbn [snd].
  destruct (enablePagination _); cbn zeta; [destruct (_ <? _)%Z|];
    repeat split; assumption.
Qed.


(** The comparator, case by case: a missing first value is answered by 1
    and a missing second value by -1 whatever the direction and the format
    type; two values are compared as numbers for Currency, Number and
    Percent, as dates for Date and as lower-cased text in the locale's
    order otherwise, and the result is negated unless the direction is
    "asc". *)
Lemma compareCellValues_cases (h : Host) (a b : jsval) (ft d : string) :
  compareCellValues h a b ft d =
  if isNullish a then 1%float
  else if isNullish b then (-1)%float
  else if String.eqb d SORT_ASC then comparisonFor h ft a b
  else (- comparisonFor h ft a b)%float.
Proof.
  unfold compareCellValues, comparisonFor, includes. cbn [existsb].
  destruct (isNullish a); [reflexivity|].
  destruct (isNullish b); [reflexivity|].
  destruct (String.eqb ft FORMAT_CURRENCY); [reflexivity|].
  destruct (String.eqb ft FORMAT_NUMBER); [reflexivity|].
  cbn [orb].
  destruct (String.eqb ft FORMAT_PERCENT) eqn:Ep.
  - destruct (String.eqb ft FORMAT_DATE) eqn:Ed; [|reflexivity].
    apply String.eqb_eq in Ep, Ed. subst ft. discriminate.
  - reflexivity.
Qed.

Lemma rowCompare_missing_first (h : Host) (k d ft : string) (x y : Row) :
  lacksValue k x = true -> (0 <? rowCompare h k d ft x y)%float = true.
Proof.
  unfold lacksValue, rowCompare. intros H.
  now rewrite compareCellValues_cases, H.
Qed.

Lemma rowCompare_missing_second (h : Host) (k d ft : string) (x y : Row) :
  lacksValue k x = false -> lacksValue k y = true ->
  (0 <? rowCompare h k d ft x y)%float = false.
Proof.
  unfold lacksValue, rowCompare. intros Hx Hy.
  now rewrite compareCellValues_cases, Hx, Hy.
Qed.

Lemma rowCompare_before_missing (h : Host) (k d ft : string) (x y : Row) :
  lacksValue k x = false -> lacksValue k y = true ->
  (rowCompare h k d ft x y <? 0)%float = true.
Proof.
  unfold lacksValue, rowCompare. intros Hx Hy.
  now rewrite compareCellValues_cases, Hx, Hy.
Qed.

Lemma numberOrZero_number (h : Host) (v : jsval) :
  is_nan (numberOrZero h v) = false.
Proof.
  unfold numberOrZero.
  destruct (is_nan (toNumber h v)) eqn:E; [reflexivity|]. cbn [orb].
  destruct (toNumber h v =? 0)%float; [reflexivity | exact E].
Qed.

(** When the comparator places a row after another, both with a value:
    on a numeric column by their numbers, on a Date column by their time
    values (never, if one is not a valid date), on any other by the
    collation of their lower-cased texts. *)
Lemma rowCompare_after (h : Host) (k d ft : string) (a b : Row) :
  lacksValue k a = false -> lacksValue k b = false ->
  (0 <? rowCompare h k d ft a b)%float =
  if numericFormat ft then
    if String.eqb d SORT_ASC then (sortNumber h k b <? sortNumber h k a)%float
    else (sortNumber h k a <? sortNumber h k b)%float
  else if String.eqb ft FORMAT_DATE then
    match dateOf h (getCellValue a k), dateOf h (getCellValue b k) with
    | Some _, Some _ =>
        if String.eqb d SORT_ASC then (sortTime h k b <? sortTime h k a)%float
        else (sortTime h k a <? sortTime h k b)%float
    | _, _ => false
    end
  else if String.eqb d SORT_ASC then
    (0 <? localeCompare h (sortText h k a) (sortText h k b))%Z
  else (localeCompare h (sortText h k a) (sortText h k b) <? 0)%Z.
Proof.
  unfold numericFormat, lacksValue, rowCompare, sortNumber, sortTime, sortText.
  intros Ha Hb.
  rewrite compareCellValues_cases, Ha, Hb. unfold comparisonFor.
  destruct (includes ft [FORMAT_CURRENCY; FORMAT_NUMBER; FORMAT_PERCENT]).
  { destruct (String.eqb d SORT_ASC);
      [apply sub_positive | rewrite opp_positive; apply sub_negative]. }
  destruct (String.eqb ft FORMAT_DATE).
  { unfold timeDifference.
    destruct (dateOf h (getCellValue a k)) as [ta|],
             (dateOf h (getCellValue b k)) as [tb|];
      destruct (String.eqb d SORT_ASC); try reflexivity;
      [apply sub_positive | rewrite opp_positive; apply sub_negative]. }
  destruct (String.eqb d SORT_ASC);
    [apply ofZ_positive | rewrite opp_positive; apply ofZ_negative].
Qed.

(** When the comparator places a row before another, both with a
    value. *)
Lemma rowCompare_before (h : Host) (k d ft : string) (a b : Row) :
  lacksValue k a = false -> lacksValue k b = false ->
  (rowCompare h k d ft a b <? 0)%float =
  if numericFormat ft then
    if String.eqb d SORT_ASC then (sortNumber h k a <? sortNumber h k b)%float
    else (sortNumber h k b <? sortNumber h k a)%float
  else if String.eqb ft FORMAT_DATE then
    match dateOf h (getCellValue a k), dateOf h (getCellValue b k) with
    | Some _, Some _ =>
        if String.eqb d SORT_ASC then (sortTime h k a <? sortTime h k b)%float
        else (sortTime h k b <? sortTime h k a)%float
    | _, _ => false
    end
  else if String.eqb d SORT_ASC then
    (localeCompare h (sortText h k a) (sortText h k b) <? 0)%Z
  else (0 <? localeCompare h (sortText h k a) (sortText h k b))%Z.
Proof.
  unfold numericFormat, lacksValue, rowCompare, sortNumber, sortTime, sortText.
  intros Ha Hb.
  rewrite compareCellValues_cases, Ha, Hb. unfold comparisonFor.
  destruct (includes ft [FORMAT_CURRENCY; FORMAT_NUMBER; FORMAT_PERCENT]).
  { destruct (String.eqb d SORT_ASC);
      [apply sub_negative | rewrite opp_negative; apply sub_positive]. }
  destruct (String.eqb ft FORMAT_DATE).
  { unfold timeDifference.
    destruct (dateOf h (getCellValue a k)) as [ta|],
             (dateOf h (getCellValue b k)) as [tb|];
      destruct (String.eqb d SORT_ASC); try reflexivity;
      [apply sub_negative | rewrite opp_negative; apply sub_positive]. }
  destruct (String.eqb d SORT_ASC);
    [apply ofZ_negative | rewrite opp_negative; apply ofZ_positive].
Qed.

Lemma inDirection_trans (d : string) (x y z : float) :
  inDirection d x y = true -> inDirection d y z = true ->
  inDirection d x z = true.
Proof.
  unfold inDirection. destruct (String.eqb d SORT_ASC); intros H1 H2;
    eapply leb_trans; eassumption.
Qed.

Lemma inDirection_after (d : string) (x y : float) :
  (if String.eqb d SORT_ASC then (x <? y)%float else (y <? x)%float) = true ->
  inDirection d x y = true.
Proof.
  unfold inDirection. destruct (String.eqb d SORT_ASC); apply ltb_leb.
Qed.

Lemma inDirection_not_after (d : string) (x y : float) :
  is_nan x = false -> is_nan y = false ->
  (if String.eqb d SORT_ASC then (x <? y)%float else (y <? x)%float) = false ->
  inDirection d y x = true.
Proof.
  unfold inDirection. intros Hx Hy.
  destruct (String.eqb d SORT_ASC); now apply not_ltb_leb.
Qed.

Section Order.
Variables (h : Host) (k d ft : string).

Hypothesis collation :
  numericFormat ft = false -> String.eqb ft FORMAT_DATE = false ->
  consistentCollation h.

Lemma sortTime_number (row : Row) :
  lacksValue k row = false -> datedOrEmpty h k row = true ->
  is_nan (sortTime h k row) = false
  /\ exists t, dateOf h (getCellValue row k) = Some t.
Proof.
  unfold datedOrEmpty, sortTime. intros -> H. cbn [orb] in H.
  destruct (dateOf h (getCellValue row k)) as [t|]; [|discriminate].
  split; [apply ofZ_number | now exists t].
Qed.

Lemma mayPrecede_trans (x y z : Row) :
  sortableRow h k ft x -> sortableRow h k ft y -> sortableRow h k ft z ->
  mayPrecede h k d ft x y -> mayPrecede h k d ft y z -> mayPrecede h k d ft x z.
Proof.
  unfold mayPrecede, sortableRow. intros Vx Vy Vz.
  intros [Hy|(Hx & Hy & Hxy)] [Hz|(Hy' & Hz & Hyz)]; auto; try congruence.
  right. split; [exact Hx|]. split; [exact Hz|].
  destruct (numericFormat ft) eqn:En; [eapply inDirection_trans; eassumption|].
  destruct (String.eqb ft FORMAT_DATE) eqn:Ed;
    [eapply inDirection_trans; eassumption|].
  destruct (collation eq_refl eq_refl) as [Hanti Htrans].
  unfold collatesInDirection in *.
  destruct (String.eqb d SORT_ASC).
  - apply Z.leb_le. apply Z.leb_le in Hxy, Hyz. eapply Htrans; eassumption.
  - apply Z.leb_le. apply Z.leb_le in Hxy, Hyz.
    pose proof (Hanti (sortText h k x) (sortText h k z)) as A1.
    pose proof (Hanti (sortText h k z) (sortText h k x)) as A1'.
    pose proof (Hanti (sortText h k y) (sortText h k x)) as A2.
    pose proof (Hanti (sortText h k x) (sortText h k y)) as A2'.
    pose proof (Hanti (sortText h k z) (sortText h k y)) as A3.
    pose proof (Hanti (sortText h k y) (sortText h k z)) as A3'.
    pose proof (Htrans (sortText h k z) (sortText h k y) (sortText h k x)) as T.
    lia.
Qed.

Lemma after_mayPrecede (x y : Row) :
  sortableRow h k ft x -> sortableRow h k ft y ->
  (0 <? rowCompare h k d ft y x)%float = true -> mayPrecede h k d ft x y.
Proof.
  unfold mayPrecede, sortableRow. intros Vx Vy.
  destruct (lacksValue k y) eqn:Hy; [auto|]. intros H. right.
  destruct (lacksValue k x) eqn:Hx.
  { now rewrite (rowCompare_missing_second h k d ft y x Hy Hx) in H. }
  rewrite (rowCompare_after h k d ft y x Hy Hx) in H.
  split; [reflexivity|]. split; [reflexivity|].
  destruct (numericFormat ft) eqn:En; [now apply inDirection_after|].
  destruct (String.eqb ft FORMAT_DATE) eqn:Ed.
  { destruct (sortTime_number x Hx Vx) as [_ [tx Ex]].
    destruct (sortTime_number y Hy Vy) as [_ [ty Ey]].
    rewrite Ex, Ey in H. now apply inDirection_after. }
  destruct (collation eq_refl eq_refl) as [Hanti _].
  unfold collatesInDirection.
  pose proof (Hanti (sortText h k y) (sortText h k x)) as A1.
  pose proof (Hanti (sortText h k x) (sortText h k y)) as A2.
  destruct (String.eqb d SORT_ASC); apply Z.leb_le; apply Z.ltb_lt in H; lia.
Qed.

Lemma not_after_mayPrecede (x y : Row) :
  sortableRow h k ft x -> sortableRow h k ft y ->
  (0 <? rowCompare h k d ft y x)%float = false -> mayPrecede h k d ft y x.
Proof.
  unfold mayPrecede, sortableRow. intros Vx Vy.
  destruct (lacksValue k x) eqn:Hx; [auto|]. intros H. right.
  destruct (lacksValue k y) eqn:Hy.
  { now rewrite (rowCompare_missing_first h k d ft y x Hy) in H. }
  rewrite (rowCompare_after h k d ft y x Hy Hx) in H.
  split; [reflexivity|]. split; [reflexivity|].
  destruct (numericFormat ft) eqn:En.
  { apply inDirection_not_after; try apply numberOrZero_number; exact H. }
  destruct (String.eqb ft FORMAT_DATE) eqn:Ed.
  { destruct (sortTime_number x Hx Vx) as [Nx [tx Ex]].
    destruct (sortTime_number y Hy Vy) as [Ny [ty Ey]].
    rewrite Ex, Ey in H. now apply inDirection_not_after. }
  unfold collatesInDirection.
  destruct (String.eqb d SORT_ASC); apply Z.leb_le; apply Z.ltb_ge in H; lia.
Qed.

(** What the comparator does not place after, asked in one order or the
    other, may precede. *)
Lemma placed_mayPrecede (x y : Row) :
  sortableRow h k ft x -> sortableRow h k ft y ->
  placedBefore (rowCompare h k d ft) x y -> mayPrecede h k d ft x y.
Proof.
  intros Vx Vy [H|H]; [now apply not_after_mayPrecede|].
  unfold mayPrecede, sortableRow in *.
  destruct (lacksValue k y) eqn:Hy; [auto|]. right.
  destruct (lacksValue k x) eqn:Hx.
  { unfold lacksValue, rowCompare in *.
    now rewrite compareCellValues_cases, Hy, Hx in H. }
  rewrite (rowCompare_before h k d ft y x Hy Hx) in H.
  split; [reflexivity|]. split; [reflexivity|].
  destruct (numericFormat ft) eqn:En.
  { apply inDirection_not_after; try apply numberOrZero_number; exact H. }
  destruct (String.eqb ft FORMAT_DATE) eqn:Ed.
  { destruct (sortTime_number x Hx Vx) as [Nx [tx Ex]].
    destruct (sortTime_number y Hy Vy) as [Ny [ty Ey]].
    rewrite Ex, Ey in H. apply inDirection_not_after; assumption. }
  destruct (collation eq_refl eq_refl) as [Hanti _].
  unfold collatesInDirection.
  pose proof (Hanti (sortText h k y) (sortText h k x)) as A1.
  pose proof (Hanti (sortText h k x) (sortText h k y)) as A2.
  destruct (String.eqb d SORT_ASC); apply Z.leb_le; apply Z.ltb_ge in H; lia.
Qed.

(** A sort by comparison on the column leaves the rows in the order of
    what they are sorted by, the rows without a value last. *)
Lemma sortArray_ordered (l : list Row) :
  ordersByComparison h ->
  Forall (sortableRow h k ft) l ->
  StronglySorted (mayPrecede h k d ft) (sortArray h (rowCompare h k d ft) l).
Proof using collation.
  intros Hsort Hl.
  apply (SortFacts.sorted_by_comparison (rowCompare h k d ft)
           (sortableRow h k ft)).
  - exact mayPrecede_trans.
  - exact placed_mayPrecede.
  - rewrite Forall_forall in Hl. apply Forall_forall. intros row Hrow.
    apply Hl. apply list_elem_of_In.
    apply (Permutation_in _
             (SortFacts.sortArray_perm h (rowCompare h k d ft) l)).
    now apply list_elem_of_In.
  - apply Hsort.
Qed.

End Order.

Lemma sortRows_ordered (h : Host) (k d ft : string) (l : list Row) :
  ordersByComparison h -> comparable h k ft l ->
  StronglySorted (mayPrecede h k d ft) (sortArray h (rowCompare h k d ft) l).
Proof.
  unfold comparable. intros Hsort H. apply sortArray_ordered.
  - intros En Ed. now rewrite En, Ed in H.
  - exact Hsort.
  - unfold sortableRow.
    destruct (numericFormat ft); [now apply Forall_forall|].
    destruct (String.eqb ft FORMAT_DATE); [exact H | now apply Forall_forall].
Qed.

Lemma ascii_compare_cases (a b : ascii) :
  match Ascii.compare a b with
  | Eq => a = b
  | Lt => (N_of_ascii a < N_of_ascii b)%N
  | Gt => (N_of_ascii b < N_of_ascii a)%N
  end.
Proof.
  unfold Ascii.compare.
  destruct (N.compare_spec (N_of_ascii a) (N_of_ascii b)) as [E|E|E];
    try exact E.
  rewrite <- (ascii_N_embedding a), <- (ascii_N_embedding b). now rewrite E.
Qed.

Lemma string_compare_trans (x y z : string) :
  String.compare x y <> Gt -> String.compare y z <> Gt ->
  String.compare x z <> Gt.
Proof.
  revert y z. induction x as [|a x IH]; intros [|b y] [|c z]; cbn [String.compare];
    try congruence.
  pose proof (ascii_compare_cases a b) as Hab.
  pose proof (ascii_compare_cases b c) as Hbc.
  pose proof (ascii_compare_cases a c) as Hac.
  destruct (Ascii.compare a b), (Ascii.compare b c); try congruence;
    destruct (Ascii.compare a c) eqn:E; try congruence; subst;
    try (intros; lia); try apply IH.
  all: try (rewrite ?Hac in *; lia).
Qed.

(** The example host collates by character codes, which is an order. *)
Lemma exampleHost_collation : consistentCollation exampleHost.
Proof.
  unfold consistentCollation. cbn [localeCompare exampleHost]. unfold compareBytes.
  split.
  - intros x y. rewrite (String.compare_antisym y x).
    destruct (String.compare x y); cbn [CompOpp]; lia.
  - intros x y z Hxy Hyz.
    pose proof (string_compare_trans x y z) as H.
    destruct (String.compare x y), (String.compare y z),
      (String.compare x z); try lia; exfalso; apply H; congruence.
Qed.

(** The sort of the example host on sample rows, by reference: texts
    without regard to case, dates, and numbers (a text that is no number
    counts as 0), each in both directions, the row without a value last. *)
Example sortArray_samples :
  map ref (sortArray exampleHost
             (rowCompare exampleHost "amount" SORT_ASC FORMAT_TEXT)
             exampleTexts) = [2; 0; 3; 1]%nat
  /\ map ref (sortArray exampleHost
                (rowCompare exampleHost "amount" SORT_DESC FORMAT_TEXT)
                exampleTexts) = [3; 0; 2; 1]%nat
  /\ map ref (sortArray exampleHost
                (rowCompare exampleHost "amount" SORT_ASC FORMAT_DATE)
                exampleDates) = [2; 3; 0; 1]%nat
  /\ map ref (sortArray exampleHost
                (rowCompare exampleHost "amount" SORT_DESC FORMAT_DATE)
                exampleDates) = [0; 3; 2; 1]%nat
  /\ map ref (sortArray exampleHost
                (rowCompare exampleHost "amount" SORT_ASC FORMAT_NUMBER)
                exampleNumbers) = [3; 4; 0; 2; 1]%nat
  /\ map ref (sortArray exampleHost
                (rowCompare exampleHost "amount" SORT_DESC FORMAT_PERCENT)
                exampleNumbers) = [2; 0; 4; 3; 1]%nat.
Proof. vm_compute. repeat split. Qed.

(** C5, as stated, fails on a Date column that holds a value which is no
    date: the comparator answers [NaN] whenever it is asked about that
    value, and the sort leaves 1 March before 1 January in ascending
    order. *)
Lemma unparseable_date_leaves_dates_unsorted :
  let st := exampleUnparseableDate in
  let st' := execState (applyFilter exampleHost) st in
  activeSort st = Some ("amount", SORT_ASC, FORMAT_DATE)
  /\ map (fun row => getCellValue row "amount") (matchingRows st)
     = [VStr "2025-03-01"; VStr "n/a"; VStr "2025-01-01"]
  /\ Forall (fun row => lacksValue "amount" row = false) (matchingRows st)
  /\ map (fun row => getCellValue row "amount") (shownRows st')
     = [VStr "2025-03-01"; VStr "n/a"; VStr "2025-01-01"]
  /\ map (fun row => dateOf exampleHost (getCellValue row "amount"))
       (shownRows st')
     = [Some 1740787200000; None; Some 1735689600000]
  /\ (forall march january,
        shownRows st' !! 0%nat = Some march ->
        shownRows st' !! 2%nat = Some january ->
        ~ mayPrecede exampleHost "amount" SORT_ASC FORMAT_DATE march january)
  /\ ~ StronglySorted (mayPrecede exampleHost "amount" SORT_ASC FORMAT_DATE)
         (shownRows st').
Proof.
  cbv zeta.
  assert (Hpair : forall march january,
            shownRows (execState (applyFilter exampleHost)
                         exampleUnparseableDate) !! 0%nat = Some march ->
            shownRows (execState (applyFilter exampleHost)
                         exampleUnparseableDate) !! 2%nat = Some january ->
            ~ mayPrecede exampleHost "amount" SORT_ASC FORMAT_DATE
                march january).
  { intros march january [= <-] [= <-] [H|(_ & _ & H)];
      vm_compute in H; discriminate. }
  repeat split; try (repeat constructor; fail); try exact Hpair.
  intros Hsorted.
  apply StronglySorted_inv in Hsorted as [_ Hall].
  apply Forall_inv_tail, Forall_inv in Hall.
  now apply (Hpair _ _ eq_refl eq_refl) in Hall.
Qed.

(** C5 (amended): with column sorting enabled and a sort column selected
    (key [k], direction [d], format type [ft]), [applyFilter] hands all the
    rows of the active filter, whatever the page, to the host's sort, with
    the comparator [compareCellValues] on each row's [rawValue] for the
    column, and leaves its result in [filteredRows]: a permutation of those
    rows. On a host whose sort orders by comparison, the rows that have no
    value for the column come after all others for either direction, and
    every row with a value precedes only rows without one and rows whose
    value is not less ("asc") or not greater (any other direction): as
    numbers [Number(rawValue) || 0] on a Currency, Number or Percent
    column; as time values on a Date column, if the values are valid
    dates; in the host's collation of the lower-cased texts on any other
    column, if that collation is an order. The first page is then a slice
    of that array. [sortRows] returns a new array: its reference names no
    array of the state before the call, and the array behind every earlier
    reference, the loaded [rows] among them, is unchanged. *)
Theorem sort_applies_to_all_filtered_rows (h : Host) (st : State)
    (k d ft : string) :
  validReferences st ->
  activeSort st = Some (k, d, ft) ->
  let st' := execState (applyFilter h) st in
  shownRows st' = sortArray h (rowCompare h k d ft) (matchingRows st)
  /\ Permutation (shownRows st') (matchingRows st)
  /\ (forall a b : Row,
        rowCompare h k d ft a b =
        if lacksValue k a then 1%float
        else if lacksValue k b then (-1)%float
        else if String.eqb d SORT_ASC then
          comparisonFor h ft (getCellValue a k) (getCellValue b k)
        else (- comparisonFor h ft (getCellValue a k) (getCellValue b k))%float)
  /\ (ordersByComparison h ->
      exists front back,
        shownRows st' = (front ++ back)%list
        /\ Forall (fun row => lacksValue k row = false) front
        /\ Forall (fun row => lacksValue k row = true) back)
  /\ (ordersByComparison h -> comparable h k ft (matchingRows st) ->
      StronglySorted (mayPrecede h k d ft) (shownRows st'))
  /\ currentPage st' = 1
  /\ evalState paginatedRows st' =
       (if enablePagination st' then
          slice (shownRows st') 0 (recordsPerPage st')
        else shownRows st')
  /\ rows st' = rows st
  /\ arrayAt st' (rows st') = arrayAt st (rows st)
  /\ (let sorted := evalState (sortRows h (filteredRows st) k d ft) st in
      let after := execState (sortRows h (filteredRows st) k d ft) st in
      arrays st !! sorted = None
      /\ Permutation (arrayAt after sorted) (arrayAt st (filteredRows st))
      /\ forall a, is_Some (arrays st !! a) -> arrayAt after a = arrayAt st a).
Proof.
  intros Hvalid Hsort. cbn zeta.
  destruct (applyFilter_shown h st Hvalid) as (Hshown & Hrows & Harr).
  unfold sortedFor in Hshown. rewrite Hsort in Hshown.
  assert (Hpage : currentPage (execState (applyFilter h) st) = 1).
  { destruct (PaginationFacts.applyFilter_ends_with_updatePagination h st)
      as [st1 ->].
    rewrite PaginationFacts.updatePagination_run.
    destruct (enablePagination _); [|reflexivity]. cbn zeta.
    destruct (Z.ltb_spec
      (Z.max 1 (ceilDiv (Z.of_nat (length (shownRows (set_currentPage 1 st1))))
                  (recordsPerPage (set_currentPage 1 st1))))
      (currentPage (set_currentPage 1 st1))) as [Hlt|Hge];
      [cbn in Hlt; lia | reflexivity]. }
  repeat apply conj.
  - exact Hshown.
  - rewrite Hshown. apply SortFacts.sortArray_perm.
  - intros a b. unfold rowCompare, lacksValue. apply compareCellValues_cases.
  - intros Hengine. rewrite Hshown.
    apply (SortFacts.sorted_last (rowCompare h k d ft) (lacksValue k)).
    + apply rowCompare_missing_first.
    + apply rowCompare_before_missing.
    + apply Hengine.
  - intros Hengine Hcomparable. rewrite Hshown. now apply sortRows_ordered.
  - exact Hpage.
  - unfold evalState. rewrite PaginationFacts.paginatedRows_run. cbn [fst].
    rewrite Hpage. destruct (enablePagination _); [|reflexivity].
    f_equal; lia.
  - exact Hrows.
  - rewrite Hrows. exact Harr.
  - destruct Hvalid as [_ Hfilt].
    apply (sortRows_run h st (filteredRows st) k d ft Hfilt).
  - destruct Hvalid as [_ Hfilt].
    destruct (sortRows_run h st (filteredRows st) k d ft Hfilt)
      as (-> & _ & -> & _). apply SortFacts.sortArray_perm.
  - destruct Hvalid as [_ Hfilt].
    apply (sortRows_run h st (filteredRows st) k d ft Hfilt).
Qed.

Lemma sort_applies_to_all_filtered_rows_witness :
  let st := exampleMissingAmounts in
  let st' := execState (applyFilter exampleHost) st in
  validReferences st
  /\ activeSort st = Some ("amount", SORT_DESC, FORMAT_CURRENCY)
  /\ ordersByComparison exampleHost
  /\ comparable exampleHost "amount" FORMAT_CURRENCY (matchingRows st)
  /\ map (fun row => getCellValue row "amount") (matchingRows st)
     = [VNum 30; VNull; VNum 10; VUndefined; VNum 20]
  /\ map (fun row => getCellValue row "amount") (shownRows st')
     = [VNum 30; VNum 20; VNum 10; VNull; VUndefined]
  /\ Permutation (shownRows st') (matchingRows st)
  /\ (exists front back,
        shownRows st' = (front ++ back)%list
        /\ Forall (fun row => lacksValue "amount" row = false) front
        /\ Forall (fun row => lacksValue "amount" row = true) back)
  /\ StronglySorted (mayPrecede exampleHost "amount" SORT_DESC FORMAT_CURRENCY)
       (shownRows st').
Proof.
  cbv zeta.
  assert (Hvalid : validReferences exampleMissingAmounts)
    by (split; eexists; reflexivity).
  pose proof (sort_applies_to_all_filtered_rows exampleHost
                exampleMissingAmounts "amount" SORT_DESC FORMAT_CURRENCY
                Hvalid eq_refl) as H.
  cbn zeta in H. destruct H as (_ & Hperm & _ & Hlast & Hsorted & _).
  split; [exact Hvalid|]. split; [reflexivity|].
  split; [exact SortFacts.exampleHost_ordersByComparison|].
  split; [exact I|]. split; [reflexivity|]. split; [reflexivity|].
  split; [exact Hperm|].
  split; [exact (Hlast SortFacts.exampleHost_ordersByComparison)|].
  exact (Hsorted SortFacts.exampleHost_ordersByComparison I).
Defined.

End FilterFacts.

(** ** Day badges *)

Module BadgeFacts.
Import Js JsValue ConfigurableList.

Lemma toLowerCase_nonEmpty (s : string) :
  nonEmpty s = true -> nonEmpty (toLowerCase s) = true.
Proof. destruct s; [discriminate | reflexivity]. Qed.

(** An override in force names a variant, and the name is not empty. *)
Lemma baseVariantOf_override (o : string) :
  nonEmpty o = true -> o <> "Auto" ->
  baseVariantOf (Some o) = Some (overrideName o)
  /\ nonEmpty (overrideName o) = true.
Proof.
  intros Hne Hauto. unfold baseVariantOf, overrideName.
  rewrite Hne. apply String.eqb_neq in Hauto. rewrite Hauto. cbn [negb andb].
  unfold variantMatch.
  destruct (String.eqb (toLowerCase (substring 0 7 o)) "success") eqn:E1.
  { split; [reflexivity|]. apply String.eqb_eq in E1. now rewrite E1. }
  destruct (String.eqb (toLowerCase (substring 0 7 o)) "warning") eqn:E2.
  { split; [reflexivity|]. apply String.eqb_eq in E2. now rewrite E2. }
  destruct (String.eqb (toLowerCase (substring 0 5 o)) "error") eqn:E3.
  { split; [reflexivity|]. apply String.eqb_eq in E3. now rewrite E3. }
  split; [reflexivity | now apply toLowerCase_nonEmpty].
Qed.

Lemma baseVariantOf_none (o : option string) :
  (o = None \/ o = Some "" \/ o = Some "Auto") -> baseVariantOf o = None.
Proof. intros [->|[->| ->]]; reflexivity. Qed.

Lemma orElse_base (o : option string) (computed : string) :
  orElse (baseVariantOf o) computed =
  match baseVariantOf o with
  | Some name => name
  | None => computed
  end.
Proof.
  destruct o as [s|]; [|reflexivity].
  destruct (nonEmpty s) eqn:Hne; [|unfold baseVariantOf; now rewrite Hne].
  destruct (String.eqb_spec s "Auto") as [->|Hauto]; [reflexivity|].
  destruct (baseVariantOf_override s Hne Hauto) as [-> Hname].
  unfold orElse. now rewrite Hname.
Qed.

(** C6, as amended: for a date value that is truthy and denotes a valid
    date (a Date, a string that parses, a number other than 0),
    [calculateDaysBadge] returns a badge whose text is [<n>d Left] when the
    whole-day difference [n] between the value's day and today is positive,
    [<-n>d Over] when it is negative and [Today] when it is 0, and whose
    variant is the lower-cased name of an override that is set and not
    [Auto] (its leading Success, Warning or Error, else all of it), and
    otherwise warning for [0 <= n <= 3], success for [3 < n] and error for
    [n < 0]; for every other value (null, undefined, 0, the empty string, a
    value of another type, an invalid date) it returns null. *)
Theorem daysBadge_cases (h : Host) (dateValue : jsval)
    (overrideVariant : option string) :
  match (if truthy dateValue then badgeDate h dateValue else None) with
  | Some (Some t) =>
      let n := diffDaysOf h t in
      exists b,
        calculateDaysBadge h dateValue overrideVariant = Some b
        /\ text b = badgeText n
        /\ variant b =
           match baseVariantOf overrideVariant with
           | Some name => name
           | None => computedVariant n
           end
  | _ => calculateDaysBadge h dateValue overrideVariant = None
  end
  /\ (forall o, overrideVariant = Some o -> nonEmpty o = true -> o <> "Auto" ->
      baseVariantOf overrideVariant = Some (overrideName o))
  /\ (overrideVariant = None \/ overrideVariant = Some ""
      \/ overrideVariant = Some "Auto" ->
      baseVariantOf overrideVariant = None).
Proof.
  split; [|split].
  - unfold calculateDaysBadge.
    destruct (truthy dateValue); cbn [negb]; [|reflexivity].
    destruct (badgeDate h dateValue) as [[t|]|]; try reflexivity.
    cbn zeta. unfold badgeText, computedVariant.
    destruct (0 <? diffDaysOf h t)%Z.
    + eexists. split; [reflexivity|]. cbn [text variant].
      split; [reflexivity | apply orElse_base].
    + destruct (diffDaysOf h t <? 0)%Z;
        (eexists; split; [reflexivity|]; cbn [text variant];
         split; [reflexivity | apply orElse_base]).
  - intros o -> Hne Hauto. now apply baseVariantOf_override.
  - apply baseVariantOf_none.
Qed.

Lemma epoch_number_has_no_badge :
  badgeDate exampleHost (VNum 0) = Some (Some 0)
  /\ calculateDaysBadge exampleHost (VNum 0) None = None.
Proof. split; reflexivity. Qed.

(** Badges on the example clock, 10 November 2025. *)
Example calculateDaysBadge_samples :
  calculateDaysBadge exampleHost (VStr "2025-11-12") None
  = Some (mkBadge "2d Left" "warning" "utility:clock"
            "cc-custom-badge cc-badge-warning")
  /\ calculateDaysBadge exampleHost (VStr "2025-11-20") None
     = Some (mkBadge "10d Left" "success" "utility:clock"
               "cc-custom-badge cc-badge-success")
  /\ calculateDaysBadge exampleHost (VStr "2025-11-10") None
     = Some (mkBadge "Today" "warning" "utility:clock"
               "cc-custom-badge cc-badge-warning")
  /\ calculateDaysBadge exampleHost (VStr "2025-11-01") None
     = Some (mkBadge "9d Over" "error" "utility:warning"
               "cc-custom-badge cc-badge-error")
  /\ calculateDaysBadge exampleHost (VStr "2025-11-01")
       (Some "Success (Green)")
     = Some (mkBadge "9d Over" "success" "utility:warning"
               "cc-custom-badge cc-badge-success")
  /\ calculateDaysBadge exampleHost (VStr "soon") None = None
  /\ calculateDaysBadge exampleHost VNull None = None.
Proof. vm_compute. repeat split. Qed.

End BadgeFacts.

(** ** Layout of the component group *)

Module ComponentGroupFacts.
Import Js ComponentGroup.

(** C8: [layoutClass] is the vertical class exactly when the configured
    layout type equals "Vertical" up to case, the grid class exactly when it
    equals "Grid" up to case, and the horizontal class in every other case
    (no configuration, no layout type, any other type); [layoutStyle] is
    [--components-per-row: N;] exactly when the configuration sets
    [componentsPerRow] to a number [N] other than 0, and empty otherwise. *)
Theorem layout_class_and_style (st : State) :
  (layoutClass st = LAYOUT_VERTICAL <-> layoutTypeIs st "Vertical" = true)
  /\ (layoutClass st = LAYOUT_GRID <-> layoutTypeIs st "Grid" = true)
  /\ (layoutClass st = LAYOUT_HORIZONTAL <->
      layoutTypeIs st "Vertical" = false /\ layoutTypeIs st "Grid" = false)
  /\ layoutStyle st =
       match componentsPerRow st with
       | Some n =>
           if (n =? 0)%Z then ""
           else "--components-per-row: " ++ numToString n ++ ";"
       | None => ""
       end
  /\ (layoutStyle st <> "" <->
      exists n, componentsPerRow st = Some n /\ n <> 0%Z)
  /\ componentsPerRow st =
       match groupConfig st with
       | Some config => configComponentsPerRow config
       | None => None
       end.
Proof.
  assert (Hclass :
    layoutClass st =
    if layoutTypeIs st "Vertical" then LAYOUT_VERTICAL
    else if layoutTypeIs st "Grid" then LAYOUT_GRID
    else LAYOUT_HORIZONTAL).
  { unfold layoutClass, layoutTypeIs, equalsIgnoreCase.
    destruct (groupConfig st) as [[[t|] n]|]; cbn [ComponentGroup.layoutType];
      try reflexivity.
    unfold isSet. destruct (nonEmpty t) eqn:Ht; cbn [default]; [reflexivity|].
    apply JsFacts.nonEmpty_false in Ht. subst t. reflexivity. }
  unfold LAYOUT_VERTICAL, LAYOUT_GRID, LAYOUT_HORIZONTAL in *.
  split; [|split; [|split; [|split; [|split]]]].
  - rewrite Hclass. destruct (layoutTypeIs st "Vertical"); [tauto|].
    destruct (layoutTypeIs st "Grid"); split; intros H; discriminate H.
  - rewrite Hclass. destruct (layoutTypeIs st "Vertical") eqn:Hv.
    + unfold layoutTypeIs, equalsIgnoreCase in *.
      destruct (groupConfig st) as [[[t|] n]|]; try discriminate.
      cbn [ComponentGroup.layoutType] in *.
      apply String.eqb_eq in Hv. rewrite Hv. split; intros H; discriminate H.
    + destruct (layoutTypeIs st "Grid");
        [tauto | split; intros H; discriminate H].
  - rewrite Hclass. destruct (layoutTypeIs st "Vertical");
      [split; [intros H; discriminate H | intros [H ?]; discriminate H]|].
    destruct (layoutTypeIs st "Grid");
      [split; [intros H; discriminate H | intros [? H]; discriminate H]
      | tauto].
  - unfold layoutStyle. destruct (componentsPerRow st) as [n|]; [|reflexivity].
    destruct (n =? 0)%Z; reflexivity.
  - unfold layoutStyle. destruct (componentsPerRow st) as [n|].
    + destruct (Z.eqb_spec n 0); cbn [negb].
      * split; [congruence | intros (m & [= <-] & Hm); contradiction].
      * split; [intros _; exists n; split; [reflexivity | assumption]
               | intros _; discriminate].
    + split; [congruence | intros (m & Hm & _); discriminate].
  - reflexivity.
Qed.

Example exampleGroup_layout :
  layoutClass exampleGroup = "hm-group-layout-grid"
  /\ layoutStyle exampleGroup = "--components-per-row: 3;".
Proof. split; reflexivity. Qed.

End ComponentGroupFacts.

(** ** The WHERE clause: parentheses and the first conjunction *)

Module GroupingFacts.
Import StateM Js QueryBuilder StateFacts JsFacts QueryBuilderFacts.
Local Open Scope Z_scope.
Local Open Scope list_scope.
Local Open Scope string_scope.

Lemma excess_append (s t : string) :
  parenthesisExcess (s ++ t) = parenthesisExcess s + parenthesisExcess t.
Proof.
  induction s as [|a s IH]; [reflexivity|].
  cbn [append]. change (String a s ++ t) with (String a (s ++ t)).
  cbn [parenthesisExcess]. rewrite IH. lia.
Qed.

Lemma excess_join (l : list string) :
  parenthesisExcess (join "" l)
  = fold_right (fun s total => parenthesisExcess s + total) 0 l.
Proof.
  induction l as [|x l IH]; [reflexivity|].
  rewrite concat_empty_cons, excess_append, IH. reflexivity.
Qed.

Lemma excess_simple (f : nat -> nat) (l : list Condition) :
  Forall (fun c => conjunction c = "AND" \/ conjunction c = "OR") l ->
  fold_right (fun s total => parenthesisExcess s + total) 0
    (imap (fun i c => simpleClause (f i) c) l)
  = fold_right
      (fun c total => parenthesisExcess (buildConditionClause c) + total) 0 l.
Proof.
  intros H. revert f. induction H as [|c l Hc Hl IH]; intros f; [reflexivity|].
  cbn [imap fold_right]. unfold compose. rewrite (IH (fun i => f (S i))).
  f_equal. unfold simpleClause. destruct (f 0%nat =? 0)%nat; [reflexivity|].
  rewrite !excess_append. destruct Hc as [-> | ->]; reflexivity.
Qed.

Lemma excess_groupStep (valid : list Condition) (acc : string * bool)
    (ic : nat * Condition) (total : Z) :
  fst ic <> 0%nat ->
  parenthesisExcess (fst acc) = total + (if snd acc then 1 else 0) ->
  let acc' := groupStep valid acc ic in
  parenthesisExcess (fst acc')
  = total + parenthesisExcess (buildConditionClause (snd ic))
    + (if snd acc' then 1 else 0).
Proof.
  destruct acc as [result inOrGroup], ic as [index condition].
  cbn [fst snd]. intros Hi Hacc. cbv zeta. unfold groupStep.
  destruct (index =? 0)%nat eqn:E; [apply Nat.eqb_eq in E; contradiction|].
  match goal with
  | |- context [negb ?b && _] => generalize b; intros nextIsOr
  end.
  destruct (String.eqb (conjunction condition) "OR"), inOrGroup, nextIsOr;
    cbn [negb andb fst snd]; rewrite ?excess_append, ?Hacc;
    try (change (parenthesisExcess nl) with 0);
    try (change (parenthesisExcess "    AND (") with 1);
    try (change (parenthesisExcess "         OR ") with 0);
    try (change (parenthesisExcess "    AND ") with 0);
    try (change (parenthesisExcess ")") with (-1));
    lia.
Qed.

Lemma excess_fold (valid : list Condition) (l : list (nat * Condition))
    (acc : string * bool) (total : Z) :
  Forall (fun ic : nat * Condition => fst ic <> 0%nat) l ->
  parenthesisExcess (fst acc) = total + (if snd acc then 1 else 0) ->
  let acc' := fold_left (groupStep valid) l acc in
  parenthesisExcess (fst acc')
  = total
    + fold_right
        (fun c sum => parenthesisExcess (buildConditionClause c) + sum) 0
        (map snd l)
    + (if snd acc' then 1 else 0).
Proof.
  intros Hl. revert acc total.
  induction Hl as [|ic l Hic Hl IH]; intros acc total Hacc; cbv zeta.
  - cbn [fold_left map fold_right]. rewrite Hacc. lia.
  - cbn [fold_left map fold_right].
    pose proof (excess_groupStep valid acc ic total Hic Hacc) as Hstep.
    cbv zeta in Hstep.
    rewrite (IH _ _ Hstep). lia.
Qed.

Lemma imap_snd {A : Type} (f : nat -> nat) (l : list A) :
  map snd (imap (fun i x => (f i, x)) l) = l.
Proof.
  revert f. induction l as [|x l IH]; intros f; [reflexivity|].
  cbn [imap map snd]. f_equal. apply (IH (f ∘ S)).
Qed.

(** X5: Grouping keeps the parentheses in balance: with the conjunctions AND
    and OR, the WHERE clause has as many more opening than closing
    parentheses as its clauses have by themselves, so that every
    parenthesis that the grouping opens is closed. *)
Theorem grouping_closes_its_parentheses (conds : list Condition) :
  Forall (fun c => conjunction c = "AND" \/ conjunction c = "OR") conds ->
  parenthesisExcess (whereClauseOf conds) = clauseExcess conds.
Proof.
  intros Hconj. unfold clauseExcess, whereClauseOf.
  assert (Hvalid : Forall (fun c => conjunction c = "AND" \/ conjunction c = "OR")
                     (List.filter validCondition conds)).
  { apply List.Forall_forall. intros c Hin.
    apply List.filter_In in Hin as [Hin _].
    exact (proj1 (List.Forall_forall _ _) Hconj c Hin). }
  destruct (List.filter validCondition conds) as [|c0 rest]; [reflexivity|].
  cbn [length Nat.eqb].
  destruct (negb _).
  - rewrite excess_join. apply (excess_simple (fun i => i) _ Hvalid).
  - unfold indexed. cbn [imap fold_left fold_right].
    set (first := groupStep (c0 :: rest) ("", false) (0%nat, c0)).
    assert (Hfirst : parenthesisExcess (fst first)
                     = parenthesisExcess (buildConditionClause c0)
                       + (if snd first then 1 else 0)).
    { subst first. cbn. lia. }
    change (imap ((fun i x => (i, x)) ∘ S) rest)
      with (imap (fun i (x : Condition) => (S i, x)) rest).
    pose proof (excess_fold (c0 :: rest)
                  (imap (fun i (x : Condition) => (S i, x)) rest) first _
                  (imap_positive_indices 0 rest) Hfirst) as Hfold.
    cbv zeta in Hfold.
    rewrite (imap_snd S rest) in Hfold.
    destruct (fold_left _ _ first) as [result inOrGroup].
    cbn [fst snd] in Hfold.
    destruct inOrGroup; rewrite ?excess_append, Hfold;
      try (change (parenthesisExcess ")") with (-1)); lia.
Qed.

Lemma grouping_closes_its_parentheses_witness :
  whereClauseOf orThenAnd
  = "A = null" ++ nl ++ "    AND (B = null)" ++ nl ++ "    AND C = null"
  /\ parenthesisExcess (whereClauseOf orThenAnd) = clauseExcess orThenAnd.
Proof.
  split; [reflexivity|].
  apply (grouping_closes_its_parentheses orThenAnd).
  repeat first
    [ apply List.Forall_nil
    | apply List.Forall_cons; [first [left; reflexivity | right; reflexivity]|] ].
Defined.

Lemma groupStep_head (c c' : Condition) (rest : list Condition)
    (acc : string * bool) (ic : nat * Condition) :
  groupStep (c :: rest) acc ic = groupStep (c' :: rest) acc ic.
Proof.
  destruct acc as [result inOrGroup], ic as [index condition].
  unfold groupStep. cbn [length]. rewrite !Nat.add_1_r. reflexivity.
Qed.

Lemma fold_groupStep_head (c c' : Condition) (rest : list Condition)
    (l : list (nat * Condition)) (acc : string * bool) :
  fold_left (groupStep (c :: rest)) l acc
  = fold_left (groupStep (c' :: rest)) l acc.
Proof.
  revert acc. induction l as [|ic l IH]; intros acc; [reflexivity|].
  cbn [fold_left]. now rewrite IH, (groupStep_head c c').
Qed.

Lemma filter_skip (pre : list Condition) (c : Condition)
    (rest : list Condition) :
  forallb (fun x => negb (validCondition x)) pre = true ->
  validCondition c = true ->
  List.filter validCondition (pre ++ c :: rest)
  = c :: List.filter validCondition rest.
Proof.
  intros Hpre Hc. rewrite List.filter_app. cbn [List.filter]. rewrite Hc.
  induction pre as [|x pre IH]; [reflexivity|].
  cbn [forallb] in Hpre. apply andb_prop in Hpre as [Hx Hpre].
  cbn [List.filter]. apply negb_true_iff in Hx. rewrite Hx. now apply IH.
Qed.

(** X30: The conjunction of the first condition that has a field and an
    operator plays no role: whatever conjunction that row carries, and
    whatever incomplete rows stand before it, the WHERE clause is the
    same. *)
Theorem first_conjunction_is_ignored (pre : list Condition) (c : Condition)
    (rest : list Condition) (conj : string) :
  forallb (fun x => negb (validCondition x)) pre = true ->
  validCondition c = true ->
  whereClauseOf (pre ++ withConjunction conj c :: rest)
  = whereClauseOf (pre ++ c :: rest).
Proof.
  intros Hpre Hc. unfold whereClauseOf.
  assert (Hc' : validCondition (withConjunction conj c) = true) by exact Hc.
  rewrite (filter_skip pre c rest Hpre Hc),
    (filter_skip pre (withConjunction conj c) rest Hpre Hc').
  set (v := List.filter validCondition rest).
  cbn [length Nat.eqb]. unfold someConjunction, indexed.
  cbn [imap existsb fst snd Nat.ltb Nat.leb andb orb].
  destruct (_ && _).
  - cbn [negb fold_left].
    rewrite (fold_groupStep_head (withConjunction conj c) c).
    unfold groupStep at 2 4. cbn [Nat.eqb].
    change (buildConditionClause (withConjunction conj c))
      with (buildConditionClause c).
    reflexivity.
  - cbn [negb]. reflexivity.
Qed.

Lemma first_conjunction_is_ignored_witness :
  whereClauseOf
    [mkCondition "cond_1" "" "" "" "" (Str "") "AND" false;
     withConjunction "OR" quotedName; numericInjection]
  = whereClauseOf
      [mkCondition "cond_1" "" "" "" "" (Str "") "AND" false;
       quotedName; numericInjection].
Proof.
  apply (first_conjunction_is_ignored
           [mkCondition "cond_1" "" "" "" "" (Str "") "AND" false]
           quotedName [numericInjection] "OR"); reflexivity.
Defined.

End GroupingFacts.

(** ** The preview of the query builder *)

Module PreviewFacts.
Import StateM Js QueryBuilder StateFacts JsFacts.
Local Open Scope Z_scope.
Local Open Scope list_scope.
Local Open Scope string_scope.

Lemma span_append (p : ascii -> bool) (s : string) :
  s = fst (span p s) ++ snd (span p s).
Proof.
  induction s as [|a s IH]; [reflexivity|]. cbn [span].
  destruct (p a); [|reflexivity].
  destruct (span p s) as [taken remaining]. cbn [fst snd] in *.
  cbn. now f_equal.
Qed.

Lemma span_head (p : ascii -> bool) (a : ascii) (s : string) :
  p a = true -> fst (span p (String a s)) <> "".
Proof.
  intros H. cbn [span]. rewrite H. now destruct (span p s).
Qed.

Lemma stripPrefix_append (p s r : string) :
  stripPrefix p s = Some r -> s = p ++ r.
Proof.
  revert s. induction p as [|a p IH]; intros s; cbn [stripPrefix].
  - now intros [= ->].
  - destruct s as [|b s]; [discriminate|].
    destruct (Ascii.eqb_spec a b) as [->|]; [|discriminate].
    intros H. cbn. f_equal. now apply IH.
Qed.

Lemma span_match (p : ascii -> bool) (a : ascii) (rest value remaining : string) :
  p a = true ->
  span p (String a rest) = (value, remaining) ->
  String a rest = value ++ remaining /\ value <> "".
Proof.
  intros Hp H.
  pose proof (span_append p (String a rest)) as Hs.
  pose proof (span_head p a rest Hp) as Hh.
  rewrite H in Hs, Hh. now split.
Qed.

(** A match is a prefix of the text, and it is not empty; only the empty
    text has no match. *)
Lemma matchToken_prefix (s value remaining : string) :
  matchToken s = Some (value, remaining) ->
  s = value ++ remaining /\ value <> "".
Proof.
  destruct s as [|a rest]; [discriminate|]. unfold matchToken.
  pose proof (span_append isWordOrDot rest) as Hname.
  pose proof (span_append (fun c => negb (Ascii.eqb c quote)) rest) as Htext.
  destruct (span isWordOrDot rest) as [name left1].
  destruct (span (fun c => negb (Ascii.eqb c quote)) rest) as [text left2].
  cbn [fst snd] in Hname, Htext.
  assert (Hvariable :
            Ascii.eqb a ":" = true -> nonEmpty name = true ->
            forall left3, stripPrefix "()" left1 = Some left3 ->
            String a rest = String a (name ++ "()") ++ left3).
  { intros _ _ left3 H. apply stripPrefix_append in H. subst left1.
    cbn. f_equal. rewrite Hname. now rewrite !append_assoc. }
  assert (Hliteral :
            forall closing left3, left2 = String closing left3 ->
            String a rest = String a (text ++ String closing "") ++ left3).
  { intros closing left3 ->. cbn. f_equal. rewrite Htext.
    now rewrite append_assoc. }
  assert (Hother :
            (if isDigit a then Some (span isDigit (String a rest))
             else if isLetter a || Ascii.eqb a "_" then Some (String a name, left1)
             else if isSpace a then Some (span isSpace (String a rest))
             else Some (span isSymbol (String a rest)))
            = Some (value, remaining) ->
            String a rest = value ++ remaining /\ value <> "").
  { destruct (isDigit a) eqn:Ed.
    { intros H. apply (span_match isDigit a rest value remaining Ed).
      now injection H. }
    destruct (isLetter a || Ascii.eqb a "_") eqn:El.
    { intros [= <- <-]. split; [|discriminate]. cbn. now f_equal. }
    destruct (isSpace a) eqn:Es.
    { intros H. apply (span_match isSpace a rest value remaining Es).
      now injection H. }
    intros H.
    assert (Hsym : isSymbol a = true).
    { unfold isSymbol, isWord. rewrite Es, Ed. cbn [negb andb].
      apply orb_false_elim in El as [-> ->]. reflexivity. }
    apply (span_match isSymbol a rest value remaining Hsym).
    now injection H. }
  destruct (Ascii.eqb a ":") eqn:Ecolon; destruct (Ascii.eqb a quote) eqn:Equote;
    cbv beta iota zeta.
  - apply Ascii.eqb_eq in Ecolon, Equote. subst a. discriminate.
  - destruct (nonEmpty name) eqn:En;
      [destruct (stripPrefix "()" left1) as [left3|] eqn:Ep|];
      cbv beta iota zeta; try exact Hother.
    intros [= <- <-]. split; [now apply Hvariable | discriminate].
  - destruct left2 as [|closing left3]; cbv beta iota zeta; try exact Hother.
    intros [= <- <-]. split; [now apply Hliteral | discriminate].
  - exact Hother.
Qed.

Lemma matchToken_none (s : string) : matchToken s = None -> s = "".
Proof.
  destruct s as [|a rest]; [reflexivity|]. unfold matchToken.
  destruct (span isWordOrDot rest) as [name left1].
  destruct (span (fun c => negb (Ascii.eqb c quote)) rest) as [text left2].
  destruct (Ascii.eqb a ":"), (Ascii.eqb a quote); cbv beta iota zeta;
    repeat match goal with
      | |- context [if ?b then _ else _] => destruct b
      | |- context [match ?x with _ => _ end] => destruct x
      end; discriminate.
Qed.

Lemma length_append (s t : string) :
  String.length (s ++ t) = (String.length s + String.length t)%nat.
Proof. induction s as [|a s IH]; cbn; [reflexivity | now rewrite IH]. Qed.

Lemma concat_cons (x : string) (l : list string) :
  String.concat "" (x :: l) = x ++ String.concat "" l.
Proof.
  destruct l as [|y l]; cbn [String.concat];
    [now rewrite append_nil_r | reflexivity].
Qed.

Lemma tokensFrom_spell (fuel : nat) (n : Z) (s : string) (o : option string) :
  (String.length s <= fuel)%nat ->
  let tokens := tokensFrom fuel n s o in
  String.concat "" (map tokenValue tokens) = s
  /\ Forall (fun t => tokenValue t <> "") tokens
  /\ (forall i t, tokens !! i = Some t ->
        tokenId t = "token-" ++ numToString (n + Z.of_nat i)
        /\ className t = classOf (tokenValue t) o).
Proof.
  revert n s. induction fuel as [|fuel IH]; intros n s Hlen; cbv zeta.
  - destruct s; [|cbn in Hlen; lia]. cbn.
    split; [reflexivity|]. split; [constructor|].
    intros i t H. discriminate.
  - cbn [tokensFrom].
    destruct (matchToken s) as [[value remaining]|] eqn:E.
    + apply matchToken_prefix in E as [-> Hvalue].
      assert (Hshort : (String.length remaining <= fuel)%nat).
      { rewrite length_append in Hlen.
        destruct value; [contradiction | cbn in Hlen; lia]. }
      destruct (IH (n + 1) remaining Hshort) as (Hc & Hv & Hi).
      cbv zeta in *. cbn [map tokenValue]. rewrite concat_cons, Hc.
      split; [reflexivity|]. split; [constructor; [exact Hvalue | exact Hv]|].
      intros i t H. destruct i as [|i]; cbn in H.
      * injection H as <-. cbn [tokenId className tokenValue].
        now rewrite Z.add_0_r.
      * destruct (Hi i t H) as [-> ->]. split; [|reflexivity].
        do 2 f_equal. lia.
    + apply matchToken_none in E. subst s. cbn.
      split; [reflexivity|]. split; [constructor|].
      intros i t H. discriminate.
Qed.

(** X6: The tokens of the preview spell the query: put together in their order,
    the values of the tokens are the generated query, character for
    character; no token is empty, the tokens are numbered from [token-0]
    on, and reading them changes nothing in the builder. *)
Theorem preview_tokens_spell_the_query (st : State) :
  let tokens := evalState soqlTokens st in
  String.concat "" (map tokenValue tokens) = evalState generatedSoql st
  /\ Forall (fun t => tokenValue t <> "") tokens
  /\ (forall i t, tokens !! i = Some t ->
        tokenId t = "token-" ++ numToString (Z.of_nat i)
        /\ className t
           = classOf (tokenValue t) (selectedObjectApiName (page2Data st)))
  /\ execState soqlTokens st = st.
Proof.
  cbv zeta. unfold soqlTokens, evalState, execState, bind.
  rewrite QueryBuilderFacts.generatedSoql_run. cbn [fst snd].
  match goal with
  | |- context [negb (nonEmpty ?q)] => set (soql := q)
  end.
  destruct (nonEmpty soql) eqn:E; cbn [negb ret gets fst snd].
  - destruct (tokensFrom_spell (String.length soql) 0 soql
                (selectedObjectApiName (page2Data st)) (le_n _))
      as (Hc & Hv & Hi).
    cbv zeta in *. split; [exact Hc|]. split; [exact Hv|].
    split; [exact Hi | reflexivity].
  - apply negb_false_iff, String.eqb_eq in E. rewrite E.
    split; [reflexivity|]. split; [constructor|].
    split; [intros i t H; discriminate | reflexivity].
Qed.

End PreviewFacts.

(** ** The editor of the query builder: rows, owner filter, selection *)

Module EditorFacts.
Import StateM Js QueryBuilder StateFacts RestoreFacts.
Local Open Scope Z_scope.
Local Open Scope list_scope.
Local Open Scope string_scope.

Lemma numToString_inj (a b : Z) : numToString a = numToString b -> a = b.
Proof.
  unfold numToString. intros H. apply DecimalZ.to_int_inj.
  assert (Hn : forall z, Z.to_int z <> Decimal.Pos Decimal.Nil
                         /\ Z.to_int z <> Decimal.Neg Decimal.Nil).
  { intros [|p|p]; split; cbn; try discriminate;
      intros E; injection E; apply DecimalPos.Unsigned.to_uint_nonnil. }
  assert (Hs : Some (Z.to_int a) = Some (Z.to_int b)).
  { rewrite <- (NilZero.isi (Z.to_int a)), <- (NilZero.isi (Z.to_int b));
      try apply Hn. now rewrite H. }
  now injection Hs.
Qed.

Lemma issued_mono (n m : Z) (id : string) : n <= m -> issued n id -> issued m id.
Proof. intros Hle (k & Hk & H). exists k. split; [lia | exact H]. Qed.

Lemma issued_next_cond (n : Z) (ids : list string) :
  Forall (issued n) ids -> ~ In ("cond_" ++ numToString (n + 1)) ids.
Proof.
  intros Hall Hin. pose proof (proj1 (List.Forall_forall _ _) Hall _ Hin) as Hi.
  destruct Hi as (k & Hk & [E | E]).
  - cbn in E. injection E as E. apply numToString_inj in E. lia.
  - cbn in E. discriminate.
Qed.

Lemma issued_next_owner (n : Z) (ids : list string) :
  Forall (issued n) ids -> ~ In ("owner_" ++ numToString (n + 1)) ids.
Proof.
  intros Hall Hin. pose proof (proj1 (List.Forall_forall _ _) Hall _ Hin) as Hi.
  destruct Hi as (k & Hk & [E | E]).
  - cbn in E. discriminate.
  - cbn in E. injection E as E. apply numToString_inj in E. lia.
Qed.

Lemma handleAddCondition_run (st : State) :
  whereConditions (execState handleAddCondition st)
  = (whereConditions st
      ++ [mkCondition ("cond_" ++ numToString (conditionIdCounter st + 1))
            "" "" "" "" (Str "") "AND" false])%list
  /\ conditionIdCounter (execState handleAddCondition st)
     = conditionIdCounter st + 1.
Proof. split; reflexivity. Qed.

Lemma handleRemoveCondition_run (id : string) (st : State) :
  whereConditions (execState (handleRemoveCondition id) st)
  = List.filter (fun c => negb (String.eqb (cid c) id)) (whereConditions st)
  /\ conditionIdCounter (execState (handleRemoveCondition id) st)
     = conditionIdCounter st.
Proof. split; reflexivity. Qed.

Lemma generatedSoql_ext (st st' : State) :
  page2Data st' = page2Data st ->
  queryType st' = queryType st ->
  selectedFieldApiNames st' = selectedFieldApiNames st ->
  aggregateFunction st' = aggregateFunction st ->
  aggregateFieldApiName st' = aggregateFieldApiName st ->
  queryLimit st' = queryLimit st ->
  List.filter validCondition (whereConditions st')
  = List.filter validCondition (whereConditions st) ->
  evalState generatedSoql st' = evalState generatedSoql st.
Proof.
  intros Hp Ht Hs Hf Ha Hl Hw. unfold evalState.
  rewrite !QueryBuilderFacts.generatedSoql_run. cbn [fst].
  unfold complete, selectList, wherePart, limitPart, whereClauseOf.
  rewrite !QueryBuilderFacts.existsb_filter.
  now rewrite Hp, Ht, Hs, Hf, Ha, Hl, Hw.
Qed.

(** X7: A row that [handleAddCondition] has just added is blank: the query is
    the one generated before, and [areConditionsValid] is false, so that the
    form cannot be saved until the row is completed or removed. *)
Theorem blank_row_blocks_saving (st : State) :
  evalState generatedSoql (execState handleAddCondition st)
  = evalState generatedSoql st
  /\ evalState areConditionsValid (execState handleAddCondition st) = false.
Proof.
  destruct (handleAddCondition_run st) as [Hw Hc]. split.
  - apply generatedSoql_ext; try reflexivity.
    rewrite Hw, List.filter_app. cbn. apply app_nil_r.
  - unfold evalState, areConditionsValid, bind, gets, ret. cbn [fst].
    change (whereConditions (snd (handleAddCondition st)))
      with (whereConditions (execState handleAddCondition st)).
    rewrite Hw, length_app, forallb_app. cbn [length].
    replace (length (whereConditions st) + 1 =? 0)%nat with false
      by (symmetry; apply Nat.eqb_neq; lia).
    cbn. apply andb_false_r.
Qed.

Lemma filter_valid_reset (id : string) (upd : Condition -> Condition)
    (conds : list Condition) :
  (forall c, validCondition (upd c) = false) ->
  List.filter validCondition
    (map (fun c => if String.eqb (cid c) id then upd c else c) conds)
  = List.filter validCondition
      (List.filter (fun c => negb (String.eqb (cid c) id)) conds).
Proof.
  intros Hupd. induction conds as [|c conds IH]; [reflexivity|].
  cbn [map List.filter]. destruct (String.eqb (cid c) id); cbn [negb].
  - now rewrite Hupd.
  - cbn [List.filter]. now rewrite IH.
Qed.

(** X8: Choosing another field for a row resets its operator, which takes the
    row out of the query: the query generated after
    [handleConditionFieldChange] is the one generated after
    [handleRemoveCondition] for the same row. *)
Theorem field_change_takes_the_row_out (isFilterable : Field -> bool)
    (conditionId fieldApiName : string) (st : State) :
  evalState generatedSoql
    (execState (handleConditionFieldChange isFilterable conditionId fieldApiName)
       st)
  = evalState generatedSoql (execState (handleRemoveCondition conditionId) st).
Proof.
  apply generatedSoql_ext; try reflexivity.
  destruct (handleRemoveCondition_run conditionId st) as [-> _].
  unfold handleConditionFieldChange, filterableFields, execState, bind, gets,
    ret, assign, modify, updateSoqlPreview.
  cbn [snd fst whereConditions set_whereConditions set_autoRefreshPending].
  apply (filter_valid_reset conditionId
           (fun c => mkCondition (cid c) fieldApiName _ _ "" (Str "")
                       (conjunction c) (isOwnerFilter c))).
  intros c. unfold validCondition. cbn. apply andb_false_r.
Qed.

(** The row that [addOwnerCondition] writes. *)
Lemma handleOwnerFilterToggle_run (filterType : string) (st : State) :
  let st' := execState (handleOwnerFilterToggle filterType) st in
  let kept :=
    if isSet (activeOwnerFilter st) then userConditions st
    else whereConditions st in
  let added :=
    if String.eqb filterType "me" then
      mkCondition ("owner_" ++ numToString (conditionIdCounter st + 1))
        "OwnerId" "Owner ID" "REFERENCE" "equals" (Str "{!UserId}") "AND" true
    else
      mkCondition ("owner_" ++ numToString (conditionIdCounter st + 1))
        "Owner.Type" "Owner Type" "STRING" "equals" (Str "Queue") "AND" true in
  if isActiveFilter (activeOwnerFilter st) filterType then
    whereConditions st' = userConditions st
    /\ conditionIdCounter st' = conditionIdCounter st
    /\ activeOwnerFilter st' = None
  else
    whereConditions st' = (kept ++ [added])%list
    /\ conditionIdCounter st' = conditionIdCounter st + 1
    /\ activeOwnerFilter st' = Some filterType.
Proof.
  cbv zeta. unfold handleOwnerFilterToggle, execState, bind, gets. cbn [fst snd].
  destruct (isActiveFilter (activeOwnerFilter st) filterType).
  - repeat split.
  - destruct (isSet (activeOwnerFilter st));
      destruct (String.eqb filterType "me") eqn:E;
      unfold addOwnerCondition, bind, gets, when_, ret, assign, modify;
      cbn; rewrite ?E; repeat split.
Qed.

Lemma ids_filter_In (p : Condition -> bool) (l : list Condition) (x : string) :
  In x (map cid (List.filter p l)) -> In x (map cid l).
Proof.
  rewrite !in_map_iff. intros (c & E & Hin).
  apply List.filter_In in Hin as [Hin _]. now exists c.
Qed.

Lemma ids_filter_NoDup (p : Condition -> bool) (l : list Condition) :
  NoDup (map cid l) -> NoDup (map cid (List.filter p l)).
Proof.
  induction l as [|c l IH]; [trivial|]. cbn [map List.filter].
  intros H. apply NoDup_cons in H as [Hc Hl].
  destruct (p c); [|now apply IH].
  cbn [map]. apply NoDup_cons. split; [|now apply IH].
  rewrite list_elem_of_In in *. intros Hin. apply Hc. eapply ids_filter_In, Hin.
Qed.

Lemma ids_filter_Forall (P : string -> Prop) (p : Condition -> bool)
    (l : list Condition) :
  Forall P (map cid l) -> Forall P (map cid (List.filter p l)).
Proof.
  rewrite !List.Forall_forall. intros H x Hin. eapply H, ids_filter_In, Hin.
Qed.

Lemma ids_map (g : Condition -> Condition) (l : list Condition) :
  (forall c, cid (g c) = cid c) -> map cid (map g l) = map cid l.
Proof. intros H. rewrite map_map. apply map_ext, H. Qed.

Lemma numbered_append (n : Z) (l : list Condition) (c : Condition) :
  NoDup (map cid l) -> Forall (issued n) (map cid l) ->
  cid c = "cond_" ++ numToString (n + 1)
  \/ cid c = "owner_" ++ numToString (n + 1) ->
  NoDup (map cid (l ++ [c])) /\ Forall (issued (n + 1)) (map cid (l ++ [c])).
Proof.
  intros Hd Hi Hc. rewrite map_app. cbn [map]. split.
  - apply NoDup_app. repeat split; [exact Hd | | apply NoDup_singleton].
    intros x Hx Hx'. apply list_elem_of_In in Hx.
    apply list_elem_of_In in Hx'. destruct Hx' as [<- | []].
    destruct Hc as [Hc | Hc]; rewrite Hc in Hx.
    + now apply (issued_next_cond n (map cid l)).
    + now apply (issued_next_owner n (map cid l)).
  - apply Forall_app. split.
    + eapply List.Forall_impl; [|exact Hi]. intros id. apply issued_mono. lia.
    + apply Forall_cons. split; [|apply Forall_nil; exact I].
      exists (n + 1). split; [lia | exact Hc].
Qed.

Lemma handle_wellNumbered (isFilterable : Field -> bool) (e : Event)
    (st : State) :
  wellNumbered st -> wellNumbered (execState (handle isFilterable e) st).
Proof.
  unfold wellNumbered, conditionIds. intros [Hd Hi].
  destruct e as [|id|id f|id o|id v|id j|ft|a b|v]; cbn [handle].
  - destruct (handleAddCondition_run st) as [-> ->].
    apply numbered_append; auto.
  - destruct (handleRemoveCondition_run id st) as [-> ->].
    split; [now apply ids_filter_NoDup | now apply ids_filter_Forall].
  - change (conditionIdCounter (execState _ st)) with (conditionIdCounter st).
    unfold handleConditionFieldChange, filterableFields, execState, bind, gets,
      ret, updateSoqlPreview, assign, modify.
    cbn [snd fst whereConditions set_whereConditions set_autoRefreshPending].
    rewrite ids_map; [now split|].
    intros c; destruct (String.eqb (cid c) id); reflexivity.
  - change (conditionIdCounter (execState _ st)) with (conditionIdCounter st).
    unfold handleConditionOperatorChange, execState, bind, gets,
      ret, updateSoqlPreview, assign, modify.
    cbn [snd fst whereConditions set_whereConditions set_autoRefreshPending].
    rewrite ids_map; [now split|].
    intros c; destruct (String.eqb (cid c) id); reflexivity.
  - change (conditionIdCounter (execState _ st)) with (conditionIdCounter st).
    unfold handleConditionValueChange, execState, bind, gets,
      ret, updateSoqlPreview, assign, modify.
    cbn [snd fst whereConditions set_whereConditions set_autoRefreshPending].
    rewrite ids_map; [now split|].
    intros c; destruct (String.eqb (cid c) id); reflexivity.
  - change (conditionIdCounter (execState _ st)) with (conditionIdCounter st).
    unfold handleConditionConjunctionChange, execState, bind, gets,
      ret, updateSoqlPreview, assign, modify.
    cbn [snd fst whereConditions set_whereConditions set_autoRefreshPending].
    rewrite ids_map; [now split|].
    intros c; destruct (String.eqb (cid c) id); reflexivity.
  - pose proof (handleOwnerFilterToggle_run ft st) as H. cbv zeta in H.
    destruct (isActiveFilter (activeOwnerFilter st) ft).
    + destruct H as (-> & -> & _). unfold userConditions.
      split; [now apply ids_filter_NoDup | now apply ids_filter_Forall].
    + destruct H as (-> & -> & _).
      apply numbered_append.
      * destruct (isSet _); [now apply ids_filter_NoDup | exact Hd].
      * destruct (isSet _); [now apply ids_filter_Forall | exact Hi].
      * right. now destruct (String.eqb ft "me").
  - assert (Hw : keeps whereConditions (handleFieldCheckboxChange a b))
      by (unfold handleFieldCheckboxChange, updateSoqlPreview; keeps_tac).
    assert (Hc : keeps conditionIdCounter (handleFieldCheckboxChange a b))
      by (unfold handleFieldCheckboxChange, updateSoqlPreview; keeps_tac).
    rewrite Hw, Hc. now split.
  - assert (Hw : keeps whereConditions (handleAggregateFunctionChange v))
      by (unfold handleAggregateFunctionChange, filterAggregateFields,
            getSelectedAggregateFunction, updateSoqlPreview; keeps_tac).
    assert (Hc : keeps conditionIdCounter (handleAggregateFunctionChange v))
      by (unfold handleAggregateFunctionChange, filterAggregateFields,
            getSelectedAggregateFunction, updateSoqlPreview; keeps_tac).
    rewrite Hw, Hc. now split.
Qed.

Lemma after_cons (isFilterable : Field -> bool) (e : Event)
    (events : list Event) (st : State) :
  after isFilterable (e :: events) st
  = after isFilterable events (execState (handle isFilterable e) st).
Proof. unfold after. cbn [forEach]. now rewrite exec_bind. Qed.

(** X9: Whatever the user does in the editor, the rows keep distinct ids, each
    issued by the counter: the handlers that add, remove and edit rows and
    the owner quick filter preserve it, from the builder as it is created
    onwards. *)
Theorem condition_ids_stay_distinct (isFilterable : Field -> bool)
    (events : list Event) (st : State) :
  wellNumbered st -> wellNumbered (after isFilterable events st).
Proof.
  revert st. induction events as [|e events IH]; intros st H; [exact H|].
  rewrite after_cons. now apply IH, handle_wellNumbered.
Qed.

Lemma condition_ids_stay_distinct_witness :
  wellNumbered initial
  /\ wellNumbered
       (after (fun _ => true)
          [AddCondition; OwnerFilterToggle "me"; AddCondition;
           RemoveCondition "cond_1"; OwnerFilterToggle "queue"] initial).
Proof.
  assert (H : wellNumbered initial) by (split; constructor).
  split; [exact H | apply condition_ids_stay_distinct, H].
Defined.

Lemma restoreConditions_cons (c : Condition) (rest : list Condition)
    (st : State) :
  let st1 :=
    if nonEmpty (cid c) then st
    else set_conditionIdCounter (conditionIdCounter st + 1) st in
  let id :=
    if nonEmpty (cid c) then cid c
    else "cond_" ++ numToString (conditionIdCounter st + 1) in
  evalState (restoreConditions (c :: rest)) st
  = mkCondition id (fieldApiName c) (fieldLabel c) (fieldType c) (operator c)
      (value c) (conjunction c) (isOwnerFilter c)
    :: evalState (restoreConditions rest) st1
  /\ execState (restoreConditions (c :: rest)) st
     = execState (restoreConditions rest) st1.
Proof.
  cbv zeta. cbn [restoreConditions]. rewrite !eval_bind, !exec_bind.
  destruct (nonEmpty (cid c)); split; reflexivity.
Qed.

Lemma restoreConditions_keeps_id (saved : list Condition) (st : State)
    (id : string) :
  nonEmpty id = true -> In id (map cid saved) ->
  In id (map cid (evalState (restoreConditions saved) st)).
Proof.
  intros Hid. revert st. induction saved as [|c saved IH]; intros st; [trivial|].
  destruct (restoreConditions_cons c saved st) as [-> _]. cbn [map cid].
  intros [E | Hin]; [left | right; now apply IH].
  rewrite E, Hid. reflexivity.
Qed.

Lemma restoreConditions_next (saved : list Condition) (st : State) :
  In ("cond_" ++ numToString (conditionIdCounter st + 1))
    (map cid (evalState (restoreConditions saved) st)
     ++ [("cond_" ++ numToString
            (conditionIdCounter (execState (restoreConditions saved) st) + 1))
           %string])%list.
Proof.
  revert st. induction saved as [|c saved IH]; intros st; [now left|].
  destruct (restoreConditions_cons c saved st) as [-> ->]. cbn [map cid app].
  destruct (nonEmpty (cid c)); [right; apply IH | now left].
Qed.

Lemma restoreConditions_collision (saved : list Condition) (st : State) :
  In ("cond_" ++ numToString (conditionIdCounter st + 1)) (map cid saved) ->
  ~ NoDup
      (map cid (evalState (restoreConditions saved) st)
       ++ [("cond_" ++ numToString
              (conditionIdCounter (execState (restoreConditions saved) st) + 1))
             %string])%list.
Proof.
  induction saved as [|c saved IH]; [intros []|].
  destruct (restoreConditions_cons c saved st) as [-> ->]. cbn [map cid app].
  intros Hin Hd. apply NoDup_cons in Hd as [Hhead Hd].
  rewrite list_elem_of_In in Hhead.
  destruct (nonEmpty (cid c)) eqn:Hc.
  - destruct Hin as [E | Hin]; [|now apply IH].
    apply Hhead. rewrite E. apply restoreConditions_next.
  - destruct Hin as [E | Hin].
    + rewrite E in Hc. discriminate.
    + apply Hhead, in_or_app. left.
      now apply restoreConditions_keeps_id.
Qed.


Lemma deserializeQueryConfig_conditions (srv : Server) (config : Config.t)
    (target : State) :
  let after := execState (deserializeQueryConfig srv (Some config)) target in
  exists pre,
    conditionIdCounter pre = conditionIdCounter target
    /\ whereConditions after
       = evalState (restoreConditions (Config.whereConditions config)) pre
    /\ conditionIdCounter after
       = conditionIdCounter
           (execState (restoreConditions (Config.whereConditions config)) pre).
Proof.
  cbv zeta. unfold deserializeQueryConfig.
  repeat (rewrite exec_bind; cbv beta).
  eexists. split; [|split].
  2: { peel whereConditions. cbn. reflexivity. }
  2: reflexivity.
  peel conditionIdCounter. unfold set_selectedFieldApiNames.
  cbn [conditionIdCounter]. peel conditionIdCounter. reflexivity.
Qed.

Lemma restored_conditions (srv : Server) (source target : State) :
  exists pre,
    conditionIdCounter pre = conditionIdCounter target
    /\ whereConditions (restored srv source target)
       = evalState
           (restoreConditions (map savedCondition (whereConditions source))) pre
    /\ conditionIdCounter (restored srv source target)
       = conditionIdCounter
           (execState
              (restoreConditions (map savedCondition (whereConditions source)))
              pre).
Proof.
  unfold restored, evalState at 1. rewrite serializeQueryConfig_run. cbn [fst].
  apply deserializeQueryConfig_conditions.
Qed.

(** X10: A restored builder issues an id again: when a saved row carries the id
    that the counter of the loading builder will issue next (as [cond_1]
    does for a builder just created), the rows after the next
    [handleAddCondition] do not have distinct ids, since loading does not
    advance the counter past the ids it restores. *)
Theorem restored_row_id_is_issued_again (srv : Server)
    (source target : State) :
  In ("cond_" ++ numToString (conditionIdCounter target + 1))
    (conditionIds source) ->
  ~ NoDup
      (conditionIds (execState handleAddCondition (restored srv source target))).
Proof.
  intros Hin. unfold conditionIds.
  destruct (handleAddCondition_run (restored srv source target)) as [-> _].
  destruct (restored_conditions srv source target) as (pre & Hc & -> & ->).
  rewrite map_app. cbn [map cid]. apply restoreConditions_collision.
  rewrite Hc, map_map. unfold conditionIds in Hin.
  now rewrite (map_ext _ cid (fun c => eq_refl : cid (savedCondition c) = cid c)).
Qed.

Lemma restored_row_id_is_issued_again_witness :
  In "cond_1" (conditionIds exampleBuilder)
  /\ ~ NoDup
         (conditionIds
            (execState handleAddCondition
               (restored offlineServer exampleBuilder initial))).
Proof.
  split; [left; reflexivity|].
  apply (restored_row_id_is_issued_again offlineServer exampleBuilder initial).
  left; reflexivity.
Defined.

Lemma owner_of_user (l : list Condition) :
  List.filter isOwnerFilter (List.filter (fun c => negb (isOwnerFilter c)) l)
  = [].
Proof.
  induction l as [|c l IH]; [reflexivity|]. cbn [List.filter].
  destruct (isOwnerFilter c) eqn:E; cbn [negb List.filter]; [exact IH|].
  now rewrite E.
Qed.

Lemma user_of_user (l : list Condition) :
  List.filter (fun c => negb (isOwnerFilter c))
    (List.filter (fun c => negb (isOwnerFilter c)) l)
  = List.filter (fun c => negb (isOwnerFilter c)) l.
Proof.
  induction l as [|c l IH]; [reflexivity|]. cbn [List.filter].
  destruct (isOwnerFilter c) eqn:E; cbn [negb List.filter]; [exact IH|].
  now rewrite E, IH.
Qed.

Lemma user_of_all (l : list Condition) :
  List.filter isOwnerFilter l = [] ->
  List.filter (fun c => negb (isOwnerFilter c)) l = l.
Proof.
  induction l as [|c l IH]; [reflexivity|]. cbn [List.filter].
  destruct (isOwnerFilter c); [discriminate|].
  intros H. cbn [negb]. now rewrite IH.
Qed.

Lemma added_owner_row (filterType : string) (n : Z) :
  let added :=
    if String.eqb filterType "me" then
      mkCondition ("owner_" ++ numToString n)
        "OwnerId" "Owner ID" "REFERENCE" "equals" (Str "{!UserId}") "AND" true
    else
      mkCondition ("owner_" ++ numToString n)
        "Owner.Type" "Owner Type" "STRING" "equals" (Str "Queue") "AND" true in
  isOwnerFilter added = true
  /\ buildConditionClause added = ownerClause filterType.
Proof.
  cbv zeta. unfold ownerClause.
  destruct (String.eqb filterType "me"); split; reflexivity.
Qed.

(** X11: The owner quick filter is exclusive: from a builder in which the button
    state and the rows agree, a click on either button leaves them in
    agreement, so that there is never more than one owner condition, and
    the rows that the user has added are left as they were. *)
Theorem owner_filter_stays_consistent (filterType : string) (st : State) :
  ownerConsistent st ->
  nonEmpty filterType = true ->
  ownerConsistent (execState (handleOwnerFilterToggle filterType) st)
  /\ userConditions (execState (handleOwnerFilterToggle filterType) st)
     = userConditions st.
Proof.
  intros Hc Hft.
  pose proof (handleOwnerFilterToggle_run filterType st) as H. cbv zeta in H.
  unfold ownerConsistent, ownerConditions, userConditions in *.
  destruct (isActiveFilter (activeOwnerFilter st) filterType).
  - destruct H as (-> & _ & ->). split; [apply owner_of_user | apply user_of_user].
  - destruct H as (-> & _ & ->).
    rewrite !List.filter_app.
    destruct (added_owner_row filterType (conditionIdCounter st + 1)) as [Ho _].
    cbv zeta in Ho. cbn [List.filter]. rewrite Ho. cbn [negb].
    rewrite app_nil_r, length_app. cbn [length].
    destruct (activeOwnerFilter st) as [f|].
    + destruct Hc as [Hf _]. cbn [isSet]. rewrite Hf.
      rewrite owner_of_user, user_of_user. auto.
    + cbn [isSet]. rewrite Hc. auto.
Qed.

Lemma owner_filter_stays_consistent_witness :
  ownerConsistent exampleBuilder
  /\ ownerConsistent
       (execState (handleOwnerFilterToggle "me") exampleBuilder)
  /\ userConditions (execState (handleOwnerFilterToggle "me") exampleBuilder)
     = userConditions exampleBuilder.
Proof.
  split; [reflexivity|].
  apply (owner_filter_stays_consistent "me" exampleBuilder); reflexivity.
Defined.

(** X12: With no owner filter active, a click on a button appends the owner
    condition of that button to the rows and marks the button active; a
    second click on the same button removes the condition again and leaves
    the rows as they were before the first. *)
Theorem owner_filter_on_and_off (filterType : string) (st : State) :
  activeOwnerFilter st = None ->
  ownerConditions st = [] ->
  let on := execState (handleOwnerFilterToggle filterType) st in
  let off := execState (handleOwnerFilterToggle filterType) on in
  (exists c,
     whereConditions on = (whereConditions st ++ [c])%list
     /\ buildConditionClause c = ownerClause filterType)
  /\ activeOwnerFilter on = Some filterType
  /\ whereConditions off = whereConditions st
  /\ activeOwnerFilter off = None.
Proof.
  intros Ha Ho. cbv zeta.
  pose proof (handleOwnerFilterToggle_run filterType st) as H. cbv zeta in H.
  rewrite Ha in H. cbn [isActiveFilter isSet] in H.
  destruct H as (Hw & _ & Hf).
  destruct (added_owner_row filterType (conditionIdCounter st + 1))
    as [Hflag Hclause]. cbv zeta in Hflag, Hclause.
  pose proof (handleOwnerFilterToggle_run filterType
                (execState (handleOwnerFilterToggle filterType) st)) as H'.
  cbv zeta in H'. rewrite Hf in H'. cbn [isActiveFilter] in H'.
  rewrite String.eqb_refl in H'. destruct H' as (Hw' & _ & Hf').
  split; [eexists; split; [exact Hw | exact Hclause]|].
  split; [exact Hf|]. split; [|exact Hf'].
  rewrite Hw'. unfold userConditions. rewrite Hw, List.filter_app.
  cbn [List.filter]. rewrite Hflag. cbn [negb].
  rewrite app_nil_r. now apply user_of_all.
Qed.

Lemma owner_filter_on_and_off_witness :
  let on := execState (handleOwnerFilterToggle "queue") exampleBuilder in
  let off := execState (handleOwnerFilterToggle "queue") on in
  (exists c,
     whereConditions on = (whereConditions exampleBuilder ++ [c])%list
     /\ buildConditionClause c = "Owner.Type = 'Queue'")
  /\ activeOwnerFilter on = Some "queue"
  /\ whereConditions off = whereConditions exampleBuilder
  /\ activeOwnerFilter off = None.
Proof.
  apply (owner_filter_on_and_off "queue" exampleBuilder); reflexivity.
Defined.

(** X13: [handleRemoveCondition] does not look at the quick filter: when the
    owner condition is removed by the button of its row, the filter is
    still marked active although no owner condition is left, and the next
    click on the filter's button only clears the mark. *)
Theorem removed_owner_row_leaves_filter_active (st : State) (f : string)
    (c : Condition) :
  activeOwnerFilter st = Some f ->
  ownerConditions st = [c] ->
  let st' := execState (handleRemoveCondition (cid c)) st in
  activeOwnerFilter st' = Some f
  /\ ownerConditions st' = []
  /\ whereConditions (execState (handleOwnerFilterToggle f) st')
     = whereConditions st'
  /\ activeOwnerFilter (execState (handleOwnerFilterToggle f) st') = None.
Proof.
  intros Ha Ho. cbv zeta.
  destruct (handleRemoveCondition_run (cid c) st) as [Hw _].
  assert (Hf : activeOwnerFilter (execState (handleRemoveCondition (cid c)) st)
               = Some f) by exact Ha.
  assert (Hnone : ownerConditions (execState (handleRemoveCondition (cid c)) st)
                  = []).
  { unfold ownerConditions in *. rewrite Hw.
    assert (Hin : forall x, In x (List.filter isOwnerFilter (whereConditions st))
                            -> x = c).
    { intros x. rewrite Ho. intros [E | []]. now symmetry. }
    clear Ho Hw Hf. induction (whereConditions st) as [|x l IH];
      [reflexivity|].
    cbn [List.filter] in *. destruct (String.eqb (cid x) (cid c)) eqn:E;
      cbn [negb].
    - apply IH. intros y Hy. apply Hin. destruct (isOwnerFilter x); [now right|].
      exact Hy.
    - cbn [List.filter]. destruct (isOwnerFilter x) eqn:Ex.
      + rewrite (Hin x (or_introl eq_refl)), String.eqb_refl in E. discriminate.
      + apply IH. exact Hin. }
  pose proof (handleOwnerFilterToggle_run f
                (execState (handleRemoveCondition (cid c)) st)) as H.
  cbv zeta in H. rewrite Hf in H. cbn [isActiveFilter] in H.
  rewrite String.eqb_refl in H. destruct H as (Hw' & _ & Hf').
  repeat split; try assumption.
  rewrite Hw'. now apply user_of_all.
Qed.

Lemma removed_owner_row_leaves_filter_active_witness :
  let st := execState (handleOwnerFilterToggle "me") exampleBuilder in
  let st' := execState (handleRemoveCondition "owner_1") st in
  activeOwnerFilter st = Some "me"
  /\ activeOwnerFilter st' = Some "me"
  /\ ownerConditions st' = []
  /\ whereConditions (execState (handleOwnerFilterToggle "me") st')
     = whereConditions st'
  /\ activeOwnerFilter (execState (handleOwnerFilterToggle "me") st') = None.
Proof.
  split; [reflexivity|].
  apply (removed_owner_row_leaves_filter_active
           (execState (handleOwnerFilterToggle "me") exampleBuilder) "me"
           (mkCondition "owner_1" "OwnerId" "Owner ID" "REFERENCE" "equals"
              (Str "{!UserId}") "AND" true));
    reflexivity.
Defined.

Lemma restoreConditions_no_owner (conds : list Condition) (st : State) :
  List.filter isOwnerFilter
    (evalState (restoreConditions (map savedCondition conds)) st) = [].
Proof.
  revert st. induction conds as [|c conds IH]; intros st; [reflexivity|].
  cbn [map].
  destruct (restoreConditions_cons (savedCondition c)
              (map savedCondition conds) st) as [-> _].
  cbn [List.filter isOwnerFilter savedCondition]. apply IH.
Qed.

(** X14: What is saved of a row does not include the mark of the owner quick
    filter. After loading a configuration saved with an owner filter active,
    the filter is marked active but none of the rows is an owner condition:
    a click on the active button clears the mark and removes no row, so the
    query still carries the owner condition. *)
Theorem restored_owner_condition_is_not_removed (srv : Server)
    (source target : State) (f : string) :
  activeOwnerFilter source = Some f ->
  nonEmpty f = true ->
  let st := restored srv source target in
  let st' := execState (handleOwnerFilterToggle f) st in
  activeOwnerFilter st = Some f
  /\ ownerConditions st = []
  /\ activeOwnerFilter st' = None
  /\ whereConditions st' = whereConditions st
  /\ evalState generatedSoql st' = evalState generatedSoql st.
Proof.
  intros Ha Hf. cbv zeta.
  assert (Hactive : activeOwnerFilter (restored srv source target) = Some f).
  { unfold restored, evalState at 1. rewrite serializeQueryConfig_run. cbn [fst].
    match goal with
    | |- context [deserializeQueryConfig srv (Some ?config)] =>
        destruct (deserializeQueryConfig_fields srv config target)
          as (_ & _ & _ & _ & _ & _ & -> & _)
    end.
    cbn [Config.activeOwnerFilter]. rewrite Ha. unfold orNull. cbn [isSet].
    now rewrite Hf. }
  assert (Hnone : ownerConditions (restored srv source target) = []).
  { unfold ownerConditions.
    destruct (restored_conditions srv source target) as (pre & _ & -> & _).
    apply restoreConditions_no_owner. }
  pose proof (handleOwnerFilterToggle_run f (restored srv source target)) as H.
  cbv zeta in H. rewrite Hactive in H. cbn [isActiveFilter] in H.
  rewrite String.eqb_refl in H. destruct H as (Hw & _ & Hoff).
  assert (Hsame : whereConditions
                    (execState (handleOwnerFilterToggle f)
                       (restored srv source target))
                  = whereConditions (restored srv source target)).
  { rewrite Hw. now apply user_of_all. }
  repeat split; try assumption.
  apply generatedSoql_ext; try (now rewrite Hsame).
  all: unfold handleOwnerFilterToggle, execState, bind, gets; cbn [fst snd];
    rewrite Hactive; cbn [isActiveFilter]; rewrite String.eqb_refl;
    reflexivity.
Qed.

Lemma restored_owner_condition_is_not_removed_witness :
  let source := execState (handleOwnerFilterToggle "me") exampleBuilder in
  let st := restored offlineServer source initial in
  let st' := execState (handleOwnerFilterToggle "me") st in
  activeOwnerFilter source = Some "me"
  /\ activeOwnerFilter st = Some "me"
  /\ ownerConditions st = []
  /\ activeOwnerFilter st' = None
  /\ whereConditions st' = whereConditions st
  /\ evalState generatedSoql st' = evalState generatedSoql st.
Proof.
  split; [reflexivity|].
  apply (restored_owner_condition_is_not_removed offlineServer
           (execState (handleOwnerFilterToggle "me") exampleBuilder) initial
           "me"); reflexivity.
Defined.

Lemma generatedSoql_nonEmpty (st : State) :
  nonEmpty (evalState generatedSoql st) = complete st.
Proof.
  unfold evalState. rewrite QueryBuilderFacts.generatedSoql_run. cbn [fst].
  destruct (complete st); reflexivity.
Qed.

(** X15: With an object selected and a function that the builder offers,
    [isFieldSelectionValid] holds exactly when [generatedSoql] is not empty:
    the form accepts a selection exactly when there is a query to save. *)
Theorem valid_selection_has_a_query (st : State) :
  isSet (selectedObjectApiName (page2Data st)) = true ->
  offeredFunction st = true ->
  evalState isFieldSelectionValid st = nonEmpty (evalState generatedSoql st).
Proof.
  intros Hobj Hoff. rewrite generatedSoql_nonEmpty. unfold complete.
  rewrite Hobj. cbn [andb].
  unfold isFieldSelectionValid, isListMode, isAggregateMode,
    getSelectedAggregateFunction, evalState, bind, gets, ret.
  cbv beta. cbn [fst snd]. unfold offeredFunction in Hoff.
  destruct (String.eqb (queryType st) "List").
  - cbn [fst]. now destruct (selectedFieldApiNames st).
  - cbn [fst snd]. destruct (String.eqb (queryType st) "Aggregate");
      [|reflexivity].
    cbn [fst snd].
    destruct (aggregateFunction st) as [f|] eqn:Hfun; [|reflexivity].
    cbn [isSet]. destruct (nonEmpty f) eqn:Hf; [|reflexivity].
    cbn [negb]. cbv beta. rewrite Hfun. cbn [isSet]. rewrite Hf.
    cbn [negb fst snd default show andb].
    unfold includes in Hoff. cbn [map fst AGGREGATE_FUNCTIONS existsb] in Hoff.
    repeat (apply orb_prop in Hoff as [Hoff | Hoff];
            [apply String.eqb_eq in Hoff; subst f; cbn;
             now destruct (isSet (aggregateFieldApiName st))|]).
    discriminate.
Qed.

Lemma valid_selection_has_a_query_witness :
  isSet (selectedObjectApiName (page2Data exampleBuilder)) = true
  /\ offeredFunction exampleBuilder = true
  /\ evalState isFieldSelectionValid exampleBuilder
     = nonEmpty (evalState generatedSoql exampleBuilder).
Proof.
  split; [reflexivity|]. split; [reflexivity|].
  apply (valid_selection_has_a_query exampleBuilder); reflexivity.
Defined.

Lemma valueFree_clause (c : Condition) (v : jsvalue) :
  includes (operator c) valueFreeOperators = true ->
  buildConditionClause (withValue v c) = buildConditionClause c.
Proof.
  destruct c as [i f l t o w j b]. unfold includes, valueFreeOperators, withValue.
  cbn [operator existsb cid fieldApiName fieldLabel fieldType conjunction
       isOwnerFilter]. intros H.
  repeat (apply orb_prop in H as [H | H];
          [apply String.eqb_eq in H; subst o; reflexivity|]).
  discriminate.
Qed.

Lemma complete_rows (conds : list Condition) :
  forallb
    (fun condition =>
       if negb (nonEmpty (fieldApiName condition))
          || negb (nonEmpty (operator condition))
       then false
       else if negb (includes (operator condition) ["is_null"; "is_not_null"])
               && negb (includes (operator condition)
                          ["date_today"; "date_gt_today"; "date_lt_today";
                           "date_this_week"; "date_this_month";
                           "date_this_year"])
       then isEntered (value condition)
       else true) conds = true ->
  List.filter validCondition conds = conds
  /\ Forall (fun c =>
               isEntered (value c) = true
               \/ forall v, buildConditionClause (withValue v c)
                            = buildConditionClause c) conds.
Proof.
  induction conds as [|c conds IH]; [now split|].
  cbn [forallb List.filter]. intros H. apply andb_prop in H as [Hc Hrest].
  destruct (IH Hrest) as [IHf IHv]. unfold validCondition at 1.
  destruct (nonEmpty (fieldApiName c)); [|discriminate].
  destruct (nonEmpty (operator c)); [|discriminate].
  cbn [negb orb andb] in *. rewrite IHf. split; [reflexivity|].
  constructor; [|exact IHv].
  destruct (includes (operator c) ["is_null"; "is_not_null"]) eqn:E1.
  - right. intros v. apply valueFree_clause.
    unfold includes in *. cbn [existsb valueFreeOperators] in *.
    apply orb_prop in E1 as [-> | E1]; [reflexivity|].
    apply orb_prop in E1 as [-> | E1]; [|discriminate].
    now rewrite orb_true_r.
  - cbn [negb andb] in Hc.
    destruct (includes (operator c) _) eqn:E2 in Hc.
    + right. intros v. apply valueFree_clause.
      unfold includes in *. cbn [existsb valueFreeOperators] in *.
      repeat (apply orb_prop in E2 as [-> | E2];
              [now rewrite ?orb_true_r|]).
      discriminate.
    + now left.
Qed.

(** X16: When [areConditionsValid] holds, every row has a field and an operator,
    so that no row is left out of the WHERE clause, and every row has a
    value entered unless its clause does not depend on the value at all. *)
Theorem valid_conditions_are_all_in_the_query (st : State) :
  evalState areConditionsValid st = true ->
  List.filter validCondition (whereConditions st) = whereConditions st
  /\ Forall (fun c =>
               isEntered (value c) = true
               \/ forall v, buildConditionClause (withValue v c)
                            = buildConditionClause c)
       (whereConditions st).
Proof.
  unfold evalState, areConditionsValid, bind, gets, ret. cbn [fst snd].
  destruct (whereConditions st) as [|c0 l]; [now split|].
  cbn [length Nat.eqb fst]. apply complete_rows.
Qed.

Lemma valid_conditions_are_all_in_the_query_witness :
  evalState areConditionsValid exampleBuilder = true
  /\ List.filter validCondition (whereConditions exampleBuilder)
     = whereConditions exampleBuilder
  /\ Forall (fun c =>
               isEntered (value c) = true
               \/ forall v, buildConditionClause (withValue v c)
                            = buildConditionClause c)
       (whereConditions exampleBuilder).
Proof.
  split; [reflexivity|].
  apply (valid_conditions_are_all_in_the_query exampleBuilder); reflexivity.
Defined.

(** X17: A click on a row's button whose [data-id] no row carries changes no
    row: removing, and changing field, operator, value or conjunction of an
    unknown row leave the conditions as they were. *)
Theorem unknown_row_changes_nothing (isFilterable : Field -> bool) (e : Event)
    (conditionId : string) (st : State) :
  addressedRow e = Some conditionId ->
  ~ In conditionId (conditionIds st) ->
  whereConditions (execState (handle isFilterable e) st) = whereConditions st.
Proof.
  intros He Hin.
  assert (Hne : forall c, In c (whereConditions st) ->
                          String.eqb (cid c) conditionId = false).
  { intros c Hc. apply String.eqb_neq. intros E. apply Hin.
    unfold conditionIds. rewrite <- E. now apply in_map. }
  assert (Hmap : forall upd : Condition -> Condition,
             map (fun c => if String.eqb (cid c) conditionId then upd c else c)
               (whereConditions st) = whereConditions st).
  { intros upd. rewrite <- (map_id (whereConditions st)) at 2.
    apply map_ext_in. intros c Hc. now rewrite (Hne c Hc). }
  destruct e as [|id|id f|id o|id v|id j|ft|a b|v];
    cbn [addressedRow] in He; try discriminate;
    injection He as ->; cbn [handle].
  - destruct (handleRemoveCondition_run conditionId st) as [-> _].
    clear Hmap Hin. induction (whereConditions st) as [|c l IH]; [reflexivity|].
    cbn [List.filter]. rewrite (Hne c (or_introl eq_refl)). cbn [negb].
    f_equal. apply IH. intros x Hx. apply Hne. now right.
  - apply (Hmap (fun c => mkCondition (cid c) f _ _ "" (Str "")
                            (conjunction c) (isOwnerFilter c))).
  - apply (Hmap (fun c => mkCondition (cid c) (fieldApiName c) (fieldLabel c)
                            (fieldType c) o (Str "") (conjunction c)
                            (isOwnerFilter c))).
  - apply (Hmap (fun c => mkCondition (cid c) (fieldApiName c) (fieldLabel c)
                            (fieldType c) (operator c) v
                            (conjunction c) (isOwnerFilter c))).
  - apply (Hmap (fun c => mkCondition (cid c) (fieldApiName c) (fieldLabel c)
                            (fieldType c) (operator c) (value c) j
                            (isOwnerFilter c))).
Qed.

Lemma unknown_row_changes_nothing_witness :
  ~ In "cond_9" (conditionIds exampleBuilder)
  /\ whereConditions
       (execState (handle (fun _ => true) (ConditionValueChange "cond_9" (Str "x")))
          exampleBuilder)
     = whereConditions exampleBuilder.
Proof.
  assert (H : ~ In "cond_9" (conditionIds exampleBuilder))
    by (intros [H | []]; discriminate H).
  split; [exact H|].
  apply (unknown_row_changes_nothing (fun _ => true)
           (ConditionValueChange "cond_9" (Str "x")) "cond_9" exampleBuilder);
    [reflexivity | exact H].
Defined.

(** X18: Ticking the checkbox of a field that is not selected appends it to the
    selection, and unticking it again gives back the selection, and with it
    the query, as they were. *)
Theorem field_checkbox_round_trip (apiName : string) (st : State) :
  ~ In apiName (selectedFieldApiNames st) ->
  let checked := execState (handleFieldCheckboxChange apiName true) st in
  let unchecked := execState (handleFieldCheckboxChange apiName false) checked in
  selectedFieldApiNames checked = (selectedFieldApiNames st ++ [apiName])%list
  /\ selectedFieldApiNames unchecked = selectedFieldApiNames st
  /\ evalState generatedSoql unchecked = evalState generatedSoql st.
Proof.
  intros Hin. cbv zeta.
  assert (Hu : selectedFieldApiNames
                 (execState (handleFieldCheckboxChange apiName false)
                    (execState (handleFieldCheckboxChange apiName true) st))
               = selectedFieldApiNames st).
  { change (List.filter (fun f => negb (String.eqb f apiName))
              (selectedFieldApiNames st ++ [apiName])
            = selectedFieldApiNames st).
    rewrite List.filter_app. cbn [List.filter]. rewrite String.eqb_refl.
    cbn [negb]. rewrite app_nil_r.
    induction (selectedFieldApiNames st) as [|x l IH]; [reflexivity|].
    cbn [List.filter].
    destruct (String.eqb x apiName) eqn:E.
    - apply String.eqb_eq in E. subst x. exfalso. apply Hin. now left.
    - cbn [negb]. f_equal. apply IH. intros H. apply Hin. now right. }
  split; [reflexivity|]. split; [exact Hu|].
  apply generatedSoql_ext; try reflexivity. exact Hu.
Qed.

Lemma field_checkbox_round_trip_witness :
  let checked := execState (handleFieldCheckboxChange "Name" true) exampleBuilder in
  let unchecked := execState (handleFieldCheckboxChange "Name" false) checked in
  ~ In "Name" (selectedFieldApiNames exampleBuilder)
  /\ selectedFieldApiNames checked = ["Id"; "Owner.Name"; "Name"]
  /\ selectedFieldApiNames unchecked = selectedFieldApiNames exampleBuilder
  /\ evalState generatedSoql unchecked = evalState generatedSoql exampleBuilder.
Proof.
  assert (H : ~ In "Name" (selectedFieldApiNames exampleBuilder))
    by (intros [H | [H | []]]; discriminate H).
  split; [exact H|].
  apply (field_checkbox_round_trip "Name" exampleBuilder), H.
Defined.

Lemma handleAggregateFunctionChange_run (value : string) (st : State) :
  let st' := execState (handleAggregateFunctionChange value) st in
  aggregateFunction st' = Some value
  /\ aggregateFieldApiName st' = None
  /\ filteredAggregateFields st'
     = take 100
         (List.filter (fun f => acceptsType value (type f)) (allFields st))
  /\ page2Data st' = page2Data st
  /\ queryType st' = queryType st
  /\ whereConditions st' = whereConditions st.
Proof.
  cbv zeta.
  unfold handleAggregateFunctionChange, filterAggregateFields,
    getSelectedAggregateFunction, updateSoqlPreview, acceptsType.
  unfold execState, bind, gets, ret, assign, modify.
  cbn [fst snd aggregateFunction set_aggregateFunction
       set_aggregateFieldApiName set_aggregateFieldSearchTerm
       set_filteredAggregateFields isSet default].
  destruct (nonEmpty value) eqn:Hv; cbn [negb fst snd].
  - destruct (find _ AGGREGATE_FUNCTIONS) as [[name [types|]]|];
      cbn; repeat split.
    now induction (allFields st).
  - apply negb_false_iff, String.eqb_eq in Hv. subst value.
    cbn. repeat split. now induction (allFields st).
Qed.

(** X19: Choosing an aggregate function clears the target field and offers the
    first hundred fields whose type the function accepts. In aggregate mode
    with an object selected the query is then [SELECT COUNT()] for COUNT
    and empty for every other function, until a target is chosen. *)
Theorem function_change_clears_the_target (value : string) (st : State) :
  queryType st = "Aggregate" ->
  isSet (selectedObjectApiName (page2Data st)) = true ->
  let st' := execState (handleAggregateFunctionChange value) st in
  aggregateFieldApiName st' = None
  /\ filteredAggregateFields st'
     = take 100
         (List.filter (fun f => acceptsType value (type f)) (allFields st))
  /\ evalState generatedSoql st'
     = if String.eqb value "COUNT" then
         "SELECT COUNT()" ++ nl ++ "  FROM "
           ++ show (selectedObjectApiName (page2Data st)) ++ wherePart st
       else "".
Proof.
  intros Ht Hobj. cbv zeta.
  destruct (handleAggregateFunctionChange_run value st)
    as (Hf & Ha & Hl & Hp & Hq & Hw). cbv zeta in *.
  split; [exact Ha|]. split; [exact Hl|].
  unfold evalState. rewrite QueryBuilderFacts.generatedSoql_run. cbn [fst].
  unfold complete, selectList, wherePart, limitPart.
  rewrite Hf, Ha, Hp, Hq, Hw, Ht, Hobj. cbn [String.eqb Ascii.eqb Bool.eqb andb isSet show orb].
  destruct (String.eqb value "COUNT") eqn:E.
  - apply String.eqb_eq in E. subst value. cbn.
    rewrite JsFacts.append_nil_r. reflexivity.
  - rewrite orb_false_r, andb_false_r. reflexivity.
Qed.

Lemma function_change_clears_the_target_witness :
  let st := set_queryType "Aggregate" exampleBuilder in
  let st' := execState (handleAggregateFunctionChange "COUNT") st in
  queryType st = "Aggregate"
  /\ aggregateFieldApiName st' = None
  /\ filteredAggregateFields st'
     = take 100
         (List.filter (fun f => acceptsType "COUNT" (type f)) (allFields st))
  /\ evalState generatedSoql st'
     = "SELECT COUNT()" ++ nl ++ "  FROM Account" ++ wherePart st.
Proof.
  split; [reflexivity|].
  apply (function_change_clears_the_target "COUNT"
           (set_queryType "Aggregate" exampleBuilder)); reflexivity.
Defined.

(** X29: A row that [handleAddCondition] has added can be taken back: in a
    builder whose rows carry distinct ids issued by the counter,
    [handleRemoveCondition] for the id of the new row removes that row and
    no other, and the rows are those from before the row was added. *)
Theorem added_row_can_be_removed (st : State) :
  wellNumbered st ->
  let added := execState handleAddCondition st in
  let newId := "cond_" ++ numToString (conditionIdCounter added) in
  whereConditions (execState (handleRemoveCondition newId) added)
  = whereConditions st.
Proof.
  intros [_ Hissued]. cbv zeta.
  destruct (handleAddCondition_run st) as [Hw Hc]. rewrite Hc.
  destruct (handleRemoveCondition_run
              ("cond_" ++ numToString (conditionIdCounter st + 1))
              (execState handleAddCondition st)) as [-> _].
  rewrite Hw, List.filter_app. cbn [List.filter cid].
  rewrite String.eqb_refl. cbn [negb]. rewrite app_nil_r.
  pose proof (issued_next_cond _ _ Hissued) as Hfresh.
  unfold conditionIds in Hfresh. clear Hissued Hw Hc. revert Hfresh.
  generalize ("cond_" ++ numToString (conditionIdCounter st + 1)).
  intros id. induction (whereConditions st) as [|c l IH]; [reflexivity|].
  cbn [List.filter map]. intros Hfresh.
  destruct (String.eqb_spec (cid c) id) as [E|E].
  - exfalso. apply Hfresh. now left.
  - cbn [negb]. f_equal. apply IH. intros H. apply Hfresh. now right.
Qed.

Lemma added_row_can_be_removed_witness :
  wellNumbered initial
  /\ whereConditions
       (execState (handleRemoveCondition "cond_1")
          (execState handleAddCondition initial))
     = whereConditions initial.
Proof.
  assert (H : wellNumbered initial) by (split; constructor).
  split; [exact H | apply (added_row_can_be_removed initial H)].
Defined.

End EditorFacts.

(** ** The list: page bar, pages, column headers, cells, filter buttons *)

Module ListViewFacts.
Import StateM Js JsValue ConfigurableList StateFacts PaginationFacts FilterFacts.
Local Open Scope string_scope.
Local Open Scope list_scope.
Local Open Scope Z_scope.

Lemma fromTo_cons (first last : Z) :
  first <= last -> fromTo first last = first :: fromTo (first + 1) last.
Proof.
  intros H. unfold fromTo. rewrite seqZ_cons by lia.
  f_equal. f_equal; lia.
Qed.

Lemma fromTo_nil (first last : Z) : last < first -> fromTo first last = [].
Proof. intros H. unfold fromTo. apply seqZ_nil. lia. Qed.

Ltac range :=
  repeat first
    [ rewrite fromTo_nil by lia
    | rewrite fromTo_cons by lia ].

(** The bar, case by case. *)
Lemma smart_bar (st : State) :
  6 <= totalPages st -> 1 <= currentPage st <= totalPages st ->
  let c := currentPage st in
  let t := totalPages st in
  let page i := createPageNumberObject i (i =? c)%Z in
  let dots s := mkPageNumber None s None None in
  evalState createSmartPageNumbers st =
    if c <=? 2 then [page 1; page 2; page 3; dots "ellipsis-end"; page t]
    else if t - 1 <=? c then
      [page 1; dots "ellipsis-start"; page (t - 2); page (t - 1); page t]
    else
      ([page 1] ++ (if 3 <? c then [dots "ellipsis-start"] else [])
       ++ [page (c - 1); page c; page (c + 1)]
       ++ (if c <? t - 2 then [dots "ellipsis-end"] else [])
       ++ [page t])%list.
Proof.
  intros Ht Hc. cbv zeta.
  unfold createSmartPageNumbers, evalState, bind, gets, ret. cbn [fst snd].
  set (c := currentPage st) in *. set (t := totalPages st) in *.
  rewrite (Z.eqb_sym c 1), (Z.eqb_sym c t).
  destruct (Z.leb_spec c 2) as [H2|H2].
  - replace (c <=? 1 + 1) with true by (symmetry; apply Z.leb_le; lia).
    replace (t - 1 <=? c) with false by (symmetry; apply Z.leb_gt; lia).
    replace (1 <? t) with true by (symmetry; apply Z.ltb_lt; lia).
    rewrite (Z.max_l 2 (c - 1)) by lia. rewrite (Z.min_r (t - 1) 3) by lia.
    cbn [Z.ltb Z.compare Pos.compare Pos.compare_cont].
    replace (3 <? t - 1) with true by (symmetry; apply Z.ltb_lt; lia).
    replace (3 <? t) with true by (symmetry; apply Z.ltb_lt; lia).
    range. reflexivity.
  - replace (c <=? 1 + 1) with false by (symmetry; apply Z.leb_gt; lia).
    replace (1 <? t) with true by (symmetry; apply Z.ltb_lt; lia).
    destruct (Z.leb_spec (t - 1) c) as [He|He].
    + rewrite (Z.max_r 2 (t - 2)) by lia.
      rewrite (Z.min_l (t - 1) (c + 1)) by lia.
      replace (2 <? t - 2) with true by (symmetry; apply Z.ltb_lt; lia).
      replace (t - 1 <? t - 1) with false by (symmetry; apply Z.ltb_ge; lia).
      replace (t - 1 <? t) with true by (symmetry; apply Z.ltb_lt; lia).
      range. cbn [map app andb].
      replace (t - 2 + 1) with (t - 1) by lia. reflexivity.
    + rewrite (Z.max_r 2 (c - 1)) by lia.
      rewrite (Z.min_r (t - 1) (c + 1)) by lia.
      replace (2 <? c - 1) with (3 <? c)
        by (destruct (Z.ltb_spec 3 c), (Z.ltb_spec 2 (c - 1)); lia).
      replace (c + 1 <? t - 1) with (c <? t - 2)
        by (destruct (Z.ltb_spec c (t - 2)), (Z.ltb_spec (c + 1) (t - 1)); lia).
      replace (c + 1 <? t) with true by (symmetry; apply Z.ltb_lt; lia).
      range. cbn [map app andb].
      replace (c - 1 + 1) with c by lia. replace (c - 1 + 1 + 1) with (c + 1) by lia.
      destruct (3 <? c), (c <? t - 2); reflexivity.
Qed.


Lemma simple_bar (st : State) :
  totalPages st <= 5 ->
  evalState createSimplePageNumbers st
  = map (fun i => createPageNumberObject i (i =? currentPage st))
      (fromTo 1 (totalPages st)).
Proof.
  intros H. unfold createSimplePageNumbers, evalState, bind, gets, ret.
  cbn [fst snd].
  now replace (totalPages st <=? 5) with true by (symmetry; apply Z.leb_le; lia).
Qed.

Lemma page_active (i c : Z) :
  drawnActive (createPageNumberObject i (i =? c))
  <-> number (createPageNumberObject i (i =? c)) = Some c.
Proof.
  unfold drawnActive. cbn.
  destruct (Z.eqb_spec i c); split; intros H; try congruence; discriminate.
Qed.

Lemma dots_active (s : string) (c : Z) :
  drawnActive (mkPageNumber None s None None)
  <-> number (mkPageNumber None s None None) = Some c.
Proof. unfold drawnActive. cbn. split; discriminate. Qed.

Ltac bar_facts :=
  unfold pagesNamed;
  cbn [omap list_omap number createPageNumberObject head last app length
       gapsMarked In];
  repeat split;
  repeat first
    [ lia
    | reflexivity
    | apply page_active
    | apply dots_active
    | apply Forall_nil; exact I
    | apply Forall_cons; split
    | eexists; split; [reflexivity | lia]
    | solve [eexists; reflexivity]
    | (left; reflexivity)
    | (right; left; reflexivity)
    | (right; right; left; reflexivity)
    | (right; right; right; left; reflexivity)
    | f_equal; lia ].

(** X20: The page bar: nothing for a single page. Otherwise its buttons name
    pages in rising order from the first page to the last, the current page
    among them, and it is the one button drawn active; buttons next to each
    other name consecutive pages, and an ellipsis stands exactly where
    pages are left out; up to five pages are all named, and the bar never
    has more than seven entries. *)
Theorem page_bar_marks_the_gaps (st : State) :
  1 <= currentPage st <= totalPages st ->
  let bar := evalState calculatePageNumbers st in
  (totalPages st = 1 -> bar = [])
  /\ (1 < totalPages st ->
      head (pagesNamed bar) = Some 1
      /\ last (pagesNamed bar) = Some (totalPages st)
      /\ In (currentPage st) (pagesNamed bar)
      /\ StronglySorted Z.lt (pagesNamed bar)
      /\ gapsMarked bar
      /\ Forall (fun p => drawnActive p <-> number p = Some (currentPage st))
           bar
      /\ (length bar <= 7)%nat
      /\ (totalPages st <= 5 -> pagesNamed bar = fromTo 1 (totalPages st))).
Proof.
  intros Hc. cbv zeta.
  unfold calculatePageNumbers, evalState, bind, gets. cbn [fst snd].
  split.
  { intros ->. reflexivity. }
  intros Ht.
  replace (totalPages st <=? 1) with false by (symmetry; apply Z.leb_gt; lia).
  destruct (Z.leb_spec (totalPages st) 5) as [H5|H5].
  - pose proof (simple_bar st H5) as Hbar. unfold evalState in Hbar.
    rewrite Hbar. clear Hbar.
    set (c := currentPage st) in *. set (t := totalPages st) in *.
    clearbody c t.
    assert (Hcases : t = 2 \/ t = 3 \/ t = 4 \/ t = 5) by lia.
    destruct Hcases as [-> | [-> | [-> | ->]]]; range; cbn [map];
      bar_facts; repeat constructor; lia.
  - pose proof (smart_bar st ltac:(lia) Hc) as Hbar. cbv zeta in Hbar.
    unfold evalState in Hbar. rewrite Hbar. clear Hbar.
    set (c := currentPage st) in *. set (t := totalPages st) in *.
    clearbody c t.
    destruct (Z.leb_spec c 2) as [H2|H2];
      [|destruct (Z.leb_spec (t - 1) c) as [He|He];
        [|destruct (Z.ltb_spec 3 c), (Z.ltb_spec c (t - 2))]];
      bar_facts; repeat constructor; lia.
Qed.

Lemma page_bar_marks_the_gaps_witness :
  let st := set_totalPages 9 (set_currentPage 5 exampleList) in
  1 <= currentPage st <= totalPages st
  /\ map number (evalState calculatePageNumbers st)
     = [Some 1; None; Some 4; Some 5; Some 6; None; Some 9]
  /\ gapsMarked (evalState calculatePageNumbers st)
  /\ Forall (fun p => drawnActive p <-> number p = Some 5)
       (evalState calculatePageNumbers st).
Proof.
  cbv zeta. assert (H : 1 <= 5 <= 9) by lia.
  split; [exact H|]. split; [reflexivity|].
  destruct (page_bar_marks_the_gaps
              (set_totalPages 9 (set_currentPage 5 exampleList)) H)
    as [_ Hbar].
  destruct (Hbar ltac:(reflexivity)) as (_ & _ & _ & _ & Hgaps & Hactive & _).
  split; [exact Hgaps | exact Hactive].
Defined.

Lemma pageRows_run (st : State) (p : Z) :
  enablePagination st = true -> 1 <= p -> 0 < recordsPerPage st ->
  pageRows st p
  = take (Z.to_nat (recordsPerPage st))
      (drop (Z.to_nat ((p - 1) * recordsPerPage st)) (shownRows st)).
Proof.
  intros Hen Hp Hsize. unfold pageRows, evalState.
  rewrite paginatedRows_run. cbn [fst].
  change (enablePagination (set_currentPage p st)) with (enablePagination st).
  rewrite Hen.
  change (shownRows (set_currentPage p st)) with (shownRows st).
  change (recordsPerPage (set_currentPage p st)) with (recordsPerPage st).
  change (currentPage (set_currentPage p st)) with p.
  now apply slice_page.
Qed.

Lemma pages_take {A : Type} (l : list A) (size : nat) (n : nat) :
  concat (map (fun p => take size (drop (p * size) l)) (seq 0 n))
  = take (n * size) l.
Proof.
  induction n as [|n IH]; [reflexivity|].
  rewrite seq_S, map_app, concat_app, IH. cbn [map concat Nat.add].
  rewrite app_nil_r.
  replace (S n * size)%nat with (n * size + size)%nat by lia.
  now rewrite take_take_drop.
Qed.

(** X21: The pages divide the rows: one after the other, the pages from the
    first to the last make up the rows shown, in their order; no page holds
    more rows than the page size, and the current page holds at least one
    row unless there is no row at all. *)
Theorem pages_divide_the_rows (st : State) :
  paginationConsistent st ->
  enablePagination st = true ->
  0 < recordsPerPage st ->
  concat (map (pageRows st) (seqZ 1 (totalPages st))) = shownRows st
  /\ (forall p, 1 <= p ->
        Z.of_nat (length (pageRows st p)) <= recordsPerPage st)
  /\ (shownRows st <> [] -> evalState paginatedRows st <> []).
Proof.
  intros Hcons Hen Hsize. pose proof Hcons as [Htot Hcur].
  rewrite Hen in Htot.
  set (len := Z.of_nat (length (shownRows st))) in *.
  set (size := recordsPerPage st) in *.
  assert (Hceil : len <= ceilDiv len size * size).
  { unfold ceilDiv. pose proof (Z.mul_div_le (- len) size Hsize). nia. }
  assert (Hcover : len <= totalPages st * size) by nia.
  repeat split.
  - unfold seqZ. rewrite <- list_fmap_compose.
    change (fmap ?f ?l) with (map f l).
    rewrite (map_ext_in _
               (fun p => take (Z.to_nat size)
                           (drop (p * Z.to_nat size) (shownRows st)))).
    + rewrite pages_take. apply take_ge. subst len. nia.
    + intros p Hp. apply in_seq in Hp. unfold compose.
      rewrite pageRows_run by (try assumption; lia).
      do 2 f_equal. fold size. nia.
  - intros p Hp. rewrite pageRows_run by assumption.
    rewrite length_take. fold size. lia.
  - intros Hrows.
    pose proof (current_page_starts_inside st Hcons Hen Hsize Hrows) as Hin.
    unfold evalState. rewrite paginatedRows_run, Hen. cbn [fst].
    rewrite slice_page by (try assumption; lia).
    intros E. apply (f_equal (@length Row)) in E.
    rewrite length_take, length_drop in E. cbn [length] in E.
    fold size len in Hin. subst len. nia.
Qed.

Lemma pages_divide_the_rows_witness :
  let st := execState (applyFilter exampleHost) exampleList in
  paginationConsistent st
  /\ totalPages st = 2
  /\ concat (map (pageRows st) (seqZ 1 (totalPages st))) = shownRows st
  /\ (forall p, 1 <= p ->
        Z.of_nat (length (pageRows st p)) <= recordsPerPage st)
  /\ (shownRows st <> [] -> evalState paginatedRows st <> []).
Proof.
  cbv zeta.
  assert (H : paginationConsistent
                (execState (applyFilter exampleHost) exampleList))
    by apply applyFilter_consistent.
  split; [exact H|]. split; [reflexivity|].
  apply (pages_divide_the_rows
           (execState (applyFilter exampleHost) exampleList) H);
    reflexivity.
Defined.

Lemma currentPage_eta (st : State) : set_currentPage (currentPage st) st = st.
Proof. destruct st; reflexivity. Qed.

(** X22: The buttons of the page bar agree with the handlers: under consistent
    pagination, the previous button is disabled exactly on the first page
    and the next button exactly on the last; a disabled button's handler
    changes nothing, and an enabled next button leads to the following
    page, from which previous leads back to the same state. *)
Theorem navigation_buttons_match_handlers (st : State) :
  paginationConsistent st ->
  (evalState isPreviousDisabled st = true <-> currentPage st = 1)
  /\ (evalState isNextDisabled st = true <-> currentPage st = totalPages st)
  /\ (evalState isPreviousDisabled st = true ->
      execState handlePreviousPage st = st)
  /\ (evalState isNextDisabled st = true -> execState handleNextPage st = st)
  /\ (evalState isNextDisabled st = false ->
      currentPage (execState handleNextPage st) = currentPage st + 1
      /\ execState handlePreviousPage (execState handleNextPage st) = st).
Proof.
  intros [_ Hcur].
  unfold isPreviousDisabled, isNextDisabled, handlePreviousPage, handleNextPage,
    evalState, execState, bind, gets, ret, assign, modify.
  cbn [fst snd].
  repeat split.
  - intros H. apply Z.leb_le in H. lia.
  - intros ->. reflexivity.
  - intros H. apply Z.leb_le in H. lia.
  - intros ->. apply Z.leb_refl.
  - intros H. apply Z.leb_le in H.
    now replace (1 <? currentPage st) with false
      by (symmetry; apply Z.ltb_ge; lia).
  - intros H. apply Z.leb_le in H.
    now replace (currentPage st <? totalPages st) with false
      by (symmetry; apply Z.ltb_ge; lia).
  - apply Z.leb_gt in H.
    now replace (currentPage st <? totalPages st) with true
      by (symmetry; apply Z.ltb_lt; lia).
  - apply Z.leb_gt in H.
    replace (currentPage st <? totalPages st) with true
      by (symmetry; apply Z.ltb_lt; lia).
    cbn [snd currentPage set_currentPage].
    replace (1 <? currentPage st + 1) with true
      by (symmetry; apply Z.ltb_lt; lia).
    cbn [snd]. replace (currentPage st + 1 - 1) with (currentPage st) by lia.
    destruct st; reflexivity.
Qed.

Lemma navigation_buttons_match_handlers_witness :
  let st := execState (applyFilter exampleHost) exampleList in
  paginationConsistent st
  /\ evalState isPreviousDisabled st = true
  /\ evalState isNextDisabled st = false
  /\ currentPage (execState handleNextPage st) = 2
  /\ execState handlePreviousPage (execState handleNextPage st) = st.
Proof.
  cbv zeta.
  assert (H : paginationConsistent
                (execState (applyFilter exampleHost) exampleList))
    by apply applyFilter_consistent.
  split; [exact H|]. split; [reflexivity|]. split; [reflexivity|].
  destruct (navigation_buttons_match_handlers
              (execState (applyFilter exampleHost) exampleList) H)
    as (_ & _ & _ & _ & Hnext).
  destruct (Hnext eq_refl) as [_ Hback].
  split; [reflexivity | exact Hback].
Defined.

Lemma keeps_newArray {A} (f : State -> A) (l : list Row) :
  (forall v s, f (set_arrays v s) = f s) -> keeps f (newArray l).
Proof. intros H s. apply H. Qed.

(** Frame conditions of [applyFilter], through its helpers. *)
Ltac list_frame :=
  unfold applyFilter, filterByObjectType, refreshVisibleCells, sortFiltered,
    sortRows, markActiveFilter, updatePagination, visibleColumns,
    inferObjectType;
  repeat first
    [ apply keeps_newArray; intros; reflexivity
    | keeps_step ].

Lemma applyFilter_sort_settings (h : Host) (st : State) :
  sortColumn (execState (applyFilter h) st) = sortColumn st
  /\ sortDirection (execState (applyFilter h) st) = sortDirection st
  /\ columns (execState (applyFilter h) st) = columns st
  /\ enableColumnSorting (execState (applyFilter h) st)
     = enableColumnSorting st.
Proof.
  assert (H1 : keeps sortColumn (applyFilter h)) by list_frame.
  assert (H2 : keeps sortDirection (applyFilter h)) by list_frame.
  assert (H3 : keeps columns (applyFilter h)) by list_frame.
  assert (H4 : keeps enableColumnSorting (applyFilter h)) by list_frame.
  auto.
Qed.

Lemma applyFilter_first_page (h : Host) (st : State) :
  currentPage (execState (applyFilter h) st) = 1.
Proof.
  destruct (applyFilter_ends_with_updatePagination h st) as [st1 ->].
  rewrite updatePagination_run.
  change (enablePagination (set_currentPage 1 st1)) with (enablePagination st1).
  destruct (enablePagination st1); [|reflexivity]. cbv zeta.
  change (currentPage (set_currentPage 1 st1)) with 1.
  match goal with
  | |- context [Z.max 1 ?x <? 1] =>
      replace (Z.max 1 x <? 1) with false by (symmetry; apply Z.ltb_ge; lia)
  end.
  reflexivity.
Qed.


Lemma updateColumnSortState_run (st : State) :
  sortColumn (execState updateColumnSortState st) = sortColumn st
  /\ sortDirection (execState updateColumnSortState st) = sortDirection st
  /\ enableColumnSorting (execState updateColumnSortState st)
     = enableColumnSorting st
  /\ map colKey (columns (execState updateColumnSortState st))
     = map colKey (columns st)
  /\ Forall (fun col =>
               colSortDirection col
               = if match sortColumn st with
                    | Some k => String.eqb (colKey col) k
                    | None => false
                    end
                 then Some (sortDirection st) else None)
       (columns (execState updateColumnSortState st)).
Proof.
  unfold updateColumnSortState, execState, bind, gets, assign, modify.
  cbn [fst snd sortColumn sortDirection enableColumnSorting columns
       set_columns].
  repeat split.
  - rewrite map_map. apply map_ext. intros col.
    destruct (sortColumn st) as [k|];
      [destruct (String.eqb (colKey col) k)|]; reflexivity.
  - apply List.Forall_forall. intros col Hin.
    apply in_map_iff in Hin as (col0 & <- & _).
    destruct (sortColumn st) as [k|];
      [destruct (String.eqb (colKey col0) k) eqn:E|];
      cbn [colKey colSortDirection]; rewrite ?E; reflexivity.
Qed.

(** X23: A click on a column header sorts by that column: ascending when the
    list was sorted by another column or by none, and in the other
    direction when it was sorted by this one, so that a second click turns
    the order round. The list goes back to its first page, the columns stay
    the same, and the clicked column alone carries the sort direction. *)
Theorem column_click_sets_the_sort (h : Host) (key : string) (st : State) :
  enableColumnSorting st = true ->
  nonEmpty key = true ->
  let st' := execState (handleColumnSort h (Some key)) st in
  let st'' := execState (handleColumnSort h (Some key)) st' in
  sortColumn st' = Some key
  /\ sortDirection st'
     = (if match sortColumn st with
           | Some k => String.eqb k key
           | None => false
           end
        then if String.eqb (sortDirection st) SORT_ASC then SORT_DESC
             else SORT_ASC
        else SORT_ASC)
  /\ sortDirection st''
     = (if String.eqb (sortDirection st') SORT_ASC then SORT_DESC else SORT_ASC)
  /\ currentPage st' = 1
  /\ map colKey (columns st') = map colKey (columns st)
  /\ Forall (fun col =>
               colSortDirection col
               = if String.eqb (colKey col) key then Some (sortDirection st')
                 else None)
       (columns st').
Proof.
  intros Hen Hkey. cbv zeta.
  assert (Hclick : forall s, enableColumnSorting s = true ->
            let s1 :=
              if match sortColumn s with
                 | Some k => String.eqb k key
                 | None => false
                 end
              then
                set_sortDirection
                  (if String.eqb (sortDirection s) SORT_ASC then SORT_DESC
                   else SORT_ASC) s
              else set_sortDirection SORT_ASC (set_sortColumn (Some key) s) in
            execState (handleColumnSort h (Some key)) s
            = execState (applyFilter h) (execState updateColumnSortState s1)).
  { intros s Hs. cbv zeta. unfold handleColumnSort.
    unfold execState at 1, bind at 1, gets at 1. cbn [fst snd]. rewrite Hs.
    cbn [negb isSet]. rewrite Hkey. cbn [negb default from_option Datatypes.id].
    unfold bind at 1, gets at 1. cbn [fst snd].
    unfold bind at 1, gets at 1. cbn [fst snd].
    destruct (sortColumn s) as [k|]; [destruct (String.eqb k key)|];
      reflexivity. }
  assert (Hfirst : forall s, enableColumnSorting s = true ->
            let s' := execState (handleColumnSort h (Some key)) s in
            sortColumn s' = Some key
            /\ sortDirection s'
               = (if match sortColumn s with
                     | Some k => String.eqb k key
                     | None => false
                     end
                  then if String.eqb (sortDirection s) SORT_ASC then SORT_DESC
                       else SORT_ASC
                  else SORT_ASC)
            /\ enableColumnSorting s' = true
            /\ map colKey (columns s') = map colKey (columns s)
            /\ Forall (fun col =>
                         colSortDirection col
                         = if String.eqb (colKey col) key
                           then Some (sortDirection s') else None)
                 (columns s')).
  { intros s Hs. cbv zeta. rewrite (Hclick s Hs). cbv zeta.
    match goal with
    | |- context [execState updateColumnSortState ?x] => set (s1 := x)
    end.
    destruct (applyFilter_sort_settings h (execState updateColumnSortState s1))
      as (-> & -> & -> & ->).
    destruct (updateColumnSortState_run s1) as (-> & -> & -> & -> & Hcols).
    assert (Hcol : sortColumn s1 = Some key).
    { subst s1. destruct (sortColumn s) as [k|] eqn:E; [|reflexivity].
      destruct (String.eqb_spec k key) as [->|]; [exact E | reflexivity]. }
    assert (Hkeys : columns s1 = columns s).
    { subst s1.
      destruct (sortColumn s) as [k|]; [destruct (String.eqb k key)|];
        reflexivity. }
    assert (Hen1 : enableColumnSorting s1 = enableColumnSorting s).
    { subst s1.
      destruct (sortColumn s) as [k|]; [destruct (String.eqb k key)|];
        reflexivity. }
    rewrite Hcol in Hcols. rewrite Hcol, Hkeys, Hen1, Hs.
    repeat split; try assumption.
    subst s1.
    destruct (sortColumn s) as [k|]; [destruct (String.eqb k key)|];
      reflexivity. }
  destruct (Hfirst st Hen) as (Hc & Hd & Hen' & Hk & Hf). cbv zeta in *.
  destruct (Hfirst _ Hen') as (_ & Hd' & _). cbv zeta in Hd'.
  rewrite Hc, String.eqb_refl in Hd'.
  repeat split; try assumption.
  rewrite (Hclick st Hen). apply applyFilter_first_page.
Qed.

Lemma column_click_sets_the_sort_witness :
  let st' := execState (handleColumnSort exampleHost (Some "amount")) exampleList in
  let st'' := execState (handleColumnSort exampleHost (Some "amount")) st' in
  enableColumnSorting exampleList = true
  /\ sortDirection exampleList = SORT_DESC
  /\ sortDirection st' = SORT_ASC
  /\ sortDirection st'' = SORT_DESC
  /\ currentPage st' = 1
  /\ Forall (fun col =>
               colSortDirection col
               = if String.eqb (colKey col) "amount" then Some (sortDirection st')
                 else None)
       (columns st').
Proof.
  cbv zeta. split; [reflexivity|]. split; [reflexivity|].
  destruct (column_click_sets_the_sort exampleHost "amount" exampleList
              eq_refl eq_refl) as (_ & Hd & Hd' & Hp & _ & Hf).
  cbv zeta in *. split; [exact Hd|]. split; [rewrite Hd', Hd; reflexivity|].
  split; [exact Hp | exact Hf].
Defined.

Lemma findFirst_holds {A : Type} (p : A -> bool) (l : list A) (x : A) :
  findFirst p l = Some x -> p x = true.
Proof.
  induction l as [|y l IH]; [discriminate|]. cbn [findFirst].
  destruct (p y) eqn:E; [|exact IH]. now intros [= <-].
Qed.

Lemma findCellForColumn_key (row : Row) (column : Column) :
  key (findCellForColumn row column) = colKey column.
Proof.
  unfold findCellForColumn.
  destruct (findFirst _ (cells row)) as [cell|] eqn:E; [|reflexivity].
  apply findFirst_holds in E. now apply String.eqb_eq in E.
Qed.

Lemma visibleColumns_ext (s s' : State) :
  activeFilter s' = activeFilter s ->
  columns s' = columns s ->
  arrayAt s' (rows s') = arrayAt s (rows s) ->
  componentConfig s' = componentConfig s ->
  evalState visibleColumns s' = evalState visibleColumns s.
Proof.
  intros Ha Hc Hr Hg.
  unfold visibleColumns, inferObjectType, evalState, bind, gets, ret.
  cbn [fst snd]. cbv beta. rewrite Ha, Hc.
  destruct (negb (isSet (activeFilter s))); [|reflexivity].
  cbn [fst snd]. rewrite Hr.
  destruct (unique _) as [|t [|? ?]]; cbv beta; rewrite ?Hg;
    try reflexivity;
    destruct (componentConfig s) as [[[maps|]]|]; try reflexivity;
    try match goal with
    | |- context [unique ?x] => destruct (unique x) as [|? [|? ?]]
    end; try reflexivity;
    match goal with
    | |- context [nonEmpty ?x] => destruct (nonEmpty x)
    end; reflexivity.
Qed.

Lemma fold_insert_lookup {V : Type} (f : Row -> V) (l : list Row)
    (m : gmap nat V) (row : Row) :
  (forall r, In r l -> ref r = ref row -> r = row) ->
  In row l \/ m !! ref row = Some (f row) ->
  fold_left (fun m r => <[ref r := f r]> m) l m !! ref row = Some (f row).
Proof.
  revert m. induction l as [|x l IH]; intros m Hd Hin; cbn [fold_left].
  - now destruct Hin as [[]|].
  - apply IH; [intros r Hr; apply Hd; now right|].
    destruct Hin as [[->|Hin]|Hm].
    + right. apply lookup_insert_eq.
    + now left.
    + right. destruct (decide (ref x = ref row)) as [E|E].
      * rewrite (Hd x (or_introl eq_refl) E). apply lookup_insert_eq.
      * now rewrite lookup_insert_ne.
Qed.

Lemma forEach_cells (l : list Row) (st : State) (V : list Column) :
  (forall vc, evalState visibleColumns (set_visibleCells vc st) = V) ->
  visibleCells
    (execState
       (forEach l (fun row =>
          let! visible := visibleColumns in
          modify (fun st =>
                    set_visibleCells
                      (<[ref row := map (findCellForColumn row) visible]>
                         (visibleCells st)) st))) st)
  = fold_left (fun m r => <[ref r := map (findCellForColumn r) V]> m) l
      (visibleCells st).
Proof.
  revert st. induction l as [|row l IH]; intros st HV; [reflexivity|].
  cbn [forEach fold_left]. rewrite !exec_bind.
  rewrite (visibleColumns_readOnly st).
  assert (HVst : evalState visibleColumns st = V).
  { rewrite <- (HV (visibleCells st)). now rewrite <- state_eta. }
  rewrite HVst. unfold modify at 2. unfold execState at 2. cbn [snd].
  rewrite IH; [reflexivity|].
  intros vc. rewrite <- (HV vc). apply visibleColumns_ext; reflexivity.
Qed.


(** X24: After [applyFilter], every row shown has its cells ready, one for each
    visible column and in the order of the columns: the cell of the row
    with the column's key, or an empty cell when the row has none. *)
Theorem shown_rows_have_a_cell_per_column (h : Host) (st : State) :
  validReferences st ->
  distinctRows (matchingRows st) ->
  let st' := execState (applyFilter h) st in
  Forall (fun row =>
            cellsShown st' row
            = map (findCellForColumn row) (evalState visibleColumns st')
            /\ map key (cellsShown st' row)
               = map colKey (evalState visibleColumns st'))
    (shownRows st').
Proof.
  intros Hvalid Hdistinct. cbv zeta.
  destruct (applyFilter_shown h st Hvalid) as (Hshown & Hrows & Harr).
  destruct (filterByObjectType_run st Hvalid)
    as (Hshown1 & Hrows1 & Harr1 & _ & _).
  cbv zeta in *.
  set (st1 := execState filterByObjectType st) in *.
  set (V := evalState visibleColumns st1).
  assert (HV : evalState visibleColumns (execState (applyFilter h) st) = V).
  { assert (Ka : keeps activeFilter (applyFilter h)) by list_frame.
    assert (Kc : keeps columns (applyFilter h)) by list_frame.
    assert (Kg : keeps componentConfig (applyFilter h)) by list_frame.
    assert (Ka1 : keeps activeFilter filterByObjectType) by list_frame.
    assert (Kc1 : keeps columns filterByObjectType) by list_frame.
    assert (Kg1 : keeps componentConfig filterByObjectType) by list_frame.
    subst V. apply visibleColumns_ext.
    - now rewrite Ka, <- (Ka1 st).
    - now rewrite Kc, <- (Kc1 st).
    - now rewrite Hrows, Harr, Hrows1, Harr1.
    - now rewrite Kg, <- (Kg1 st). }
  assert (Hcells : visibleCells (execState (applyFilter h) st)
                   = fold_left
                       (fun m r => <[ref r := map (findCellForColumn r) V]> m)
                       (matchingRows st) (visibleCells st1)).
  { unfold applyFilter. rewrite exec_bind. fold st1. rewrite exec_bind.
    assert (K : keeps visibleCells
                  (sortFiltered h;; markActiveFilter;;
                   assign set_currentPage 1;; updatePagination))
      by list_frame.
    rewrite K. unfold refreshVisibleCells. rewrite exec_bind.
    change (evalState (gets (fun st => arrayAt st (filteredRows st))) st1)
      with (shownRows st1).
    change (execState (gets (fun st => arrayAt st (filteredRows st))) st1)
      with st1.
    rewrite Hshown1. apply forEach_cells.
    intros vc. apply visibleColumns_ext; reflexivity. }
  apply List.Forall_forall. intros row Hin.
  assert (Hmatch : In row (matchingRows st)).
  { rewrite Hshown in Hin. unfold sortedFor in Hin.
    destruct (activeSort st) as [[[k d] ft]|]; [|exact Hin].
    eapply Permutation_in; [|exact Hin].
    apply SortFacts.sortArray_perm. }
  assert (Hrow : cellsShown (execState (applyFilter h) st) row
                 = map (findCellForColumn row) V).
  { unfold cellsShown. rewrite Hcells.
    rewrite (fold_insert_lookup (fun r => map (findCellForColumn r) V));
      [reflexivity | | now left].
    intros r Hr E. now apply Hdistinct. }
  rewrite HV, Hrow. split; [reflexivity|].
  rewrite map_map. apply map_ext. intros col. apply findCellForColumn_key.
Qed.

Lemma shown_rows_have_a_cell_per_column_witness :
  let st' := execState (applyFilter exampleHost) exampleList in
  validReferences exampleList
  /\ map ref (shownRows st') = [0; 4; 2; 3]%nat
  /\ Forall (fun row =>
               cellsShown st' row
               = map (findCellForColumn row) (evalState visibleColumns st')
               /\ map key (cellsShown st' row)
                  = map colKey (evalState visibleColumns st'))
       (shownRows st').
Proof.
  cbv zeta.
  assert (Hvalid : validReferences exampleList)
    by (split; eexists; reflexivity).
  split; [exact Hvalid|]. split; [reflexivity|].
  apply (shown_rows_have_a_cell_per_column exampleHost exampleList Hvalid).
  intros r r' Hr Hr' E.
  repeat (destruct Hr as [<- | Hr]; [|]); try contradiction;
    repeat (destruct Hr' as [<- | Hr']; [|]); try contradiction;
    first [reflexivity | discriminate E].
Defined.

Lemma applyFilter_buttons (h : Host) (st : State) :
  activeFilter (execState (applyFilter h) st) = activeFilter st
  /\ filters (execState (applyFilter h) st)
     = map (fun f =>
              let isActive :=
                match activeFilter st with
                | Some v => String.eqb (filterValue f) v
                | None => false
                end in
              mkFilter (filterValue f) isActive
                (if isActive then FILTER_ACTIVE else FILTER_INACTIVE))
         (filters st).
Proof.
  assert (Ka : keeps activeFilter (applyFilter h)) by list_frame.
  split; [apply Ka|].
  unfold applyFilter. repeat (rewrite exec_bind; cbv beta).
  assert (K5 : keeps filters updatePagination) by list_frame.
  assert (K4 : keeps filters (assign set_currentPage 1)) by list_frame.
  assert (K1 : keeps filters (sortFiltered h)) by list_frame.
  assert (K2 : keeps filters refreshVisibleCells) by list_frame.
  assert (K3 : keeps filters filterByObjectType) by list_frame.
  assert (A1 : keeps activeFilter (sortFiltered h)) by list_frame.
  assert (A2 : keeps activeFilter refreshVisibleCells) by list_frame.
  assert (A3 : keeps activeFilter filterByObjectType) by list_frame.
  rewrite K5, K4.
  match goal with
  | |- filters (execState markActiveFilter ?s) = _ =>
      change (filters (execState markActiveFilter s))
        with (map (fun f =>
                     let isActive :=
                       match activeFilter s with
                       | Some v => String.eqb (filterValue f) v
                       | None => false
                       end in
                     mkFilter (filterValue f) isActive
                       (if isActive then FILTER_ACTIVE else FILTER_INACTIVE))
                (filters s))
  end.
  now rewrite A1, K1, A2, K2, A3, K3.
Qed.


Lemma filter_or_all (v : string) (l : list Row) :
  (if String.eqb v "all" then l
   else List.filter (fun row => String.eqb (objectType row) v) l)
  = List.filter
      (fun row => String.eqb v "all" || String.eqb (objectType row) v) l.
Proof.
  destruct (String.eqb v "all"); cbn [orb]; [|reflexivity].
  induction l as [|x l IH]; [reflexivity|]. cbn [List.filter]. now f_equal.
Qed.

(** X25: A click on a filter button makes its value the active filter: the list
    shows the loaded rows of that object type (all rows for the value
    "all"), in the configured sort order, the buttons stay the same and
    exactly those with the clicked value are drawn active, and the list goes
    back to its first page. *)
Theorem filter_click_selects_the_rows (h : Host) (v : string) (st : State) :
  validReferences st ->
  nonEmpty v = true ->
  let st' := execState (handleFilterClick h (Some v)) st in
  activeFilter st' = Some v
  /\ Permutation (shownRows st')
       (List.filter
          (fun row => String.eqb v "all" || String.eqb (objectType row) v)
          (arrayAt st (rows st)))
  /\ map filterValue (filters st') = map filterValue (filters st)
  /\ Forall (fun f =>
               active f = String.eqb (filterValue f) v
               /\ class f
                  = if active f then FILTER_ACTIVE else FILTER_INACTIVE)
       (filters st')
  /\ currentPage st' = 1.
Proof.
  intros Hvalid Hv. cbv zeta.
  assert (Hrun : execState (handleFilterClick h (Some v)) st
                 = execState (applyFilter h) (set_activeFilter (Some v) st)).
  { unfold handleFilterClick. cbn [isSet]. rewrite Hv.
    now rewrite exec_bind. }
  rewrite Hrun. set (st0 := set_activeFilter (Some v) st).
  assert (Hvalid0 : validReferences st0) by exact Hvalid.
  destruct (applyFilter_shown h st0 Hvalid0) as (Hshown & _ & _).
  destruct (applyFilter_buttons h st0) as [Ha Hf].
  cbv zeta in *. repeat split.
  - exact Ha.
  - rewrite Hshown, <- filter_or_all.
    assert (Hm : matchingRows st0
                 = if String.eqb v "all" then arrayAt st (rows st)
                   else List.filter
                          (fun row => String.eqb (objectType row) v)
                          (arrayAt st (rows st))).
    { unfold matchingRows. subst st0.
      cbn [activeFilter set_activeFilter isSet default from_option
           Datatypes.id]. rewrite Hv.
      now destruct (String.eqb v "all"). }
    rewrite <- Hm. unfold sortedFor.
    destruct (activeSort st0) as [[[k d] ft]|]; [|reflexivity].
    apply SortFacts.sortArray_perm.
  - rewrite Hf, map_map. reflexivity.
  - rewrite Hf. apply List.Forall_forall. intros f Hin.
    apply in_map_iff in Hin as (f0 & <- & _). now split.
  - apply applyFilter_first_page.
Qed.

Lemma filter_click_selects_the_rows_witness :
  let st' := execState (handleFilterClick exampleHost (Some "Case")) exampleList in
  validReferences exampleList
  /\ activeFilter st' = Some "Case"
  /\ map ref (shownRows st') = [1%nat]
  /\ Permutation (shownRows st')
       (List.filter
          (fun row => String.eqb "Case" "all"
                      || String.eqb (objectType row) "Case")
          (arrayAt exampleList (rows exampleList)))
  /\ currentPage st' = 1.
Proof.
  cbv zeta.
  assert (Hvalid : validReferences exampleList)
    by (split; eexists; reflexivity).
  destruct (filter_click_selects_the_rows exampleHost "Case" exampleList
              Hvalid eq_refl) as (Ha & Hp & _ & _ & Hc).
  cbv zeta in *.
  split; [exact Hvalid|]. split; [exact Ha|]. split; [reflexivity|].
  split; [exact Hp | exact Hc].
Defined.

Lemma findFirst_In {A : Type} (p : A -> bool) (l : list A) (x : A) :
  findFirst p l = Some x -> In x l.
Proof.
  induction l as [|y l IH]; [discriminate|]. cbn [findFirst].
  destruct (p y); [intros [= <-]; now left | intros H; right; now apply IH].
Qed.

Lemma iconFor_In (iconConfig : IconConfig) (k icon : string) :
  iconFor iconConfig k = Some icon -> In (k, Some icon) iconConfig.
Proof.
  unfold iconFor.
  destruct (findFirst _ iconConfig) as [[k' v]|] eqn:E; [|discriminate].
  cbn [snd]. intros ->.
  pose proof (findFirst_holds _ _ _ E) as Hk. cbn [fst] in Hk.
  apply String.eqb_eq in Hk. subst k'. now apply findFirst_In in E.
Qed.

Lemma isIconName_not_blank (name : option string) :
  isIconName name = true ->
  exists icon, name = Some icon /\ trim icon <> "".
Proof.
  destruct name as [s|]; [|discriminate]. cbn [isIconName].
  intros H. apply andb_prop in H as [_ H]. exists s. split; [reflexivity|].
  intros E. rewrite E in H. discriminate.
Qed.

(** X26: A row icon is never blank and always comes from the configuration: the
    icon that [getRowIcon] returns is the icon configured for a key that
    equals the object type up to case, or for the key "*" or "default", and
    it holds more than white space. Without a configuration or an object
    type there is no icon, and an icon configured under the very object
    type is the one returned. *)
Theorem row_icon_is_configured_and_not_blank (iconConfig : IconConfig)
    (objectType : string) :
  (forall icon,
     getRowIcon (Some iconConfig) (Some objectType) = Some icon ->
     trim icon <> ""
     /\ exists k,
          In (k, Some icon) iconConfig
          /\ (toLowerCase k = toLowerCase objectType
              \/ k = "*" \/ k = "default"))
  /\ (forall icon,
        nonEmpty objectType = true ->
        iconFor iconConfig objectType = Some icon -> trim icon <> "" ->
        getRowIcon (Some iconConfig) (Some objectType) = Some icon)
  /\ getRowIcon None (Some objectType) = None
  /\ getRowIcon (Some iconConfig) None = None
  /\ getRowIcon (Some iconConfig) (Some "") = None.
Proof.
  repeat split; try reflexivity.
  - revert H. unfold getRowIcon. cbn [isSet default from_option Datatypes.id].
    destruct (nonEmpty objectType); [|intros D; cbv iota in D; discriminate D]. cbn [negb].
    destruct (isIconName (iconFor iconConfig objectType)) eqn:E1.
    { intros H. apply isIconName_not_blank in E1 as (i & Ei & Hi).
      rewrite Ei in H. now injection H as <-. }
    destruct (findFirst _ iconConfig) as [[k v]|] eqn:E2.
    { cbn [snd]. intros ->.
      apply findFirst_holds in E2. cbn [fst snd] in E2.
      apply andb_prop in E2 as [_ E2].
      apply isIconName_not_blank in E2 as (i & Ei & Hi).
      now injection Ei as <-. }
    match goal with
    | |- context [if isIconName ?x then _ else _] =>
        destruct (isIconName x) eqn:E3
    end; [|intros D; discriminate D].
    intros H. apply isIconName_not_blank in E3 as (i & Ei & Hi).
    rewrite Ei in H. now injection H as <-.
  - revert H. unfold getRowIcon. cbn [isSet default from_option Datatypes.id].
    destruct (nonEmpty objectType); [|intros D; cbv iota in D; discriminate D]. cbn [negb].
    destruct (isIconName (iconFor iconConfig objectType)) eqn:E1.
    { intros H. exists objectType. split; [now apply iconFor_In | now left]. }
    destruct (findFirst _ iconConfig) as [[k v]|] eqn:E2.
    { cbn [snd]. intros ->. exists k. split.
      - now apply findFirst_In in E2.
      - apply findFirst_holds in E2. cbn [fst snd] in E2.
        apply andb_prop in E2 as [E2 _]. apply String.eqb_eq in E2. now left. }
    match goal with
    | |- context [if isIconName ?x then _ else _] =>
        destruct (isIconName x) eqn:E3
    end; [|intros D; discriminate D].
    destruct (isSet (iconFor iconConfig "*")).
    + intros H. exists "*". split; [now apply iconFor_In | auto].
    + intros H. exists "default". split; [now apply iconFor_In | auto].
  - intros i Ht Hi Hb. unfold getRowIcon.
    cbn [isSet default from_option Datatypes.id]. rewrite Ht. cbn [negb].
    rewrite Hi. cbn [isIconName].
    assert (Hn : nonEmpty i = true).
    { destruct i; [now contradiction Hb | reflexivity]. }
    rewrite Hn.
    destruct (trim i) eqn:E; [now contradiction Hb | reflexivity].
Qed.

End ListViewFacts.

(** ** The component group: components and errors *)

Module GroupContentFacts.
Import Js ComponentGroup.
Local Open Scope string_scope.
Local Open Scope list_scope.
Local Open Scope Z_scope.

(** X27: The group renders the configured components that have a type, in the
    configured order and each once; a component whose type is blank or
    missing is never rendered. Of the flags [isTile] and [isList] at most
    one is set, by the exact type "Tile" or "List". Unless the group is
    loading or failed, [hasComponents] tells whether anything is
    rendered. *)
Theorem components_have_a_type {A : Type} (st : Loaded A) :
  let configured :=
    match groupComponents st with
    | Some (Some comps) => comps
    | _ => []
    end in
  map component (components st) = List.filter hasType configured
  /\ Forall (fun c =>
               (exists t, type (component c) = Some t /\ trim t <> "")
               /\ isTile c = typeIs (component c) "Tile"
               /\ isList c = typeIs (component c) "List"
               /\ isTile c && isList c = false)
       (components st)
  /\ (isLoading st = false -> isError (error st) = false ->
      hasComponents st = existsb hasType configured).
Proof.
  cbv zeta. unfold hasComponents, components.
  destruct (groupComponents st) as [[comps|]|];
    try (repeat split; [constructor | now intros -> ->]).
  repeat split.
  - rewrite map_map. apply map_id.
  - apply List.Forall_forall. intros c Hin.
    apply in_map_iff in Hin as (comp & <- & Hin).
    apply List.filter_In in Hin as [_ Ht]. cbn [component isTile isList].
    unfold hasType in Ht. unfold typeIs.
    destruct (type comp) as [t|]; [|discriminate].
    apply andb_prop in Ht as [_ Ht].
    repeat split.
    + exists t. split; [reflexivity|]. intros E. rewrite E in Ht. discriminate.
    + destruct (String.eqb_spec t COMPONENT_TYPE_TILE) as [->|]; reflexivity.
  - intros -> ->. rewrite length_map.
    induction comps as [|c comps IH]; [reflexivity|].
    cbn [List.filter existsb]. destruct (hasType c); [reflexivity | exact IH].
Qed.

(** X28: The message shown for an error is never empty: the message of the
    error's body if it has one, else the error's own message, else the
    error itself when it is a text, and a fixed text otherwise. *)
Theorem error_message_is_never_empty (e : JsError) :
  extractErrorMessage e <> ""
  /\ (forall b m, nonEmpty b = true ->
        extractErrorMessage (ErrorObject (Some b) m) = b)
  /\ (forall m, nonEmpty m = true ->
        extractErrorMessage (ErrorObject None (Some m)) = m)
  /\ (forall t, nonEmpty t = true -> extractErrorMessage (ErrorText t) = t).
Proof.
  assert (Hne : forall s, nonEmpty s = true -> s <> "").
  { intros s H ->. discriminate. }
  repeat split.
  - unfold extractErrorMessage. destruct e as [|t|b m]; cbn [isError negb].
    + discriminate.
    + destruct (nonEmpty t) eqn:E; cbn [negb]; [now apply Hne | discriminate].
    + destruct b as [b|]; cbn [isSet default from_option Datatypes.id].
      * destruct (nonEmpty b) eqn:E; [now apply Hne|].
        destruct m as [m|]; cbn [isSet default from_option Datatypes.id];
          [|discriminate].
        destruct (nonEmpty m) eqn:E'; [now apply Hne | discriminate].
      * destruct m as [m|]; cbn [isSet default from_option Datatypes.id];
          [|discriminate].
        destruct (nonEmpty m) eqn:E'; [now apply Hne | discriminate].
  - intros b m H. unfold extractErrorMessage. cbn. now rewrite H.
  - intros m H. unfold extractErrorMessage. cbn. now rewrite H.
  - intros t H. unfold extractErrorMessage. cbn. now rewrite H.
Qed.

End GroupContentFacts.
